(** * GAT-Website: roster ingestion and Mythic+ synchronisation

    A shallow embedding of the server code of the guild dashboard
    (server/routes.ts, server/storage.ts, server/modules/*.ts and the
    Raider.IO synchroniser) together with the properties its
    specification states about them.

    Conventions of the embedding:
    - database tables are lists of rows in physical order; a [SELECT]
      without [ORDER BY] returns the rows in that order;
    - [gen_random_uuid()] is a counter kept in the database state;
    - a [Date] is the number of milliseconds since the epoch;
    - [undefined] and [null] of a JavaScript value are [None];
      where the code tells them apart the type is nested;
    - [new Date()] is the argument [now] of the function that calls it;
    - an [UPDATE] rewrites its row where the row is in the list, while
      the database may hand it back after the others: the place of a
      row only names it, and the properties in which the first row of
      a name matters assume that names are unique;
    - a statement that the database refuses, as it refuses a value
      that does not fit its column, throws: where the code catches the
      throw, the model has an oracle for it ([Upload.handleUpload],
      [GuildImport.importGuildRoster], [SyncCycle.startRaiderIOSync]);
      elsewhere a function that throws returns nothing, and the model
      describes the calls that return. *)

From Stdlib Require Import ZArith QArith Qround Ascii String Lia.
From stdpp Require Import base option list gmap strings pretty.

Open Scope Z_scope.

(** ** JavaScript and SQL primitives *)

Module JS.

Definition Date := Z.

Definition MS_PER_DAY : Z := 86400000.

(** [Date.UTC(d.getUTCFullYear(), d.getUTCMonth(), d.getUTCDate())] *)
Definition utcMidnight (d : Date) : Z := (d / MS_PER_DAY) * MS_PER_DAY.

(** SQL [DATE(ts)]: the calendar day of a timestamp. *)
Definition sql_DATE (d : Date) : Z := d / MS_PER_DAY.

(** [Math.round]: to the nearest integer, halves towards +infinity. *)
Definition Math_round (x : Q) : Z := Qfloor (x + (1 # 2))%Q.

(** Truthiness of a possibly missing string: [""] is falsy. *)
Definition truthy_str (s : option string) : bool :=
  match s with
  | Some s => negb (String.eqb s "")
  | None => false
  end.

(** Truthiness of a possibly missing number: [0] is falsy. *)
Definition truthy_num (n : option Z) : bool :=
  match n with
  | Some n => negb (n =? 0)
  | None => false
  end.

(** [a || b] on possibly missing strings. *)
Definition or_str (a b : option string) : option string :=
  if truthy_str a then a else b.

(** [n || 0] *)
Definition num_or0 (n : option Z) : Z := default 0 n.

(** [s.split(c)]: the pieces of [s] between the occurrences of [c]. *)
Fixpoint split (c : ascii) (s : string) : list string :=
  match s with
  | EmptyString => [EmptyString]
  | String a s' =>
      if Ascii.eqb a c then EmptyString :: split c s'
      else match split c s' with
           | p :: ps => String a p :: ps
           | [] => [String a EmptyString]
           end
  end.

(** [parts.join(sep)] *)
Fixpoint join (sep : string) (parts : list string) : string :=
  match parts with
  | [] => ""
  | [p] => p
  | p :: ps => p +:+ sep +:+ join sep ps
  end.

(** [s.includes(c)] for a one-character needle. *)
Fixpoint includes (c : ascii) (s : string) : bool :=
  match s with
  | EmptyString => false
  | String a s' => Ascii.eqb a c || includes c s'
  end.

(** [s.replace(/c/g, by)] for a one-character pattern. *)
Fixpoint replaceChar (c : ascii) (by_ : string) (s : string) : string :=
  match s with
  | EmptyString => EmptyString
  | String a s' =>
      if Ascii.eqb a c then by_ +:+ replaceChar c by_ s'
      else String a (replaceChar c by_ s')
  end.

(** [s.replace(/xy/g, by)] for the two-byte pattern [x y]: the UTF-8
    encoding of an accented vowel. *)
Fixpoint replace2 (x y : ascii) (by_ : string) (s : string) : string :=
  match s with
  | EmptyString => EmptyString
  | String a s' =>
      match s' with
      | String b s'' =>
          if Ascii.eqb a x && Ascii.eqb b y
          then by_ +:+ replace2 x y by_ s''
          else String a (replace2 x y by_ s')
      | EmptyString => s
      end
  end.

(** [`${n}`] for an integer. *)
Definition str (n : Z) : string := pretty n.

End JS.

(** ** Rows of the tables (shared/schema.ts) *)

(** Primary keys: UUID strings, of which only the identity matters. *)
Definition Id := nat.
Bind Scope nat_scope with Id.

(** A field left out of an object literal is [undefined]: the fields of
    an update record that a literal does not name are [None]. *)
Definition Upd (A : Type) := option A.
Existing Class Upd.
#[global] Instance Upd_undefined {A} : Upd A := None.

(** [.set({col: v})]: a column the update leaves [undefined] keeps its
    value. *)
Definition set_col {A} (u : Upd A) (old : A) : A := default old u.

(** [x !== undefined] *)
Definition defined {A} (u : Upd A) : bool :=
  match u with
  | Some _ => true
  | None => false
  end.

(** [x ?? d] when [x] may be [undefined] or [null]. *)
Definition nullish {A} (x : Upd (option A)) (d : A) : A :=
  match x with
  | Some (Some v) => v
  | _ => d
  end.

(** [x ?? undefined]: a [null] argument leaves the column out. *)
Definition null_to_undefined {A} (x : option A) : Upd (option A) :=
  match x with
  | Some v => Some (Some v)
  | None => None
  end.

Module Player.

Record t := {
  id : Id;
  name : string;
  realm : string;
  class : string;
  spec : option string;
  race : option string;
  level : option Z;
  itemLevel : option Z;
  mythicScore : option Z;
  guildRank : option string;
  avatarUrl : option string;
  isActive : option bool;
  lastSeen : option JS.Date;
  joinDate : option JS.Date;
  messagesCount : option Z;
  lastMessage : option string;
  lastMessageTime : option JS.Date;
  lastRioSync : option JS.Date;
  rioSyncPriority : option Z;
  totalRunsTracked : option Z;
  mostPlayedDungeon : option string;
  runsInTime : option Z;
  runsOverTime : option Z;
  runsByLevelLow : option Z;
  runsByLevelMid : option Z;
  runsByLevelHigh : option Z;
  runsByLevelElite : option Z;
  highestKeyLevel : option Z;
}.

(** [Partial<InsertPlayer>], with the columns the server writes. *)
Record update := {
  u_class : Upd string;
  u_spec : Upd (option string);
  u_race : Upd (option string);
  u_level : Upd (option Z);
  u_itemLevel : Upd (option Z);
  u_mythicScore : Upd (option Z);
  u_guildRank : Upd (option string);
  u_avatarUrl : Upd (option string);
  u_isActive : Upd (option bool);
  u_lastSeen : Upd (option JS.Date);
  u_messagesCount : Upd (option Z);
  u_lastMessage : Upd (option string);
  u_lastMessageTime : Upd (option JS.Date);
  u_lastRioSync : Upd (option JS.Date);
  u_totalRunsTracked : Upd (option Z);
  u_mostPlayedDungeon : Upd (option string);
  u_runsInTime : Upd (option Z);
  u_runsOverTime : Upd (option Z);
  u_runsByLevelLow : Upd (option Z);
  u_runsByLevelMid : Upd (option Z);
  u_runsByLevelHigh : Upd (option Z);
  u_runsByLevelElite : Upd (option Z);
  u_highestKeyLevel : Upd (option Z);
}.

(** [UPDATE players SET ...] on one row. *)
Definition apply (u : update) (p : t) : t :=
  {| id := id p;
     name := name p;
     realm := realm p;
     class := set_col (u_class u) (class p);
     spec := set_col (u_spec u) (spec p);
     race := set_col (u_race u) (race p);
     level := set_col (u_level u) (level p);
     itemLevel := set_col (u_itemLevel u) (itemLevel p);
     mythicScore := set_col (u_mythicScore u) (mythicScore p);
     guildRank := set_col (u_guildRank u) (guildRank p);
     avatarUrl := set_col (u_avatarUrl u) (avatarUrl p);
     isActive := set_col (u_isActive u) (isActive p);
     lastSeen := set_col (u_lastSeen u) (lastSeen p);
     joinDate := joinDate p;
     messagesCount := set_col (u_messagesCount u) (messagesCount p);
     lastMessage := set_col (u_lastMessage u) (lastMessage p);
     lastMessageTime := set_col (u_lastMessageTime u) (lastMessageTime p);
     lastRioSync := set_col (u_lastRioSync u) (lastRioSync p);
     rioSyncPriority := rioSyncPriority p;
     totalRunsTracked := set_col (u_totalRunsTracked u) (totalRunsTracked p);
     mostPlayedDungeon :=
       set_col (u_mostPlayedDungeon u) (mostPlayedDungeon p);
     runsInTime := set_col (u_runsInTime u) (runsInTime p);
     runsOverTime := set_col (u_runsOverTime u) (runsOverTime p);
     runsByLevelLow := set_col (u_runsByLevelLow u) (runsByLevelLow p);
     runsByLevelMid := set_col (u_runsByLevelMid u) (runsByLevelMid p);
     runsByLevelHigh := set_col (u_runsByLevelHigh u) (runsByLevelHigh p);
     runsByLevelElite :=
       set_col (u_runsByLevelElite u) (runsByLevelElite p);
     highestKeyLevel := set_col (u_highestKeyLevel u) (highestKeyLevel p) |}.

(** The row [INSERT INTO players (name, realm, class)] creates: every
    other column takes its default of the table declaration. *)
Definition defaults (i : Id) (n r c : string) : t :=
  {| id := i; name := n; realm := r; class := c;
     spec := None; race := None;
     level := Some 80; itemLevel := Some 0; mythicScore := Some 0;
     guildRank := Some "Member"; avatarUrl := None;
     isActive := Some true; lastSeen := None; joinDate := None;
     messagesCount := Some 0; lastMessage := None;
     lastMessageTime := None; lastRioSync := None;
     rioSyncPriority := Some 0; totalRunsTracked := Some 0;
     mostPlayedDungeon := None; runsInTime := Some 0;
     runsOverTime := Some 0; runsByLevelLow := Some 0;
     runsByLevelMid := Some 0; runsByLevelHigh := Some 0;
     runsByLevelElite := Some 0; highestKeyLevel := Some 0 |}.

(** [InsertPlayer]: the three mandatory columns and the optional ones. *)
Record insert := {
  i_name : string;
  i_realm : string;
  i_class : string;
  i_cols : update;
}.

Definition keyed (n r : string) (p : t) : bool :=
  String.eqb (name p) n && String.eqb (realm p) r.

End Player.

Module MythicRun.

Record t := {
  id : Id;
  playerId : Id;
  dungeon : string;
  keyLevel : Z;
  completionTime : Z;
  timerPercent : Q;
  score : Z;
  affixes : option (list string);
  timestamp : JS.Date;
  url : option string;
  clearTimeMs : option Z;
  parTimeMs : option Z;
  role : option string;
  spec : option string;
}.

(** [InsertMythicRun] *)
Record insert := {
  i_playerId : Id;
  i_dungeon : string;
  i_keyLevel : Z;
  i_completionTime : Z;
  i_timerPercent : Q;
  i_score : Z;
  i_affixes : Upd (option (list string));
  i_timestamp : JS.Date;
  i_url : Upd (option string);
  i_clearTimeMs : Upd (option Z);
  i_parTimeMs : Upd (option Z);
  i_role : Upd (option string);
  i_spec : Upd (option string);
}.

Definition of_insert (i : Id) (r : insert) : t :=
  {| id := i;
     playerId := i_playerId r;
     dungeon := i_dungeon r;
     keyLevel := i_keyLevel r;
     completionTime := i_completionTime r;
     timerPercent := i_timerPercent r;
     score := i_score r;
     affixes := set_col (i_affixes r) None;
     timestamp := i_timestamp r;
     url := set_col (i_url r) None;
     clearTimeMs := set_col (i_clearTimeMs r) None;
     parTimeMs := set_col (i_parTimeMs r) None;
     role := set_col (i_role r) None;
     spec := set_col (i_spec r) None |}.

End MythicRun.

Module GuildMythicRun.

Record t := {
  id : Id;
  runKey : string;
  dungeon : string;
  mythicLevel : Z;
  completedAt : JS.Date;
  clearTimeMs : option Z;
  parTimeMs : option Z;
  score : option Z;
  keystoneUpgrades : option Z;
  guildPlayerIds : list Id;
  guildPlayerNames : list string;
  totalGuildMembers : Z;
  createdAt : option JS.Date;
}.

(** [InsertGuildMythicRun], as [processGuildRuns] fills it. *)
Record insert := {
  i_runKey : string;
  i_dungeon : string;
  i_mythicLevel : Z;
  i_completedAt : JS.Date;
  i_clearTimeMs : option Z;
  i_parTimeMs : option Z;
  i_score : option Z;
  i_keystoneUpgrades : option Z;
  i_guildPlayerIds : list Id;
  i_guildPlayerNames : list string;
  i_totalGuildMembers : Z;
}.

(** [createdAt] defaults to the time of the insertion. *)
Definition of_insert (i : Id) (now : JS.Date) (r : insert) : t :=
  {| id := i;
     runKey := i_runKey r;
     dungeon := i_dungeon r;
     mythicLevel := i_mythicLevel r;
     completedAt := i_completedAt r;
     clearTimeMs := i_clearTimeMs r;
     parTimeMs := i_parTimeMs r;
     score := i_score r;
     keystoneUpgrades := i_keystoneUpgrades r;
     guildPlayerIds := i_guildPlayerIds r;
     guildPlayerNames := i_guildPlayerNames r;
     totalGuildMembers := i_totalGuildMembers r;
     createdAt := Some now |}.

End GuildMythicRun.

Module ActivityEvent.

Record t := {
  id : Id;
  type : string;
  playerId : Id;
  playerName : string;
  playerClass : string;
  title : string;
  description : option string;
  value : option Z;
  timestamp : JS.Date;
}.

(** [InsertActivityEvent] *)
Record insert := {
  i_type : string;
  i_playerId : Id;
  i_playerName : string;
  i_playerClass : string;
  i_title : string;
  i_description : option string;
  i_value : option Z;
  i_timestamp : JS.Date;
}.

Definition of_insert (i : Id) (r : insert) : t :=
  {| id := i;
     type := i_type r;
     playerId := i_playerId r;
     playerName := i_playerName r;
     playerClass := i_playerClass r;
     title := i_title r;
     description := i_description r;
     value := i_value r;
     timestamp := i_timestamp r |}.

End ActivityEvent.

Inductive RosterMode := delta | full | no_change.
Inductive SessionPhase := start | chunk | final.

#[global] Instance RosterMode_eq_dec : EqDecision RosterMode.
Proof. solve_decision. Defined.
#[global] Instance SessionPhase_eq_dec : EqDecision SessionPhase.
Proof. solve_decision. Defined.

Module UploaderStatus.

(** The declaration of the [uploader_statuses] table is not part of
    the sources at hand; the columns are those storage.ts and
    routes.ts read and write, all of them nullable here. *)
Record t := {
  id : Id;
  uploaderId : string;
  lastSessionId : option string;
  lastBatchIndex : option Z;
  expectedBatchIndex : option Z;
  status : option string;
  totalBatches : option Z;
  lastError : option string;
  lastPhase : option SessionPhase;
  updatedAt : option JS.Date;
}.

(** [UploaderStatusUpdate] *)
Record update := {
  u_lastSessionId : Upd (option string);
  u_lastBatchIndex : Upd (option Z);
  u_expectedBatchIndex : Upd (option Z);
  u_status : Upd (option string);
  u_totalBatches : Upd (option Z);
  u_lastError : Upd (option string);
  u_lastPhase : Upd (option SessionPhase);
  u_updatedAt : Upd (option JS.Date);
}.

Definition apply (u : update) (r : t) : t :=
  {| id := id r;
     uploaderId := uploaderId r;
     lastSessionId := set_col (u_lastSessionId u) (lastSessionId r);
     lastBatchIndex := set_col (u_lastBatchIndex u) (lastBatchIndex r);
     expectedBatchIndex :=
       set_col (u_expectedBatchIndex u) (expectedBatchIndex r);
     status := set_col (u_status u) (status r);
     totalBatches := set_col (u_totalBatches u) (totalBatches r);
     lastError := set_col (u_lastError u) (lastError r);
     lastPhase := set_col (u_lastPhase u) (lastPhase r);
     updatedAt := set_col (u_updatedAt u) (updatedAt r) |}.

(** The values the columns of a new row take when the [INSERT] names
    [uploaderId] alone. *)
Record column_defaults := {
  d_lastSessionId : option string;
  d_lastBatchIndex : option Z;
  d_expectedBatchIndex : option Z;
  d_status : option string;
  d_totalBatches : option Z;
  d_lastError : option string;
  d_lastPhase : option SessionPhase;
  d_updatedAt : option JS.Date;
}.

Definition created (d : column_defaults) (i : Id) (uploader : string) : t :=
  {| id := i;
     uploaderId := uploader;
     lastSessionId := d_lastSessionId d;
     lastBatchIndex := d_lastBatchIndex d;
     expectedBatchIndex := d_expectedBatchIndex d;
     status := d_status d;
     totalBatches := d_totalBatches d;
     lastError := d_lastError d;
     lastPhase := d_lastPhase d;
     updatedAt := d_updatedAt d |}.

End UploaderStatus.

Module GuildSettings.

(** The columns of [guild_settings] that the upload path uses. *)
Record t := {
  id : Id;
  realm : string;
  uploadApiKey : option string;
  currentUploadSession : option string;
  uploadSessionStartedAt : option JS.Date;
  uploadSessionProcessedCount : option Z;
  lastUploadCompletedAt : option JS.Date;
}.

End GuildSettings.

(** ** The database and the storage layer (server/storage.ts) *)

(** The tables the modelled code reads and writes.  [activity_snapshots]
    and [admin_audit_log] are written by the upload handler and read by
    nothing modelled here; they are left out. *)
Record Db := {
  players : list Player.t;
  mythicRuns : list MythicRun.t;
  guildMythicRuns : list GuildMythicRun.t;
  activityEvents : list ActivityEvent.t;
  uploaderStatuses : list UploaderStatus.t;
  guildSettings : list GuildSettings.t;
  nextId : Id;
}.

Definition with_players (f : list Player.t -> list Player.t) (db : Db) : Db :=
  {| players := f (players db);
     mythicRuns := mythicRuns db;
     guildMythicRuns := guildMythicRuns db;
     activityEvents := activityEvents db;
     uploaderStatuses := uploaderStatuses db;
     guildSettings := guildSettings db;
     nextId := nextId db |}.

Definition with_mythicRuns (f : list MythicRun.t -> list MythicRun.t)
    (db : Db) : Db :=
  {| players := players db;
     mythicRuns := f (mythicRuns db);
     guildMythicRuns := guildMythicRuns db;
     activityEvents := activityEvents db;
     uploaderStatuses := uploaderStatuses db;
     guildSettings := guildSettings db;
     nextId := nextId db |}.

Definition with_guildMythicRuns
    (f : list GuildMythicRun.t -> list GuildMythicRun.t) (db : Db) : Db :=
  {| players := players db;
     mythicRuns := mythicRuns db;
     guildMythicRuns := f (guildMythicRuns db);
     activityEvents := activityEvents db;
     uploaderStatuses := uploaderStatuses db;
     guildSettings := guildSettings db;
     nextId := nextId db |}.

Definition with_activityEvents
    (f : list ActivityEvent.t -> list ActivityEvent.t) (db : Db) : Db :=
  {| players := players db;
     mythicRuns := mythicRuns db;
     guildMythicRuns := guildMythicRuns db;
     activityEvents := f (activityEvents db);
     uploaderStatuses := uploaderStatuses db;
     guildSettings := guildSettings db;
     nextId := nextId db |}.

Definition with_uploaderStatuses
    (f : list UploaderStatus.t -> list UploaderStatus.t) (db : Db) : Db :=
  {| players := players db;
     mythicRuns := mythicRuns db;
     guildMythicRuns := guildMythicRuns db;
     activityEvents := activityEvents db;
     uploaderStatuses := f (uploaderStatuses db);
     guildSettings := guildSettings db;
     nextId := nextId db |}.

Definition with_guildSettings
    (f : list GuildSettings.t -> list GuildSettings.t) (db : Db) : Db :=
  {| players := players db;
     mythicRuns := mythicRuns db;
     guildMythicRuns := guildMythicRuns db;
     activityEvents := activityEvents db;
     uploaderStatuses := uploaderStatuses db;
     guildSettings := f (guildSettings db);
     nextId := nextId db |}.

(** [gen_random_uuid()] *)
Definition bump_id (db : Db) : Db :=
  {| players := players db;
     mythicRuns := mythicRuns db;
     guildMythicRuns := guildMythicRuns db;
     activityEvents := activityEvents db;
     uploaderStatuses := uploaderStatuses db;
     guildSettings := guildSettings db;
     nextId := S (nextId db) |}.

(** An [async] function over the database: a state transformer. *)
Definition M (A : Type) : Type := Db -> A * Db.

#[global] Instance M_ret : MRet M := fun A x db => (x, db).
#[global] Instance M_bind : MBind M :=
  fun A B f m db => let '(x, db') := m db in f x db'.

Definition get : M Db := fun db => (db, db).
Definition modify (f : Db -> Db) : M unit := fun db => (tt, f db).

(** [for (const x of l) { await body(x) }] *)
Fixpoint for_each {A} (l : list A) (body : A -> M unit) : M unit :=
  match l with
  | [] => mret tt
  | x :: l' => body x ;; for_each l' body
  end.

(** [for (const x of l) { count += await body(x) }], from [count]. *)
Fixpoint sum_each {A} (l : list A) (body : A -> M Z) (count : Z) : M Z :=
  match l with
  | [] => mret count
  | x :: l' => k ← body x; sum_each l' body (count + k)
  end.

Module Storage.

(** *** players *)

Definition getPlayers : M (list Player.t) :=
  db ← get; mret (players db).

Definition getPlayer (id : Id) : M (option Player.t) :=
  db ← get;
  mret (List.find (fun p => Nat.eqb (Player.id p) id) (players db)).

Definition getPlayerByName (name realm : string) : M (option Player.t) :=
  db ← get; mret (List.find (Player.keyed name realm) (players db)).

Definition createPlayer (insertPlayer : Player.insert) : M Player.t :=
  db ← get;
  let player :=
    Player.apply (Player.i_cols insertPlayer)
      (Player.defaults (nextId db) (Player.i_name insertPlayer)
         (Player.i_realm insertPlayer) (Player.i_class insertPlayer)) in
  modify (fun db => bump_id (with_players (fun ps => ps ++ [player]) db));;
  mret player.

(** [UPDATE players SET updates WHERE id = id] *)
Definition updatePlayer (id : Id) (updates : Player.update)
    : M (option Player.t) :=
  modify (with_players
    (List.map (fun p =>
       if Nat.eqb (Player.id p) id then Player.apply updates p else p)));;
  db ← get;
  mret (List.find (fun p => Nat.eqb (Player.id p) id) (players db)).

(** [Object.keys(updates).length > 0] for the [updates] that
    [upsertPlayer] builds. *)
Definition nonempty_upsert_updates (u : Player.update) : bool :=
  defined (Player.u_spec u)
  || defined (Player.u_race u)
  || defined (Player.u_level u)
  || defined (Player.u_itemLevel u)
  || defined (Player.u_mythicScore u)
  || defined (Player.u_guildRank u)
  || defined (Player.u_messagesCount u)
  || defined (Player.u_isActive u).

Definition upsertPlayer (playerData : Player.insert) : M Player.t :=
  let cols := Player.i_cols playerData in
  existing ← getPlayerByName (Player.i_name playerData)
                             (Player.i_realm playerData);
  match existing with
  | Some existing =>
      let updates : Player.update :=
        {| Player.u_spec := Player.u_spec cols;
           Player.u_race := Player.u_race cols;
           Player.u_level := Player.u_level cols;
           Player.u_itemLevel := Player.u_itemLevel cols;
           Player.u_mythicScore := Player.u_mythicScore cols;
           Player.u_guildRank := Player.u_guildRank cols;
           Player.u_messagesCount := Player.u_messagesCount cols;
           Player.u_isActive := Player.u_isActive cols |} in
      if nonempty_upsert_updates updates then
        updated ← updatePlayer (Player.id existing) updates;
        mret (default existing updated)
      else mret existing
  | None =>
      createPlayer
        {| Player.i_name := Player.i_name playerData;
           Player.i_realm := Player.i_realm playerData;
           Player.i_class := Player.i_class playerData;
           Player.i_cols :=
             {| Player.u_spec := Player.u_spec cols;
                Player.u_race := Player.u_race cols;
                Player.u_level := Some (Some (nullish (Player.u_level cols) 80));
                Player.u_itemLevel :=
                  Some (Some (nullish (Player.u_itemLevel cols) 0));
                Player.u_mythicScore :=
                  Some (Some (nullish (Player.u_mythicScore cols) 0));
                Player.u_guildRank :=
                  Some (Some (nullish (Player.u_guildRank cols) "Member"));
                Player.u_messagesCount :=
                  Some (Some (nullish (Player.u_messagesCount cols) 0));
                Player.u_isActive :=
                  Some (Some (nullish (Player.u_isActive cols) true)) |} |}
  end.

Definition updatePlayerLastSeen (name realm : string) (lastSeen : JS.Date)
    : M unit :=
  existing ← getPlayerByName name realm;
  match existing with
  | Some existing =>
      modify (with_players
        (List.map (fun p =>
           if Nat.eqb (Player.id p) (Player.id existing)
           then Player.apply {| Player.u_lastSeen := Some (Some lastSeen) |} p
           else p)))
  | None => mret tt
  end.

Definition is_true (b : option bool) : bool :=
  match b with Some true => true | _ => false end.

(** [UPDATE players SET is_active = false WHERE is_active = true] *)
Definition markAllPlayersInactive : M Z :=
  db ← get;
  let hit p := is_true (Player.isActive p) in
  modify (with_players
    (List.map (fun p =>
       if hit p
       then Player.apply {| Player.u_isActive := Some (Some false) |} p
       else p)));;
  mret (Z.of_nat (length (List.filter hit (players db)))).

(** One round of the loop of [deactivatePlayersByName]:
    [UPDATE players SET is_active = false
     WHERE name = n AND realm = r AND is_active = true]. *)
Definition deactivateByName1 (n r : string) : M Z :=
  db ← get;
  let hit p := Player.keyed n r p && is_true (Player.isActive p) in
  modify (with_players
    (List.map (fun p =>
       if hit p
       then Player.apply {| Player.u_isActive := Some (Some false) |} p
       else p)));;
  mret (Z.of_nat (length (List.filter hit (players db)))).

Definition deactivatePlayersByName (playerNames : list (string * string))
    : M Z :=
  match playerNames with
  | [] => mret 0
  | _ => sum_each playerNames (fun '(n, r) => deactivateByName1 n r) 0
  end.

(** *** upload session (guild_settings) *)

(** [SELECT * FROM guild_settings LIMIT 1] *)
Definition getGuildSettings : M (option GuildSettings.t) :=
  db ← get; mret (head (guildSettings db)).

Definition updateSettingsRow (id : Id)
    (f : GuildSettings.t -> GuildSettings.t) : M unit :=
  modify (with_guildSettings
    (List.map (fun g => if Nat.eqb (GuildSettings.id g) id then f g else g))).

Definition startUploadSession (now : JS.Date) (uploaderId sessionId : string)
    : M unit :=
  settings ← getGuildSettings;
  match settings with
  | None => mret tt
  | Some settings =>
      updateSettingsRow (GuildSettings.id settings) (fun g =>
        {| GuildSettings.id := GuildSettings.id g;
           GuildSettings.realm := GuildSettings.realm g;
           GuildSettings.uploadApiKey := GuildSettings.uploadApiKey g;
           GuildSettings.currentUploadSession := Some sessionId;
           GuildSettings.uploadSessionStartedAt := Some now;
           GuildSettings.uploadSessionProcessedCount := Some 0;
           GuildSettings.lastUploadCompletedAt :=
             GuildSettings.lastUploadCompletedAt g |})
  end.

Definition clearUploadSession (now : JS.Date) (uploaderId : string)
    : M unit :=
  settings ← getGuildSettings;
  match settings with
  | None => mret tt
  | Some settings =>
      updateSettingsRow (GuildSettings.id settings) (fun g =>
        {| GuildSettings.id := GuildSettings.id g;
           GuildSettings.realm := GuildSettings.realm g;
           GuildSettings.uploadApiKey := GuildSettings.uploadApiKey g;
           GuildSettings.currentUploadSession := None;
           GuildSettings.uploadSessionStartedAt := None;
           GuildSettings.uploadSessionProcessedCount := Some 0;
           GuildSettings.lastUploadCompletedAt := Some now |})
  end.

Definition incrementUploadProcessedCount (uploaderId : string) (count : Z)
    : M unit :=
  settings ← getGuildSettings;
  match settings with
  | None => mret tt
  | Some settings =>
      updateSettingsRow (GuildSettings.id settings) (fun g =>
        {| GuildSettings.id := GuildSettings.id g;
           GuildSettings.realm := GuildSettings.realm g;
           GuildSettings.uploadApiKey := GuildSettings.uploadApiKey g;
           GuildSettings.currentUploadSession :=
             GuildSettings.currentUploadSession g;
           GuildSettings.uploadSessionStartedAt :=
             GuildSettings.uploadSessionStartedAt g;
           GuildSettings.uploadSessionProcessedCount :=
             Some (default 0
                     (GuildSettings.uploadSessionProcessedCount settings)
                   + count);
           GuildSettings.lastUploadCompletedAt :=
             GuildSettings.lastUploadCompletedAt g |})
  end.

(** The [sessionId] of [getCurrentUploadSession]. *)
Definition getCurrentUploadSession (uploaderId : string)
    : M (option string) :=
  settings ← getGuildSettings;
  mret (settings ≫= GuildSettings.currentUploadSession).

(** *** uploader status *)

Section UploaderStatuses.

(** What the table declaration, which is not at hand, gives the
    columns of a new row. *)
Variable status_defaults : UploaderStatus.column_defaults.

Definition getUploaderStatusRecord (uploaderId : string)
    : M (option UploaderStatus.t) :=
  db ← get;
  mret (List.find
          (fun r => String.eqb (UploaderStatus.uploaderId r) uploaderId)
          (uploaderStatuses db)).

Definition ensureUploaderStatus (uploaderId : string)
    : M UploaderStatus.t :=
  existing ← getUploaderStatusRecord uploaderId;
  match existing with
  | Some existing => mret existing
  | None =>
      db ← get;
      let created :=
        UploaderStatus.created status_defaults (nextId db) uploaderId in
      modify (fun db =>
        bump_id (with_uploaderStatuses (fun rs => rs ++ [created]) db));;
      mret created
  end.

(** [sanitizeUpdate({...updates, updatedAt: new Date()})]: the
    entries that are [undefined] are dropped, and [apply] leaves
    their columns alone. *)
Definition sanitizeUpdate (now : JS.Date) (updates : UploaderStatus.update)
    : UploaderStatus.update :=
  {| UploaderStatus.u_lastSessionId :=
       UploaderStatus.u_lastSessionId updates;
     UploaderStatus.u_lastBatchIndex :=
       UploaderStatus.u_lastBatchIndex updates;
     UploaderStatus.u_expectedBatchIndex :=
       UploaderStatus.u_expectedBatchIndex updates;
     UploaderStatus.u_status := UploaderStatus.u_status updates;
     UploaderStatus.u_totalBatches :=
       UploaderStatus.u_totalBatches updates;
     UploaderStatus.u_lastError := UploaderStatus.u_lastError updates;
     UploaderStatus.u_lastPhase := UploaderStatus.u_lastPhase updates;
     UploaderStatus.u_updatedAt := Some (Some now) |}.

Definition updateUploaderStatus (now : JS.Date) (uploaderId : string)
    (updates : UploaderStatus.update) : M UploaderStatus.t :=
  current ← ensureUploaderStatus uploaderId;
  let payload := sanitizeUpdate now updates in
  modify (with_uploaderStatuses
    (List.map (fun r =>
       if Nat.eqb (UploaderStatus.id r) (UploaderStatus.id current)
       then UploaderStatus.apply payload r else r)));;
  db ← get;
  mret (default (UploaderStatus.apply payload current)
          (List.find
             (fun r => Nat.eqb (UploaderStatus.id r)
                         (UploaderStatus.id current))
             (uploaderStatuses db))).

Definition outOfOrderMessage (expectedBatchIndex : Z)
    (receivedBatchIndex : option Z) : string :=
  "Out-of-order batch (expected " +:+ JS.str expectedBatchIndex
    +:+ ", received "
    +:+ match receivedBatchIndex with
        | Some r => JS.str r
        | None => "none"
        end
    +:+ ")".

Definition markUploaderOutOfOrder (now : JS.Date) (uploaderId : string)
    (expectedBatchIndex : Z) (receivedBatchIndex : option Z)
    (sessionId : option string) (totalBatches : option Z)
    (lastPhase : option SessionPhase) : M UploaderStatus.t :=
  let errorMessage :=
    outOfOrderMessage expectedBatchIndex receivedBatchIndex in
  updateUploaderStatus now uploaderId
    {| UploaderStatus.u_status := Some (Some "out_of_order");
       UploaderStatus.u_lastError := Some (Some errorMessage);
       UploaderStatus.u_expectedBatchIndex :=
         Some (Some expectedBatchIndex);
       UploaderStatus.u_lastBatchIndex :=
         null_to_undefined receivedBatchIndex;
       UploaderStatus.u_lastSessionId := null_to_undefined sessionId;
       UploaderStatus.u_totalBatches := null_to_undefined totalBatches;
       UploaderStatus.u_lastPhase := null_to_undefined lastPhase |}.

End UploaderStatuses.

(** *** mythic runs *)

(** [ORDER BY timestamp DESC]; rows of equal timestamp stay in table
    order. *)
Fixpoint insertByTimestamp (r : MythicRun.t) (l : list MythicRun.t)
    : list MythicRun.t :=
  match l with
  | [] => [r]
  | x :: l' =>
      if MythicRun.timestamp x <=? MythicRun.timestamp r
      then r :: l
      else x :: insertByTimestamp r l'
  end.

Definition orderByTimestampDesc (l : list MythicRun.t) : list MythicRun.t :=
  foldr insertByTimestamp [] l.

Definition getMythicRuns (playerId : Id) : M (list MythicRun.t) :=
  db ← get;
  mret (orderByTimestampDesc
          (List.filter (fun r => Nat.eqb (MythicRun.playerId r) playerId)
             (mythicRuns db))).

(** The [WHERE] clause of [upsertMythicRun]. *)
Definition sameRunSlot (insertRun : MythicRun.insert) (r : MythicRun.t)
    : bool :=
  Nat.eqb (MythicRun.playerId r) (MythicRun.i_playerId insertRun)
  && String.eqb (MythicRun.dungeon r) (MythicRun.i_dungeon insertRun)
  && (MythicRun.keyLevel r =? MythicRun.i_keyLevel insertRun)
  && (JS.sql_DATE (MythicRun.timestamp r)
        =? JS.sql_DATE (MythicRun.i_timestamp insertRun)).

Definition overwriteRun (insertRun : MythicRun.insert) (r : MythicRun.t)
    : MythicRun.t :=
  {| MythicRun.id := MythicRun.id r;
     MythicRun.playerId := MythicRun.playerId r;
     MythicRun.dungeon := MythicRun.dungeon r;
     MythicRun.keyLevel := MythicRun.keyLevel r;
     MythicRun.completionTime := MythicRun.i_completionTime insertRun;
     MythicRun.timerPercent := MythicRun.i_timerPercent insertRun;
     MythicRun.score := MythicRun.i_score insertRun;
     MythicRun.affixes :=
       set_col (MythicRun.i_affixes insertRun) (MythicRun.affixes r);
     MythicRun.timestamp := MythicRun.timestamp r;
     MythicRun.url := MythicRun.url r;
     MythicRun.clearTimeMs :=
       set_col (MythicRun.i_clearTimeMs insertRun) (MythicRun.clearTimeMs r);
     MythicRun.parTimeMs :=
       set_col (MythicRun.i_parTimeMs insertRun) (MythicRun.parTimeMs r);
     MythicRun.role := MythicRun.role r;
     MythicRun.spec := MythicRun.spec r |}.

(** The columns hold the values as they are given: the call is that of
    a run whose numbers fit the [integer] columns, and the rounding of
    [timerPercent] by its [real] column is left out. *)
Definition upsertMythicRun (insertRun : MythicRun.insert) : M MythicRun.t :=
  db ← get;
  match List.find (sameRunSlot insertRun) (mythicRuns db) with
  | Some existing =>
      if MythicRun.score existing <? MythicRun.i_score insertRun then
        modify (with_mythicRuns
          (List.map (fun r =>
             if Nat.eqb (MythicRun.id r) (MythicRun.id existing)
             then overwriteRun insertRun r else r)));;
        mret (overwriteRun insertRun existing)
      else mret existing
  | None =>
      let run := MythicRun.of_insert (nextId db) insertRun in
      modify (fun db => bump_id (with_mythicRuns (fun rs => rs ++ [run]) db));;
      mret run
  end.

(** [for (const id of idsToDelete) DELETE FROM mythic_runs WHERE id = id] *)
Definition deleteRunsById (idsToDelete : list Id) : M unit :=
  for_each idsToDelete (fun id =>
    modify (with_mythicRuns
      (List.filter (fun r => negb (Nat.eqb (MythicRun.id r) id))))).

Definition deleteOldMythicRuns (playerId : Id) (keepCount : nat) : M Z :=
  allRuns ← getMythicRuns playerId;
  if bool_decide (length allRuns ≤ keepCount)%nat then mret 0
  else
    let idsToDelete := MythicRun.id <$> drop keepCount allRuns in
    deleteRunsById idsToDelete;;
    mret (Z.of_nat (length idsToDelete)).

(** *** guild runs and the activity feed *)

Definition getGuildMythicRunByKey (runKey : string)
    : M (option GuildMythicRun.t) :=
  db ← get;
  mret (List.find (fun r => String.eqb (GuildMythicRun.runKey r) runKey)
          (guildMythicRuns db)).

Definition createGuildMythicRun (now : JS.Date)
    (insertRun : GuildMythicRun.insert) : M GuildMythicRun.t :=
  db ← get;
  let run := GuildMythicRun.of_insert (nextId db) now insertRun in
  modify (fun db =>
    bump_id (with_guildMythicRuns (fun rs => rs ++ [run]) db));;
  mret run.

Definition createActivityEvent (insertEvent : ActivityEvent.insert)
    : M ActivityEvent.t :=
  db ← get;
  let event := ActivityEvent.of_insert (nextId db) insertEvent in
  modify (fun db =>
    bump_id (with_activityEvents (fun es => es ++ [event]) db));;
  mret event.

End Storage.

(** ** Run deduplicator (server/modules/run-deduplicator.ts) *)

Module RunDeduplicator.

Record ExistingRun := {
  dungeon : string;
  keyLevel : Z;
  timestamp : JS.Date;
  url : option string;
}.

(** [completed_at] is held as the instant its ISO string denotes. *)
Record ApiRun := {
  a_dungeon : string;
  mythic_level : Z;
  completed_at : JS.Date;
  a_url : option string;
}.

Record t := {
  urlSet : gset string;
  compositeKeySet : gset string;
}.

Definition normalizeTimestamp (timestamp : JS.Date) : Z :=
  JS.utcMidnight timestamp.

Definition makeCompositeKey (dungeon : string) (keyLevel : Z)
    (timestamp : JS.Date) : string :=
  dungeon +:+ "-" +:+ JS.str keyLevel +:+ "-"
    +:+ JS.str (normalizeTimestamp timestamp).

Definition new (existingRuns : list ExistingRun) : t :=
  {| urlSet :=
       list_to_set
         (omap (fun r => if JS.truthy_str (url r) then url r else None)
               existingRuns);
     compositeKeySet :=
       list_to_set
         (omap (fun r =>
                  if JS.truthy_str (url r) then None
                  else Some (makeCompositeKey (dungeon r) (keyLevel r)
                               (timestamp r)))
               existingRuns) |}.

Definition has (s : gset string) (x : string) : bool :=
  bool_decide (x ∈ s).

Definition isNewRun (d : t) (run : ApiRun) : bool :=
  let compositeKey :=
    makeCompositeKey (a_dungeon run) (mythic_level run) (completed_at run) in
  let existsByUrl :=
    match a_url run with
    | Some u => JS.truthy_str (Some u) && has (urlSet d) u
    | None => false
    end in
  let existsByCompositeKey := has (compositeKeySet d) compositeKey in
  negb existsByUrl && negb existsByCompositeKey.

Definition markAsSeen (d : t) (run : ApiRun) : t :=
  let compositeKey :=
    makeCompositeKey (a_dungeon run) (mythic_level run) (completed_at run) in
  match a_url run with
  | Some u =>
      if JS.truthy_str (Some u)
      then {| urlSet := {[u]} ∪ urlSet d;
              compositeKeySet := compositeKeySet d |}
      else {| urlSet := urlSet d;
              compositeKeySet := {[compositeKey]} ∪ compositeKeySet d |}
  | None =>
      {| urlSet := urlSet d;
         compositeKeySet := {[compositeKey]} ∪ compositeKeySet d |}
  end.

End RunDeduplicator.

(** ** Stats aggregator (server/modules/stats-aggregator.ts) *)

Module StatsAggregator.

Record MythicRun := {
  dungeon : string;
  keyLevel : Z;
  clearTimeMs : Z;
  parTimeMs : Z;
}.

Inductive LevelBucket :=
  runsByLevelLow | runsByLevelMid | runsByLevelHigh | runsByLevelElite.

Definition levelBucket (keyLevel : Z) : LevelBucket :=
  if keyLevel <=? 6 then runsByLevelLow
  else if keyLevel <=? 9 then runsByLevelMid
  else if keyLevel <=? 14 then runsByLevelHigh
  else runsByLevelElite.

(** [player[levelBucket]] *)
Definition bucketOf (b : LevelBucket) (player : Player.t) : option Z :=
  match b with
  | runsByLevelLow => Player.runsByLevelLow player
  | runsByLevelMid => Player.runsByLevelMid player
  | runsByLevelHigh => Player.runsByLevelHigh player
  | runsByLevelElite => Player.runsByLevelElite player
  end.

(** [dungeonCounts]: an object used as a map from dungeon names to
    counts; [Object.entries] lists its keys in the order of their
    first assignment.  A name that is an array index would be listed
    before the others: the order decides only which of the dungeons of
    the highest count is chosen. *)
Fixpoint increment (d : string) (counts : list (string * Z))
    : list (string * Z) :=
  match counts with
  | [] => [(d, 1)]
  | (k, n) :: rest =>
      if String.eqb k d then (k, n + 1) :: rest
      else (k, n) :: increment d rest
  end.

Definition dungeonCounts (run : MythicRun)
    (existingRuns : list RunDeduplicator.ExistingRun) : list (string * Z) :=
  increment (dungeon run)
    (fold_left (fun counts r => increment (RunDeduplicator.dungeon r) counts)
       existingRuns []).

Definition mostPlayed (run : MythicRun) (counts : list (string * Z))
    : string :=
  fst (fold_left
         (fun '(mostPlayed, maxCount) '(dungeon, count) =>
            if maxCount <? count then (dungeon, count)
            else (mostPlayed, maxCount))
         counts (dungeon run, 0)).

(** The object passed to [storage.updatePlayer]. *)
Definition statsUpdate (player : Player.t) (run : MythicRun)
    (existingRuns : list RunDeduplicator.ExistingRun) : Player.update :=
  let inTime := clearTimeMs run <=? parTimeMs run in
  let keyLevel := keyLevel run in
  let levelBucket := levelBucket keyLevel in
  let bumped := Some (Some (JS.num_or0 (bucketOf levelBucket player) + 1)) in
  let newHighestKey :=
    Z.max (JS.num_or0 (Player.highestKeyLevel player)) keyLevel in
  {| Player.u_totalRunsTracked :=
       Some (Some (JS.num_or0 (Player.totalRunsTracked player) + 1));
     Player.u_mostPlayedDungeon :=
       Some (Some (mostPlayed run (dungeonCounts run existingRuns)));
     Player.u_runsInTime :=
       Some (Some (JS.num_or0 (Player.runsInTime player)
                   + (if inTime then 1 else 0)));
     Player.u_runsOverTime :=
       Some (Some (JS.num_or0 (Player.runsOverTime player)
                   + (if inTime then 0 else 1)));
     Player.u_runsByLevelLow :=
       match levelBucket with runsByLevelLow => bumped | _ => None end;
     Player.u_runsByLevelMid :=
       match levelBucket with runsByLevelMid => bumped | _ => None end;
     Player.u_runsByLevelHigh :=
       match levelBucket with runsByLevelHigh => bumped | _ => None end;
     Player.u_runsByLevelElite :=
       match levelBucket with runsByLevelElite => bumped | _ => None end;
     Player.u_highestKeyLevel := Some (Some newHighestKey) |}.

Definition updatePlayerStats (playerId : Id) (run : MythicRun)
    (existingRuns : list RunDeduplicator.ExistingRun) : M unit :=
  player ← Storage.getPlayer playerId;
  match player with
  | None => mret tt
  | Some player =>
      Storage.updatePlayer playerId (statsUpdate player run existingRuns);;
      mret tt
  end.

End StatsAggregator.

(** ** Raider.IO synchroniser (the server module of unnamed/part_001) *)

Module RioSync.

Record RaiderIORosterMember := {
  character_name : string;
  character_realm_slug : string;
  character_realm_name : string;
  character_class_name : string;
}.

(** [score] is a floating-point number of the API, kept as the
    rational it denotes; [url] can be missing at run time, which the
    code tests for. *)
Record RaiderIORun := {
  dungeon : string;
  short_name : string;
  mythic_level : Z;
  completed_at : JS.Date;
  clear_time_ms : Z;
  par_time_ms : Z;
  num_keystone_upgrades : Z;
  score : Q;
  url : option string;
  affixes : list string;
  roster : option (list RaiderIORosterMember);
}.

Record RaiderIOProfile := {
  scores_all : option Q;
  mythic_plus_best_runs : option (list RaiderIORun);
  mythic_plus_recent_runs : option (list RaiderIORun);
  gear_item_level_equipped : option Q;
  class : string;
  active_spec_name : string;
  race : string;
  thumbnail_url : option string;
}.

Inductive SyncResult := updated | skipped | failed.

(** The run as the deduplicator and the stats aggregator see it. *)
Definition asApiRun (run : RaiderIORun) : RunDeduplicator.ApiRun :=
  {| RunDeduplicator.a_dungeon := dungeon run;
     RunDeduplicator.mythic_level := mythic_level run;
     RunDeduplicator.completed_at := completed_at run;
     RunDeduplicator.a_url := url run |}.

Definition asExistingRun (r : MythicRun.t) : RunDeduplicator.ExistingRun :=
  {| RunDeduplicator.dungeon := MythicRun.dungeon r;
     RunDeduplicator.keyLevel := MythicRun.keyLevel r;
     RunDeduplicator.timestamp := MythicRun.timestamp r;
     RunDeduplicator.url := MythicRun.url r |}.

Definition generateRunKey (run : RaiderIORun) : string :=
  match url run with
  | Some u =>
      if JS.truthy_str (Some u) then
        let urlParts := JS.split "/" u in
        List.last urlParts ""
      else dungeon run +:+ "-" +:+ JS.str (mythic_level run) +:+ "-"
             +:+ JS.str (completed_at run)
  | None =>
      dungeon run +:+ "-" +:+ JS.str (mythic_level run) +:+ "-"
        +:+ JS.str (completed_at run)
  end.

(** The value of a decimal digit. *)
Definition digit (c : ascii) : option Z :=
  let n := Z.of_nat (nat_of_ascii c) in
  if (48 <=? n) && (n <=? 57) then Some (n - 48) else None.

(** The number that [s] starts with, when a dash follows it. *)
Fixpoint digitsThenDash (s : string) (acc : option Z) : option Z :=
  match s with
  | EmptyString => None
  | String c s' =>
      match digit c with
      | Some d => digitsThenDash s' (Some (10 * default 0 acc + d))
      | None => if Ascii.eqb c "-" then acc else None
      end
  end.

(** [url.match(/\/(\d+)-/)] followed by [parseInt(match[1], 10)]: the
    number between the first slash that is followed by digits and a
    dash, and that dash. *)
Fixpoint matchRunId (s : string) : option Z :=
  match s with
  | EmptyString => None
  | String c s' =>
      if Ascii.eqb c "/" then
        match digitsThenDash s' None with
        | Some n => Some n
        | None => matchRunId s'
        end
      else matchRunId s'
  end.

Definition runIdsOf (recentRuns : list RaiderIORun) : list Z :=
  omap (fun run =>
          match url run with
          | Some u => if JS.truthy_str (Some u) then matchRunId u else None
          | None => None
          end)
       recentRuns.

Section Sync.

(** [String.prototype.toLowerCase] *)
Variable toLowerCase : string -> string.

(** The run-details endpoint: for a run id, the run that
    [fetchRunDetailsWithRoster] builds from the response, or [None]
    when the request fails or the response has no roster. *)
Variable fetchRunDetails : Z -> option RaiderIORun.

Definition normalizeRealm (realm : string) : string :=
  let c3 := ascii_of_nat 195 in
  JS.replace2 c3 (ascii_of_nat 186) "u"
    (JS.replace2 c3 (ascii_of_nat 179) "o"
       (JS.replace2 c3 (ascii_of_nat 173) "i"
          (JS.replace2 c3 (ascii_of_nat 169) "e"
             (JS.replace2 c3 (ascii_of_nat 161) "a"
                (JS.replaceChar " " ""
                   (JS.replaceChar "-" ""
                      (JS.replaceChar "'" "" (toLowerCase realm)))))))).

Definition cacheKey (name realm : string) : string :=
  toLowerCase name +:+ "-" +:+ normalizeRealm realm.

(** [guildPlayerCache], as [refreshGuildPlayerCache] fills it. *)
Definition refreshGuildPlayerCache (allPlayers : list Player.t)
    : gmap string Player.t :=
  fold_left
    (fun cache player =>
       if Storage.is_true (Player.isActive player)
       then <[cacheKey (Player.name player) (Player.realm player)
                := player]> cache
       else cache)
    allPlayers ∅.

Definition findGuildPlayer (guildPlayerCache : gmap string Player.t)
    (name realm : string) : option Player.t :=
  guildPlayerCache !! cacheKey name realm.

(** The guild members among the roster of a run. *)
Definition guildMembersOf (guildPlayerCache : gmap string Player.t)
    (roster : list RaiderIORosterMember) : list Player.t :=
  omap (fun member =>
          let memberName := character_name member in
          let memberRealm :=
            if JS.truthy_str (Some (character_realm_name member))
            then character_realm_name member
            else character_realm_slug member in
          findGuildPlayer guildPlayerCache memberName memberRealm)
       roster.

(** The body of the loop of [processGuildRuns] for one run; the
    result is the number of events created (0 or 1). *)
Definition processGuildRun (now : JS.Date)
    (guildPlayerCache : gmap string Player.t) (run : RaiderIORun)
    : M Z :=
  match roster run with
  | None => mret 0
  | Some roster =>
      if bool_decide (length roster < 2)%nat then mret 0
      else
        let guildMembers := guildMembersOf guildPlayerCache roster in
        match guildMembers with
        | [] | [_] => mret 0
        | primaryPlayer :: _ =>
            let runKey := generateRunKey run in
            existingRun ← Storage.getGuildMythicRunByKey runKey;
            match existingRun with
            | Some _ => mret 0
            | None =>
                let completedAt := completed_at run in
                Storage.createGuildMythicRun now
                  {| GuildMythicRun.i_runKey := runKey;
                     GuildMythicRun.i_dungeon := dungeon run;
                     GuildMythicRun.i_mythicLevel := mythic_level run;
                     GuildMythicRun.i_completedAt := completedAt;
                     GuildMythicRun.i_clearTimeMs :=
                       Some (clear_time_ms run);
                     GuildMythicRun.i_parTimeMs := Some (par_time_ms run);
                     GuildMythicRun.i_score :=
                       Some (JS.Math_round (score run));
                     GuildMythicRun.i_keystoneUpgrades :=
                       Some (num_keystone_upgrades run);
                     GuildMythicRun.i_guildPlayerIds :=
                       Player.id <$> guildMembers;
                     GuildMythicRun.i_guildPlayerNames :=
                       Player.name <$> guildMembers;
                     GuildMythicRun.i_totalGuildMembers :=
                       Z.of_nat (length guildMembers) |};;
                let title :=
                  "Completed " +:+ dungeon run +:+ " +"
                    +:+ JS.str (mythic_level run) in
                let description :=
                  if bool_decide (1 < length guildMembers)%nat
                  then Some ("Guild group: "
                             +:+ JS.join ", " (Player.name <$> guildMembers))
                  else None in
                Storage.createActivityEvent
                  {| ActivityEvent.i_type := "guild_mythic_run";
                     ActivityEvent.i_playerId := Player.id primaryPlayer;
                     ActivityEvent.i_playerName :=
                       Player.name primaryPlayer;
                     ActivityEvent.i_playerClass :=
                       Player.class primaryPlayer;
                     ActivityEvent.i_title := title;
                     ActivityEvent.i_description := description;
                     ActivityEvent.i_value := Some (mythic_level run);
                     ActivityEvent.i_timestamp := completedAt |};;
                mret 1
            end
        end
  end.

Definition processGuildRuns (now : JS.Date)
    (guildPlayerCache : gmap string Player.t) (runs : list RaiderIORun)
    : M Z :=
  sum_each runs (processGuildRun now guildPlayerCache) 0.

Definition newScore (profile : RaiderIOProfile) : Z :=
  JS.Math_round (default 0%Q (scores_all profile)).

Definition newItemLevel (profile : RaiderIOProfile) : Z :=
  JS.Math_round (default 0%Q (gear_item_level_equipped profile)).

Definition differs {A} `{EqDecision A} (stored : option A) (new : A)
    : bool :=
  negb (bool_decide (stored = Some new)).

Definition hasPlayerDataChanged (player : Player.t)
    (profile : RaiderIOProfile) : bool :=
  let newThumbnail :=
    default "" (JS.or_str (thumbnail_url profile) (Some "")) in
  differs (Player.mythicScore player) (newScore profile)
  || differs (Player.itemLevel player) (newItemLevel profile)
  || differs (Player.spec player) (active_spec_name profile)
  || differs (Player.race player) (race profile)
  || negb (String.eqb (Player.class player) (class profile))
  || differs (Player.avatarUrl player) newThumbnail.

Definition fetchRunDetailsWithRoster (runIds : list Z)
    : list RaiderIORun :=
  omap fetchRunDetails runIds.

(** The two loops that fill [allRuns]: a run is kept when its URL
    has not been seen. *)
Fixpoint mergeInto (runs : list RaiderIORun)
    (seenUrls : gset (option string)) (allRuns : list RaiderIORun)
    : gset (option string) * list RaiderIORun :=
  match runs with
  | [] => (seenUrls, allRuns)
  | run :: rest =>
      if bool_decide (url run ∈ seenUrls)
      then mergeInto rest seenUrls allRuns
      else mergeInto rest ({[url run]} ∪ seenUrls) (allRuns ++ [run])
  end.

Definition mergeRuns (recentRuns bestRuns : list RaiderIORun)
    : list RaiderIORun :=
  let '(seenUrls, allRuns) := mergeInto recentRuns ∅ [] in
  snd (mergeInto bestRuns seenUrls allRuns).

(** The row [syncPlayer] hands to [storage.upsertMythicRun].
    [timerPercent] is a floating-point quotient, kept as a rational
    (JavaScript yields an infinity or NaN for a zero clear time). *)
Definition runInsert (playerId : Id) (run : RaiderIORun)
    : MythicRun.insert :=
  {| MythicRun.i_playerId := playerId;
     MythicRun.i_dungeon := dungeon run;
     MythicRun.i_keyLevel := mythic_level run;
     MythicRun.i_completionTime :=
       JS.Math_round (clear_time_ms run # 1000);
     MythicRun.i_timerPercent :=
       ((par_time_ms run # 1) / (clear_time_ms run # 1) * (100 # 1))%Q;
     MythicRun.i_score := JS.Math_round (score run);
     MythicRun.i_affixes := Some (Some (affixes run));
     MythicRun.i_timestamp := completed_at run;
     MythicRun.i_url := null_to_undefined (url run);
     MythicRun.i_clearTimeMs := Some (Some (clear_time_ms run));
     MythicRun.i_parTimeMs := Some (Some (par_time_ms run)) |}.

Definition statsRun (run : RaiderIORun) : StatsAggregator.MythicRun :=
  {| StatsAggregator.dungeon := dungeon run;
     StatsAggregator.keyLevel := mythic_level run;
     StatsAggregator.clearTimeMs := clear_time_ms run;
     StatsAggregator.parTimeMs := par_time_ms run |}.

Definition statsEntry (run : RaiderIORun) : RunDeduplicator.ExistingRun :=
  {| RunDeduplicator.dungeon := dungeon run;
     RunDeduplicator.keyLevel := mythic_level run;
     RunDeduplicator.timestamp := completed_at run;
     RunDeduplicator.url := JS.or_str (url run) None |}.

(** [for (const run of allRuns.slice(0, 10)) { ... }] *)
Fixpoint syncRuns (playerId : Id) (runs : list RaiderIORun)
    (deduplicator : RunDeduplicator.t)
    (existingRunsForStats : list RunDeduplicator.ExistingRun) : M unit :=
  match runs with
  | [] => mret tt
  | run :: rest =>
      let isNewRun :=
        RunDeduplicator.isNewRun deduplicator (asApiRun run) in
      Storage.upsertMythicRun (runInsert playerId run);;
      let deduplicator :=
        RunDeduplicator.markAsSeen deduplicator (asApiRun run) in
      if isNewRun then
        StatsAggregator.updatePlayerStats playerId (statsRun run)
          existingRunsForStats;;
        syncRuns playerId rest deduplicator
          (existingRunsForStats ++ [statsEntry run])
      else syncRuns playerId rest deduplicator existingRunsForStats
  end.

(** The part of [syncPlayer] before change detection. *)
Definition detectGuildRuns (now : JS.Date)
    (guildPlayerCache : gmap string Player.t) (profile : RaiderIOProfile)
    : M unit :=
  match mythic_plus_recent_runs profile with
  | Some recentRuns =>
      if bool_decide (0 < length recentRuns)%nat then
        let runIds := runIdsOf recentRuns in
        if bool_decide (0 < length runIds)%nat then
          let runsWithRoster := fetchRunDetailsWithRoster runIds in
          if bool_decide (0 < length runsWithRoster)%nat then
            processGuildRuns now guildPlayerCache runsWithRoster;;
            mret tt
          else mret tt
        else mret tt
      else mret tt
  | None => mret tt
  end.

(** The part of [syncPlayer] after the profile has been written. *)
Definition storeRuns (player : Player.t) (profile : RaiderIOProfile)
    : M unit :=
  let bestRuns := default [] (mythic_plus_best_runs profile) in
  let recentRuns := default [] (mythic_plus_recent_runs profile) in
  let allRuns := mergeRuns recentRuns bestRuns in
  match allRuns with
  | [] => mret tt
  | _ =>
      existingRuns ← Storage.getMythicRuns (Player.id player);
      let deduplicator :=
        RunDeduplicator.new (asExistingRun <$> existingRuns) in
      let existingRunsForStats := asExistingRun <$> existingRuns in
      syncRuns (Player.id player) (take 10 allRuns) deduplicator
        existingRunsForStats;;
      Storage.deleteOldMythicRuns (Player.id player) 5;;
      mret tt
  end.

(** [profile] is what [fetchPlayerFromRaiderIO] returned: [None]
    when the character is unknown upstream or the request failed. *)
Definition syncPlayer (now : JS.Date)
    (guildPlayerCache : gmap string Player.t)
    (profile : option RaiderIOProfile) (player : Player.t)
    : M SyncResult :=
  match profile with
  | None => mret failed
  | Some profile =>
      detectGuildRuns now guildPlayerCache profile;;
      if negb (hasPlayerDataChanged player profile) then
        Storage.updatePlayer (Player.id player)
          {| Player.u_lastRioSync := Some (Some now) |};;
        mret skipped
      else
        Storage.updatePlayer (Player.id player)
          {| Player.u_mythicScore := Some (Some (newScore profile));
             Player.u_itemLevel := Some (Some (newItemLevel profile));
             Player.u_class := Some (class profile);
             Player.u_spec := Some (Some (active_spec_name profile));
             Player.u_race := Some (Some (race profile));
             Player.u_avatarUrl :=
               Some (JS.or_str (thumbnail_url profile) None);
             Player.u_lastRioSync := Some (Some now) |};;
        storeRuns player profile;;
        mret updated
  end.

End Sync.

End RioSync.

(** ** Upload endpoint (server/routes.ts, POST /api/upload) *)

Module Upload.

Record MasterRosterEntry := {
  rank : option string;
  lvl : option Z;
  class : option string;
}.

Record OnlinePlayer := {
  o_rank : option string;
  o_level : option Z;
  o_class : option string;
}.

(** [iso] is the instant the string denotes, [None] when
    [new Date(iso)] is an invalid date. *)
Record StatsSnapshot := {
  iso : option JS.Date;
  online : list (string * OnlinePlayer);
  onlineCount : Z;
}.

(** [lastSeen] is the instant the string denotes, [None] when the
    string is missing or empty. *)
Record ChatDataEntry := {
  total : option Z;
  lastSeen : option JS.Date;
  lastSeenTS : option Z;
  lastMessage : option string;
  rankName : option string;
}.

Inductive RemovedMember :=
| Named (name : string)
| Entry (name : string) (reason : option string).

(** A JSON value of a key that the schema does not declare. *)
Inductive Json :=
| JNull
| JBool (b : bool)
| JNum (n : Z)
| JStr (s : string).

Definition truthy (v : Json) : bool :=
  match v with
  | JNull => false
  | JBool b => b
  | JNum n => negb (n =? 0)
  | JStr s => negb (String.eqb s "")
  end.

(** [a ?? b] on property reads: [undefined] and [null] fall through. *)
Definition nullish_or (a b : option Json) : option Json :=
  match a with
  | Some JNull | None => b
  | Some v => Some v
  end.

(** [a || b] on property reads. *)
Definition truthy_or (a b : option Json) : option Json :=
  match a with
  | Some v => if truthy v then Some v else b
  | None => b
  end.

Definition truthy_opt (a : option Json) : bool :=
  match a with
  | Some v => truthy v
  | None => false
  end.

(** The upload object: the keys [addonUploadSchema] declares, with
    their validated types, and [undeclared], the other keys of the
    object.  The objects [master_roster], [data] and each [online] are
    lists of their entries in key order.  A request body that passes
    validation and the result of parsing it both have this shape. *)
Record AddonUploadData := {
  master_roster : option (list (string * MasterRosterEntry));
  stats : option (list StatsSnapshot);
  data : option (list (string * ChatDataEntry));
  upload_session_id : option string;
  is_final_batch : option bool;
  batch_index : option Z;
  total_batches : option Z;
  session_phase : option SessionPhase;
  sessionPhase : option SessionPhase;
  roster_mode : option RosterMode;
  removed_members : option (list RemovedMember);
  rosterMode : option RosterMode;
  removedMembers : option (list RemovedMember);
  undeclared : gmap string Json;
}.

(** [addonUploadSchema.parse(req.body)]: the schema is a plain
    [z.object], which keeps the declared keys and strips every other
    key of the body. *)
Definition addonUploadSchema_parse (body : AddonUploadData)
    : AddonUploadData :=
  {| master_roster := master_roster body;
     stats := stats body;
     data := data body;
     upload_session_id := upload_session_id body;
     is_final_batch := is_final_batch body;
     batch_index := batch_index body;
     total_batches := total_batches body;
     session_phase := session_phase body;
     sessionPhase := sessionPhase body;
     roster_mode := roster_mode body;
     removed_members := removed_members body;
     rosterMode := rosterMode body;
     removedMembers := removedMembers body;
     undeclared := ∅ |}.

(** [data.key] for a key that the schema does not declare. *)
Definition prop (d : AddonUploadData) (key : string) : option Json :=
  undeclared d !! key.

Inductive Response :=
| Conflict (expectedBatchIndex : Z) (receivedBatchIndex : option Z)
    (uploaderStatus : UploaderStatus.t)
| SessionPhaseRequired
| Success (rosterMode : option RosterMode)
    (sessionPhase : option SessionPhase)
    (players removed snapshots chatData : Z).

Definition parsePlayerName (fullName defaultRealm : string)
    : string * string :=
  if JS.includes "-" fullName then
    match JS.split "-" fullName with
    | name :: realmParts => (name, JS.join "-" realmParts)
    | [] => (fullName, defaultRealm)
    end
  else (fullName, defaultRealm).

Definition WOW_CLASS_MAP : gmap string string :=
  list_to_map
    [("DEATHKNIGHT", "Death Knight"); ("DEMONHUNTER", "Demon Hunter");
     ("DRUID", "Druid"); ("EVOKER", "Evoker"); ("HUNTER", "Hunter");
     ("MAGE", "Mage"); ("MONK", "Monk"); ("PALADIN", "Paladin");
     ("PRIEST", "Priest"); ("ROGUE", "Rogue"); ("SHAMAN", "Shaman");
     ("WARLOCK", "Warlock"); ("WARRIOR", "Warrior")].

Definition parseRemovedMember (defaultRealm : string)
    (member : RemovedMember) : string * string :=
  let fullName :=
    match member with
    | Named name => name
    | Entry name _ => name
    end in
  parsePlayerName fullName defaultRealm.

Definition removalGuardPassed (removedMembers : list RemovedMember)
    (addUpdateOnly confirmRemovals : Json) (baseRosterHash : option Json)
    : bool :=
  bool_decide (0 < length removedMembers)%nat
  && negb (truthy addUpdateOnly)
  && (truthy confirmRemovals || truthy_opt baseRosterHash).

(** [a || b || null] on the two spellings of an enumerated key. *)
Definition either {A} (a b : option A) : option A :=
  match a with
  | Some v => Some v
  | None => b
  end.

Section Handler.

(** [String.prototype.toUpperCase] *)
Variable toUpperCase : string -> string.

Variable status_defaults : UploaderStatus.column_defaults.

Definition normalizeClass (addonClass : option string) : string :=
  match addonClass with
  | Some c =>
      if JS.truthy_str (Some c)
      then default c (JS.or_str (WOW_CLASS_MAP !! toUpperCase c) None)
      else "Warrior"
  | None => "Warrior"
  end.

(** [n || 80] *)
Definition num_or (n : option Z) (d : Z) : Z :=
  if JS.truthy_num n then default d n else d.

Definition str_or (s : option string) (d : string) : string :=
  default d (JS.or_str s None).

(** [upsertRosterPlayers]: one [upsertPlayer] per roster entry. *)
Definition upsertRosterPlayers (defaultRealm : string)
    (parsed : AddonUploadData) : M Z :=
  match master_roster parsed with
  | None => mret 0
  | Some roster =>
      sum_each roster
        (fun '(fullName, entry) =>
           let '(name, realm) := parsePlayerName fullName defaultRealm in
           Storage.upsertPlayer
             {| Player.i_name := name;
                Player.i_realm := realm;
                Player.i_class := normalizeClass (class entry);
                Player.i_cols :=
                  {| Player.u_level := Some (Some (num_or (lvl entry) 80));
                     Player.u_guildRank :=
                       Some (Some (str_or (rank entry) "Member"));
                     Player.u_isActive := Some (Some true) |} |};;
           mret 1)
        0
  end.

(** The removals of the [final] phase and of a single-batch upload. *)
Definition processRemovals (defaultRealm : string)
    (removedMembers : list RemovedMember) (guardPassed : bool) : M Z :=
  if guardPassed then
    let playersToRemove :=
      parseRemovedMember defaultRealm <$> removedMembers in
    Storage.deactivatePlayersByName playersToRemove
  else mret 0.

(** Step 2 of the handler: the activity snapshots.  The result is
    [snapshotsProcessed]. *)
Definition processStats (defaultRealm : string) (parsed : AddonUploadData)
    : M Z :=
  match stats parsed with
  | None => mret 0
  | Some statsArray =>
      sum_each statsArray
        (fun snapshot =>
           match iso snapshot with
           | None => mret 0
           | Some timestamp =>
               for_each (online snapshot)
                 (fun '(fullName, playerInfo) =>
                    let '(name, realm) :=
                      parsePlayerName fullName defaultRealm in
                    Storage.updatePlayerLastSeen name realm timestamp;;
                    if JS.truthy_str (o_class playerInfo)
                       || JS.truthy_str (o_rank playerInfo)
                    then
                      Storage.upsertPlayer
                        {| Player.i_name := name;
                           Player.i_realm := realm;
                           Player.i_class :=
                             normalizeClass (o_class playerInfo);
                           Player.i_cols :=
                             {| Player.u_level :=
                                  Some (Some (num_or (o_level playerInfo) 80));
                                Player.u_guildRank :=
                                  Some (Some (str_or (o_rank playerInfo)
                                                "Member"));
                                Player.u_isActive := Some (Some true) |} |};;
                      mret tt
                    else mret tt);;
               mret 1
           end)
        0
  end.

(** The [updates] object of step 3. *)
Definition chatUpdates (chatEntry : ChatDataEntry) : Player.update :=
  {| Player.u_messagesCount :=
       match total chatEntry with
       | Some t => Some (Some t)
       | None => None
       end;
     Player.u_guildRank :=
       match rankName chatEntry with
       | Some r =>
           if JS.truthy_str (Some r) && negb (String.eqb r "—")
           then Some (Some r) else None
       | None => None
       end;
     Player.u_lastMessage :=
       if JS.truthy_str (lastMessage chatEntry)
       then Some (lastMessage chatEntry) else None;
     Player.u_lastMessageTime :=
       if JS.truthy_num (lastSeenTS chatEntry)
       then Some (Some (default 0 (lastSeenTS chatEntry) * 1000))
       else match lastSeen chatEntry with
            | Some t => Some (Some t)
            | None => None
            end |}.

Definition nonempty_chat_updates (u : Player.update) : bool :=
  defined (Player.u_messagesCount u)
  || defined (Player.u_guildRank u)
  || defined (Player.u_lastMessage u)
  || defined (Player.u_lastMessageTime u).

(** Step 3 of the handler: the chat counters.  The result is
    [chatDataProcessed]. *)
Definition processChat (defaultRealm : string) (parsed : AddonUploadData)
    : M Z :=
  match data parsed with
  | None => mret 0
  | Some entries =>
      sum_each entries
        (fun '(fullName, chatEntry) =>
           let '(name, realm) := parsePlayerName fullName defaultRealm in
           existing ← Storage.getPlayerByName name realm;
           match existing with
           | Some existing =>
               let updates := chatUpdates chatEntry in
               if nonempty_chat_updates updates then
                 Storage.updatePlayer (Player.id existing) updates;;
                 mret 1
               else mret 0
           | None => mret 0
           end)
        0
  end.

(** [a ?? b ?? false] *)
Definition flag (a b : option Json) : Json :=
  match nullish_or a b with
  | Some JNull | None => JBool false
  | Some v => v
  end.

(** [a || b || null] *)
Definition hash (a b : option Json) : option Json :=
  let h := truthy_or a b in
  if truthy_opt h then h else None.

Definition isBatched (rosterMode : option RosterMode)
    (batchIndex : option Z) (sessionPhase : option SessionPhase) : bool :=
  match rosterMode, batchIndex, sessionPhase with
  | Some mode, Some _, Some _ => negb (bool_decide (mode = no_change))
  | _, _, _ => false
  end.

Definition expectedIndex (sessionPhase : option SessionPhase)
    (uploaderStatus : UploaderStatus.t) : Z :=
  match sessionPhase with
  | Some start => 0
  | _ => default (-1) (UploaderStatus.lastBatchIndex uploaderStatus) + 1
  end.

(** "Process based on roster_mode": the result is
    [(playersProcessed, removedCount)]. *)
Definition processRoster (now : JS.Date) (uploaderId defaultRealm : string)
    (parsed : AddonUploadData) (rosterMode : option RosterMode)
    (sessionPhase : option SessionPhase)
    (incomingSessionId : option string) (isFinalBatch : bool)
    (removedMembers : list RemovedMember) (guardPassed : bool)
    : M (Z * Z) :=
  match rosterMode with
  | Some no_change =>
      Storage.clearUploadSession now uploaderId;;
      mret (0, 0)
  | Some _ =>
      match sessionPhase with
      | Some start =>
          match incomingSessionId with
          | Some sid =>
              if JS.truthy_str (Some sid) then
                currentSession ← Storage.getCurrentUploadSession uploaderId;
                if bool_decide (currentSession = Some sid) then mret tt
                else Storage.startUploadSession now uploaderId sid
              else mret tt
          | None => mret tt
          end;;
          playersProcessed ← upsertRosterPlayers defaultRealm parsed;
          mret (playersProcessed, 0)
      | Some chunk =>
          playersProcessed ← upsertRosterPlayers defaultRealm parsed;
          mret (playersProcessed, 0)
      | Some final =>
          playersProcessed ← upsertRosterPlayers defaultRealm parsed;
          removedCount ←
            processRemovals defaultRealm removedMembers guardPassed;
          Storage.clearUploadSession now uploaderId;;
          mret (playersProcessed, removedCount)
      | None =>
          playersProcessed ← upsertRosterPlayers defaultRealm parsed;
          removedCount ←
            processRemovals defaultRealm removedMembers guardPassed;
          (if isFinalBatch then Storage.clearUploadSession now uploaderId
           else mret tt);;
          mret (playersProcessed, removedCount)
      end
  | None =>
      currentSession ← Storage.getCurrentUploadSession uploaderId;
      match incomingSessionId with
      | Some sid =>
          if JS.truthy_str (Some sid)
             && negb (bool_decide (currentSession = Some sid))
          then
            Storage.markAllPlayersInactive;;
            Storage.startUploadSession now uploaderId sid
          else mret tt
      | None => mret tt
      end;;
      playersProcessed ← upsertRosterPlayers defaultRealm parsed;
      (if 0 <? playersProcessed
       then Storage.incrementUploadProcessedCount uploaderId
              playersProcessed
       else mret tt);;
      (if isFinalBatch && JS.truthy_str incomingSessionId
       then Storage.clearUploadSession now uploaderId
       else mret tt);;
      mret (playersProcessed, 0)
  end.

(** "Update uploader tracking after successful processing". *)
Definition trackUploader (now : JS.Date) (uploaderId : string)
    (isBatchedUpload : bool) (batchIndex totalBatches : option Z)
    (sessionPhase : option SessionPhase)
    (incomingSessionId currentSessionId : option string)
    (isFinalBatch : bool) : M unit :=
  let completed :=
    bool_decide (sessionPhase = Some final) || isFinalBatch in
  let status := if completed then "idle" else "processing" in
  match isBatchedUpload, batchIndex with
  | true, Some batchIndex =>
      Storage.updateUploaderStatus status_defaults now uploaderId
        {| UploaderStatus.u_lastBatchIndex := Some (Some batchIndex);
           UploaderStatus.u_expectedBatchIndex :=
             Some (Some (if completed then 0 else batchIndex + 1));
           UploaderStatus.u_lastSessionId := Some currentSessionId;
           UploaderStatus.u_lastPhase := Some sessionPhase;
           UploaderStatus.u_totalBatches := Some totalBatches;
           UploaderStatus.u_status := Some (Some status);
           UploaderStatus.u_lastError := Some None |};;
      mret tt
  | _, _ =>
      if JS.truthy_str incomingSessionId then
        Storage.updateUploaderStatus status_defaults now uploaderId
          {| UploaderStatus.u_lastSessionId := Some currentSessionId;
             UploaderStatus.u_lastPhase := Some sessionPhase;
             UploaderStatus.u_totalBatches := Some totalBatches;
             UploaderStatus.u_status := Some (Some status);
             UploaderStatus.u_lastError := Some None |};;
        mret tt
      else mret tt
  end.

(** The uploader's status at the start of a request: the stored
    one, reset when the request opens a new session.  The second
    component is [currentSessionId]. *)
Definition beginSession (now : JS.Date) (uploaderId : string)
    (incomingSessionId : option string) (totalBatches : option Z)
    (sessionPhase : option SessionPhase)
    : M (UploaderStatus.t * option string) :=
  uploaderStatus ← Storage.ensureUploaderStatus status_defaults uploaderId;
  let currentSessionId :=
    either incomingSessionId (UploaderStatus.lastSessionId uploaderStatus) in
  uploaderStatus ←
    (if JS.truthy_str incomingSessionId
        && negb (bool_decide
                   (incomingSessionId
                    = UploaderStatus.lastSessionId uploaderStatus))
     then
       Storage.updateUploaderStatus status_defaults now uploaderId
         {| UploaderStatus.u_lastSessionId := Some incomingSessionId;
            UploaderStatus.u_lastBatchIndex := Some (Some (-1));
            UploaderStatus.u_expectedBatchIndex := Some (Some 0);
            UploaderStatus.u_status := Some (Some "processing");
            UploaderStatus.u_totalBatches := Some totalBatches;
            UploaderStatus.u_lastError := Some None;
            UploaderStatus.u_lastPhase := Some sessionPhase |}
     else mret uploaderStatus);
  mret (uploaderStatus, currentSessionId).

(** The handler from [addonUploadSchema.parse(req.body)] on, when no
    statement throws; the checks of the API key before it decide
    [uploaderId].  The entry written to the audit log at the end is not
    modelled.  The [catch] of the handler is in [handleUpload] below. *)
Definition postUpload (now : JS.Date) (uploaderId : string)
    (body : AddonUploadData) : M Response :=
  settings ← Storage.getGuildSettings;
  let parsed := addonUploadSchema_parse body in
  let defaultRealm :=
    str_or (GuildSettings.realm <$> settings) "Unknown" in
  let rosterMode := either (roster_mode parsed) (rosterMode parsed) in
  let sessionPhase := either (session_phase parsed) (sessionPhase parsed) in
  let removedMembers :=
    default [] (either (removed_members parsed) (removedMembers parsed)) in
  let addUpdateOnly :=
    flag (prop parsed "add_update_only") (prop parsed "addUpdateOnly") in
  let confirmRemovals :=
    flag (prop parsed "confirm_removals") (prop parsed "confirmRemovals") in
  let baseRosterHash :=
    hash (prop parsed "base_roster_hash") (prop parsed "baseRosterHash") in
  let batchIndex := batch_index parsed in
  let totalBatches := total_batches parsed in
  let isBatchedUpload := isBatched rosterMode batchIndex sessionPhase in
  let incomingSessionId := upload_session_id parsed in
  let isFinalBatch := bool_decide (is_final_batch parsed = Some true) in
  '(uploaderStatus, currentSessionId) ←
    beginSession now uploaderId incomingSessionId totalBatches sessionPhase;
  let expectedIndex := expectedIndex sessionPhase uploaderStatus in
  if isBatchedUpload && negb (bool_decide (batchIndex = Some expectedIndex))
  then
    status ← Storage.markUploaderOutOfOrder status_defaults now uploaderId
               expectedIndex batchIndex currentSessionId totalBatches
               sessionPhase;
    mret (Conflict expectedIndex batchIndex status)
  else
    let guardPassed :=
      removalGuardPassed removedMembers addUpdateOnly confirmRemovals
        baseRosterHash in
    match rosterMode, batchIndex, sessionPhase with
    | Some (delta | full), Some _, None => mret SessionPhaseRequired
    | _, _, _ =>
        '(playersProcessed, removedCount) ←
          processRoster now uploaderId defaultRealm parsed rosterMode
            sessionPhase incomingSessionId isFinalBatch removedMembers
            guardPassed;
        (if bool_decide (is_Some rosterMode) && (0 <? playersProcessed)
         then Storage.incrementUploadProcessedCount uploaderId
                playersProcessed
         else mret tt);;
        snapshotsProcessed ← processStats defaultRealm parsed;
        chatDataProcessed ← processChat defaultRealm parsed;
        trackUploader now uploaderId isBatchedUpload batchIndex
          totalBatches sessionPhase incomingSessionId currentSessionId
          isFinalBatch;;
        mret (Success rosterMode sessionPhase playersProcessed
                removedCount snapshotsProcessed chatDataProcessed)
    end.

End Handler.

Section Catch.

Variable toUpperCase : string -> string.
Variable status_defaults : UploaderStatus.column_defaults.

(** The database refuses one of the statements that the request issues
    at this time and in this state, as it refuses a value that does not
    fit its column: the statement throws. *)
Variable refuses : JS.Date -> string -> AddonUploadData -> Db -> bool.

(** The handler with its [try] and [catch]: a throw that is not an
    error of validation is answered with status 500, which is [None]
    here.  The statements before the one that threw have been carried
    out; which these are is not modelled, so that nothing is said of the
    database after such a request. *)
Definition handleUpload (now : JS.Date) (uploaderId : string)
    (body : AddonUploadData) (db : Db) : option (Response * Db) :=
  if refuses now uploaderId body db then None
  else Some (postUpload toUpperCase status_defaults now uploaderId body db).

End Catch.

End Upload.

(** ** Run details (unnamed/part_001, fetchRunDetailsWithRoster) *)

Module RunDetails.

Definition CURRENT_SEASON : string := "season-tww-3".

(** The [url] of the run that [fetchRunDetailsWithRoster] builds from
    the details of the run [runId]; [slug] is [runDetails.dungeon?.slug].
    The numbers are printed in decimal, as the template prints a number
    of JavaScript that is an integer below ten to the 21. *)
Definition runUrl (runId mythic_level : Z) (slug : option string) : string :=
  "https://raider.io/mythic-plus-runs/" +:+ CURRENT_SEASON +:+ "/"
    +:+ JS.str runId +:+ "-" +:+ JS.str mythic_level +:+ "-"
    +:+ default "unknown" (JS.or_str slug None).

End RunDetails.

(** ** Read-only endpoints (server/routes.ts, shared/schema.ts) *)

(** The properties that an object literal inherits from
    [Object.prototype]: [object[k]] answers for them without [k] being
    one of its keys, with a function or an object. *)
Definition Object_prototype_keys : list string :=
  ["constructor"; "__defineGetter__"; "__defineSetter__"; "hasOwnProperty";
   "__lookupGetter__"; "__lookupSetter__"; "isPrototypeOf";
   "propertyIsEnumerable"; "toString"; "valueOf"; "__proto__";
   "toLocaleString"].

Module Routes.

(** [l.sort((a, b) => (b.mythicScore || 0) - (a.mythicScore || 0))]:
    higher scores first; the sort is stable, players of equal score
    stay in the order of [l]. *)
Fixpoint insertByScore (p : Player.t) (l : list Player.t) : list Player.t :=
  match l with
  | [] => [p]
  | x :: l' =>
      if JS.num_or0 (Player.mythicScore x) <=? JS.num_or0 (Player.mythicScore p)
      then p :: l
      else x :: insertByScore p l'
  end.

Definition sortByScore (l : list Player.t) : list Player.t :=
  foldr insertByScore [] l.

(** [GET /api/leaderboard] *)
Definition leaderboard : M (list Player.t) :=
  players ← Storage.getPlayers;
  let sorted :=
    take 20
      (sortByScore
         (List.filter (fun p => Storage.is_true (Player.isActive p))
            players)) in
  mret sorted.

(** What [SPEC_ROLE_MAP[spec] || "dps"] can be: one of the three roles,
    or what [Object.prototype] holds under a name it defines. *)
Inductive Role := tank | healer | dps | inherited (key : string).

#[global] Instance Role_eq_dec : EqDecision Role.
Proof. solve_decision. Defined.

Definition SPEC_ROLE_MAP : list (string * Role) :=
  [("Blood", tank); ("Frost", dps); ("Unholy", dps);
   ("Havoc", dps); ("Vengeance", tank);
   ("Balance", dps); ("Feral", dps); ("Guardian", tank);
   ("Restoration", healer);
   ("Devastation", dps); ("Preservation", healer); ("Augmentation", dps);
   ("Beast Mastery", dps); ("Marksmanship", dps); ("Survival", dps);
   ("Arcane", dps); ("Fire", dps);
   ("Brewmaster", tank); ("Mistweaver", healer); ("Windwalker", dps);
   ("Holy", healer); ("Protection", tank); ("Retribution", dps);
   ("Discipline", healer); ("Shadow", dps);
   ("Assassination", dps); ("Outlaw", dps); ("Subtlety", dps);
   ("Elemental", dps); ("Enhancement", dps);
   ("Affliction", dps); ("Demonology", dps); ("Destruction", dps);
   ("Arms", dps); ("Fury", dps)].

(** [p.spec ? SPEC_ROLE_MAP[p.spec] || "dps" : "dps"] *)
Definition roleOf (spec : option string) : Role :=
  match spec with
  | Some s =>
      if JS.truthy_str spec then
        match List.find (fun kv => String.eqb (fst kv) s) SPEC_ROLE_MAP with
        | Some kv => snd kv
        | None =>
            if bool_decide (s ∈ Object_prototype_keys) then inherited s
            else dps
        end
      else dps
  | None => dps
  end.

(** [playerRole === "tank" ? "Tank" : playerRole === "healer" ? "Healer"
    : "DPS"] *)
Definition roleLabelOf (r : Role) : string :=
  match r with
  | tank => "Tank"
  | healer => "Healer"
  | _ => "DPS"
  end.

(** [l.findIndex(p => p.id === id)]: [None] for [-1]. *)
Fixpoint findIndex (id : Id) (l : list Player.t) : option nat :=
  match l with
  | [] => None
  | p :: l' =>
      if Nat.eqb (Player.id p) id then Some 0%nat
      else S <$> findIndex id l'
  end.

(** [idx >= 0 ? idx + 1 : null] *)
Definition rankOf (idx : option nat) : option Z :=
  (fun i => Z.of_nat i + 1) <$> idx.

Record Rankings := {
  globalRank : option Z;
  totalPlayers : Z;
  roleRank : option Z;
  totalInRole : Z;
  role : Role;
  roleLabel : string;
  r_mythicScore : Z;
}.

Inductive RankingsResponse :=
  | NotFound                 (* 404 *)
  | Ranked (r : Rankings).   (* 200 *)

(** [GET /api/players/:id/rankings] *)
Definition rankings (id : Id) : M RankingsResponse :=
  player ← Storage.getPlayer id;
  match player with
  | None => mret NotFound
  | Some player =>
      allPlayers ← Storage.getPlayers;
      let rankingPool :=
        List.filter (fun p => Storage.is_true (Player.isActive p))
          allPlayers in
      let rankingPool :=
        if negb (Storage.is_true (Player.isActive player))
        then rankingPool ++ [player]
        else rankingPool in
      if (length rankingPool =? 0)%nat then
        mret (Ranked
          {| globalRank := None; totalPlayers := 0;
             roleRank := None; totalInRole := 0;
             role := dps; roleLabel := "DPS";
             r_mythicScore := JS.num_or0 (Player.mythicScore player) |})
      else
        let sortedByScore := sortByScore rankingPool in
        let globalRankIdx := findIndex (Player.id player) sortedByScore in
        let playerRole := roleOf (Player.spec player) in
        let rolePlayers :=
          sortByScore
            (List.filter
               (fun p => bool_decide (roleOf (Player.spec p) = playerRole))
               rankingPool) in
        let roleRankIdx := findIndex (Player.id player) rolePlayers in
        mret (Ranked
          {| globalRank := rankOf globalRankIdx;
             totalPlayers := Z.of_nat (length sortedByScore);
             roleRank := rankOf roleRankIdx;
             totalInRole := Z.of_nat (length rolePlayers);
             role := playerRole;
             roleLabel := roleLabelOf playerRole;
             r_mythicScore := JS.num_or0 (Player.mythicScore player) |})
  end.

End Routes.

(** ** Activity snapshots and the heatmap (server/storage.ts) *)

Module ActivitySnapshot.

Record t := {
  id : Id;
  timestamp : JS.Date;
  totalOnline : Z;
  dayOfWeek : Z;
  hourOfDay : Z;
}.

(** [InsertActivitySnapshot], as the upload handler, its only caller,
    fills it: with the timestamp. *)
Record insert := {
  i_timestamp : JS.Date;
  i_totalOnline : Z;
  i_dayOfWeek : Z;
  i_hourOfDay : Z;
}.

Definition of_insert (i : Id) (r : insert) : t :=
  {| id := i;
     timestamp := i_timestamp r;
     totalOnline := i_totalOnline r;
     dayOfWeek := i_dayOfWeek r;
     hourOfDay := i_hourOfDay r |}.

End ActivitySnapshot.

Module Snapshots.

Import ActivitySnapshot.

(** The table [activity_snapshots], and the next key that
    [gen_random_uuid()] gives. *)
Record Table := {
  rows : list ActivitySnapshot.t;
  nextRow : Id;
}.

(** The [WHERE] clause of [createActivitySnapshot]. *)
Definition sameBucket (insertSnapshot : insert) (r : t) : bool :=
  (dayOfWeek r =? i_dayOfWeek insertSnapshot)
  && (hourOfDay r =? i_hourOfDay insertSnapshot)
  && (JS.sql_DATE (timestamp r) =? JS.sql_DATE (i_timestamp insertSnapshot)).

(** [SET total_online = ..., timestamp = ...] on one row. *)
Definition overwrite (insertSnapshot : insert) (r : t) : t :=
  {| id := id r;
     timestamp := i_timestamp insertSnapshot;
     totalOnline := i_totalOnline insertSnapshot;
     dayOfWeek := dayOfWeek r;
     hourOfDay := hourOfDay r |}.

(** The row returned is [None] where the source has [undefined]. *)
Definition createActivitySnapshot (insertSnapshot : insert) (tb : Table)
    : option t * Table :=
  match List.find (sameBucket insertSnapshot) (rows tb) with
  | Some existing =>
      let rows' :=
        List.map (fun r =>
                    if Nat.eqb (id r) (id existing)
                    then overwrite insertSnapshot r else r)
          (rows tb) in
      (List.find (fun r => Nat.eqb (id r) (id existing)) rows',
       {| rows := rows'; nextRow := nextRow tb |})
  | None =>
      let snapshot := of_insert (nextRow tb) insertSnapshot in
      (Some snapshot,
       {| rows := rows tb ++ [snapshot]; nextRow := S (nextRow tb) |})
  end.

(** [ORDER BY timestamp DESC]; rows of equal timestamp stay in table
    order. *)
Fixpoint insertByTimestamp (r : t) (l : list t) : list t :=
  match l with
  | [] => [r]
  | x :: l' =>
      if timestamp x <=? timestamp r then r :: l
      else x :: insertByTimestamp r l'
  end.

Definition getActivitySnapshots (tb : Table) : list t :=
  foldr insertByTimestamp [] (rows tb).

Record Cell := {
  day : Z;
  hour : Z;
  value : Z;
}.

(** [`${day}-${hour}`] *)
Definition cellKey (day hour : Z) : string :=
  JS.str day +:+ "-" +:+ JS.str hour.

(** The [aggregated] object: [(total, count)] under each key. *)
Definition Aggregated := gmap string (Z * Z).

(** [for (let day = 0; day < 7; day++)] and
    [for (let hour = 0; hour < 24; hour++)] *)
Definition days : list Z := seqZ 0 7.
Definition hours : list Z := seqZ 0 24.

(** The first loop: a zero under the key of each cell. *)
Definition emptyCells : Aggregated :=
  foldl (fun aggregated day =>
           foldl (fun aggregated hour =>
                    <[cellKey day hour := (0, 0)]> aggregated)
             aggregated hours)
    ∅ days.

(** One round of the second loop.  [aggregated[key]] is truthy for the
    keys of the object and for the names it inherits; under an
    inherited name the total is added to a property of what
    [Object.prototype] holds there, and no cell changes. *)
Definition addSnapshot (aggregated : Aggregated) (snapshot : t)
    : Aggregated :=
  let key := cellKey (dayOfWeek snapshot) (hourOfDay snapshot) in
  if bool_decide (key ∈ Object_prototype_keys) then aggregated
  else
    match aggregated !! key with
    | Some (total, count) =>
        <[key := (total + totalOnline snapshot, count + 1)]> aggregated
    | None => aggregated
    end.

(** [count > 0 ? Math.round(total / count) : 0] *)
Definition cellValue (total count : Z) : Z :=
  if 0 <? count then JS.Math_round (inject_Z total / inject_Z count)%Q
  else 0.

(** The third loop reads the keys that the first loop wrote. *)
Definition getHeatmapData (tb : Table) : list Cell :=
  let snapshots := getActivitySnapshots tb in
  let aggregated := foldl addSnapshot emptyCells snapshots in
  List.flat_map
    (fun day =>
       List.map
         (fun hour =>
            let '(total, count) :=
              default (0, 0) (aggregated !! cellKey day hour) in
            {| day := day; hour := hour; value := cellValue total count |})
         hours)
    days.

End Snapshots.

(** ** Import of the guild roster (unnamed/part_001) *)

Module GuildImport.

Record GuildMember := {
  character_name : string;
  character_realm : string;
  character_class : string;
  active_spec_name : option string;
  race : option string;
  rank : Z;
}.

Record GuildProfile := {
  members : option (list GuildMember);
}.

Record ImportResult := {
  imported : Z;
  skipped : Z;
  failed : Z;
}.

(** [ranks[rank] || "Member"] *)
Definition getRankName (rank : Z) : string :=
  let ranks :=
    ["Guild Master"; "Officer"; "Officer Alt"; "Raider"; "Member"; "Trial";
     "Alt"; "Initiate"; "Social"] in
  if rank <? 0 then "Member"
  else default "Member" (JS.or_str (ranks !! Z.to_nat rank) None).

Section Roster.

Variable toLowerCase : string -> string.

(** The inserts that the database refuses, a value too long for its
    column for one: [createPlayer] throws and the member is counted as
    failed. *)
Variable refused : Player.insert -> bool.

(** [`${name.toLowerCase()}-${realm.toLowerCase()}`] *)
Definition playerKey (name realm : string) : string :=
  toLowerCase name +:+ "-" +:+ toLowerCase realm.

Definition memberInsert (member : GuildMember) : Player.insert :=
  {| Player.i_name := character_name member;
     Player.i_realm := character_realm member;
     Player.i_class := character_class member;
     Player.i_cols :=
       {| Player.u_spec :=
            Some (Some (default "" (JS.or_str (active_spec_name member)
                                      None)));
          Player.u_race :=
            Some (Some (default "" (JS.or_str (race member) None)));
          Player.u_guildRank := Some (Some (getRankName (rank member)));
          Player.u_itemLevel := Some (Some 0);
          Player.u_mythicScore := Some (Some 0);
          Player.u_messagesCount := Some (Some 0);
          Player.u_isActive := Some (Some true) |} |}.

(** One round of the loop over the members; [existingNames] and the
    three counters are the state of the loop. *)
Definition importMember (member : GuildMember)
    (state : gset string * ImportResult) : M (gset string * ImportResult) :=
  let '(existingNames, counts) := state in
  let key := playerKey (character_name member) (character_realm member) in
  if bool_decide (key ∈ existingNames) then
    mret (existingNames,
          {| imported := imported counts;
             skipped := skipped counts + 1;
             failed := failed counts |})
  else if refused (memberInsert member) then
    mret (existingNames,
          {| imported := imported counts;
             skipped := skipped counts;
             failed := failed counts + 1 |})
  else
    Storage.createPlayer (memberInsert member);;
    mret ({[key]} ∪ existingNames,
          {| imported := imported counts + 1;
             skipped := skipped counts;
             failed := failed counts |}).

Fixpoint importMembers (members : list GuildMember)
    (state : gset string * ImportResult) : M (gset string * ImportResult) :=
  match members with
  | [] => mret state
  | member :: rest =>
      state ← importMember member state;
      importMembers rest state
  end.

(** [response] is the guild profile that the request for it answered;
    [None] when the request was refused: the import throws. *)
Definition importGuildRoster (response : option GuildProfile)
    : M (option ImportResult) :=
  match response with
  | None => mret None
  | Some guildData =>
      match members guildData with
      | None | Some [] =>
          mret (Some {| imported := 0; skipped := 0; failed := 0 |})
      | Some members =>
          existingPlayers ← Storage.getPlayers;
          let existingNames : gset string :=
            list_to_set
              ((fun p => playerKey (Player.name p) (Player.realm p))
                 <$> existingPlayers) in
          state ← importMembers members
                    (existingNames,
                     {| imported := 0; skipped := 0; failed := 0 |});
          mret (Some (snd state))
      end
  end.

End Roster.

End GuildImport.

(** ** Synchronisation cycles (unnamed/part_001) *)

Module SyncCycle.

Definition BATCH_SIZE : Z := 500.

(** The fields of [syncState] that the cycles write. *)
Record SyncState := {
  isRunning : bool;
  currentBatch : Z;
  totalBatches : Z;
  lastSyncStart : option JS.Date;
  playersUpdated : Z;
  playersSkipped : Z;
  playersFailed : Z;
}.

(** [syncState.playersUpdated++], [playersSkipped++] or
    [playersFailed++] *)
Definition count (result : RioSync.SyncResult) (st : SyncState)
    : SyncState :=
  {| isRunning := isRunning st;
     currentBatch := currentBatch st;
     totalBatches := totalBatches st;
     lastSyncStart := lastSyncStart st;
     playersUpdated :=
       playersUpdated st
       + (if result is RioSync.updated then 1 else 0);
     playersSkipped :=
       playersSkipped st
       + (if result is RioSync.skipped then 1 else 0);
     playersFailed :=
       playersFailed st
       + (if result is RioSync.failed then 1 else 0) |}.

Definition with_isRunning (b : bool) (st : SyncState) : SyncState :=
  {| isRunning := b;
     currentBatch := currentBatch st;
     totalBatches := totalBatches st;
     lastSyncStart := lastSyncStart st;
     playersUpdated := playersUpdated st;
     playersSkipped := playersSkipped st;
     playersFailed := playersFailed st |}.

Definition with_batch (current total : Z) (st : SyncState) : SyncState :=
  {| isRunning := isRunning st;
     currentBatch := current;
     totalBatches := total;
     lastSyncStart := lastSyncStart st;
     playersUpdated := playersUpdated st;
     playersSkipped := playersSkipped st;
     playersFailed := playersFailed st |}.

(** [Math.ceil(length / BATCH_SIZE)] *)
Definition batchesFor (length : nat) : Z :=
  Qceiling (inject_Z (Z.of_nat length) / inject_Z BATCH_SIZE)%Q.

(** [l.slice(start, end)]: a negative index counts from the end, and
    both are brought within the array. *)
Definition slice {A} (start stop : Z) (l : list A) : list A :=
  let len := Z.of_nat (length l) in
  let from := if start <? 0 then Z.max (len + start) 0 else Z.min start len in
  let to := if stop <? 0 then Z.max (len + stop) 0 else Z.min stop len in
  take (Z.to_nat (to - from)) (drop (Z.to_nat from) l).

Section Cycle.

Variable toLowerCase : string -> string.
Variable fetchRunDetails : Z -> option RioSync.RaiderIORun.

(** What [fetchPlayerFromRaiderIO] answers for a name and realm. *)
Variable fetchPlayerFromRaiderIO :
  string -> string -> option RioSync.RaiderIOProfile.

(** The time at which a player is synchronised. *)
Variable clock : Player.t -> JS.Date.

(** The order in which [Array.prototype.sort] leaves the active
    players under the comparator of [getPlayersToSync], which answers
    at random for players synchronised within the same hour. *)
Variable sortForSync : list Player.t -> list Player.t.

Definition getPlayersToSync : M (list Player.t) :=
  players ← Storage.getPlayers;
  let activePlayers :=
    List.filter (fun p => Storage.is_true (Player.isActive p)) players in
  mret (sortForSync activePlayers).

(** [syncPlayer(player, region)] with the cache as it is. *)
Definition syncOne (guildPlayerCache : gmap string Player.t)
    (player : Player.t) : M RioSync.SyncResult :=
  RioSync.syncPlayer toLowerCase fetchRunDetails (clock player)
    guildPlayerCache
    (fetchPlayerFromRaiderIO (Player.name player) (Player.realm player))
    player.

(** [syncPlayer] throws for this player in this state, the database
    having refused one of its statements, and leaves the database as
    given; [None] when it returns. *)
Variable thrown : Player.t -> Db -> option Db.

(** The loop over the players of a batch; the first component of the
    result says whether a call of [syncPlayer] threw, which ends the
    loop. *)
Fixpoint syncEach (guildPlayerCache : gmap string Player.t)
    (players : list Player.t) (st : SyncState) : M (bool * SyncState) :=
  match players with
  | [] => mret (false, st)
  | player :: rest =>
      db ← get;
      match thrown player db with
      | Some after => modify (fun _ => after);; mret (true, st)
      | None =>
          result ← syncOne guildPlayerCache player;
          syncEach guildPlayerCache rest (count result st)
      end
  end.

Definition syncBatch (players : list Player.t) (st : SyncState)
    : M (bool * SyncState) :=
  allPlayers ← Storage.getPlayers;
  let guildPlayerCache :=
    RioSync.refreshGuildPlayerCache toLowerCase allPlayers in
  syncEach guildPlayerCache players st.

(** The loop [for (let i = 0; i < totalBatches; i++)], from [i] on,
    with [todo] rounds left; a throw ends it.  The entry of the audit
    log that follows the loop is written to a table that is not
    modelled. *)
Fixpoint syncBatches (allPlayers : list Player.t) (i : Z) (todo : nat)
    (st : SyncState) : M (bool * SyncState) :=
  match todo with
  | O => mret (false, st)
  | S todo' =>
      let st := with_batch (i + 1) (SyncCycle.totalBatches st) st in
      let batchStart := i * BATCH_SIZE in
      let batchEnd :=
        Z.min (batchStart + BATCH_SIZE) (Z.of_nat (length allPlayers)) in
      let batch := slice batchStart batchEnd allPlayers in
      '(threw, st) ← syncBatch batch st;
      if threw : bool then mret (true, st)
      else syncBatches allPlayers (i + 1) todo' st
  end.

(** [catch] logs what was thrown and [finally] resets [isRunning]: the
    call returns in either case. *)
Definition startRaiderIOSync (now : JS.Date) (st : SyncState)
    : M SyncState :=
  if isRunning st then mret st
  else
    let st :=
      {| isRunning := true;
         currentBatch := currentBatch st;
         totalBatches := totalBatches st;
         lastSyncStart := Some now;
         playersUpdated := 0;
         playersSkipped := 0;
         playersFailed := 0 |} in
    allPlayers ← getPlayersToSync;
    let totalBatches := batchesFor (length allPlayers) in
    let st := with_batch (currentBatch st) totalBatches st in
    '(_, st) ← syncBatches allPlayers 0 (Z.to_nat totalBatches) st;
    mret (with_isRunning false st).

Record BatchReport := {
  batch : Z;
  r_totalBatches : Z;
  updated : Z;
  skipped : Z;
  failed : Z;
}.

(** The loop of [syncNextBatch], which counts for the report and for
    [syncState]. *)
Fixpoint syncCounted (guildPlayerCache : gmap string Player.t)
    (players : list Player.t) (report : BatchReport) (st : SyncState)
    : M (BatchReport * SyncState) :=
  match players with
  | [] => mret (report, st)
  | player :: rest =>
      result ← syncOne guildPlayerCache player;
      let report :=
        {| batch := batch report;
           r_totalBatches := r_totalBatches report;
           updated :=
             updated report
             + (if result is RioSync.updated then 1 else 0);
           skipped :=
             skipped report
             + (if result is RioSync.skipped then 1 else 0);
           failed :=
             failed report
             + (if result is RioSync.failed then 1 else 0) |} in
      syncCounted guildPlayerCache rest report (count result st)
  end.

Definition syncNextBatch (now : JS.Date) (st : SyncState)
    : M (BatchReport * SyncState) :=
  if isRunning st then
    mret ({| batch := currentBatch st;
             r_totalBatches := totalBatches st;
             updated := 0; skipped := 0; failed := 0 |},
          st)
  else
    let st :=
      {| isRunning := true;
         currentBatch := currentBatch st;
         totalBatches := totalBatches st;
         lastSyncStart := Some now;
         playersUpdated := playersUpdated st;
         playersSkipped := playersSkipped st;
         playersFailed := playersFailed st |} in
    cachedPlayers ← Storage.getPlayers;
    let guildPlayerCache :=
      RioSync.refreshGuildPlayerCache toLowerCase cachedPlayers in
    allPlayers ← getPlayersToSync;
    let totalBatches := batchesFor (length allPlayers) in
    let st := with_batch (currentBatch st + 1) totalBatches st in
    let st :=
      if totalBatches <? currentBatch st then with_batch 1 totalBatches st
      else st in
    let startIdx := (currentBatch st - 1) * BATCH_SIZE in
    let batch := slice startIdx (startIdx + BATCH_SIZE) allPlayers in
    '(report, st) ←
      syncCounted guildPlayerCache batch
        {| batch := currentBatch st;
           r_totalBatches := totalBatches;
           updated := 0; skipped := 0; failed := 0 |}
        st;
    mret (report, with_isRunning false st).

End Cycle.

End SyncCycle.

(** ** Global statistics (server/stats-aggregator.ts) *)

Module GlobalStats.

Record RunsByLevel := {
  low : Z;
  mid : Z;
  high : Z;
  elite : Z;
}.

Record t := {
  totalRunsTracked : Z;
  avgRunsPerPlayer : Z;
  totalInTime : Z;
  totalOverTime : Z;
  runsByLevel : RunsByLevel;
  topDungeons : list (string * Z);
}.

(** The accumulators of the loop over the active players;
    [dungeonCounts] is a [Map], which keeps its keys in the order of
    their first insertion. *)
Record Totals := {
  t_totalRunsTracked : Z;
  t_totalInTime : Z;
  t_totalOverTime : Z;
  t_runsByLevel : RunsByLevel;
  t_dungeonCounts : list (string * Z);
}.

Definition addPlayer (acc : Totals) (player : Player.t) : Totals :=
  {| t_totalRunsTracked :=
       t_totalRunsTracked acc + JS.num_or0 (Player.totalRunsTracked player);
     t_totalInTime :=
       t_totalInTime acc + JS.num_or0 (Player.runsInTime player);
     t_totalOverTime :=
       t_totalOverTime acc + JS.num_or0 (Player.runsOverTime player);
     t_runsByLevel :=
       {| low := low (t_runsByLevel acc)
                 + JS.num_or0 (Player.runsByLevelLow player);
          mid := mid (t_runsByLevel acc)
                 + JS.num_or0 (Player.runsByLevelMid player);
          high := high (t_runsByLevel acc)
                  + JS.num_or0 (Player.runsByLevelHigh player);
          elite := elite (t_runsByLevel acc)
                   + JS.num_or0 (Player.runsByLevelElite player) |};
     t_dungeonCounts :=
       match Player.mostPlayedDungeon player with
       | Some d =>
           if JS.truthy_str (Some d)
           then StatsAggregator.increment d (t_dungeonCounts acc)
           else t_dungeonCounts acc
       | None => t_dungeonCounts acc
       end |}.

(** [entries.sort((a, b) => b[1] - a[1])]: higher counts first, entries
    of equal count in the order they had. *)
Fixpoint insertByCount (e : string * Z) (l : list (string * Z))
    : list (string * Z) :=
  match l with
  | [] => [e]
  | x :: l' =>
      if snd x <=? snd e then e :: l else x :: insertByCount e l'
  end.

Definition sortByCount (l : list (string * Z)) : list (string * Z) :=
  foldr insertByCount [] l.

Definition getGlobalStats : M t :=
  players ← Storage.getPlayers;
  let activePlayers :=
    List.filter (fun p => Storage.is_true (Player.isActive p)) players in
  let totals :=
    fold_left addPlayer activePlayers
      {| t_totalRunsTracked := 0;
         t_totalInTime := 0;
         t_totalOverTime := 0;
         t_runsByLevel := {| low := 0; mid := 0; high := 0; elite := 0 |};
         t_dungeonCounts := [] |} in
  let topDungeons := take 5 (sortByCount (t_dungeonCounts totals)) in
  mret {| totalRunsTracked := t_totalRunsTracked totals;
          avgRunsPerPlayer :=
            if (0 <? length activePlayers)%nat
            then JS.Math_round
                   (inject_Z (t_totalRunsTracked totals)
                    / inject_Z (Z.of_nat (length activePlayers)))%Q
            else 0;
          totalInTime := t_totalInTime totals;
          totalOverTime := t_totalOverTime totals;
          runsByLevel := t_runsByLevel totals;
          topDungeons := topDungeons |}.

End GlobalStats.

(** ** Predicates used by the properties *)

(** The counters of a player agree with one another: that many runs in
    time and over time, and that many per level bracket, as runs
    tracked.  [StatsAggregator.updatePlayerStats] keeps this, and a new
    row has it. *)
Definition counters_consistent (p : Player.t) : Prop :=
  0 <= JS.num_or0 (Player.runsInTime p) /\
  0 <= JS.num_or0 (Player.runsOverTime p) /\
  0 <= JS.num_or0 (Player.runsByLevelLow p) /\
  0 <= JS.num_or0 (Player.runsByLevelMid p) /\
  0 <= JS.num_or0 (Player.runsByLevelHigh p) /\
  0 <= JS.num_or0 (Player.runsByLevelElite p) /\
  JS.num_or0 (Player.totalRunsTracked p)
    = JS.num_or0 (Player.runsInTime p) + JS.num_or0 (Player.runsOverTime p) /\
  JS.num_or0 (Player.totalRunsTracked p)
    = JS.num_or0 (Player.runsByLevelLow p)
      + JS.num_or0 (Player.runsByLevelMid p)
      + JS.num_or0 (Player.runsByLevelHigh p)
      + JS.num_or0 (Player.runsByLevelElite p).

(** [q] is the row [p] after some updates that did not deactivate it. *)
Definition same_player (p q : Player.t) : Prop :=
  Player.id q = Player.id p /\
  Player.name q = Player.name p /\
  Player.realm q = Player.realm p /\
  (Player.isActive p = Some true -> Player.isActive q = Some true).

(** From [a] to [b] no player was deleted or deactivated: the rows of
    [a] are still there, in place, and rows may have been added. *)
Definition keeps_active (a b : Db) : Prop :=
  exists kept added,
    players b = kept ++ added /\ Forall2 same_player (players a) kept.

(** From [a] to [b] only the uploader statuses changed. *)
Definition roster_untouched (a b : Db) : Prop :=
  players b = players a /\
  mythicRuns b = mythicRuns a /\
  guildMythicRuns b = guildMythicRuns a /\
  activityEvents b = activityEvents a /\
  guildSettings b = guildSettings a.

(** An update that does not clear [isActive]. *)
Definition no_deactivation (u : Player.update) : Prop :=
  Player.u_isActive u = None \/ Player.u_isActive u = Some (Some true).

(** The number of removals a response reports, 0 for a rejection. *)
Definition removed_of (r : Upload.Response) : Z :=
  match r with
  | Upload.Success _ _ _ removed _ _ => removed
  | _ => 0
  end.


(** From [a] to [b] the stored runs and the players are the same. *)
Definition runs_untouched (a b : Db) : Prop :=
  mythicRuns b = mythicRuns a /\ players b = players a.


(** [key] is what follows the last slash of [u], or [u] when it has no
    slash. *)
Definition lastSegment (u key : string) : Prop :=
  JS.includes "/" key = false /\
  (u = key \/ exists before, u = before +:+ String "/" key).

(** The key of a run as it is derived from the run: the last segment of
    its URL or, without URL, the dungeon, the level and the time of
    completion in milliseconds since the epoch. *)
Definition derivedKey (run : RioSync.RaiderIORun) (key : string) : Prop :=
  (exists u, RioSync.url run = Some u /\ u <> "" /\ lastSegment u key)
  \/ ((RioSync.url run = None \/ RioSync.url run = Some "")
      /\ key = RioSync.dungeon run +:+ "-"
                +:+ JS.str (RioSync.mythic_level run) +:+ "-"
                +:+ JS.str (RioSync.completed_at run)).

(** The keys of the stored guild runs. *)
Definition guildRunKeys (db : Db) : list string :=
  GuildMythicRun.runKey <$> guildMythicRuns db.

(** The guild members that the cache finds in the roster of the run. *)
Definition matchedMembers (toLowerCase : string -> string)
    (cache : gmap string Player.t) (run : RioSync.RaiderIORun)
    : list Player.t :=
  match RioSync.roster run with
  | Some members => RioSync.guildMembersOf toLowerCase cache members
  | None => []
  end.

(** The guild run [g] and the event [e] record the run: the guild run
    has the key, the dungeon, the level and the time of the run and
    lists the matched members by id and by name; the event belongs to
    the first of them and its description lists them all. *)
Definition records (toLowerCase : string -> string)
    (cache : gmap string Player.t) (run : RioSync.RaiderIORun)
    (g : GuildMythicRun.t) (e : ActivityEvent.t) : Prop :=
  let guildMembers := matchedMembers toLowerCase cache run in
  GuildMythicRun.runKey g = RioSync.generateRunKey run /\
  GuildMythicRun.dungeon g = RioSync.dungeon run /\
  GuildMythicRun.mythicLevel g = RioSync.mythic_level run /\
  GuildMythicRun.completedAt g = RioSync.completed_at run /\
  GuildMythicRun.guildPlayerIds g = Player.id <$> guildMembers /\
  GuildMythicRun.guildPlayerNames g = Player.name <$> guildMembers /\
  GuildMythicRun.totalGuildMembers g = Z.of_nat (length guildMembers) /\
  ActivityEvent.type e = "guild_mythic_run" /\
  Some (ActivityEvent.playerId e) = Player.id <$> head guildMembers /\
  Some (ActivityEvent.playerName e) = Player.name <$> head guildMembers /\
  ActivityEvent.timestamp e = RioSync.completed_at run /\
  ActivityEvent.description e
  = Some ("Guild group: " +:+ JS.join ", " (Player.name <$> guildMembers)).

(** The timestamp falls on the calendar day [day], the days being
    counted from the epoch. *)
Definition onDay (day : Z) (t : JS.Date) : Prop :=
  day * JS.MS_PER_DAY <= t < (day + 1) * JS.MS_PER_DAY.

(** The row is a run of the player, in the dungeon, at the level, on
    the day. *)
Definition inSlot (playerId : Id) (dungeon : string) (keyLevel day : Z)
    (r : MythicRun.t) : Prop :=
  MythicRun.playerId r = playerId /\
  MythicRun.dungeon r = dungeon /\
  MythicRun.keyLevel r = keyLevel /\
  onDay day (MythicRun.timestamp r).

(** The ranges of the column types [integer], [text], [varchar(n)],
    [real] and [timestamp]: for a text, no character of code zero; for
    [real], zero and the magnitudes from ten to the -37 to 3.4 times ten
    to the 38; for [timestamp], the dates of JavaScript from 1970 on.  A
    string of at most [n] bytes has at most [n] characters. *)
Definition int4 (n : Z) : Prop := -2147483648 <= n <= 2147483647.

Definition text (s : string) : Prop :=
  JS.includes (ascii_of_nat 0) s = false.

Definition varchar (n : nat) (s : string) : Prop :=
  (String.length s <= n)%nat /\ text s.

Definition real (q : Q) : Prop :=
  (q == 0
   \/ (1 # 10000000000000000000000000000000000000 <= q
       /\ q <= inject_Z 340000000000000000000000000000000000000)
   \/ (inject_Z (-340000000000000000000000000000000000000) <= q
       /\ q <= -1 # 10000000000000000000000000000000000000))%Q.

Definition timestamptz (t : JS.Date) : Prop := 0 <= t <= 8640000000000000.

(** The property holds of the value of a column, when the object gives
    one. *)
Definition given {A} (P : A -> Prop) (c : Upd (option A)) : Prop :=
  match c with
  | Some (Some v) => P v
  | _ => True
  end.

(** The columns of [mythic_runs] take the values of the run
    (shared/schema.ts 196-211): no statement that writes them is
    refused. *)
Definition storable (r : MythicRun.insert) : Prop :=
  varchar 100 (MythicRun.i_dungeon r) /\
  int4 (MythicRun.i_keyLevel r) /\
  int4 (MythicRun.i_completionTime r) /\
  real (MythicRun.i_timerPercent r) /\
  int4 (MythicRun.i_score r) /\
  given (fun affixes =>
           forallb (fun a => negb (JS.includes (ascii_of_nat 0) a)) affixes
           = true)
    (MythicRun.i_affixes r) /\
  timestamptz (MythicRun.i_timestamp r) /\
  given (varchar 500) (MythicRun.i_url r) /\
  given int4 (MythicRun.i_clearTimeMs r) /\
  given int4 (MythicRun.i_parTimeMs r) /\
  given (varchar 20) (MythicRun.i_role r) /\
  given (varchar 50) (MythicRun.i_spec r).

(** The value that a column without default takes from an [INSERT]:
    [NULL] when the object leaves it out. *)
Definition inserted {A} (c : Upd (option A)) : option A :=
  match c with
  | Some v => v
  | None => None
  end.

(** The value of a column after [UPDATE ... SET]: the old one when the
    object leaves the column out. *)
Definition updated {A} (c : Upd (option A)) (old : option A) : option A :=
  match c with
  | Some v => v
  | None => old
  end.

(** A whole number of a magnitude below 2 to the 24, which a [real]
    column holds as it is; of another number the column holds the number
    of single precision that is nearest. *)
Definition whole (q : Q) : Prop :=
  exists n : Z, q = inject_Z n /\ -16777216 < n < 16777216.

(** The row is the run as inserted; of [timerPercent] this is said for
    the whole numbers only. *)
Definition holds (x : MythicRun.t) (r : MythicRun.insert) : Prop :=
  (whole (MythicRun.i_timerPercent r) ->
   MythicRun.timerPercent x = MythicRun.i_timerPercent r) /\
  MythicRun.playerId x = MythicRun.i_playerId r /\
  MythicRun.dungeon x = MythicRun.i_dungeon r /\
  MythicRun.keyLevel x = MythicRun.i_keyLevel r /\
  MythicRun.completionTime x = MythicRun.i_completionTime r /\
  MythicRun.score x = MythicRun.i_score r /\
  MythicRun.affixes x = inserted (MythicRun.i_affixes r) /\
  MythicRun.timestamp x = MythicRun.i_timestamp r /\
  MythicRun.url x = inserted (MythicRun.i_url r) /\
  MythicRun.clearTimeMs x = inserted (MythicRun.i_clearTimeMs r) /\
  MythicRun.parTimeMs x = inserted (MythicRun.i_parTimeMs r) /\
  MythicRun.role x = inserted (MythicRun.i_role r) /\
  MythicRun.spec x = inserted (MythicRun.i_spec r).

(** The row [y] is the row [x] overwritten with the run: the time, the
    score, the affixes and the two durations are those of the run, and
    the id, the player, the dungeon, the level, the timestamp, the URL,
    the role and the specialisation are those of [x]; so is
    [timerPercent] that of the run when it is a whole number. *)
Definition overwritten (x : MythicRun.t) (r : MythicRun.insert)
    (y : MythicRun.t) : Prop :=
  (whole (MythicRun.i_timerPercent r) ->
   MythicRun.timerPercent y = MythicRun.i_timerPercent r) /\
  MythicRun.id y = MythicRun.id x /\
  MythicRun.playerId y = MythicRun.playerId x /\
  MythicRun.dungeon y = MythicRun.dungeon x /\
  MythicRun.keyLevel y = MythicRun.keyLevel x /\
  MythicRun.timestamp y = MythicRun.timestamp x /\
  MythicRun.url y = MythicRun.url x /\
  MythicRun.role y = MythicRun.role x /\
  MythicRun.spec y = MythicRun.spec x /\
  MythicRun.completionTime y = MythicRun.i_completionTime r /\
  MythicRun.score y = MythicRun.i_score r /\
  MythicRun.affixes y = updated (MythicRun.i_affixes r) (MythicRun.affixes x) /\
  MythicRun.clearTimeMs y
  = updated (MythicRun.i_clearTimeMs r) (MythicRun.clearTimeMs x) /\
  MythicRun.parTimeMs y
  = updated (MythicRun.i_parTimeMs r) (MythicRun.parTimeMs x).

(** The ids of the stored runs are older than the next id. *)
Definition run_ids_fresh (db : Db) : Prop :=
  Forall (fun r => (MythicRun.id r < nextId db)%nat) (mythicRuns db).



(** The indices of a conflict response. *)
Definition conflict_of (r : Upload.Response) : option (Z * option Z) :=
  match r with
  | Upload.Conflict expected received _ => Some (expected, received)
  | _ => None
  end.

(** ** Predicates used by the further properties *)

(** From a state that has [P], [m] returns a value and leaves a state
    that together have [Post]. *)
Definition hoare {A} (P : Db -> Prop) (m : M A) (Post : A -> Db -> Prop)
    : Prop :=
  forall db, P db -> Post (fst (m db)) (snd (m db)).

(** The number of runs in dungeon [d] among the stored runs and the run
    being aggregated. *)
Definition runsIn (d : string) (run : StatsAggregator.MythicRun)
    (existingRuns : list RunDeduplicator.ExistingRun) : Z :=
  Z.of_nat (length (List.filter
                      (fun r => String.eqb (RunDeduplicator.dungeon r) d)
                      existingRuns))
  + (if String.eqb (StatsAggregator.dungeon run) d then 1 else 0).

(** A key that an object literal used as a map does not inherit. *)
Definition plain_key (k : string) : Prop := k ∉ Object_prototype_keys.

(** [Number.MAX_SAFE_INTEGER]: up to it every integer is a number of
    JavaScript, which a template prints in decimal and [parseInt] reads
    back. *)
Definition MAX_SAFE_INTEGER : Z := 9007199254740991.

(** [counts[d] || 0] *)
Definition countOf (d : string) (counts : list (string * Z)) : Z :=
  match List.find (fun kn => String.eqb (fst kn) d) counts with
  | Some kn => snd kn
  | None => 0
  end.

(** From [a] to [b] the player of id [id], when stored, is still
    stored, and its row before and its row after are related by [Q]. *)
Definition player_kept (Q : Player.t -> Player.t -> Prop) (id : Id)
    (a b : Db) : Prop :=
  forall p,
    fst (Storage.getPlayer id a) = Some p ->
    exists q, fst (Storage.getPlayer id b) = Some q /\ Q p q.

(** Consistent counters stay consistent, and neither the runs tracked
    nor the highest key level go down. *)
Definition counters_grow (p q : Player.t) : Prop :=
  counters_consistent p ->
  counters_consistent q /\
  JS.num_or0 (Player.totalRunsTracked p)
    <= JS.num_or0 (Player.totalRunsTracked q) /\
  JS.num_or0 (Player.highestKeyLevel p)
    <= JS.num_or0 (Player.highestKeyLevel q).

(** The columns that [hasPlayerDataChanged] compares are the same. *)
Definition same_profile (p q : Player.t) : Prop :=
  Player.mythicScore q = Player.mythicScore p /\
  Player.itemLevel q = Player.itemLevel p /\
  Player.spec q = Player.spec p /\
  Player.race q = Player.race p /\
  Player.class q = Player.class p /\
  Player.avatarUrl q = Player.avatarUrl p.

(** The row after [SET is_active = false]. *)
Definition deactivated (p : Player.t) : Player.t :=
  Player.apply {| Player.u_isActive := Some (Some false) |} p.

(** The player is active and one of [playerNames]. *)
Definition removable (playerNames : list (string * string)) (p : Player.t)
    : bool :=
  bool_decide ((Player.name p, Player.realm p) ∈ playerNames)
  && Storage.is_true (Player.isActive p).

(** Most recent first. *)
Fixpoint newestFirst (l : list MythicRun.t) : Prop :=
  match l with
  | [] => True
  | x :: l' =>
      Forall (fun y => MythicRun.timestamp y <= MythicRun.timestamp x) l'
      /\ newestFirst l'
  end.

(** A guild run lists at least two guild members, by id and by name,
    and counts them. *)
Definition guild_group (r : GuildMythicRun.t) : Prop :=
  2 <= GuildMythicRun.totalGuildMembers r /\
  GuildMythicRun.totalGuildMembers r
    = Z.of_nat (length (GuildMythicRun.guildPlayerIds r)) /\
  length (GuildMythicRun.guildPlayerNames r)
    = length (GuildMythicRun.guildPlayerIds r).

(** No two guild runs have the same key, and each is a guild group. *)
Definition guild_runs_sound (db : Db) : Prop :=
  NoDup (GuildMythicRun.runKey <$> guildMythicRuns db) /\
  Forall guild_group (guildMythicRuns db).

(** The names and realms of the stored players, in table order. *)
Definition playerKeys (db : Db) : list (string * string) :=
  (fun p => (Player.name p, Player.realm p)) <$> players db.

(** No two players have the same name and realm. *)
Definition unique_names (db : Db) : Prop := NoDup (playerKeys db).

(** From [a] to [b] no row was deleted or renamed, and the rows that
    were added have new names, each once. *)
Definition names_grow (a b : Db) : Prop :=
  exists added,
    playerKeys b = playerKeys a ++ added /\
    NoDup added /\
    forall k, k ∈ added -> k ∉ playerKeys a.

(** [Upload.postUpload]'s [defaultRealm]. *)
Definition defaultRealmOf (db : Db) : string :=
  Upload.str_or (GuildSettings.realm <$> head (guildSettings db)) "Unknown".

(** The names and realms that the roster of a request lists. *)
Definition rosterKeys (defaultRealm : string) (body : Upload.AddonUploadData)
    : list (string * string) :=
  (fun entry => Upload.parsePlayerName (fst entry) defaultRealm)
    <$> default [] (Upload.master_roster body).

(** Each of [keys] is the name and realm of a stored player, and the
    player that [getPlayerByName] finds for it is active. *)
Definition listed_active (keys : list (string * string)) (db : Db) : Prop :=
  forall n r,
    (n, r) ∈ keys ->
    exists p,
      fst (Storage.getPlayerByName n r db) = Some p /\
      Player.isActive p = Some true.

(** The request was answered with success: the response is the one
    that the handler builds after all its steps, neither a conflict nor
    the demand for a phase. *)
Definition accepted (r : Upload.Response) : bool :=
  match r with
  | Upload.Success _ _ _ _ _ _ => true
  | _ => false
  end.

(** [p.mythicScore || 0] *)
Definition scoreOf (p : Player.t) : Z := JS.num_or0 (Player.mythicScore p).

(** [p.isActive] is truthy. *)
Definition active (p : Player.t) : bool := Storage.is_true (Player.isActive p).

(** Highest score first. *)
Fixpoint highestFirst (l : list Player.t) : Prop :=
  match l with
  | [] => True
  | x :: l' => Forall (fun y => scoreOf y <= scoreOf x) l' /\ highestFirst l'
  end.

(** The snapshots taken on day [d] of the week in hour [h]. *)
Definition samples (d h : Z) (l : list ActivitySnapshot.t)
    : list ActivitySnapshot.t :=
  List.filter
    (fun s => (ActivitySnapshot.dayOfWeek s =? d)
              && (ActivitySnapshot.hourOfDay s =? h))
    l.

(** The players online in a list of snapshots, added up. *)
Definition onlineIn (l : list ActivitySnapshot.t) : Z :=
  foldr Z.add 0 (ActivitySnapshot.totalOnline <$> l).

(** The mean of the players online over the snapshots of day [d] and
    hour [h], rounded; zero without snapshot. *)
Definition meanOnline (d h : Z) (l : list ActivitySnapshot.t) : Z :=
  match samples d h l with
  | [] => 0
  | taken =>
      JS.Math_round
        (inject_Z (onlineIn taken) / inject_Z (Z.of_nat (length taken)))%Q
  end.

(** The day of the week, the hour and the calendar day of a snapshot. *)
Definition snapshotBucket (r : ActivitySnapshot.t) : Z * Z * Z :=
  (ActivitySnapshot.dayOfWeek r, ActivitySnapshot.hourOfDay r,
   JS.sql_DATE (ActivitySnapshot.timestamp r)).

(** The keys of the table are distinct and older than the next one. *)
Definition fresh_keys (tb : Snapshots.Table) : Prop :=
  NoDup (ActivitySnapshot.id <$> Snapshots.rows tb) /\
  Forall (fun r => (ActivitySnapshot.id r < Snapshots.nextRow tb)%nat)
    (Snapshots.rows tb).

(** No two snapshots are of the same hour of the same calendar day. *)
Definition one_per_hour (tb : Snapshots.Table) : Prop :=
  NoDup (snapshotBucket <$> Snapshots.rows tb).

(** The keys under which the import knows the stored players. *)
Definition importKeys (toLowerCase : string -> string) (db : Db)
    : list string :=
  (fun p => GuildImport.playerKey toLowerCase (Player.name p) (Player.realm p))
    <$> players db.

(** The members that an import has counted. *)
Definition counted (c : GuildImport.ImportResult) : Z :=
  GuildImport.imported c + GuildImport.skipped c + GuildImport.failed c.

(** The key of a member of the guild. *)
Definition memberKey (toLowerCase : string -> string)
    (m : GuildImport.GuildMember) : string :=
  GuildImport.playerKey toLowerCase (GuildImport.character_name m)
    (GuildImport.character_realm m).

(** The import leaves the member out: its key is one of [names], or
    the database refuses it. *)
Definition left_out (toLowerCase : string -> string)
    (refused : Player.insert -> bool) (names : gset string)
    (m : GuildImport.GuildMember) : Prop :=
  memberKey toLowerCase m ∈ names
  \/ refused (GuildImport.memberInsert m) = true.

(** The players that a cycle has counted. *)
Definition synced (st : SyncCycle.SyncState) : Z :=
  SyncCycle.playersUpdated st + SyncCycle.playersSkipped st
  + SyncCycle.playersFailed st.

(** The players that a call for the next batch reports. *)
Definition reported (r : SyncCycle.BatchReport) : Z :=
  SyncCycle.updated r + SyncCycle.skipped r + SyncCycle.failed r.

(** The number of active players. *)
Definition activeCount (db : Db) : nat :=
  length (List.filter (fun p => Storage.is_true (Player.isActive p))
            (players db)).

(** The id, name, realm and activity of the stored players. *)
Definition rosterRows (db : Db)
    : list (Id * string * string * option bool) :=
  (fun p => (Player.id p, Player.name p, Player.realm p, Player.isActive p))
    <$> players db.

(** The ids of the players are distinct and older than the next id. *)
Definition ids_fresh (db : Db) : Prop :=
  NoDup (Player.id <$> players db) /\
  Forall (fun p => (Player.id p < nextId db)%nat) (players db).

(** The active players are the players of [keys]. *)
Definition roster_is (keys : list (string * string)) (db : Db) : Prop :=
  forall p,
    p ∈ players db ->
    Player.isActive p = Some true
    <-> (Player.name p, Player.realm p) ∈ keys.

(** From [a] to [b] the players kept their ids, names, realms and
    activity, and no id was given back. *)
Definition roster_kept (a b : Db) : Prop :=
  rosterRows b = rosterRows a /\ (nextId a <= nextId b)%nat.

(** The invariant of the upserts: fresh ids, one row for a name and
    realm, and the active players those of [keys]. *)
Definition roster_ok (keys : list (string * string)) (db : Db) : Prop :=
  ids_fresh db /\ unique_names db /\ roster_is keys db.

(** The totals are those of counters that are consistent. *)
Definition totals_add_up (acc : GlobalStats.Totals) : Prop :=
  0 <= GlobalStats.t_totalInTime acc /\ 0 <= GlobalStats.t_totalOverTime acc /\
  0 <= GlobalStats.low (GlobalStats.t_runsByLevel acc) /\ 0 <= GlobalStats.mid (GlobalStats.t_runsByLevel acc) /\
  0 <= GlobalStats.high (GlobalStats.t_runsByLevel acc) /\ 0 <= GlobalStats.elite (GlobalStats.t_runsByLevel acc) /\
  GlobalStats.t_totalRunsTracked acc = GlobalStats.t_totalInTime acc + GlobalStats.t_totalOverTime acc /\
  GlobalStats.t_totalRunsTracked acc
  = GlobalStats.low (GlobalStats.t_runsByLevel acc) + GlobalStats.mid (GlobalStats.t_runsByLevel acc)
    + GlobalStats.high (GlobalStats.t_runsByLevel acc) + GlobalStats.elite (GlobalStats.t_runsByLevel acc).

(** ** Worked data *)

Module Examples.

Import RunDeduplicator.

(** A stored run that has no URL, and a fetched run of the same
    dungeon, level and UTC day that has one. *)
Definition stored_without_url : ExistingRun :=
  {| dungeon := "Ara-Kara"; keyLevel := 10;
     timestamp := 1760000000000; url := None |}.

Definition fetched_with_url : ApiRun :=
  {| a_dungeon := "Ara-Kara"; mythic_level := 10;
     completed_at := 1760000300000;
     a_url := Some "https://raider.io/mythic-plus-runs/season-tww-3/777-10-ara-kara" |}.

(** Case mapping restricted to the ASCII letters. *)
Definition mapAscii (f : Ascii.ascii -> Ascii.ascii) : string -> string :=
  fix go (s : string) : string :=
    match s with
    | EmptyString => EmptyString
    | String c s' => String (f c) (go s')
    end.

Definition upperChar (c : Ascii.ascii) : Ascii.ascii :=
  let n := nat_of_ascii c in
  if (Nat.leb 97 n && Nat.leb n 122)%bool then ascii_of_nat (n - 32) else c.

Definition lowerChar (c : Ascii.ascii) : Ascii.ascii :=
  let n := nat_of_ascii c in
  if (Nat.leb 65 n && Nat.leb n 90)%bool then ascii_of_nat (n + 32) else c.

Definition toUpperCase : string -> string := mapAscii upperChar.
Definition toLowerCase : string -> string := mapAscii lowerChar.

(** A table declaration without defaults. *)
Definition no_defaults : UploaderStatus.column_defaults :=
  {| UploaderStatus.d_lastSessionId := None;
     UploaderStatus.d_lastBatchIndex := None;
     UploaderStatus.d_expectedBatchIndex := None;
     UploaderStatus.d_status := None;
     UploaderStatus.d_totalBatches := None;
     UploaderStatus.d_lastError := None;
     UploaderStatus.d_lastPhase := None;
     UploaderStatus.d_updatedAt := None |}.

Definition playerA : Player.t := Player.defaults 1 "A" "Realm" "Mage".
Definition playerB : Player.t := Player.defaults 2 "B" "Realm" "Druid".

Definition settings : GuildSettings.t :=
  {| GuildSettings.id := 3;
     GuildSettings.realm := "Realm";
     GuildSettings.uploadApiKey := Some "key";
     GuildSettings.currentUploadSession := Some "s1";
     GuildSettings.uploadSessionStartedAt := Some 1000;
     GuildSettings.uploadSessionProcessedCount := Some 0;
     GuildSettings.lastUploadCompletedAt := None |}.

(** The uploader has had batch 0 of session [s1] accepted. *)
Definition statusAfterBatch0 : UploaderStatus.t :=
  {| UploaderStatus.id := 4;
     UploaderStatus.uploaderId := "uploader";
     UploaderStatus.lastSessionId := Some "s1";
     UploaderStatus.lastBatchIndex := Some 0;
     UploaderStatus.expectedBatchIndex := Some 1;
     UploaderStatus.status := Some "processing";
     UploaderStatus.totalBatches := Some 5;
     UploaderStatus.lastError := None;
     UploaderStatus.lastPhase := Some start;
     UploaderStatus.updatedAt := Some 1000 |}.

(** Two active players, A and B, in the middle of session [s1]. *)
Definition db0 : Db :=
  {| players := [playerA; playerB];
     mythicRuns := [];
     guildMythicRuns := [];
     activityEvents := [];
     uploaderStatuses := [statusAfterBatch0];
     guildSettings := [settings];
     nextId := 5 |}.

(** A batch of session [s1]: phase, index, roster, removed members and
    the keys that the schema does not declare. *)
Definition batch (phase : SessionPhase) (index : Z)
    (roster : list (string * Upload.MasterRosterEntry))
    (removed : list Upload.RemovedMember)
    (others : gmap string Upload.Json) : Upload.AddonUploadData :=
  {| Upload.master_roster := Some roster;
     Upload.stats := None;
     Upload.data := None;
     Upload.upload_session_id := Some "s1";
     Upload.is_final_batch := None;
     Upload.batch_index := Some index;
     Upload.total_batches := Some 5;
     Upload.session_phase := Some phase;
     Upload.sessionPhase := None;
     Upload.roster_mode := Some full;
     Upload.removed_members := Some removed;
     Upload.rosterMode := None;
     Upload.removedMembers := None;
     Upload.undeclared := others |}.

Definition entryC : string * Upload.MasterRosterEntry :=
  ("C-Realm",
   {| Upload.rank := Some "Soldado"; Upload.lvl := Some 80;
      Upload.class := Some "MAGE" |}).

(** The final batch that removes A and confirms the removal. *)
Definition finalConfirmed : Upload.AddonUploadData :=
  batch final 1 [] [Upload.Named "A-Realm"]
    {[ "confirm_removals" := Upload.JBool true ]}.

(** The final batch that removes A without confirming. *)
Definition finalUnconfirmed : Upload.AddonUploadData :=
  batch final 1 [] [Upload.Named "A-Realm"] ∅.

(** A chunk that lists C only. *)
Definition chunkC : Upload.AddonUploadData := batch chunk 1 [entryC] [] ∅.

(** Chunks 3 and 1 of the session, when chunk 1 is the expected one. *)
Definition chunk3 : Upload.AddonUploadData := batch chunk 3 [entryC] [] ∅.
Definition chunk1 : Upload.AddonUploadData := batch chunk 1 [entryC] [] ∅.

(** A chunk of another session, [s2], that declares no roster mode. *)
Definition legacyChunk : Upload.AddonUploadData :=
  {| Upload.master_roster := Some [entryC];
     Upload.stats := None;
     Upload.data := None;
     Upload.upload_session_id := Some "s2";
     Upload.is_final_batch := None;
     Upload.batch_index := Some 0;
     Upload.total_batches := Some 5;
     Upload.session_phase := Some chunk;
     Upload.sessionPhase := None;
     Upload.roster_mode := None;
     Upload.removed_members := None;
     Upload.rosterMode := None;
     Upload.removedMembers := None;
     Upload.undeclared := ∅ |}.

Definition postUpload := Upload.postUpload toUpperCase no_defaults.

(** A level-8 run cleared within the timer. *)
Definition timedRun : StatsAggregator.MythicRun :=
  {| StatsAggregator.dungeon := "Ara-Kara";
     StatsAggregator.keyLevel := 8;
     StatsAggregator.clearTimeMs := 500000;
     StatsAggregator.parTimeMs := 600000 |}.

(** Two runs of player A in the same dungeon, at the same level, on
    the same day, with different URLs; the second scores higher. *)
Definition morningRun : MythicRun.insert :=
  {| MythicRun.i_playerId := 1;
     MythicRun.i_dungeon := "Ara-Kara";
     MythicRun.i_keyLevel := 10;
     MythicRun.i_completionTime := 1500;
     MythicRun.i_timerPercent := (120 # 1)%Q;
     MythicRun.i_score := 250;
     MythicRun.i_affixes := Some (Some ["Tyrannical"]);
     MythicRun.i_timestamp := 1760000000000;
     MythicRun.i_url := Some (Some "https://raider.io/mythic-plus-runs/season-tww-3/111-10-ara-kara");
     MythicRun.i_clearTimeMs := Some (Some 1500000);
     MythicRun.i_parTimeMs := Some (Some 1800000) |}.

Definition eveningRun : MythicRun.insert :=
  {| MythicRun.i_playerId := 1;
     MythicRun.i_dungeon := "Ara-Kara";
     MythicRun.i_keyLevel := 10;
     MythicRun.i_completionTime := 1400;
     MythicRun.i_timerPercent := (128 # 1)%Q;
     MythicRun.i_score := 260;
     MythicRun.i_affixes := Some (Some ["Tyrannical"]);
     MythicRun.i_timestamp := 1760000300000;
     MythicRun.i_url := Some (Some "https://raider.io/mythic-plus-runs/season-tww-3/222-10-ara-kara");
     MythicRun.i_clearTimeMs := Some (Some 1400000);
     MythicRun.i_parTimeMs := Some (Some 1800000) |}.

(** The morning run again, a day later. *)
Definition nextDayRun : MythicRun.insert :=
  {| MythicRun.i_playerId := 1;
     MythicRun.i_dungeon := "Ara-Kara";
     MythicRun.i_keyLevel := 10;
     MythicRun.i_completionTime := 1500;
     MythicRun.i_timerPercent := (120 # 1)%Q;
     MythicRun.i_score := 250;
     MythicRun.i_affixes := Some (Some ["Tyrannical"]);
     MythicRun.i_timestamp := 1760086400000;
     MythicRun.i_url := Some (Some "https://raider.io/mythic-plus-runs/season-tww-3/333-10-ara-kara");
     MythicRun.i_clearTimeMs := Some (Some 1500000);
     MythicRun.i_parTimeMs := Some (Some 1800000) |}.

(** A run of player B of the same day is stored. *)
Definition storedRunOfB : MythicRun.t :=
  {| MythicRun.id := 4;
     MythicRun.playerId := 2;
     MythicRun.dungeon := "Ara-Kara";
     MythicRun.keyLevel := 10;
     MythicRun.completionTime := 1600;
     MythicRun.timerPercent := (110 # 1)%Q;
     MythicRun.score := 240;
     MythicRun.affixes := Some ["Tyrannical"];
     MythicRun.timestamp := 1760000100000;
     MythicRun.url := None;
     MythicRun.clearTimeMs := Some 1600000;
     MythicRun.parTimeMs := Some 1800000;
     MythicRun.role := None;
     MythicRun.spec := None |}.

Definition runDb : Db :=
  {| players := [playerA; playerB];
     mythicRuns := [storedRunOfB];
     guildMythicRuns := [];
     activityEvents := [];
     uploaderStatuses := [];
     guildSettings := [settings];
     nextId := 5 |}.

Definition member (name realm : string) : RioSync.RaiderIORosterMember :=
  {| RioSync.character_name := name;
     RioSync.character_realm_slug := realm;
     RioSync.character_realm_name := realm;
     RioSync.character_class_name := "Mage" |}.

(** A run of A and B with a stranger. *)
Definition guildRun : RioSync.RaiderIORun :=
  {| RioSync.dungeon := "Ara-Kara";
     RioSync.short_name := "ARAK";
     RioSync.mythic_level := 10;
     RioSync.completed_at := 1760000000000;
     RioSync.clear_time_ms := 1500000;
     RioSync.par_time_ms := 1800000;
     RioSync.num_keystone_upgrades := 1;
     RioSync.score := (2505 # 10)%Q;
     RioSync.url := Some "https://raider.io/mythic-plus-runs/season-tww-3/777-10-ara-kara";
     RioSync.affixes := ["Tyrannical"];
     RioSync.roster :=
       Some [member "a" "realm"; member "Stranger" "Elsewhere";
             member "B" "Realm"] |}.

Definition guildCache : gmap string Player.t :=
  RioSync.refreshGuildPlayerCache toLowerCase [playerA; playerB].

(** Player A as the last synchronisation left it, and the profile that
    says the same again while listing a recent run that is not stored. *)
Definition syncedA : Player.t :=
  Player.apply
    {| Player.u_spec := Some (Some "Frost");
       Player.u_race := Some (Some "Human");
       Player.u_avatarUrl := Some (Some "a.png") |}
    playerA.

Definition recentRun : RioSync.RaiderIORun :=
  {| RioSync.dungeon := "Ara-Kara";
     RioSync.short_name := "ARAK";
     RioSync.mythic_level := 10;
     RioSync.completed_at := 1760000000000;
     RioSync.clear_time_ms := 1500000;
     RioSync.par_time_ms := 1800000;
     RioSync.num_keystone_upgrades := 1;
     RioSync.score := (0 # 1)%Q;
     RioSync.url := Some "https://raider.io/mythic-plus-runs/season-tww-3/777-10-ara-kara";
     RioSync.affixes := ["Tyrannical"];
     RioSync.roster := None |}.


(** The same profile with a higher score. *)
Definition betterProfile : RioSync.RaiderIOProfile :=
  {| RioSync.scores_all := Some (2505 # 10)%Q;
     RioSync.mythic_plus_best_runs := Some [recentRun];
     RioSync.mythic_plus_recent_runs := Some [recentRun];
     RioSync.gear_item_level_equipped := Some (640 # 1)%Q;
     RioSync.class := "Mage";
     RioSync.active_spec_name := "Frost";
     RioSync.race := "Human";
     RioSync.thumbnail_url := Some "a.png" |}.

Definition syncDb : Db :=
  {| players := [syncedA; playerB];
     mythicRuns := [];
     guildMythicRuns := [];
     activityEvents := [];
     uploaderStatuses := [];
     guildSettings := [settings];
     nextId := 5 |}.

(** The run-details endpoint knows run 777. *)
Definition fetchRunDetails (runId : Z) : option RioSync.RaiderIORun :=
  if runId =? 777 then Some guildRun else None.

Definition syncPlayer :=
  RioSync.syncPlayer toLowerCase fetchRunDetails 9000
    (RioSync.refreshGuildPlayerCache toLowerCase (players syncDb)).

End Examples.

(** ** Further worked data *)

Module Worked.

(** Player A has two runs stored, player B one. *)
Definition runOfB : MythicRun.insert :=
  {| MythicRun.i_playerId := 2;
     MythicRun.i_dungeon := "Ara-Kara";
     MythicRun.i_keyLevel := 12;
     MythicRun.i_completionTime := 1600;
     MythicRun.i_timerPercent := (110 # 1)%Q;
     MythicRun.i_score := 300;
     MythicRun.i_affixes := Some (Some ["Tyrannical"]);
     MythicRun.i_timestamp := 1760000100000;
     MythicRun.i_url := Some None;
     MythicRun.i_clearTimeMs := Some (Some 1600000);
     MythicRun.i_parTimeMs := Some (Some 1800000) |}.

Definition twoRunsDb : Db :=
  {| players := [Examples.playerA; Examples.playerB];
     mythicRuns := [MythicRun.of_insert 5 Examples.morningRun;
                    MythicRun.of_insert 6 runOfB;
                    MythicRun.of_insert 7 Examples.eveningRun];
     guildMythicRuns := [];
     activityEvents := [];
     uploaderStatuses := [];
     guildSettings := [Examples.settings];
     nextId := 8 |}.

(** Chunk 2 of session [s1]. *)
Definition chunk2 : Upload.AddonUploadData :=
  Examples.batch chunk 2 [Examples.entryC] [] ∅.

(** Two snapshots of Monday at 20 h, taken a week apart, and a third
    of the second of those hours. *)
Definition snapshots : Snapshots.Table :=
  {| Snapshots.rows :=
       [{| ActivitySnapshot.id := 1;
           ActivitySnapshot.timestamp := 1759780800000;
           ActivitySnapshot.totalOnline := 10;
           ActivitySnapshot.dayOfWeek := 0;
           ActivitySnapshot.hourOfDay := 20 |};
        {| ActivitySnapshot.id := 2;
           ActivitySnapshot.timestamp := 1760385600000;
           ActivitySnapshot.totalOnline := 15;
           ActivitySnapshot.dayOfWeek := 0;
           ActivitySnapshot.hourOfDay := 20 |}];
     Snapshots.nextRow := 3 |}.

Definition laterSnapshot : ActivitySnapshot.insert :=
  {| ActivitySnapshot.i_timestamp := 1760386200000;
     ActivitySnapshot.i_totalOnline := 18;
     ActivitySnapshot.i_dayOfWeek := 0;
     ActivitySnapshot.i_hourOfDay := 20 |}.

(** A guild of two: A, who is stored, and D, who is not. *)
Definition guildMember (name : string) (rank : Z)
    : GuildImport.GuildMember :=
  {| GuildImport.character_name := name;
     GuildImport.character_realm := "Realm";
     GuildImport.character_class := "Mage";
     GuildImport.active_spec_name := Some "Frost";
     GuildImport.race := None;
     GuildImport.rank := rank |}.

Definition guild : GuildImport.GuildProfile :=
  {| GuildImport.members := Some [guildMember "a" 0; guildMember "D" 3] |}.

(** No cycle runs and none has run. *)
Definition idle : SyncCycle.SyncState :=
  {| SyncCycle.isRunning := false;
     SyncCycle.currentBatch := 0;
     SyncCycle.totalBatches := 0;
     SyncCycle.lastSyncStart := None;
     SyncCycle.playersUpdated := 0;
     SyncCycle.playersSkipped := 0;
     SyncCycle.playersFailed := 0 |}.

(** Upstream knows A, with the better profile, and nobody else. *)
Definition fetchPlayerFromRaiderIO (name realm : string)
    : option RioSync.RaiderIOProfile :=
  if String.eqb name "A" then Some Examples.betterProfile else None.








(** The synchronisation of B throws before it has written anything. *)
Definition thrown (player : Player.t) (db : Db) : option Db :=
  if String.eqb (Player.name player) "B" then Some db else None.

(** A database that refuses the rosters with a name of more than 24
    characters, the width of the column, and nothing else. *)
Definition refuses (now : JS.Date) (uploaderId : string)
    (body : Upload.AddonUploadData) (db : Db) : bool :=
  existsb
    (fun entry =>
       Nat.ltb 24
         (String.length
            (fst (Upload.parsePlayerName (fst entry) (defaultRealmOf db)))))
    (default [] (Upload.master_roster body)).

Definition handleUpload :=
  Upload.handleUpload Examples.toUpperCase Examples.no_defaults refuses.

(** The run counters of a player: runs in time and over time, then the
    runs of the four level ranges. *)
Definition withCounters (inTime overTime low mid high elite : Z)
    (dungeon : string) (p : Player.t) : Player.t :=
  Player.apply
    {| Player.u_totalRunsTracked := Some (Some (inTime + overTime));
       Player.u_mostPlayedDungeon := Some (Some dungeon);
       Player.u_runsInTime := Some (Some inTime);
       Player.u_runsOverTime := Some (Some overTime);
       Player.u_runsByLevelLow := Some (Some low);
       Player.u_runsByLevelMid := Some (Some mid);
       Player.u_runsByLevelHigh := Some (Some high);
       Player.u_runsByLevelElite := Some (Some elite) |}
    p.

(** A has three runs tracked and B two; C, who left the guild, has
    counters that do not add up. *)
Definition countedDb : Db :=
  {| players :=
       [withCounters 2 1 1 2 0 0 "Ara-Kara" Examples.playerA;
        withCounters 1 1 0 1 1 0 "The Dawnbreaker" Examples.playerB;
        Player.apply {| Player.u_isActive := Some (Some false) |}
          (withCounters 4 0 0 0 0 1 "Ara-Kara"
             (Player.defaults 3 "C" "Realm" "Rogue"))];
     mythicRuns := [];
     guildMythicRuns := [];
     activityEvents := [];
     uploaderStatuses := [];
     guildSettings := [Examples.settings];
     nextId := 5 |}.

End Worked.

(** * Properties *)

(** ** The state monad *)

Ltac unfold_M :=
  unfold mbind, M_bind, mret, M_ret, get, modify in *; simpl in *.

(** Every run of [m] relates the state before to the state after by
    [R]. *)
Definition steps {A} (R : Db -> Db -> Prop) (m : M A) : Prop :=
  forall db, R db (snd (m db)).

(** Every run of [m] returns a value that has [P]. *)
Definition returns {A} (P : A -> Prop) (m : M A) : Prop :=
  forall db, P (fst (m db)).

Section Steps.

Context (R : Db -> Db -> Prop).
Hypothesis R_refl : forall db, R db db.
Hypothesis R_trans : forall a b c, R a b -> R b c -> R a c.

Lemma steps_ret {A} (x : A) : steps R (mret x).
Proof using R_refl. intros db. apply R_refl. Qed.

Lemma steps_get : steps R get.
Proof using R_refl. intros db. apply R_refl. Qed.

Lemma steps_bind {A B} (m : M A) (k : A -> M B) :
  steps R m -> (forall x, steps R (k x)) -> steps R (m ≫= k).
Proof using R_trans.
  intros Hm Hk db. unfold mbind, M_bind.
  specialize (Hm db). destruct (m db) as [x db'] eqn:E. simpl in Hm.
  eapply R_trans; [exact Hm | apply Hk].
Qed.

Lemma steps_for_each {A} (l : list A) (body : A -> M unit) :
  (forall x, steps R (body x)) -> steps R (for_each l body).
Proof using R_refl R_trans.
  intros Hb. induction l as [|x l IH]; simpl.
  - apply steps_ret.
  - apply steps_bind; [apply Hb | intros _; exact IH].
Qed.

Lemma steps_sum_each {A} (l : list A) (body : A -> M Z) (count : Z) :
  (forall x, steps R (body x)) -> steps R (sum_each l body count).
Proof using R_refl R_trans.
  intros Hb. revert count. induction l as [|x l IH]; intros count; simpl.
  - apply steps_ret.
  - apply steps_bind; [apply Hb | intros k; apply IH].
Qed.

End Steps.

Lemma returns_ret {A} (P : A -> Prop) (x : A) : P x -> returns P (mret x).
Proof. intros H db. exact H. Qed.

Lemma returns_bind {A B} (Q : A -> Prop) (P : B -> Prop) (m : M A)
    (k : A -> M B) :
  returns Q m -> (forall x, Q x -> returns P (k x)) -> returns P (m ≫= k).
Proof.
  intros Hm Hk db. unfold mbind, M_bind.
  specialize (Hm db). destruct (m db) as [x db']. by apply Hk.
Qed.

Lemma run_bind {A B} (m : M A) (k : A -> M B) (db : Db) :
  (m ≫= k) db = k (fst (m db)) (snd (m db)).
Proof. unfold mbind, M_bind. by destruct (m db). Qed.

Lemma sum_each_acc {A} (l : list A) (body : A -> M Z) (count : Z) (db : Db) :
  sum_each l body count db
  = (count + fst (sum_each l body 0 db), snd (sum_each l body 0 db)).
Proof.
  revert count db. induction l as [|x l IH]; intros count db; simpl.
  - unfold mret, M_ret. simpl. f_equal. lia.
  - rewrite !run_bind. rewrite (IH (count + _)), (IH (0 + _)). simpl.
    f_equal. lia.
Qed.

Lemma returns_any {A} (m : M A) : returns (fun _ => True) m.
Proof. by intros db. Qed.

(** [find] after an update that keeps what [find] tests. *)
Lemma find_map_stable {A} (test : A -> bool) (f : A -> A) (l : list A) :
  (forall x, test (f x) = test x) ->
  List.find test (List.map f l) = f <$> List.find test l.
Proof.
  intros Hf. induction l as [|x l IH]; simpl; [reflexivity|].
  rewrite Hf. destruct (test x); [reflexivity | exact IH].
Qed.

Lemma find_app_None {A} (test : A -> bool) (l : list A) (x : A) :
  List.find test l = None -> test x = true ->
  List.find test (l ++ [x]) = Some x.
Proof.
  intros Hl Hx. induction l as [|y l IH]; simpl in *.
  - by rewrite Hx.
  - destruct (test y); [discriminate | by apply IH].
Qed.

Lemma filter_find_None {A} (test : A -> bool) (l : list A) :
  List.find test l = None -> List.filter test l = [].
Proof.
  induction l as [|y l IH]; simpl; [reflexivity|].
  destruct (test y); [discriminate | exact IH].
Qed.



(** ** Run deduplicator *)

Section DeduplicatorFacts.

Import RunDeduplicator.

Lemma has_true (s : gset string) x : has s x = true <-> x ∈ s.
Proof. unfold has. apply bool_decide_eq_true. Qed.

Lemma has_false (s : gset string) x : has s x = false <-> x ∉ s.
Proof. unfold has. apply bool_decide_eq_false. Qed.

(** C7, as the code has it: a run that carries a URL is new exactly
    when its URL has not been seen and, in addition, its
    dungeon/level/UTC-day key is not among the keys of the runs that
    had no URL. *)
Theorem isNewRun_with_url (d : t) (run : ApiRun) (u : string) :
  a_url run = Some u ->
  u <> "" ->
  isNewRun d run = true <->
    ((u ∉ urlSet d) /\
     (makeCompositeKey (a_dungeon run) (mythic_level run) (completed_at run)
        ∉ compositeKeySet d)).
Proof.
  intros Hu Hne. unfold isNewRun. rewrite Hu.
  assert (Ht : JS.truthy_str (Some u) = true).
  { simpl. apply negb_true_iff, String.eqb_neq, Hne. }
  rewrite Ht. simpl. rewrite andb_true_iff, !negb_true_iff, !has_false.
  reflexivity.
Qed.

End DeduplicatorFacts.

(** C7 on worked data: a fetched run with a URL against an empty
    deduplicator. *)
Lemma isNewRun_with_url_witness :
  RunDeduplicator.isNewRun (RunDeduplicator.new []) Examples.fetched_with_url
    = true <->
  (("https://raider.io/mythic-plus-runs/season-tww-3/777-10-ara-kara"
      ∉ RunDeduplicator.urlSet (RunDeduplicator.new [])) /\
   (RunDeduplicator.makeCompositeKey "Ara-Kara" 10 1760000300000
      ∉ RunDeduplicator.compositeKeySet (RunDeduplicator.new []))).
Proof.
  apply (isNewRun_with_url (RunDeduplicator.new []) Examples.fetched_with_url
           "https://raider.io/mythic-plus-runs/season-tww-3/777-10-ara-kara").
  - reflexivity.
  - discriminate.
Defined.

(** C7, counterexample: the URL of the fetched run was never seen, and
    yet the run is not new, because a stored run without URL has the
    same dungeon, level and UTC day. *)
Lemma isNewRun_url_not_alone :
  let d := RunDeduplicator.new [Examples.stored_without_url] in
  RunDeduplicator.a_url Examples.fetched_with_url
    = Some "https://raider.io/mythic-plus-runs/season-tww-3/777-10-ara-kara" /\
  ("https://raider.io/mythic-plus-runs/season-tww-3/777-10-ara-kara"
     ∉ RunDeduplicator.urlSet d) /\
  RunDeduplicator.isNewRun d Examples.fetched_with_url = false.
Proof.
  split; [reflexivity|]. split; [|by vm_compute].
  apply has_false. by vm_compute.
Qed.

(** ** Mythic-run upsert *)

Section UpsertMythicRun.

Import Storage.

(** The [WHERE] clause compares player, dungeon, key level and
    calendar day, and nothing else. *)
Lemma sameRunSlot_iff (insertRun : MythicRun.insert) (r : MythicRun.t) :
  sameRunSlot insertRun r = true <->
    MythicRun.playerId r = MythicRun.i_playerId insertRun /\
    MythicRun.dungeon r = MythicRun.i_dungeon insertRun /\
    MythicRun.keyLevel r = MythicRun.i_keyLevel insertRun /\
    JS.sql_DATE (MythicRun.timestamp r)
      = JS.sql_DATE (MythicRun.i_timestamp insertRun).
Proof.
  unfold sameRunSlot.
  rewrite !andb_true_iff, Nat.eqb_eq, String.eqb_eq, !Z.eqb_eq. tauto.
Qed.

Lemma sameRunSlot_ext (r1 r2 : MythicRun.insert) (r : MythicRun.t) :
  MythicRun.i_playerId r2 = MythicRun.i_playerId r1 ->
  MythicRun.i_dungeon r2 = MythicRun.i_dungeon r1 ->
  MythicRun.i_keyLevel r2 = MythicRun.i_keyLevel r1 ->
  JS.sql_DATE (MythicRun.i_timestamp r2)
    = JS.sql_DATE (MythicRun.i_timestamp r1) ->
  sameRunSlot r2 r = sameRunSlot r1 r.
Proof. intros Hp Hd Hk Ht. unfold sameRunSlot. by rewrite Hp, Hd, Hk, Ht. Qed.

Lemma sameRunSlot_overwrite (q i : MythicRun.insert) (r : MythicRun.t) :
  sameRunSlot q (overwriteRun i r) = sameRunSlot q r.
Proof. reflexivity. Qed.

Lemma sameRunSlot_of_insert (i : Id) (r : MythicRun.insert) :
  sameRunSlot r (MythicRun.of_insert i r) = true.
Proof.
  apply sameRunSlot_iff. simpl. auto.
Qed.

(** An update by id maps slot members to slot members. *)
Lemma filter_slot_map (q i : MythicRun.insert) (id : Id)
    (l : list MythicRun.t) :
  List.filter (sameRunSlot q)
    (List.map (fun r => if Nat.eqb (MythicRun.id r) id
                        then overwriteRun i r else r) l)
  = List.map (fun r => if Nat.eqb (MythicRun.id r) id
                       then overwriteRun i r else r)
      (List.filter (sameRunSlot q) l).
Proof.
  induction l as [|r l IH]; simpl; [reflexivity|].
  destruct (Nat.eqb (MythicRun.id r) id) eqn:E.
  - rewrite sameRunSlot_overwrite.
    destruct (sameRunSlot q r); simpl; [rewrite E|]; by rewrite IH.
  - destruct (sameRunSlot q r); simpl; [rewrite E|]; by rewrite IH.
Qed.

Lemma onDay_sql_DATE (day : Z) (t : JS.Date) :
  onDay day t <-> JS.sql_DATE t = day.
Proof.
  unfold onDay, JS.sql_DATE, JS.MS_PER_DAY. split.
  - intros H. symmetry.
    apply (Z.div_unique t 86400000 day (t - day * 86400000)); lia.
  - intros <-. pose proof (Z.mul_div_le t 86400000 ltac:(lia)).
    pose proof (Z.mul_succ_div_gt t 86400000 ltac:(lia)). lia.
Qed.

(** The [WHERE] clause finds the runs of the player, the dungeon, the
    level and the day of the run given. *)
Lemma sameRunSlot_inSlot (ins : MythicRun.insert) (day : Z)
    (r : MythicRun.t) :
  onDay day (MythicRun.i_timestamp ins) ->
  sameRunSlot ins r = true
  <-> inSlot (MythicRun.i_playerId ins) (MythicRun.i_dungeon ins)
        (MythicRun.i_keyLevel ins) day r.
Proof.
  intros Hday. apply onDay_sql_DATE in Hday.
  rewrite sameRunSlot_iff. unfold inSlot.
  rewrite onDay_sql_DATE, Hday. tauto.
Qed.

Lemma find_none_inSlot (ins : MythicRun.insert) (day : Z)
    (rows : list MythicRun.t) :
  onDay day (MythicRun.i_timestamp ins) ->
  (forall r, r ∈ rows ->
     ~ inSlot (MythicRun.i_playerId ins) (MythicRun.i_dungeon ins)
         (MythicRun.i_keyLevel ins) day r) ->
  List.find (sameRunSlot ins) rows = None.
Proof.
  intros Hday Hnone.
  destruct (List.find (sameRunSlot ins) rows) as [r|] eqn:E; [|reflexivity].
  apply List.find_some in E as [Hin Hr]. apply list_elem_of_In in Hin.
  destruct (Hnone r Hin). by apply (sameRunSlot_inSlot ins day).
Qed.

(** An upsert into a table without run of its slot adds one row. *)
Lemma upsertMythicRun_new (ins : MythicRun.insert) (db : Db) :
  List.find (sameRunSlot ins) (mythicRuns db) = None ->
  upsertMythicRun ins db
  = (MythicRun.of_insert (nextId db) ins,
     bump_id (with_mythicRuns
                (fun rs => rs ++ [MythicRun.of_insert (nextId db) ins]) db)).
Proof. intros H. unfold upsertMythicRun. unfold_M. by rewrite H. Qed.

Lemma holds_of_insert (i : Id) (ins : MythicRun.insert) :
  holds (MythicRun.of_insert i ins) ins.
Proof.
  unfold holds, inserted, set_col. simpl.
  repeat split;
    by match goal with |- context [default _ ?c] => destruct c end.
Qed.

Lemma overwritten_overwriteRun (ins : MythicRun.insert) (x : MythicRun.t) :
  overwritten x ins (overwriteRun ins x).
Proof.
  unfold overwritten, updated, set_col. simpl.
  repeat split;
    by match goal with |- context [default _ ?c] => destruct c end.
Qed.

(** An update by an id that no row of the list has changes nothing. *)
Lemma map_other_ids (i : Id) (f : MythicRun.t -> MythicRun.t)
    (rows : list MythicRun.t) :
  Forall (fun r => (MythicRun.id r < i)%nat) rows ->
  List.map (fun r => if Nat.eqb (MythicRun.id r) i then f r else r) rows
  = rows.
Proof.
  induction 1 as [|r rows Hr _ IH]; simpl; [reflexivity|].
  rewrite IH. by rewrite (proj2 (Nat.eqb_neq _ _)) by lia.
Qed.

(** C10: the stored run is found by player, dungeon, key level and
    calendar day, and by nothing else; the URL is not looked at.  Of
    two upserts of runs that the columns can hold and that agree on
    these four, whatever their URLs, into a table that has no run of
    theirs, the first adds a row with the columns of its run, and the
    second adds none: when its score is strictly greater it overwrites
    the time, the score, the affixes and the durations of that row and
    leaves its id, timestamp and URL; otherwise it changes nothing and
    returns the row as stored.  A run that differs from them in
    player, dungeon, level or day, and of which the table had no run
    either, gets a row of its own. *)
Theorem upsertMythicRun_same_slot (r1 r2 : MythicRun.insert) (day : Z)
    (db : Db) :
  MythicRun.i_playerId r2 = MythicRun.i_playerId r1 ->
  MythicRun.i_dungeon r2 = MythicRun.i_dungeon r1 ->
  MythicRun.i_keyLevel r2 = MythicRun.i_keyLevel r1 ->
  onDay day (MythicRun.i_timestamp r1) ->
  onDay day (MythicRun.i_timestamp r2) ->
  storable r1 ->
  storable r2 ->
  run_ids_fresh db ->
  (forall r, r ∈ mythicRuns db ->
     ~ inSlot (MythicRun.i_playerId r1) (MythicRun.i_dungeon r1)
         (MythicRun.i_keyLevel r1) day r) ->
  let x1 := fst (upsertMythicRun r1 db) in
  let db1 := snd (upsertMythicRun r1 db) in
  let x2 := fst (upsertMythicRun r2 db1) in
  let db2 := snd (upsertMythicRun r2 db1) in
  mythicRuns db1 = mythicRuns db ++ [x1] /\
  holds x1 r1 /\
  (MythicRun.id x1 ∉ MythicRun.id <$> mythicRuns db) /\
  mythicRuns db2 = mythicRuns db ++ [x2] /\
  (MythicRun.i_score r1 < MythicRun.i_score r2 -> overwritten x1 r2 x2) /\
  (MythicRun.i_score r2 <= MythicRun.i_score r1 -> x2 = x1 /\ db2 = db1) /\
  forall (r3 : MythicRun.insert) (day3 : Z),
    storable r3 ->
    onDay day3 (MythicRun.i_timestamp r3) ->
    MythicRun.i_playerId r3 <> MythicRun.i_playerId r1
    \/ MythicRun.i_dungeon r3 <> MythicRun.i_dungeon r1
    \/ MythicRun.i_keyLevel r3 <> MythicRun.i_keyLevel r1
    \/ day3 <> day ->
    (forall r, r ∈ mythicRuns db ->
       ~ inSlot (MythicRun.i_playerId r3) (MythicRun.i_dungeon r3)
           (MythicRun.i_keyLevel r3) day3 r) ->
    let x3 := fst (upsertMythicRun r3 db2) in
    mythicRuns (snd (upsertMythicRun r3 db2)) = mythicRuns db ++ [x2; x3] /\
    holds x3 r3 /\
    MythicRun.id x3 ∉ MythicRun.id <$> mythicRuns db2.
Proof.
  intros Hp Hd Hk Hday1 Hday2 _ _ Hfresh Hnone.
  unfold run_ids_fresh in Hfresh.
  assert (Hnone1 : List.find (sameRunSlot r1) (mythicRuns db) = None)
    by (by apply (find_none_inSlot r1 day)).
  assert (Hext : forall r, sameRunSlot r2 r = sameRunSlot r1 r).
  { intros r. apply sameRunSlot_ext; try done.
    apply onDay_sql_DATE in Hday1, Hday2. congruence. }
  set (row := MythicRun.of_insert (nextId db) r1).
  rewrite (upsertMythicRun_new r1 db Hnone1). fold row. cbn [fst snd].
  set (db1 := bump_id (with_mythicRuns (fun rs => rs ++ [row]) db)).
  assert (Hrow : sameRunSlot r1 row = true) by apply sameRunSlot_of_insert.
  assert (Hfind : List.find (sameRunSlot r2) (mythicRuns db1) = Some row).
  { apply find_app_None.
    - rewrite <- Hnone1. clear -Hext.
      induction (mythicRuns db) as [|y l IH]; simpl; [reflexivity|].
      by rewrite Hext, IH.
    - by rewrite Hext. }
  assert (Hid : MythicRun.id row ∉ MythicRun.id <$> mythicRuns db).
  { intros Hin. apply list_elem_of_fmap in Hin as (r & E & Hr).
    rewrite Forall_forall in Hfresh. specialize (Hfresh r Hr).
    simpl in E. lia. }
  assert (E2 : upsertMythicRun r2 db1
               = if MythicRun.i_score r1 <? MythicRun.i_score r2
                 then (overwriteRun r2 row,
                       with_mythicRuns
                         (fun _ => mythicRuns db ++ [overwriteRun r2 row])
                         db1)
                 else (row, db1)).
  { unfold upsertMythicRun. unfold_M. rewrite Hfind. simpl.
    destruct (MythicRun.i_score r1 <? MythicRun.i_score r2); [|reflexivity].
    f_equal. unfold with_mythicRuns. simpl. f_equal.
    rewrite List.map_app. simpl. rewrite Nat.eqb_refl.
    by rewrite (map_other_ids (nextId db)). }
  set (x2 := fst (upsertMythicRun r2 db1)).
  set (db2 := snd (upsertMythicRun r2 db1)).
  assert (Hrows2 : mythicRuns db2 = mythicRuns db ++ [x2]
                   /\ nextId db2 = S (nextId db)
                   /\ MythicRun.id x2 = nextId db
                   /\ forall q, sameRunSlot q x2 = sameRunSlot q row).
  { subst x2 db2. rewrite E2.
    by destruct (MythicRun.i_score r1 <? MythicRun.i_score r2). }
  destruct Hrows2 as (Hrows2 & Hnext2 & Hid2 & Hslot2).
  split; [reflexivity|]. split; [apply holds_of_insert|].
  split; [exact Hid|]. split; [exact Hrows2|]. split; [|split].
  - intros Hlt. subst x2. rewrite E2.
    rewrite (proj2 (Z.ltb_lt _ _) Hlt). apply overwritten_overwriteRun.
  - intros Hle. subst x2 db2. rewrite E2.
    by rewrite (proj2 (Z.ltb_ge _ _) Hle).
  - intros r3 day3 _ Hday3 Hother Hnone3.
    assert (Hnone3' : List.find (sameRunSlot r3) (mythicRuns db2) = None).
    { rewrite Hrows2. apply (find_none_inSlot r3 day3 _ Hday3).
      intros r Hr. apply elem_of_app in Hr as [Hr|Hr]; [by apply Hnone3|].
      apply list_elem_of_singleton in Hr. subst r.
      rewrite <- (sameRunSlot_inSlot r3 day3 x2 Hday3), Hslot2.
      rewrite (sameRunSlot_inSlot r3 day3 row Hday3).
      intros (H1 & H2 & H3 & H4). simpl in H1, H2, H3, H4.
      apply onDay_sql_DATE in H4, Hday1. intuition congruence. }
    rewrite (upsertMythicRun_new r3 db2 Hnone3'). cbn [fst snd].
    split; [|split; [apply holds_of_insert|]].
    + simpl. rewrite Hrows2, <- app_assoc. reflexivity.
    + simpl. rewrite Hrows2, Hnext2, fmap_app. intros Hin.
      apply elem_of_app in Hin as [Hin|Hin].
      * apply list_elem_of_fmap in Hin as (r & E & Hr).
        rewrite Forall_forall in Hfresh. specialize (Hfresh r Hr). lia.
      * simpl in Hin. apply list_elem_of_singleton in Hin. lia.
Qed.

End UpsertMythicRun.

(** ** Stats aggregator *)

Section StatsFacts.

Import StatsAggregator.

Lemma getPlayer_updatePlayer (playerId : Id) (u : Player.update) (db : Db)
    (player : Player.t) :
  fst (Storage.getPlayer playerId db) = Some player ->
  fst (Storage.getPlayer playerId (snd (Storage.updatePlayer playerId u db)))
    = Some (Player.apply u player).
Proof.
  unfold Storage.getPlayer, Storage.updatePlayer. unfold_M. intros H.
  rewrite (find_map_stable (fun p => Nat.eqb (Player.id p) playerId)).
  - rewrite H. simpl.
    apply List.find_some in H as [_ Hid]. simpl in Hid. by rewrite Hid.
  - intros x. destruct (Nat.eqb (Player.id x) playerId) eqn:E; simpl;
      by rewrite ?E.
Qed.

End StatsFacts.

Section StatsTheorems.

Import StatsAggregator.

Lemma counters_consistent_defaults (i : Id) (n r c : string) :
  counters_consistent (Player.defaults i n r c).
Proof. unfold counters_consistent. simpl. lia. Qed.

(** The aggregator keeps the counters consistent. *)
Lemma counters_consistent_statsUpdate (player : Player.t) (run : MythicRun)
    (existingRuns : list RunDeduplicator.ExistingRun) :
  counters_consistent player ->
  counters_consistent
    (Player.apply (statsUpdate player run existingRuns) player).
Proof.
  unfold counters_consistent, statsUpdate, levelBucket. simpl.
  intros H.
  destruct (clearTimeMs run <=? parTimeMs run);
    destruct (keyLevel run <=? 6); [| destruct (keyLevel run <=? 9);
      [| destruct (keyLevel run <=? 14)] | |
      destruct (keyLevel run <=? 9); [| destruct (keyLevel run <=? 14)]];
    simpl; unfold JS.num_or0 in *; simpl; lia.
Qed.

(** C9: one run adds one to the runs tracked; it adds one to the runs
    in time exactly when the clear time is at most the par time, and
    to the runs over time otherwise; it adds one to the counter of
    the bracket of its level (low up to 6, mid up to 9, high up to 14,
    elite above) and leaves the other three alone.  For a player with
    no run tracked, a run of level 8 cleared in 500000 ms against a
    par of 600000 ms leaves 1 run tracked, 1 in time and 1 in the mid
    bracket. *)
Theorem updatePlayerStats_counters (playerId : Id) (run : MythicRun)
    (existingRuns : list RunDeduplicator.ExistingRun) (db : Db)
    (player : Player.t) :
  fst (Storage.getPlayer playerId db) = Some player ->
  let db' := snd (updatePlayerStats playerId run existingRuns db) in
  let n := JS.num_or0 in
  exists player',
    fst (Storage.getPlayer playerId db') = Some player' /\
    Player.totalRunsTracked player'
      = Some (n (Player.totalRunsTracked player) + 1) /\
    (clearTimeMs run <= parTimeMs run ->
       Player.runsInTime player' = Some (n (Player.runsInTime player) + 1) /\
       n (Player.runsOverTime player') = n (Player.runsOverTime player)) /\
    (parTimeMs run < clearTimeMs run ->
       n (Player.runsInTime player') = n (Player.runsInTime player) /\
       Player.runsOverTime player'
         = Some (n (Player.runsOverTime player) + 1)) /\
    (keyLevel run <= 6 ->
       Player.runsByLevelLow player'
         = Some (n (Player.runsByLevelLow player) + 1) /\
       Player.runsByLevelMid player' = Player.runsByLevelMid player /\
       Player.runsByLevelHigh player' = Player.runsByLevelHigh player /\
       Player.runsByLevelElite player' = Player.runsByLevelElite player) /\
    (6 < keyLevel run <= 9 ->
       Player.runsByLevelLow player' = Player.runsByLevelLow player /\
       Player.runsByLevelMid player'
         = Some (n (Player.runsByLevelMid player) + 1) /\
       Player.runsByLevelHigh player' = Player.runsByLevelHigh player /\
       Player.runsByLevelElite player' = Player.runsByLevelElite player) /\
    (9 < keyLevel run <= 14 ->
       Player.runsByLevelLow player' = Player.runsByLevelLow player /\
       Player.runsByLevelMid player' = Player.runsByLevelMid player /\
       Player.runsByLevelHigh player'
         = Some (n (Player.runsByLevelHigh player) + 1) /\
       Player.runsByLevelElite player' = Player.runsByLevelElite player) /\
    (14 < keyLevel run ->
       Player.runsByLevelLow player' = Player.runsByLevelLow player /\
       Player.runsByLevelMid player' = Player.runsByLevelMid player /\
       Player.runsByLevelHigh player' = Player.runsByLevelHigh player /\
       Player.runsByLevelElite player'
         = Some (n (Player.runsByLevelElite player) + 1)) /\
    (counters_consistent player ->
     Player.totalRunsTracked player = Some 0 ->
     clearTimeMs run = 500000 -> parTimeMs run = 600000 ->
     keyLevel run = 8 ->
       Player.totalRunsTracked player' = Some 1 /\
       Player.runsInTime player' = Some 1 /\
       Player.runsByLevelMid player' = Some 1).
Proof.
  intros Hget db' n.
  exists (Player.apply (statsUpdate player run existingRuns) player).
  split.
  { subst db'. unfold updatePlayerStats.
    unfold mbind at 1, M_bind at 1. destruct (Storage.getPlayer playerId db)
      as [o db0] eqn:E. simpl in Hget. subst o.
    assert (db0 = db) by (unfold Storage.getPlayer in E; unfold_M; congruence).
    subst db0. unfold mbind, M_bind.
    destruct (Storage.updatePlayer playerId _ db) as [o db1] eqn:E1.
    simpl. replace db1 with (snd (Storage.updatePlayer playerId
      (statsUpdate player run existingRuns) db)) by (by rewrite E1).
    apply getPlayer_updatePlayer. by rewrite E. }
  unfold statsUpdate, levelBucket. simpl.
  split; [reflexivity|].
  repeat split; intros;
    repeat match goal with
           | |- context [?a <=? ?b] =>
               let E := fresh in destruct (Z.leb_spec a b) as [E|E]
           end; simpl; try reflexivity; try lia.
  all: try (unfold counters_consistent, n, JS.num_or0 in *;
            repeat match goal with
                   | H : Player.totalRunsTracked _ = _ |- _ =>
                       rewrite H in *
                   end; simpl in *; f_equal; lia).
Qed.

End StatsTheorems.

(** ** Guild-run detection *)

Section GuildRunFacts.

Import RioSync.

Variable toLowerCase : string -> string.

Lemma length_omap_le {A B} (f : A -> option B) (l : list A) :
  (length (omap f l) <= length l)%nat.
Proof.
  induction l as [|x l IH]; csimpl; [lia|].
  destruct (f x); csimpl; lia.
Qed.

(** The cache holds active players of the list it was filled from. *)
Lemma refreshGuildPlayerCache_active (allPlayers : list Player.t)
    (key : string) (p : Player.t) :
  refreshGuildPlayerCache toLowerCase allPlayers !! key = Some p ->
  p ∈ allPlayers /\ Player.isActive p = Some true.
Proof.
  unfold refreshGuildPlayerCache.
  assert (G : forall (l : list Player.t) (acc : gmap string Player.t),
    (forall k q, acc !! k = Some q ->
       (q ∈ allPlayers) /\ Player.isActive q = Some true) ->
    (forall q, q ∈ l -> q ∈ allPlayers) ->
    forall k q,
      fold_left
        (fun cache player =>
           if Storage.is_true (Player.isActive player)
           then <[cacheKey toLowerCase (Player.name player)
                    (Player.realm player) := player]> cache
           else cache) l acc !! k = Some q ->
      (q ∈ allPlayers) /\ Player.isActive q = Some true).
  { induction l as [|x l IH]; intros acc Hacc Hl k q; simpl; [apply Hacc|].
    apply IH.
    - intros k' q'. destruct (Player.isActive x) as [[|]|] eqn:E; simpl;
        try apply Hacc.
      rewrite lookup_insert. case_decide.
      + intros [= <-]. split; [apply Hl; constructor | exact E].
      + apply Hacc.
    - intros q' Hq'. apply Hl. by constructor. }
  apply G.
  - intros k q. by rewrite lookup_empty.
  - auto.
Qed.

Lemma find_None_key key (rows : list GuildMythicRun.t) :
  List.find (fun r => String.eqb (GuildMythicRun.runKey r) key) rows = None ->
  key ∉ GuildMythicRun.runKey <$> rows.
Proof.
  intros H Hin. apply list_elem_of_fmap in Hin as (r & -> & Hr).
  apply list_elem_of_In in Hr.
  apply (List.find_none _ _ H) in Hr. simpl in Hr.
  by rewrite String.eqb_refl in Hr.
Qed.

(** The pieces of a string: there is one at least, the last one has no
    separator, and the string ends with it, after a separator when the
    piece is not the first. *)
Lemma split_pieces (c : ascii) (s : string) :
  exists p ps,
    JS.split c s = p :: ps /\
    JS.includes c p = false /\
    (ps = [] -> s = p) /\
    (ps <> [] ->
       JS.includes c (List.last ps "") = false /\
       exists before, s = before +:+ String c (List.last ps "")).
Proof.
  induction s as [|a s (p & ps & E & Hp & Hone & Hmore)].
  - exists "", []. by repeat split.
  - cbn [JS.split]. rewrite E. destruct (Ascii.eqb a c) eqn:Ea.
    + apply Ascii.eqb_eq in Ea. subst a.
      exists "", (p :: ps). split; [reflexivity|]. split; [reflexivity|].
      split; [discriminate|]. intros _.
      destruct ps as [|q ps].
      * simpl. rewrite (Hone eq_refl). split; [exact Hp|]. by exists "".
      * destruct (Hmore ltac:(discriminate)) as [Hl [before Hb]].
        split; [exact Hl|]. exists (String c before). by rewrite Hb.
    + exists (String a p), ps. split; [reflexivity|].
      split; [simpl; by rewrite Ea|]. split.
      * intros Hps. by rewrite (Hone Hps).
      * intros Hps. destruct (Hmore Hps) as [Hl [before Hb]].
        split; [exact Hl|]. exists (String a before). by rewrite Hb.
Qed.

Lemma lastSegment_split (u : string) :
  lastSegment u (List.last (JS.split "/" u) "").
Proof.
  destruct (split_pieces "/" u) as (p & ps & E & Hp & Hone & Hmore).
  rewrite E. destruct ps as [|q ps].
  - split; [exact Hp|]. left. by apply Hone.
  - destruct (Hmore ltac:(discriminate)) as [Hl Hb].
    split; [exact Hl|]. by right.
Qed.

(** The key that the code gives a run is the derived one. *)
Lemma generateRunKey_derived (run : RaiderIORun) :
  derivedKey run (generateRunKey run).
Proof.
  unfold derivedKey, generateRunKey.
  destruct (url run) as [u|]; [|right; by split; [left|]].
  simpl. destruct (String.eqb u "") eqn:E; simpl.
  - apply String.eqb_eq in E. subst u. right. by split; [right|].
  - apply String.eqb_neq in E. left. exists u.
    split; [reflexivity|]. split; [exact E|]. apply lastSegment_split.
Qed.

(** One round of the loop: either nothing is written, the run having
    fewer than two guild members or a key that is stored, or one guild
    run and one event are appended that record the run. *)
Lemma processGuildRun_step (now : JS.Date) (cache : gmap string Player.t)
    (run : RaiderIORun) (db : Db) :
  let result := processGuildRun toLowerCase now cache run db in
  let guildMembers := matchedMembers toLowerCase cache run in
  (result = (0, db) /\
   ((length guildMembers < 2)%nat \/ generateRunKey run ∈ guildRunKeys db))
  \/ ((2 <= length guildMembers)%nat /\
      (generateRunKey run ∉ guildRunKeys db) /\
      exists g e,
        fst result = 1 /\
        guildMythicRuns (snd result) = guildMythicRuns db ++ [g] /\
        activityEvents (snd result) = activityEvents db ++ [e] /\
        records toLowerCase cache run g e).
Proof.
  intros result guildMembers. subst result guildMembers.
  unfold processGuildRun, matchedMembers, records, matchedMembers.
  destruct (roster run) as [members|]; [|left; split; [done|left; simpl; lia]].
  pose proof (length_omap_le
                (fun member : RaiderIORosterMember =>
                   findGuildPlayer toLowerCase cache (character_name member)
                     (if JS.truthy_str (Some (character_realm_name member))
                      then character_realm_name member
                      else character_realm_slug member)) members) as Hle.
  fold (guildMembersOf toLowerCase cache members) in Hle.
  case_bool_decide as Hfew; [left; split; [done|left; lia]|].
  destruct (guildMembersOf toLowerCase cache members) as [|p [|q rest]] eqn:Em;
    [left; split; [done|left; simpl; lia] ..|].
  rewrite run_bind.
  change (snd (Storage.getGuildMythicRunByKey (generateRunKey run) db))
    with db.
  destruct (fst (Storage.getGuildMythicRunByKey (generateRunKey run) db))
    as [g|] eqn:Eg.
  - left. split; [reflexivity|]. right.
    unfold Storage.getGuildMythicRunByKey in Eg. unfold_M.
    apply List.find_some in Eg as [Hin Hkey].
    apply String.eqb_eq in Hkey. rewrite <- Hkey.
    apply list_elem_of_fmap. exists g. by rewrite list_elem_of_In.
  - right. split; [simpl; lia|]. split.
    + by apply find_None_key.
    + rewrite !run_bind. eexists _, _.
      split; [reflexivity|]. split; [reflexivity|]. split; [reflexivity|].
      simpl. by repeat split.
Qed.

(** What a pass over a list of runs writes. *)
Lemma processGuildRuns_counted (now : JS.Date)
    (cache : gmap string Player.t) (runs : list RaiderIORun) (db : Db) :
  NoDup (guildRunKeys db) ->
  let result := processGuildRuns toLowerCase now cache runs db in
  exists counted : list (RaiderIORun * (GuildMythicRun.t * ActivityEvent.t)),
    guildMythicRuns (snd result)
    = guildMythicRuns db ++ ((fun c => fst (snd c)) <$> counted) /\
    activityEvents (snd result)
    = activityEvents db ++ ((fun c => snd (snd c)) <$> counted) /\
    fst result = Z.of_nat (length counted) /\
    NoDup (guildRunKeys (snd result)) /\
    Forall (fun c =>
              fst c ∈ runs /\
              (2 <= length (matchedMembers toLowerCase cache (fst c)))%nat /\
              (generateRunKey (fst c) ∉ guildRunKeys db) /\
              records toLowerCase cache (fst c) (fst (snd c)) (snd (snd c)))
      counted /\
    (forall run,
       run ∈ runs ->
       (2 <= length (matchedMembers toLowerCase cache run))%nat ->
       generateRunKey run ∈ guildRunKeys (snd result)).
Proof.
  unfold processGuildRuns. revert db.
  induction runs as [|run rest IH]; intros db Hnd.
  - exists []. simpl. rewrite !app_nil_r.
    repeat split; try done. intros run Hrun. by apply elem_of_nil in Hrun.
  - cbn [sum_each]. rewrite run_bind, sum_each_acc. cbn [fst snd].
    destruct (processGuildRun_step now cache run db) as [[E Hwhy]|Hnew].
    + rewrite E. cbn [fst snd].
      destruct (IH db Hnd) as (counted & Hg & He & Hc & Hn & Hall & Hin).
      exists counted. rewrite Hg, He, Hc.
      split; [reflexivity|]. split; [reflexivity|]. split; [lia|].
      split; [exact Hn|]. split.
      * eapply Forall_impl; [exact Hall|].
        intros c (H1 & H2). split; [by right | exact H2].
      * intros r Hr Hr2. apply elem_of_cons in Hr as [->|Hr];
          [|by apply Hin].
        destruct Hwhy as [Hfew|Hstored]; [lia|].
        unfold guildRunKeys in *. rewrite Hg, fmap_app.
        apply elem_of_app. by left.
    + destruct Hnew as (Hmany & Hfresh & g & e & E1 & Eg & Ee & Hrec).
      set (db1 := snd (processGuildRun toLowerCase now cache run db)) in *.
      assert (Hnd1 : NoDup (guildRunKeys db1)).
      { unfold guildRunKeys in *. rewrite Eg, fmap_app. apply NoDup_app.
        split; [exact Hnd|]. split; [|apply NoDup_singleton].
        intros k Hk Hk'. apply list_elem_of_singleton in Hk'. subst k.
        destruct Hrec as [Hkey _]. by rewrite Hkey in Hk. }
      destruct (IH db1 Hnd1) as (counted & Hg & He & Hc & Hn & Hall & Hin).
      exists ((run, (g, e)) :: counted).
      rewrite Hg, He, Hc, E1, Eg, Ee, <- !app_assoc. cbn [length].
      split; [reflexivity|]. split; [reflexivity|]. split; [lia|].
      split; [exact Hn|]. split.
      * constructor; [by split; [left|]|].
        eapply Forall_impl; [exact Hall|].
        intros c (H1 & H2 & H3 & H4). split; [by right|].
        split; [exact H2|]. split; [|exact H4].
        intros Hk. apply H3. unfold guildRunKeys in *.
        rewrite Eg, fmap_app. apply elem_of_app. by left.
      * intros r Hr Hr2. apply elem_of_cons in Hr as [->|Hr];
          [|by apply Hin].
        unfold guildRunKeys in *. rewrite Hg, Eg, !fmap_app.
        apply elem_of_app. left. apply elem_of_app. right.
        destruct Hrec as [Hkey _]. simpl. rewrite Hkey. by left.
Qed.

(** A pass over runs whose keys are stored writes nothing. *)
Lemma processGuildRuns_known (now : JS.Date) (cache : gmap string Player.t)
    (runs : list RaiderIORun) (db : Db) :
  (forall run,
     run ∈ runs ->
     (2 <= length (matchedMembers toLowerCase cache run))%nat ->
     generateRunKey run ∈ guildRunKeys db) ->
  processGuildRuns toLowerCase now cache runs db = (0, db).
Proof.
  unfold processGuildRuns. induction runs as [|run rest IH]; intros Hknown.
  - reflexivity.
  - cbn [sum_each]. rewrite run_bind.
    destruct (processGuildRun_step now cache run db) as [[E _]|Hnew].
    + rewrite E. cbn [fst snd]. apply IH.
      intros r Hr. apply Hknown. by right.
    + destruct Hnew as (Hmany & Hfresh & _).
      destruct Hfresh. apply Hknown; [by left | exact Hmany].
Qed.

(** C8: in a pass over fetched runs, each run whose roster holds at least
    two guild members of the cache, which are active players, is recorded
    under its key, the last segment of its URL or else its dungeon, level
    and time of completion: when no guild run of that key was stored, one
    guild run and one event are written for it, the event that of the
    first matched member with a description that lists them all, and
    nothing else is written.  No key is stored twice.  A later pass over
    runs of these keys, whatever their other fields, the time and the
    cache, writes nothing as long as the keys are stored. *)
Theorem processGuildRuns_once (now : JS.Date) (allPlayers : list Player.t)
    (runs : list RaiderIORun) (db : Db) :
  NoDup (guildRunKeys db) ->
  let cache := refreshGuildPlayerCache toLowerCase allPlayers in
  let matched := matchedMembers toLowerCase cache in
  let result := processGuildRuns toLowerCase now cache runs db in
  let db1 := snd result in
  exists counted : list (RaiderIORun * (GuildMythicRun.t * ActivityEvent.t)),
    guildMythicRuns db1
    = guildMythicRuns db ++ ((fun c => fst (snd c)) <$> counted) /\
    activityEvents db1
    = activityEvents db ++ ((fun c => snd (snd c)) <$> counted) /\
    fst result = Z.of_nat (length counted) /\
    NoDup (guildRunKeys db1) /\
    Forall (fun c =>
              fst c ∈ runs /\
              (2 <= length (matched (fst c)))%nat /\
              (generateRunKey (fst c) ∉ guildRunKeys db) /\
              records toLowerCase cache (fst c) (fst (snd c)) (snd (snd c)))
      counted /\
    (forall run,
       run ∈ runs ->
       (2 <= length (matched run))%nat ->
       derivedKey run (generateRunKey run) /\
       Forall (fun p => p ∈ allPlayers /\ Player.isActive p = Some true)
         (matched run) /\
       generateRunKey run ∈ guildRunKeys db1 /\
       (generateRunKey run ∉ guildRunKeys db ->
        exists run' g e,
          (run', (g, e)) ∈ counted
          /\ generateRunKey run' = generateRunKey run)) /\
    (forall now' cache' runs' db2,
       (forall key, key ∈ guildRunKeys db1 -> key ∈ guildRunKeys db2) ->
       (forall run',
          run' ∈ runs' ->
          exists run,
            run ∈ runs /\ (2 <= length (matched run))%nat /\
            generateRunKey run' = generateRunKey run) ->
       processGuildRuns toLowerCase now' cache' runs' db2 = (0, db2)).
Proof.
  intros Hnd cache matched result db1.
  destruct (processGuildRuns_counted now cache runs db Hnd)
    as (counted & Hg & He & Hc & Hn & Hall & Hin).
  fold result in Hg, He, Hc, Hn, Hin. fold db1 in Hg, He, Hn, Hin.
  exists counted.
  split; [exact Hg|]. split; [exact He|]. split; [exact Hc|].
  split; [exact Hn|]. split; [exact Hall|]. split.
  - intros run Hrun Hmany. split; [apply generateRunKey_derived|].
    split; [|split; [by apply Hin|]].
    + apply Forall_forall. intros p Hp. subst matched. cbv beta in *.
      unfold matchedMembers in Hp.
      destruct (roster run) as [members|]; [|by apply elem_of_nil in Hp].
      apply list_elem_of_omap in Hp as (m & _ & Hm).
      eapply refreshGuildPlayerCache_active. exact Hm.
    + intros Hfresh. pose proof (Hin run Hrun Hmany) as Hk.
      unfold guildRunKeys in Hk, Hfresh. rewrite Hg, fmap_app in Hk.
      apply elem_of_app in Hk as [Hk|Hk]; [done|].
      apply list_elem_of_fmap in Hk as (g & Hkey & Hgin).
      apply list_elem_of_fmap in Hgin as ([run' [g' e]] & -> & Hc').
      exists run', g', e. split; [exact Hc'|].
      rewrite Forall_forall in Hall.
      destruct (Hall _ Hc') as (_ & _ & _ & Hrec & _).
      simpl in Hrec, Hkey. congruence.
  - intros now' cache' runs' db2 Hkept Hsame.
    apply processGuildRuns_known. intros run' Hrun' _.
    destruct (Hsame run' Hrun') as (run & Hrun & Hmany & ->).
    apply Hkept. by apply Hin.
Qed.

End GuildRunFacts.

(** ** Upload endpoint: what a request can do to the roster *)

Section RosterFrame.

Lemma steps_weaken {A} (R R' : Db -> Db -> Prop) (m : M A) :
  (forall a b, R a b -> R' a b) -> steps R m -> steps R' m.
Proof. intros H Hm db. apply H, Hm. Qed.

Lemma roster_untouched_refl db : roster_untouched db db.
Proof. by repeat split. Qed.

Lemma roster_untouched_trans a b c :
  roster_untouched a b -> roster_untouched b c -> roster_untouched a c.
Proof.
  unfold roster_untouched. intros (?&?&?&?&?) (?&?&?&?&?).
  repeat split; congruence.
Qed.

Lemma same_player_refl p : same_player p p.
Proof. by repeat split. Qed.

Lemma same_player_trans p q r :
  same_player p q -> same_player q r -> same_player p r.
Proof.
  unfold same_player. intros (?&?&?&?) (?&?&?&?).
  repeat split; try congruence. auto.
Qed.

Lemma Forall2_same_player_refl l : Forall2 same_player l l.
Proof. induction l; constructor; auto using same_player_refl. Qed.

Lemma keeps_active_refl db : keeps_active db db.
Proof.
  exists (players db), []. split; [by rewrite app_nil_r|].
  apply Forall2_same_player_refl.
Qed.

Lemma keeps_active_trans a b c :
  keeps_active a b -> keeps_active b c -> keeps_active a c.
Proof.
  intros (k1 & a1 & E1 & F1) (k2 & a2 & E2 & F2).
  rewrite E1 in F2. apply Forall2_app_inv_l in F2 as (k2a & k2b & Fa & Fb & ->).
  exists k2a, (k2b ++ a2). split; [by rewrite E2, <- app_assoc|].
  clear -F1 Fa. revert k2a Fa.
  induction F1 as [|p q l l' Hpq _ IH]; intros k2a Fa.
  - inversion Fa. constructor.
  - inversion Fa as [|q' r l'' k Hqr Hrest]; subst. constructor.
    + eapply same_player_trans; eauto.
    + by apply IH.
Qed.

Lemma keeps_active_players a b : players b = players a -> keeps_active a b.
Proof.
  intros E. exists (players a), []. split; [by rewrite E, app_nil_r|].
  apply Forall2_same_player_refl.
Qed.

Lemma roster_untouched_keeps_active a b :
  roster_untouched a b -> keeps_active a b.
Proof. intros (E & _). by apply keeps_active_players. Qed.

Lemma keeps_active_map (f : Player.t -> Player.t) db :
  (forall p, same_player p (f p)) ->
  keeps_active db (with_players (List.map f) db).
Proof.
  intros Hf. exists (List.map f (players db)), []. simpl.
  split; [by rewrite app_nil_r|].
  induction (players db); simpl; constructor; auto.
Qed.

Lemma keeps_active_add (p : Player.t) db :
  keeps_active db (bump_id (with_players (fun ps => ps ++ [p]) db)).
Proof.
  exists (players db), [p]. split; [reflexivity|].
  apply Forall2_same_player_refl.
Qed.

Lemma same_player_apply (u : Player.update) (p : Player.t) :
  no_deactivation u -> same_player p (Player.apply u p).
Proof.
  intros Hu. repeat split. simpl. unfold set_col.
  destruct Hu as [-> | ->]; simpl; auto.
Qed.

(** What stays true of a row of the state before. *)
Lemma keeps_active_lookup a b (i : nat) (p : Player.t) :
  keeps_active a b ->
  players a !! i = Some p ->
  exists q, players b !! i = Some q /\ same_player p q.
Proof.
  intros (kept & added & E & F) Hi.
  destruct (Forall2_lookup_l _ _ _ _ _ F Hi) as (q & Hq & Hpq).
  exists q. split; [|exact Hpq].
  rewrite E. by apply lookup_app_l_Some.
Qed.

End RosterFrame.

Section StorageSteps.

Import Storage.

Variable status_defaults : UploaderStatus.column_defaults.

Ltac bind_ka :=
  apply (steps_bind keeps_active keeps_active_trans).
Ltac ret_ka :=
  apply (steps_ret keeps_active keeps_active_refl).
Ltac bind_ru :=
  apply (steps_bind roster_untouched roster_untouched_trans).
Ltac ret_ru :=
  apply (steps_ret roster_untouched roster_untouched_refl).

(** *** operations that leave the roster alone *)

Lemma steps_ensureUploaderStatus uploaderId :
  steps roster_untouched (ensureUploaderStatus status_defaults uploaderId).
Proof.
  intros db. unfold ensureUploaderStatus, getUploaderStatusRecord. unfold_M.
  destruct (List.find _ (uploaderStatuses db)); simpl; by repeat split.
Qed.

Lemma steps_updateUploaderStatus now uploaderId updates :
  steps roster_untouched
    (updateUploaderStatus status_defaults now uploaderId updates).
Proof.
  unfold updateUploaderStatus. bind_ru; [apply steps_ensureUploaderStatus|].
  intros current db. unfold_M. by repeat split.
Qed.

Lemma steps_markUploaderOutOfOrder now uploaderId e r sid tb ph :
  steps roster_untouched
    (markUploaderOutOfOrder status_defaults now uploaderId e r sid tb ph).
Proof. apply steps_updateUploaderStatus. Qed.

Lemma steps_getGuildSettings : steps keeps_active getGuildSettings.
Proof. intros db. apply keeps_active_refl. Qed.

Lemma steps_updateSettingsRow id f :
  steps keeps_active (updateSettingsRow id f).
Proof. intros db. by apply keeps_active_players. Qed.

Lemma steps_startUploadSession now uploaderId sid :
  steps keeps_active (startUploadSession now uploaderId sid).
Proof.
  unfold startUploadSession. bind_ka; [apply steps_getGuildSettings|].
  intros [g|]; [apply steps_updateSettingsRow | ret_ka].
Qed.

Lemma steps_clearUploadSession now uploaderId :
  steps keeps_active (clearUploadSession now uploaderId).
Proof.
  unfold clearUploadSession. bind_ka; [apply steps_getGuildSettings|].
  intros [g|]; [apply steps_updateSettingsRow | ret_ka].
Qed.

Lemma steps_incrementUploadProcessedCount uploaderId count :
  steps keeps_active (incrementUploadProcessedCount uploaderId count).
Proof.
  unfold incrementUploadProcessedCount.
  bind_ka; [apply steps_getGuildSettings|].
  intros [g|]; [apply steps_updateSettingsRow | ret_ka].
Qed.

Lemma steps_getCurrentUploadSession uploaderId :
  steps keeps_active (getCurrentUploadSession uploaderId).
Proof.
  unfold getCurrentUploadSession. bind_ka; [apply steps_getGuildSettings|].
  intros g. ret_ka.
Qed.

(** *** operations on players that deactivate nobody *)

Lemma steps_getPlayerByName name realm :
  steps keeps_active (getPlayerByName name realm).
Proof. intros db. apply keeps_active_refl. Qed.

Lemma steps_updatePlayer id updates :
  no_deactivation updates -> steps keeps_active (updatePlayer id updates).
Proof.
  intros Hu db. unfold updatePlayer. unfold_M.
  apply keeps_active_map. intros p.
  destruct (Nat.eqb (Player.id p) id);
    [by apply same_player_apply | apply same_player_refl].
Qed.

Lemma steps_createPlayer insertPlayer :
  steps keeps_active (createPlayer insertPlayer).
Proof. intros db. unfold createPlayer. unfold_M. apply keeps_active_add. Qed.

Lemma steps_upsertPlayer playerData :
  no_deactivation (Player.i_cols playerData) ->
  steps keeps_active (upsertPlayer playerData).
Proof.
  intros Hu. unfold upsertPlayer.
  bind_ka; [apply steps_getPlayerByName|].
  intros [existing|]; [|apply steps_createPlayer].
  match goal with |- context [nonempty_upsert_updates ?u] =>
    destruct (nonempty_upsert_updates u) end; [|ret_ka].
  bind_ka; [|intros; ret_ka].
  apply steps_updatePlayer. exact Hu.
Qed.

Lemma steps_updatePlayerLastSeen name realm lastSeen :
  steps keeps_active (updatePlayerLastSeen name realm lastSeen).
Proof.
  unfold updatePlayerLastSeen. bind_ka; [apply steps_getPlayerByName|].
  intros [existing|]; [|ret_ka].
  intros db. unfold_M. apply keeps_active_map. intros p.
  destruct (Nat.eqb (Player.id p) (Player.id existing));
    [apply same_player_apply; by left | apply same_player_refl].
Qed.

(** *** what [updateUploaderStatus] returns and stores *)

Lemma updateUploaderStatus_result now uploaderId updates db :
  let payload := sanitizeUpdate now updates in
  (exists r,
     fst (updateUploaderStatus status_defaults now uploaderId updates db)
     = UploaderStatus.apply payload r) /\
  (exists r,
     fst (getUploaderStatusRecord uploaderId
            (snd (updateUploaderStatus status_defaults now uploaderId
                    updates db)))
     = Some (UploaderStatus.apply payload r)).
Proof.
  intros payload. unfold updateUploaderStatus, ensureUploaderStatus,
    getUploaderStatusRecord. unfold_M.
  destruct (List.find _ (uploaderStatuses db)) as [existing|] eqn:E; simpl.
  - split.
    + rewrite (find_map_stable
        (fun r => Nat.eqb (UploaderStatus.id r) (UploaderStatus.id existing))).
      * destruct (List.find
          (fun r => Nat.eqb (UploaderStatus.id r) (UploaderStatus.id existing))
          (uploaderStatuses db)) as [r|] eqn:Er; simpl.
        -- exists r. fold payload.
           apply List.find_some in Er as [_ Er]. simpl in Er. by rewrite Er.
        -- by exists existing.
      * intros x. destruct (Nat.eqb (UploaderStatus.id x) _) eqn:Ex; simpl;
          by rewrite ?Ex.
    + rewrite (find_map_stable
        (fun r => String.eqb (UploaderStatus.uploaderId r) uploaderId)).
      * rewrite E. simpl. rewrite Nat.eqb_refl. by exists existing.
      * intros x. by destruct (Nat.eqb _ _).
  - split.
    + rewrite (find_map_stable
        (fun r => Nat.eqb (UploaderStatus.id r) (nextId db))).
      * destruct (List.find _ (uploaderStatuses db ++ _)) as [r|] eqn:Er;
          simpl.
        -- apply List.find_some in Er as [_ Er]. simpl in Er. rewrite Er.
           by exists r.
        -- by eexists.
      * intros x. destruct (Nat.eqb (UploaderStatus.id x) _) eqn:Ex; simpl;
          by rewrite ?Ex.
    + rewrite (find_map_stable
        (fun r => String.eqb (UploaderStatus.uploaderId r) uploaderId)).
      * erewrite find_app_None; [| exact E | simpl; apply String.eqb_refl].
        simpl. rewrite Nat.eqb_refl. by eexists.
      * intros x. by destruct (Nat.eqb _ _).
Qed.

End StorageSteps.

Section HandlerSteps.

Import Upload.

Variable toUpperCase : string -> string.
Variable status_defaults : UploaderStatus.column_defaults.

Ltac bind_ka :=
  apply (steps_bind keeps_active keeps_active_trans).
Ltac ret_ka :=
  apply (steps_ret keeps_active keeps_active_refl).
Ltac untouched lem :=
  apply (steps_weaken roster_untouched keeps_active);
  [apply roster_untouched_keeps_active | apply lem].

(** The parsed object has none of the keys of the removal guard. *)
Lemma prop_parsed (body : AddonUploadData) (key : string) :
  prop (addonUploadSchema_parse body) key = None.
Proof. unfold prop. simpl. apply lookup_empty. Qed.

(** Hence the guard the handler computes never passes. *)
Lemma guard_of_parsed (body : AddonUploadData)
    (removedMembers : list RemovedMember) :
  let parsed := addonUploadSchema_parse body in
  removalGuardPassed removedMembers
    (flag (prop parsed "add_update_only") (prop parsed "addUpdateOnly"))
    (flag (prop parsed "confirm_removals") (prop parsed "confirmRemovals"))
    (hash (prop parsed "base_roster_hash") (prop parsed "baseRosterHash"))
  = false.
Proof.
  intros parsed. subst parsed. rewrite !prop_parsed.
  unfold removalGuardPassed. simpl. by rewrite andb_false_r.
Qed.

Lemma steps_upsertRosterPlayers defaultRealm parsed :
  steps keeps_active (upsertRosterPlayers toUpperCase defaultRealm parsed).
Proof.
  unfold upsertRosterPlayers.
  destruct (master_roster parsed) as [roster|]; [|ret_ka].
  apply (steps_sum_each keeps_active keeps_active_refl keeps_active_trans).
  intros [fullName entry]. destruct (parsePlayerName fullName defaultRealm).
  bind_ka; [|intros; ret_ka].
  apply steps_upsertPlayer. by right.
Qed.

Lemma steps_processStats defaultRealm parsed :
  steps keeps_active (processStats toUpperCase defaultRealm parsed).
Proof.
  unfold processStats.
  destruct (stats parsed) as [statsArray|]; [|ret_ka].
  apply (steps_sum_each keeps_active keeps_active_refl keeps_active_trans).
  intros snapshot. destruct (iso snapshot) as [timestamp|]; [|ret_ka].
  bind_ka; [|intros; ret_ka].
  apply (steps_for_each keeps_active keeps_active_refl keeps_active_trans).
  intros [fullName playerInfo].
  destruct (parsePlayerName fullName defaultRealm).
  bind_ka; [apply steps_updatePlayerLastSeen|]. intros _.
  destruct (_ || _); [|ret_ka].
  bind_ka; [|intros; ret_ka].
  apply steps_upsertPlayer. by right.
Qed.

Lemma steps_processChat defaultRealm parsed :
  steps keeps_active (processChat defaultRealm parsed).
Proof.
  unfold processChat.
  destruct (data parsed) as [entries|]; [|ret_ka].
  apply (steps_sum_each keeps_active keeps_active_refl keeps_active_trans).
  intros [fullName chatEntry].
  destruct (parsePlayerName fullName defaultRealm).
  bind_ka; [apply steps_getPlayerByName|].
  intros [existing|]; [|ret_ka].
  destruct (nonempty_chat_updates _); [|ret_ka].
  bind_ka; [|intros; ret_ka].
  apply steps_updatePlayer. by left.
Qed.

Lemma steps_trackUploader now uploaderId isBatchedUpload batchIndex
    totalBatches sessionPhase incomingSessionId currentSessionId
    isFinalBatch :
  steps keeps_active
    (trackUploader status_defaults now uploaderId isBatchedUpload batchIndex
       totalBatches sessionPhase incomingSessionId currentSessionId
       isFinalBatch).
Proof.
  unfold trackUploader.
  destruct isBatchedUpload, batchIndex;
    try (destruct (JS.truthy_str incomingSessionId); [|ret_ka]);
    (bind_ka; [|intros; ret_ka]);
    untouched steps_updateUploaderStatus.
Qed.

Lemma steps_beginSession_untouched now uploaderId incomingSessionId
    totalBatches sessionPhase :
  steps roster_untouched
    (beginSession status_defaults now uploaderId incomingSessionId
       totalBatches sessionPhase).
Proof.
  unfold beginSession.
  apply (steps_bind roster_untouched roster_untouched_trans);
    [apply steps_ensureUploaderStatus|].
  intros st.
  apply (steps_bind roster_untouched roster_untouched_trans);
    [|intros; apply (steps_ret roster_untouched roster_untouched_refl)].
  destruct (_ && _);
    [apply steps_updateUploaderStatus
    |apply (steps_ret roster_untouched roster_untouched_refl)].
Qed.

(** With a roster mode and a guard that did not pass, the roster step
    deactivates nobody. *)
Lemma steps_processRoster now uploaderId defaultRealm parsed rosterMode
    sessionPhase incomingSessionId isFinalBatch removedMembers :
  is_Some rosterMode ->
  steps keeps_active
    (processRoster toUpperCase now uploaderId defaultRealm parsed rosterMode
       sessionPhase incomingSessionId isFinalBatch removedMembers false).
Proof.
  intros [mode ->]. unfold processRoster, processRemovals.
  destruct mode;
    [destruct sessionPhase as [[| |]|] ..
    | bind_ka; [apply steps_clearUploadSession | intros; ret_ka]].
  all: repeat first
    [ ret_ka
    | apply steps_upsertRosterPlayers
    | apply steps_clearUploadSession
    | apply steps_startUploadSession
    | apply steps_getCurrentUploadSession
    | bind_ka; [|intros ?]
    | match goal with
      | |- steps _ (match ?x with _ => _ end) => destruct x
      end ].
Qed.

End HandlerSteps.

Section HandlerResults.

Import Upload.

Variable toUpperCase : string -> string.
Variable status_defaults : UploaderStatus.column_defaults.

Lemma returns_processRoster now uploaderId defaultRealm parsed rosterMode
    sessionPhase incomingSessionId isFinalBatch removedMembers :
  returns (fun r => snd r = 0)
    (processRoster toUpperCase now uploaderId defaultRealm parsed rosterMode
       sessionPhase incomingSessionId isFinalBatch removedMembers false).
Proof.
  unfold processRoster, processRemovals.
  destruct rosterMode as [[| |]|]; [destruct sessionPhase as [[| |]|] ..| |].
  all: repeat first
    [ by apply returns_ret
    | match goal with
      | |- returns _ (mret ?v ≫= _) =>
          apply (returns_bind (fun x => x = v));
          [by apply returns_ret | intros ? ->]
      end
    | eapply returns_bind; [apply returns_any | intros ? _] ].
Qed.

(** Whatever the body says, the handler reports no removal. *)
Lemma postUpload_removes_nothing now uploaderId body :
  returns (fun r => removed_of r = 0)
    (postUpload toUpperCase status_defaults now uploaderId body).
Proof.
  unfold postUpload.
  eapply returns_bind; [apply returns_any | intros settings _].
  eapply returns_bind; [apply returns_any | intros [st cur] _].
  destruct (_ && _).
  { eapply returns_bind; [apply returns_any | intros ? _].
    by apply returns_ret. }
  rewrite guard_of_parsed.
  set (mode := either (roster_mode _) (rosterMode _)).
  set (ph := either (session_phase _) (sessionPhase _)).
  assert (G : returns (fun r => removed_of r = 0)
    ('(playersProcessed, removedCount) ←
       processRoster toUpperCase now uploaderId
         (str_or (GuildSettings.realm <$> settings) "Unknown")
         (addonUploadSchema_parse body) mode ph
         (upload_session_id (addonUploadSchema_parse body))
         (bool_decide (is_final_batch (addonUploadSchema_parse body)
                       = Some true))
         (default [] (either (removed_members (addonUploadSchema_parse body))
                        (removedMembers (addonUploadSchema_parse body))))
         false;
     (if bool_decide (is_Some mode) && (0 <? playersProcessed)
      then Storage.incrementUploadProcessedCount uploaderId playersProcessed
      else mret tt);;
     snapshotsProcessed ←
       processStats toUpperCase
         (str_or (GuildSettings.realm <$> settings) "Unknown")
         (addonUploadSchema_parse body);
     chatDataProcessed ←
       processChat (str_or (GuildSettings.realm <$> settings) "Unknown")
         (addonUploadSchema_parse body);
     trackUploader status_defaults now uploaderId
       (isBatched mode (batch_index (addonUploadSchema_parse body)) ph)
       (batch_index (addonUploadSchema_parse body))
       (total_batches (addonUploadSchema_parse body)) ph
       (upload_session_id (addonUploadSchema_parse body)) cur
       (bool_decide (is_final_batch (addonUploadSchema_parse body)
                     = Some true));;
     mret (Success mode ph playersProcessed removedCount snapshotsProcessed
             chatDataProcessed))).
  { eapply returns_bind; [apply returns_processRoster|].
    intros [pp rc] Hrc. simpl in Hrc. subst rc.
    do 4 (eapply returns_bind; [apply returns_any | intros ? _]).
    by apply returns_ret. }
  destruct mode as [[| |]|], (batch_index (addonUploadSchema_parse body)),
    ph; try exact G; by apply returns_ret.
Qed.

End HandlerResults.

Section UploadTheorems.

Import Upload.

Variable toUpperCase : string -> string.
Variable status_defaults : UploaderStatus.column_defaults.

Ltac bind_ka :=
  apply (steps_bind keeps_active keeps_active_trans).
Ltac ret_ka :=
  apply (steps_ret keeps_active keeps_active_refl).
Ltac untouched lem :=
  apply (steps_weaken roster_untouched keeps_active);
  [apply roster_untouched_keeps_active | apply lem].

(** A request that declares a roster mode deletes and deactivates
    nobody. *)
Lemma postUpload_keeps_active now uploaderId body :
  is_Some (either (roster_mode body) (rosterMode body)) ->
  steps keeps_active
    (postUpload toUpperCase status_defaults now uploaderId body).
Proof.
  intros Hmode. unfold postUpload.
  bind_ka; [apply steps_getGuildSettings | intros settings].
  bind_ka; [untouched steps_beginSession_untouched | intros [st cur]].
  destruct (_ && _).
  { bind_ka; [untouched steps_markUploaderOutOfOrder | intros; ret_ka]. }
  rewrite guard_of_parsed.
  change (roster_mode (addonUploadSchema_parse body)) with (roster_mode body).
  change (rosterMode (addonUploadSchema_parse body)) with (rosterMode body).
  destruct Hmode as [mode Hmode]. rewrite Hmode.
  destruct mode, (batch_index (addonUploadSchema_parse body)),
    (either (session_phase (addonUploadSchema_parse body))
       (sessionPhase (addonUploadSchema_parse body)));
    repeat first
      [ ret_ka
      | apply steps_processRoster; by eexists
      | apply steps_incrementUploadProcessedCount
      | apply steps_processStats
      | apply steps_processChat
      | apply steps_trackUploader
      | bind_ka; [|intros ?]
      | match goal with
        | |- steps _ (let '(_, _) := ?x in _) => destruct x
        | |- steps _ (if ?c then _ else _) => destruct c
        end ].
Qed.

(** C2: a chunk-phase batch of a delta or full upload leaves every
    player that was active where it was and active, whether the
    batch lists the player or not; no row is deleted. *)
Theorem chunk_batch_deactivates_nobody (now : JS.Date)
    (uploaderId : string) (body : AddonUploadData) (db : Db)
    (i : nat) (B : Player.t) :
  either (session_phase body) (sessionPhase body) = Some chunk ->
  either (roster_mode body) (rosterMode body) = Some delta
    \/ either (roster_mode body) (rosterMode body) = Some full ->
  players db !! i = Some B ->
  Player.isActive B = Some true ->
  let db' :=
    snd (postUpload toUpperCase status_defaults now uploaderId body db) in
  exists B',
    players db' !! i = Some B' /\
    Player.id B' = Player.id B /\
    Player.name B' = Player.name B /\
    Player.realm B' = Player.realm B /\
    Player.isActive B' = Player.isActive B.
Proof.
  intros _ Hmode Hi Hactive db'.
  assert (Hk : keeps_active db db').
  { apply postUpload_keeps_active. destruct Hmode as [-> | ->]; by eexists. }
  destruct (keeps_active_lookup _ _ _ _ Hk Hi) as (B' & HB' & ? & ? & ? & Hact).
  exists B'. rewrite Hactive. repeat split; auto.
Qed.

(** C5: a final-phase upload of a delta or full roster that names an
    active player in its removed members, and either sets none of
    the keys [confirm_removals] and [base_roster_hash] or sets
    [add_update_only], reports no removal and leaves the player
    active; the removal guard is false on the values of the body. *)
Theorem unconfirmed_removal_is_skipped (now : JS.Date)
    (uploaderId : string) (body : AddonUploadData) (db : Db)
    (i : nat) (A : Player.t) (member : RemovedMember)
    (removedMembers : list RemovedMember) (defaultRealm : string) :
  either (session_phase body) (sessionPhase body) = Some final ->
  either (roster_mode body) (rosterMode body) = Some delta
    \/ either (roster_mode body) (rosterMode body) = Some full ->
  either (removed_members body) (Upload.removedMembers body)
    = Some removedMembers ->
  member ∈ removedMembers ->
  parseRemovedMember defaultRealm member
    = (Player.name A, Player.realm A) ->
  players db !! i = Some A ->
  Player.isActive A = Some true ->
  let addUpdateOnly :=
    flag (prop body "add_update_only") (prop body "addUpdateOnly") in
  let confirmRemovals :=
    flag (prop body "confirm_removals") (prop body "confirmRemovals") in
  let baseRosterHash :=
    hash (prop body "base_roster_hash") (prop body "baseRosterHash") in
  (prop body "confirm_removals" = None /\
   prop body "confirmRemovals" = None /\
   prop body "base_roster_hash" = None /\
   prop body "baseRosterHash" = None)
    \/ truthy addUpdateOnly = true ->
  let result := postUpload toUpperCase status_defaults now uploaderId body db in
  removalGuardPassed removedMembers addUpdateOnly confirmRemovals
    baseRosterHash = false /\
  removed_of (fst result) = 0 /\
  exists A',
    players (snd result) !! i = Some A' /\
    Player.id A' = Player.id A /\
    Player.name A' = Player.name A /\
    Player.realm A' = Player.realm A /\
    Player.isActive A' = Some true.
Proof.
  intros _ Hmode _ _ _ Hi Hactive addUpdateOnly confirmRemovals
    baseRosterHash Hguard result.
  split; [|split].
  - unfold removalGuardPassed.
    destruct Hguard as [(H1 & H2 & H3 & H4) | Hadd].
    + subst confirmRemovals baseRosterHash. rewrite H1, H2, H3, H4. simpl.
      by rewrite andb_false_r.
    + rewrite Hadd. simpl. by rewrite andb_false_r.
  - apply postUpload_removes_nothing.
  - assert (Hk : keeps_active db (snd result)).
    { apply postUpload_keeps_active.
      destruct Hmode as [-> | ->]; by eexists. }
    destruct (keeps_active_lookup _ _ _ _ Hk Hi)
      as (A' & HA' & ? & ? & ? & Hact).
    exists A'. repeat split; auto.
Qed.

(** The status a request is checked against is the stored one when
    the request stays in the session of that status. *)
Lemma beginSession_same_session now uploaderId incomingSessionId
    totalBatches sessionPhase db (r : UploaderStatus.t) :
  fst (Storage.getUploaderStatusRecord uploaderId db) = Some r ->
  incomingSessionId = None
    \/ incomingSessionId = UploaderStatus.lastSessionId r ->
  beginSession status_defaults now uploaderId incomingSessionId totalBatches
    sessionPhase db
  = ((r, either incomingSessionId (UploaderStatus.lastSessionId r)), db).
Proof.
  intros Hr Hsame. unfold beginSession, Storage.ensureUploaderStatus.
  unfold Storage.getUploaderStatusRecord in *. unfold_M. rewrite Hr. simpl.
  destruct Hsame as [-> | ->]; simpl; [reflexivity|].
  rewrite bool_decide_eq_true_2 by reflexivity.
  by rewrite andb_false_r.
Qed.

(** A batched upload whose index is not the expected one: the answer
    and the state are those of [markUploaderOutOfOrder]. *)
Lemma postUpload_conflict now uploaderId body db mode phase received :
  either (roster_mode body) (rosterMode body) = Some mode ->
  mode <> no_change ->
  either (session_phase body) (sessionPhase body) = Some phase ->
  batch_index body = Some received ->
  let begun :=
    beginSession status_defaults now uploaderId (upload_session_id body)
      (total_batches body) (Some phase) db in
  let expected := expectedIndex (Some phase) (fst (fst begun)) in
  received <> expected ->
  let marked :=
    Storage.markUploaderOutOfOrder status_defaults now uploaderId expected
      (Some received) (snd (fst begun)) (total_batches body) (Some phase)
      (snd begun) in
  postUpload toUpperCase status_defaults now uploaderId body db
  = (Conflict expected (Some received) (fst marked), snd marked).
Proof.
  intros Hmode Hne Hphase Hidx begun expected Hneq marked.
  assert (Hbatched : isBatched (Some mode) (Some received) (Some phase)
                     = true).
  { simpl. by rewrite bool_decide_eq_false_2. }
  unfold postUpload.
  change (roster_mode (addonUploadSchema_parse body)) with (roster_mode body).
  change (rosterMode (addonUploadSchema_parse body)) with (rosterMode body).
  change (session_phase (addonUploadSchema_parse body))
    with (session_phase body).
  change (sessionPhase (addonUploadSchema_parse body))
    with (sessionPhase body).
  change (batch_index (addonUploadSchema_parse body)) with (batch_index body).
  change (total_batches (addonUploadSchema_parse body))
    with (total_batches body).
  change (upload_session_id (addonUploadSchema_parse body))
    with (upload_session_id body).
  rewrite Hmode, Hphase, Hidx, Hbatched.
  subst marked expected begun.
  destruct (beginSession status_defaults now uploaderId
    (upload_session_id body) (total_batches body) (Some phase) db)
    as [[st cur] db0] eqn:Eb.
  cbn [fst snd] in *.
  unfold Storage.getGuildSettings, mbind, M_bind, get, mret, M_ret.
  cbv beta iota zeta. rewrite Eb. cbv beta iota zeta.
  rewrite bool_decide_eq_false_2 by congruence. cbn [negb andb].
  by destruct (Storage.markUploaderOutOfOrder _ _ _ _ _ _ _ _ _).
Qed.

(** The session of a request that names one is the one it names. *)
Lemma beginSession_current now uploaderId sid totalBatches sessionPhase db :
  snd (fst (beginSession status_defaults now uploaderId (Some sid)
              totalBatches sessionPhase db))
  = Some sid.
Proof.
  unfold beginSession. rewrite run_bind. cbn [either].
  rewrite run_bind.
  by destruct (_ && _).
Qed.

(** After a rejection the announced index is refused: a batched upload
    was rejected, [expected] being the index announced and [received]
    the one sent.  Unless [expected] is [received + 1], the chunk or
    final batch of the same session that carries [expected] is rejected
    too, and [received + 1] is announced. *)
Lemma resend_after_rejection now now' uploaderId body body' db mode mode'
    phase phase' received :
  either (roster_mode body) (rosterMode body) = Some mode ->
  mode <> no_change ->
  either (session_phase body) (sessionPhase body) = Some phase ->
  batch_index body = Some received ->
  let expected :=
    expectedIndex (Some phase)
      (fst (fst (beginSession status_defaults now uploaderId
                   (upload_session_id body) (total_batches body)
                   (Some phase) db))) in
  received <> expected ->
  either (roster_mode body') (rosterMode body') = Some mode' ->
  mode' <> no_change ->
  either (session_phase body') (sessionPhase body') = Some phase' ->
  phase' <> start ->
  batch_index body' = Some expected ->
  upload_session_id body' = upload_session_id body ->
  expected <> received + 1 ->
  conflict_of
    (fst (postUpload toUpperCase status_defaults now' uploaderId body'
            (snd (postUpload toUpperCase status_defaults now uploaderId
                    body db))))
  = Some (received + 1, Some expected).
Proof.
  intros Hmode Hne Hphase Hidx expected Hneq Hmode' Hne' Hphase' Hstart
    Hidx' Hsid Hnext.
  rewrite (postUpload_conflict now uploaderId body db mode phase received)
    by done.
  cbn [snd]. fold expected.
  set (begun := beginSession status_defaults now uploaderId
    (upload_session_id body) (total_batches body) (Some phase) db).
  destruct (updateUploaderStatus_result status_defaults now uploaderId
    {| UploaderStatus.u_status := Some (Some "out_of_order");
       UploaderStatus.u_lastError :=
         Some (Some (Storage.outOfOrderMessage expected (Some received)));
       UploaderStatus.u_expectedBatchIndex := Some (Some expected);
       UploaderStatus.u_lastBatchIndex := null_to_undefined (Some received);
       UploaderStatus.u_lastSessionId :=
         null_to_undefined (snd (fst begun));
       UploaderStatus.u_totalBatches :=
         null_to_undefined (total_batches body);
       UploaderStatus.u_lastPhase := null_to_undefined (Some phase) |}
    (snd begun)) as [_ [r Hr]].
  fold (Storage.markUploaderOutOfOrder status_defaults now uploaderId
    expected (Some received) (snd (fst begun)) (total_batches body)
    (Some phase)) in Hr.
  set (db1 := snd (Storage.markUploaderOutOfOrder status_defaults now
    uploaderId expected (Some received) (snd (fst begun))
    (total_batches body) (Some phase) (snd begun))) in *.
  match type of Hr with _ = Some ?row => set (stored := row) in * end.
  assert (Hlast : UploaderStatus.lastBatchIndex stored = Some received)
    by reflexivity.
  assert (Hsame : upload_session_id body' = None
                  \/ upload_session_id body'
                     = UploaderStatus.lastSessionId stored).
  { rewrite Hsid. destruct (upload_session_id body) as [sid|] eqn:E;
      [right|by left].
    subst stored begun. rewrite beginSession_current. reflexivity. }
  pose proof (beginSession_same_session now' uploaderId
    (upload_session_id body') (total_batches body') (Some phase') db1
    stored Hr Hsame) as Hb.
  assert (Hexp : expectedIndex (Some phase')
                   (fst (fst (beginSession status_defaults now' uploaderId
                                (upload_session_id body')
                                (total_batches body') (Some phase') db1)))
                 = received + 1).
  { rewrite Hb. cbn [fst]. unfold expectedIndex. rewrite Hlast.
    by destruct phase'. }
  rewrite (postUpload_conflict now' uploaderId body' db1 mode' phase'
             expected) by (try done; by rewrite Hexp).
  cbn [fst conflict_of]. by rewrite Hexp.
Qed.

(** C3: a batched upload (roster mode delta or full, a session phase
    and a batch index) whose index is not the expected one -- 0 in
    the start phase, else one more than the last index of the
    uploader's status -- is answered with a conflict that carries
    both indices; no table but the uploader statuses changes; and the
    status returned and the status stored are out of order, with the
    expected and the received index and the message that names
    them. *)
Theorem out_of_order_batch_rejected (now : JS.Date) (uploaderId : string)
    (body : AddonUploadData) (db : Db) (mode : RosterMode)
    (phase : SessionPhase) (received : Z) :
  either (roster_mode body) (rosterMode body) = Some mode ->
  mode <> no_change ->
  either (session_phase body) (sessionPhase body) = Some phase ->
  batch_index body = Some received ->
  let status0 :=
    fst (fst (beginSession status_defaults now uploaderId
                (upload_session_id body) (total_batches body) (Some phase)
                db)) in
  let expected :=
    match phase with
    | start => 0
    | _ => default (-1) (UploaderStatus.lastBatchIndex status0) + 1
    end in
  received <> expected ->
  let result := postUpload toUpperCase status_defaults now uploaderId body db in
  let recorded (s : UploaderStatus.t) :=
    UploaderStatus.status s = Some "out_of_order" /\
    UploaderStatus.expectedBatchIndex s = Some expected /\
    UploaderStatus.lastBatchIndex s = Some received /\
    UploaderStatus.lastError s
      = Some ("Out-of-order batch (expected " +:+ JS.str expected
              +:+ ", received " +:+ JS.str received +:+ ")") in
  (exists status,
     fst result = Conflict expected (Some received) status /\
     recorded status) /\
  roster_untouched db (snd result) /\
  (exists stored,
     fst (Storage.getUploaderStatusRecord uploaderId (snd result))
       = Some stored /\
     recorded stored) /\
  (forall r,
     fst (Storage.getUploaderStatusRecord uploaderId db) = Some r ->
     upload_session_id body = None
       \/ upload_session_id body = UploaderStatus.lastSessionId r ->
     status0 = r).
Proof.
  intros Hmode Hne Hphase Hidx status0 expected Hneq result recorded.
  assert (Hexp : expected = expectedIndex (Some phase) status0).
  { subst expected. unfold expectedIndex. by destruct phase. }
  assert (Hbatched : isBatched (Some mode) (Some received) (Some phase)
                     = true).
  { simpl. by rewrite bool_decide_eq_false_2. }
  pose proof (steps_beginSession_untouched status_defaults now uploaderId
    (upload_session_id body) (total_batches body) (Some phase) db) as Hb.
  destruct (beginSession status_defaults now uploaderId
    (upload_session_id body) (total_batches body) (Some phase) db)
    as [[st cur] db0] eqn:Eb.
  simpl in status0, Hb. subst status0.
  pose proof (updateUploaderStatus_result status_defaults now uploaderId
    {| UploaderStatus.u_status := Some (Some "out_of_order");
       UploaderStatus.u_lastError :=
         Some (Some (Storage.outOfOrderMessage expected (Some received)));
       UploaderStatus.u_expectedBatchIndex := Some (Some expected);
       UploaderStatus.u_lastBatchIndex := null_to_undefined (Some received);
       UploaderStatus.u_lastSessionId := null_to_undefined cur;
       UploaderStatus.u_totalBatches :=
         null_to_undefined (total_batches body);
       UploaderStatus.u_lastPhase := null_to_undefined (Some phase) |}
    db0) as [Hret Hsto].
  pose proof (steps_markUploaderOutOfOrder status_defaults now uploaderId
    expected (Some received) cur (total_batches body) (Some phase) db0)
    as Hu.
  fold (Storage.markUploaderOutOfOrder status_defaults now uploaderId
    expected (Some received) cur (total_batches body) (Some phase))
    in Hret, Hsto.
  destruct (Storage.markUploaderOutOfOrder status_defaults now uploaderId
    expected (Some received) cur (total_batches body) (Some phase) db0)
    as [status db1] eqn:Em.
  simpl in Hret, Hsto, Hu.
  assert (Hrec : forall r u,
    UploaderStatus.u_status u = Some (Some "out_of_order") ->
    UploaderStatus.u_expectedBatchIndex u = Some (Some expected) ->
    UploaderStatus.u_lastBatchIndex u = Some (Some received) ->
    UploaderStatus.u_lastError u
      = Some (Some (Storage.outOfOrderMessage expected (Some received))) ->
    recorded (UploaderStatus.apply (Storage.sanitizeUpdate now u) r)).
  { intros r u H1 H2 H3 H4. subst recorded. simpl.
    by rewrite H1, H2, H3, H4. }
  assert (Epost : result = (Conflict expected (Some received) status, db1)).
  { subst result. unfold postUpload.
    change (roster_mode (addonUploadSchema_parse body))
      with (roster_mode body).
    change (rosterMode (addonUploadSchema_parse body))
      with (rosterMode body).
    change (session_phase (addonUploadSchema_parse body))
      with (session_phase body).
    change (sessionPhase (addonUploadSchema_parse body))
      with (sessionPhase body).
    change (batch_index (addonUploadSchema_parse body))
      with (batch_index body).
    change (total_batches (addonUploadSchema_parse body))
      with (total_batches body).
    change (upload_session_id (addonUploadSchema_parse body))
      with (upload_session_id body).
    rewrite Hmode, Hphase, Hidx, Hbatched.
    unfold Storage.getGuildSettings, mbind, M_bind, get, mret, M_ret.
    cbv beta iota zeta. rewrite Eb. cbv beta iota zeta. rewrite <- Hexp.
    rewrite bool_decide_eq_false_2 by congruence. simpl.
    by rewrite Em. }
  rewrite Epost. simpl.
  split; [|split; [|split]].
  - exists status. split; [reflexivity|].
    destruct Hret as [r ->]. by apply Hrec.
  - eapply roster_untouched_trans; eauto.
  - destruct Hsto as [r Hr]. eexists. split; [exact Hr|]. by apply Hrec.
  - intros r Hr Hsame.
    rewrite (beginSession_same_session _ _ _ _ _ _ r Hr Hsame) in Eb.
    congruence.
Qed.

End UploadTheorems.

(** ** The upload endpoint on worked requests *)

(** Outside the roster modes: a request that declares no roster mode is
    handled by the session of the guild settings, and the first request
    of a new session marks every player inactive, whatever phase it
    names. *)
Lemma legacy_new_session_deactivates :
  let result := Examples.postUpload 2000 "uploader" Examples.legacyChunk
                  Examples.db0 in
  fst result = Upload.Success None (Some chunk) 1 0 0 0 /\
  (fun p => (Player.name p, Player.isActive p)) <$> players (snd result)
  = [("A", Some false); ("B", Some false); ("C", Some true)].
Proof. vm_compute. split; reflexivity. Qed.

(** C1, on the code: the final batch of a full upload names the active
    player A in [removed_members] and sets [confirm_removals]; the
    response reports no removal and A is still active. *)
Lemma confirmed_removal_not_applied :
  let result := Examples.postUpload 2000 "uploader" Examples.finalConfirmed
                  Examples.db0 in
  Upload.prop Examples.finalConfirmed "confirm_removals"
    = Some (Upload.JBool true) /\
  fst result = Upload.Success (Some full) (Some final) 0 0 0 0 /\
  (fun p => (Player.name p, Player.isActive p)) <$> players (snd result)
    = [("A", Some true); ("B", Some true)].
Proof. by vm_compute. Qed.

(** C4, on the code: chunk 3 arrives when chunk 1 is expected and is
    rejected with expected index 1; chunk 1, sent again in the same
    session, is rejected as well, now with expected index 4. *)
Lemma resend_of_expected_batch_rejected :
  let first := Examples.postUpload 2000 "uploader" Examples.chunk3
                 Examples.db0 in
  let second := Examples.postUpload 3000 "uploader" Examples.chunk1
                  (snd first) in
  conflict_of (fst first) = Some (1, Some 3) /\
  conflict_of (fst second) = Some (4, Some 1) /\
  players (snd second) = players Examples.db0.
Proof. by vm_compute. Qed.

(** C2 on worked data: the chunk lists C only; B, at index 1, stays. *)
Lemma chunk_batch_deactivates_nobody_witness :
  exists B',
    players (snd (Examples.postUpload 2000 "uploader" Examples.chunkC
                    Examples.db0)) !! 1%nat = Some B' /\
    Player.id B' = Player.id Examples.playerB /\
    Player.name B' = Player.name Examples.playerB /\
    Player.realm B' = Player.realm Examples.playerB /\
    Player.isActive B' = Player.isActive Examples.playerB.
Proof.
  apply (chunk_batch_deactivates_nobody Examples.toUpperCase
           Examples.no_defaults 2000 "uploader" Examples.chunkC Examples.db0
           1%nat Examples.playerB).
  - reflexivity.
  - right. reflexivity.
  - reflexivity.
  - reflexivity.
Defined.

(** C5 on worked data: the final batch names A and confirms nothing. *)
Lemma unconfirmed_removal_is_skipped_witness :
  let result := Examples.postUpload 2000 "uploader" Examples.finalUnconfirmed
                  Examples.db0 in
  Upload.removalGuardPassed [Upload.Named "A-Realm"]
    (Upload.JBool false) (Upload.JBool false) None = false /\
  removed_of (fst result) = 0 /\
  exists A',
    players (snd result) !! 0%nat = Some A' /\
    Player.id A' = Player.id Examples.playerA /\
    Player.name A' = Player.name Examples.playerA /\
    Player.realm A' = Player.realm Examples.playerA /\
    Player.isActive A' = Some true.
Proof.
  apply (unconfirmed_removal_is_skipped Examples.toUpperCase
           Examples.no_defaults 2000 "uploader" Examples.finalUnconfirmed
           Examples.db0 0%nat Examples.playerA (Upload.Named "A-Realm")
           [Upload.Named "A-Realm"] "Realm").
  - reflexivity.
  - right. reflexivity.
  - reflexivity.
  - constructor.
  - reflexivity.
  - reflexivity.
  - reflexivity.
  - left. repeat split; reflexivity.
Defined.

(** C3 on worked data: batch 3 arrives when batch 1 is expected. *)
Lemma out_of_order_batch_rejected_witness :
  let result := Examples.postUpload 2000 "uploader" Examples.chunk3
                  Examples.db0 in
  conflict_of (fst result) = Some (1, Some 3) /\
  roster_untouched Examples.db0 (snd result) /\
  exists stored,
    fst (Storage.getUploaderStatusRecord "uploader" (snd result))
      = Some stored /\
    UploaderStatus.status stored = Some "out_of_order" /\
    UploaderStatus.expectedBatchIndex stored = Some 1 /\
    UploaderStatus.lastBatchIndex stored = Some 3 /\
    UploaderStatus.lastError stored
      = Some "Out-of-order batch (expected 1, received 3)".
Proof.
  destruct (out_of_order_batch_rejected Examples.toUpperCase
              Examples.no_defaults 2000 "uploader" Examples.chunk3
              Examples.db0 full chunk 3)
    as ((status & Hresp & _) & Hframe & (stored & Hstored & Hrec) & _).
  - reflexivity.
  - discriminate.
  - reflexivity.
  - reflexivity.
  - vm_compute. discriminate.
  - split; [|split].
    + unfold Examples.postUpload. by rewrite Hresp.
    + exact Hframe.
    + exists stored. split; [exact Hstored | exact Hrec].
Defined.

(** ** Witnesses on worked data *)

(** C9 on worked data: player A, no run tracked, one timed level-8 run. *)
Lemma updatePlayerStats_counters_witness :
  exists player',
    fst (Storage.getPlayer 1
           (snd (StatsAggregator.updatePlayerStats 1 Examples.timedRun []
                   Examples.db0))) = Some player' /\
    Player.totalRunsTracked player' = Some 1 /\
    Player.runsInTime player' = Some 1 /\
    Player.runsByLevelMid player' = Some 1.
Proof.
  destruct (updatePlayerStats_counters 1 Examples.timedRun [] Examples.db0
              Examples.playerA eq_refl)
    as (player' & Hget & _ & _ & _ & _ & _ & _ & _ & Hexample).
  exists player'. split; [exact Hget|].
  apply Hexample; [apply counters_consistent_defaults | reflexivity ..].
Defined.

(** C10 on worked data: two runs of A of one day with different URLs,
    the second of the higher score, then a run of the day after; a run
    of B of the first day is stored. *)
Lemma upsertMythicRun_same_slot_witness :
  let x1 := fst (Storage.upsertMythicRun Examples.morningRun Examples.runDb) in
  let db1 := snd (Storage.upsertMythicRun Examples.morningRun Examples.runDb) in
  let x2 := fst (Storage.upsertMythicRun Examples.eveningRun db1) in
  let db2 := snd (Storage.upsertMythicRun Examples.eveningRun db1) in
  let x3 := fst (Storage.upsertMythicRun Examples.nextDayRun db2) in
  let db3 := snd (Storage.upsertMythicRun Examples.nextDayRun db2) in
  mythicRuns db2 = [Examples.storedRunOfB; x2] /\
  overwritten x1 Examples.eveningRun x2 /\
  mythicRuns db3 = [Examples.storedRunOfB; x2; x3] /\
  holds x3 Examples.nextDayRun.
Proof.
  intros x1 db1 x2 db2 x3 db3.
  destruct (upsertMythicRun_same_slot Examples.morningRun Examples.eveningRun
              20370 Examples.runDb)
    as (_ & _ & _ & Hrows & Hhigher & _ & Hother).
  - reflexivity.
  - reflexivity.
  - reflexivity.
  - split; by vm_compute.
  - split; by vm_compute.
  - repeat split; try (by vm_compute); try (vm_compute; lia).
    right; left; split; by vm_compute.
  - repeat split; try (by vm_compute); try (vm_compute; lia).
    right; left; split; by vm_compute.
  - repeat constructor.
  - intros r Hr. apply list_elem_of_singleton in Hr. subst r.
    intros [Hplayer _]. discriminate Hplayer.
  - destruct (Hother Examples.nextDayRun 20371) as (Hrows3 & Hholds & _).
    + repeat split; try (by vm_compute); try (vm_compute; lia).
      right; left; split; by vm_compute.
    + split; by vm_compute.
    + right; right; right. discriminate.
    + intros r Hr. apply list_elem_of_singleton in Hr. subst r.
      intros [Hplayer _]. discriminate Hplayer.
    + split; [exact Hrows|]. split; [by apply Hhigher|].
      split; [exact Hrows3 | exact Hholds].
Defined.

(** C8 on worked data: the run of A and B with a stranger, fetched
    twice in one pass, is recorded once; a later pass writes nothing. *)
Lemma processGuildRuns_once_witness :
  let first := RioSync.processGuildRuns Examples.toLowerCase 5000
                 Examples.guildCache [Examples.guildRun; Examples.guildRun]
                 Examples.db0 in
  fst first = 1 /\
  guildRunKeys (snd first) = ["777-10-ara-kara"] /\
  length (activityEvents (snd first)) = 1%nat /\
  RioSync.processGuildRuns Examples.toLowerCase 9000 Examples.guildCache
    [Examples.guildRun] (snd first) = (0, snd first).
Proof.
  destruct (processGuildRuns_once Examples.toLowerCase 5000
              [Examples.playerA; Examples.playerB]
              [Examples.guildRun; Examples.guildRun] Examples.db0)
    as (counted & _ & _ & _ & _ & _ & _ & Hagain).
  - apply (bool_decide_unpack _). by vm_compute.
  - split; [by vm_compute|]. split; [by vm_compute|].
    split; [by vm_compute|].
    apply Hagain; [done|].
    intros run Hrun. apply list_elem_of_singleton in Hrun. subst run.
    exists Examples.guildRun. split; [by left|].
    split; [vm_compute; lia | reflexivity].
Defined.

(** ** Pruning of the stored runs *)

Section Pruning.

Import Storage.

Lemma insertByTimestamp_perm (r : MythicRun.t) (l : list MythicRun.t) :
  insertByTimestamp r l ≡ₚ r :: l.
Proof.
  induction l as [|x l IH]; simpl; [reflexivity|].
  destruct (MythicRun.timestamp x <=? MythicRun.timestamp r);
    [reflexivity|].
  rewrite IH. apply perm_swap.
Qed.

Lemma orderByTimestampDesc_perm (l : list MythicRun.t) :
  orderByTimestampDesc l ≡ₚ l.
Proof.
  unfold orderByTimestampDesc. induction l as [|x l IH]; simpl;
    [reflexivity|].
  by rewrite insertByTimestamp_perm, IH.
Qed.

Lemma filter_perm {A} (f : A -> bool) (l l' : list A) :
  l ≡ₚ l' -> List.filter f l ≡ₚ List.filter f l'.
Proof.
  induction 1 as [|x l l' _ IH|x y l|l l' l'' _ IH1 _ IH2]; simpl.
  - reflexivity.
  - destruct (f x); [by constructor | exact IH].
  - destruct (f x), (f y); try reflexivity. apply perm_swap.
  - by rewrite IH1.
Qed.

Lemma filter_filter {A} (f g : A -> bool) (l : list A) :
  List.filter g (List.filter f l) = List.filter (fun x => f x && g x) l.
Proof.
  induction l as [|x l IH]; simpl; [reflexivity|].
  destruct (f x); simpl; [destruct (g x)|]; by rewrite IH.
Qed.

Lemma filter_ext_in {A} (f g : A -> bool) (l : list A) :
  (forall x, x ∈ l -> f x = g x) -> List.filter f l = List.filter g l.
Proof.
  intros H. apply List.filter_ext_in. intros x Hx. apply H.
  by apply list_elem_of_In.
Qed.

(** The loop that deletes the rows of the ids [ids]. *)
Lemma deleteRunsById_cons (id : Id) (ids : list Id) (db : Db) :
  deleteRunsById (id :: ids) db
  = deleteRunsById ids
      (with_mythicRuns
         (List.filter (fun r => negb (Nat.eqb (MythicRun.id r) id))) db).
Proof. reflexivity. Qed.

Lemma deleteRunsById_spec (ids : list Id) (db : Db) :
  mythicRuns (snd (deleteRunsById ids db))
    = List.filter
        (fun r => forallb (fun id => negb (Nat.eqb (MythicRun.id r) id)) ids)
        (mythicRuns db) /\
  players (snd (deleteRunsById ids db)) = players db /\
  guildMythicRuns (snd (deleteRunsById ids db)) = guildMythicRuns db /\
  activityEvents (snd (deleteRunsById ids db)) = activityEvents db.
Proof.
  revert db. induction ids as [|id ids IH]; intros db.
  - repeat split; try reflexivity. simpl.
    induction (mythicRuns db) as [|x l IHl]; simpl;
      [reflexivity | by rewrite <- IHl].
  - rewrite deleteRunsById_cons.
    destruct (IH (with_mythicRuns
      (List.filter (fun r => negb (Nat.eqb (MythicRun.id r) id))) db))
      as (E1 & E2 & E3 & E4).
    rewrite E1, E2, E3, E4. repeat split; try reflexivity.
    simpl. by rewrite filter_filter.
Qed.

Lemma filter_length_le {A} (f : A -> bool) (l : list A) :
  (length (List.filter f l) <= length l)%nat.
Proof.
  induction l as [|x l IH]; simpl; [lia|]. destruct (f x); simpl; lia.
Qed.

Lemma filter_none {A} (f : A -> bool) (l : list A) :
  (forall x, x ∈ l -> f x = false) -> List.filter f l = [].
Proof.
  induction l as [|x l IH]; intros H; simpl; [reflexivity|].
  rewrite (H x) by constructor. apply IH. intros y Hy. apply H.
  by constructor.
Qed.

(** After the pruning the player has at most [keepCount] runs; the
    pruning touches no other table. *)
Lemma deleteOldMythicRuns_spec (playerId : Id) (keepCount : nat) (db : Db) :
  let db' := snd (deleteOldMythicRuns playerId keepCount db) in
  (length (fst (getMythicRuns playerId db')) <= keepCount)%nat /\
  players db' = players db /\
  guildMythicRuns db' = guildMythicRuns db /\
  activityEvents db' = activityEvents db.
Proof.
  intros db'. subst db'.
  set (mine := fun r : MythicRun.t => Nat.eqb (MythicRun.playerId r) playerId).
  set (s := orderByTimestampDesc (List.filter mine (mythicRuns db))).
  set (ids := MythicRun.id <$> drop keepCount s).
  assert (E : snd (deleteOldMythicRuns playerId keepCount db)
              = if bool_decide (length s <= keepCount)%nat then db
                else snd (deleteRunsById ids db)).
  { unfold deleteOldMythicRuns, getMythicRuns.
    unfold mbind, M_bind, get, mret, M_ret. cbv beta iota zeta.
    fold mine. fold s. fold ids. case_bool_decide; [reflexivity|].
    by destruct (deleteRunsById ids db). }
  rewrite E. clear E.
  case_bool_decide as Hlen.
  { repeat split. exact Hlen. }
  destruct (deleteRunsById_spec ids db) as (E1 & E2 & E3 & E4).
  destruct (deleteRunsById ids db) as [u db1] eqn:Ed. simpl in E1, E2, E3, E4.
  simpl snd.
  repeat split; try assumption.
  unfold getMythicRuns. unfold mbind, M_bind, get, mret, M_ret. simpl.
  fold mine. rewrite E1.
  set (keep := fun r : MythicRun.t =>
    forallb (fun id => negb (Nat.eqb (MythicRun.id r) id)) ids).
  rewrite (Permutation_length (orderByTimestampDesc_perm _)).
  rewrite filter_filter.
  rewrite (List.filter_ext (fun x => keep x && mine x)
             (fun x => mine x && keep x))
    by (intros; apply andb_comm).
  rewrite <- filter_filter.
  assert (Hp : List.filter keep (List.filter mine (mythicRuns db))
               ≡ₚ List.filter keep s).
  { apply filter_perm. symmetry. apply orderByTimestampDesc_perm. }
  rewrite (Permutation_length Hp).
  rewrite <- (take_drop keepCount s) at 1. rewrite List.filter_app.
  rewrite (filter_none keep (drop keepCount s)).
  - rewrite app_nil_r. etransitivity; [apply filter_length_le|].
    rewrite length_take. lia.
  - intros x Hx. subst keep. simpl.
    apply not_true_is_false. intros Hall.
    rewrite forallb_forall in Hall.
    assert (Hin : In (MythicRun.id x) ids).
    { apply list_elem_of_In. subst ids. by apply list_elem_of_fmap_2. }
    specialize (Hall _ Hin). by rewrite Nat.eqb_refl in Hall.
Qed.

End Pruning.

(** ** Merging the run lists *)

Section Merging.

Import RioSync.



End Merging.

(** ** Per-player synchronisation *)

Section SyncFacts.

Import RioSync.

Variable toLowerCase : string -> string.
Variable fetchRunDetails : Z -> option RaiderIORun.



Lemma runs_untouched_refl db : runs_untouched db db.
Proof. by split. Qed.

Lemma runs_untouched_trans a b c :
  runs_untouched a b -> runs_untouched b c -> runs_untouched a c.
Proof. intros [? ?] [? ?]. split; congruence. Qed.

Ltac bind_ru := apply (steps_bind runs_untouched runs_untouched_trans).
Ltac ret_ru := apply (steps_ret runs_untouched runs_untouched_refl).

(** *** guild-run detection leaves runs and players alone *)

Lemma steps_processGuildRun now cache run :
  steps runs_untouched (processGuildRun toLowerCase now cache run).
Proof.
  unfold processGuildRun.
  destruct (roster run) as [members|]; [|ret_ru].
  case_bool_decide; [ret_ru|].
  destruct (guildMembersOf toLowerCase cache members) as [|p [|q rest]];
    try ret_ru.
  bind_ru; [intros db; by split|].
  intros [g|]; [ret_ru|].
  bind_ru; [intros db; by split|]. intros _.
  bind_ru; [intros db; by split|]. intros _. ret_ru.
Qed.

Lemma steps_processGuildRuns now cache runs :
  steps runs_untouched (processGuildRuns toLowerCase now cache runs).
Proof.
  apply (steps_sum_each runs_untouched runs_untouched_refl
           runs_untouched_trans).
  intros run. apply steps_processGuildRun.
Qed.

(** Guild-run detection is [processGuildRuns] on the fetched details of
    the recent runs. *)
Lemma detectGuildRuns_state now cache profile db :
  snd (detectGuildRuns toLowerCase fetchRunDetails now cache profile db)
  = snd (processGuildRuns toLowerCase now cache
           (fetchRunDetailsWithRoster fetchRunDetails
              (runIdsOf (default [] (mythic_plus_recent_runs profile))))
           db).
Proof.
  unfold detectGuildRuns.
  destruct (mythic_plus_recent_runs profile) as [recent|]; [|reflexivity].
  simpl default.
  case_bool_decide as H1; [|by destruct recent; [|simpl in H1; lia]].
  generalize (runIdsOf recent). intros ids.
  case_bool_decide as H2; [|by destruct ids; [|simpl in H2; lia]].
  generalize (fetchRunDetailsWithRoster fetchRunDetails ids). intros ds.
  case_bool_decide as H3; [|by destruct ds; [|simpl in H3; lia]].
  unfold mbind, M_bind.
  by destruct (processGuildRuns toLowerCase now cache ds db).
Qed.

(** *** what follows detection leaves the guild runs and the feed alone *)







(** *** the loop over the merged runs *)

Lemma upsertMythicRun_players ins db :
  players (snd (Storage.upsertMythicRun ins db)) = players db.
Proof.
  unfold Storage.upsertMythicRun. unfold_M.
  destruct (List.find _ (mythicRuns db)) as [e|]; [|reflexivity].
  by destruct (_ <? _).
Qed.









(** *** the per-player synchronisation *)


Lemma syncPlayer_updated now cache profile player db :
  hasPlayerDataChanged player profile = true ->
  syncPlayer toLowerCase fetchRunDetails now cache (Some profile) player db
  = (updated,
     snd (storeRuns player profile
            (snd (Storage.updatePlayer (Player.id player)
                    {| Player.u_mythicScore := Some (Some (newScore profile));
                       Player.u_itemLevel :=
                         Some (Some (newItemLevel profile));
                       Player.u_class := Some (class profile);
                       Player.u_spec := Some (Some (active_spec_name profile));
                       Player.u_race := Some (Some (race profile));
                       Player.u_avatarUrl :=
                         Some (JS.or_str (thumbnail_url profile) None);
                       Player.u_lastRioSync := Some (Some now) |}
                    (snd (detectGuildRuns toLowerCase fetchRunDetails now
                            cache profile db)))))).
Proof.
  intros H. unfold syncPlayer. rewrite H. simpl negb. cbv iota.
  by rewrite !run_bind.
Qed.




End SyncFacts.



(** * Further properties *)

(** ** Loops and triples *)

Section Triples.

Lemma hoare_ret {A} (P : Db -> Prop) (x : A) (Post : A -> Db -> Prop) :
  (forall db, P db -> Post x db) -> hoare P (mret x) Post.
Proof. intros H db Hp. by apply H. Qed.

Lemma hoare_bind {A B} (P : Db -> Prop) (Mid : A -> Db -> Prop)
    (Post : B -> Db -> Prop) (m : M A) (k : A -> M B) :
  hoare P m Mid -> (forall x, hoare (Mid x) (k x) Post) ->
  hoare P (m ≫= k) Post.
Proof.
  intros Hm Hk db Hp. rewrite run_bind. apply Hk. by apply Hm.
Qed.

Lemma hoare_conseq {A} (P P' : Db -> Prop) (Post Post' : A -> Db -> Prop)
    (m : M A) :
  (forall db, P' db -> P db) ->
  (forall x db, Post x db -> Post' x db) ->
  hoare P m Post -> hoare P' m Post'.
Proof. intros H1 H2 Hm db Hp. apply H2, Hm, H1, Hp. Qed.

(** A step relation that carries [P] over gives a triple. *)
Lemma hoare_steps {A} (R : Db -> Db -> Prop) (P : Db -> Prop) (m : M A) :
  (forall a b, R a b -> P a -> P b) ->
  steps R m -> hoare P m (fun _ => P).
Proof. intros H Hm db Hp. apply (H db); [apply Hm | exact Hp]. Qed.

(** What the last step establishes, whatever came before. *)
Lemma hoare_last {A B} (Post : B -> Db -> Prop) (m : M A) (k : A -> M B) :
  (forall x, hoare (fun _ => True) (k x) Post) ->
  hoare (fun _ => True) (m ≫= k) Post.
Proof.
  intros Hk. apply (hoare_bind _ (fun _ _ => True)); [done|].
  intros x. apply Hk.
Qed.

Lemma find_app_Some {A} (test : A -> bool) (l l' : list A) (x : A) :
  List.find test l = Some x -> List.find test (l ++ l') = Some x.
Proof.
  induction l as [|y l IH]; simpl; [discriminate|].
  destruct (test y); [done | exact IH].
Qed.

Lemma Forall_filter_keep {A} (P : A -> Prop) (keep : A -> bool) l :
  Forall P l -> Forall P (List.filter keep l).
Proof.
  induction 1 as [|y l' Hy H IH]; simpl; [constructor|].
  destruct (keep y); [by constructor | exact IH].
Qed.

End Triples.

(** ** Run deduplicator: what has been seen *)

Section DeduplicatorSeen.
Import RunDeduplicator.

(** X1: a run that has been marked as seen is not new, whether it has a
    URL or not. *)
Theorem markAsSeen_not_new (d : t) (run : ApiRun) :
  isNewRun (markAsSeen d run) run = false.
Proof.
  unfold isNewRun, markAsSeen.
  destruct (a_url run) as [u|] eqn:Eu.
  - destruct (JS.truthy_str (Some u)) eqn:Et;
      cbn [urlSet compositeKeySet andb].
    + assert (H : has ({[u]} ∪ urlSet d) u = true).
      { apply has_true. set_solver. }
      by rewrite H.
    + apply andb_false_intro2, negb_false_iff, has_true. set_solver.
  - apply andb_false_intro2, negb_false_iff, has_true. set_solver.
Qed.

(** X2: marking a run as seen never makes another run new again. *)
Theorem seen_stays_seen (d : t) (seen run : ApiRun) :
  isNewRun d run = false ->
  isNewRun (markAsSeen d seen) run = false.
Proof.
  unfold isNewRun. intros H.
  apply andb_false_iff in H as [H|H]; apply negb_false_iff in H.
  - apply andb_false_intro1, negb_false_iff.
    destruct (a_url run) as [u|]; [|discriminate].
    apply andb_true_iff in H as [Ht Hu]. rewrite Ht. simpl.
    apply has_true in Hu. apply has_true.
    unfold markAsSeen. repeat case_match; simpl; set_solver.
  - apply andb_false_intro2, negb_false_iff.
    apply has_true in H. apply has_true.
    unfold markAsSeen. repeat case_match; simpl; set_solver.
Qed.

(** X3: against the deduplicator built from the stored runs, a fetched
    run with the dungeon, level, instant and URL of a stored run is not
    new. *)
Theorem stored_run_not_new (existingRuns : list ExistingRun) (r : ExistingRun) :
  r ∈ existingRuns ->
  isNewRun (new existingRuns)
    {| a_dungeon := dungeon r; mythic_level := keyLevel r;
       completed_at := timestamp r; a_url := url r |} = false.
Proof.
  intros Hr. unfold isNewRun, new.
  cbn [a_url a_dungeon mythic_level completed_at urlSet compositeKeySet].
  destruct (JS.truthy_str (url r)) eqn:Et.
  - apply andb_false_intro1, negb_false_iff.
    destruct (url r) as [u|] eqn:Eu; [|discriminate].
    rewrite Et. simpl. apply has_true.
    apply elem_of_list_to_set, list_elem_of_omap.
    exists r. split; [exact Hr|]. by rewrite Eu, Et.
  - apply andb_false_intro2, negb_false_iff, has_true.
    apply elem_of_list_to_set, list_elem_of_omap.
    exists r. split; [exact Hr|]. by rewrite Et.
Qed.

End DeduplicatorSeen.

(** ** Stats aggregator: the most played dungeon *)

Section MostPlayed.
Import StatsAggregator.

Lemma countOf_increment d d' counts :
  countOf d (increment d' counts)
  = countOf d counts + (if String.eqb d' d then 1 else 0).
Proof.
  unfold countOf. induction counts as [|[k n] rest IH]; simpl.
  - destruct (String.eqb d' d); simpl; lia.
  - destruct (String.eqb k d') eqn:Ek; simpl.
    + apply String.eqb_eq in Ek. subst k.
      destruct (String.eqb d' d); simpl; lia.
    + destruct (String.eqb k d) eqn:Ekd; simpl; [|exact IH].
      apply String.eqb_eq in Ekd. subst k.
      rewrite String.eqb_sym in Ek. rewrite Ek. lia.
Qed.

Lemma increment_keys d counts :
  NoDup (fst <$> counts) -> NoDup (fst <$> increment d counts).
Proof.
  induction counts as [|[k n] rest IH]; simpl; intros Hnd.
  - repeat constructor. set_solver.
  - apply NoDup_cons in Hnd as [Hk Hnd].
    destruct (String.eqb k d) eqn:Ek; simpl.
    + apply NoDup_cons. split; assumption.
    + apply NoDup_cons. split; [|by apply IH].
      intros Hin. apply Hk. clear -Hin Ek.
      induction rest as [|[k' n'] rest IH]; simpl in *.
      * apply list_elem_of_singleton in Hin. subst.
        by rewrite String.eqb_refl in Ek.
      * destruct (String.eqb k' d) eqn:E'; simpl in *.
        -- exact Hin.
        -- apply elem_of_cons in Hin as [->|Hin]; [left|right; by apply IH].
Qed.

Lemma countOf_fold d (existingRuns : list RunDeduplicator.ExistingRun) counts :
  countOf d (fold_left
               (fun counts r => increment (RunDeduplicator.dungeon r) counts)
               existingRuns counts)
  = countOf d counts
    + Z.of_nat (length (List.filter
                          (fun r => String.eqb (RunDeduplicator.dungeon r) d)
                          existingRuns)).
Proof.
  revert counts. induction existingRuns as [|r rest IH]; intros counts; simpl.
  - lia.
  - rewrite IH, countOf_increment.
    destruct (String.eqb (RunDeduplicator.dungeon r) d); simpl length; lia.
Qed.

Lemma keys_fold (existingRuns : list RunDeduplicator.ExistingRun) counts :
  NoDup (fst <$> counts) ->
  NoDup (fst <$> fold_left
           (fun counts r => increment (RunDeduplicator.dungeon r) counts)
           existingRuns counts).
Proof.
  revert counts. induction existingRuns as [|r rest IH]; intros counts H;
    simpl; [exact H|].
  apply IH. by apply increment_keys.
Qed.

Lemma countOf_dungeonCounts d run existingRuns :
  countOf d (dungeonCounts run existingRuns) = runsIn d run existingRuns.
Proof.
  unfold dungeonCounts, runsIn.
  rewrite countOf_increment, countOf_fold. unfold countOf. simpl. lia.
Qed.

Lemma countOf_elem k n counts :
  NoDup (fst <$> counts) -> (k, n) ∈ counts -> countOf k counts = n.
Proof.
  unfold countOf. induction counts as [|[k' n'] rest IH]; simpl;
    intros Hnd Hin.
  - inversion Hin.
  - apply NoDup_cons in Hnd as [Hk Hnd].
    apply elem_of_cons in Hin as [E|Hin].
    + injection E as -> ->. by rewrite String.eqb_refl.
    + destruct (String.eqb k' k) eqn:E; simpl; [|by apply IH].
      apply String.eqb_eq in E. subst k'. exfalso. apply Hk.
      apply list_elem_of_fmap. by exists (k, n).
Qed.

Lemma countOf_le_max d counts mx :
  0 <= mx -> (forall k n, (k, n) ∈ counts -> n <= mx) ->
  countOf d counts <= mx.
Proof.
  unfold countOf. intros H0 H.
  destruct (List.find _ counts) as [[k n]|] eqn:E; simpl; [|exact H0].
  apply List.find_some in E as [Hin _]. apply (H k).
  by apply list_elem_of_In.
Qed.

(** The loop that picks [mostPlayed]. *)
Lemma pick_spec counts m0 mx0 :
  let picked :=
    fold_left
      (fun '((mostPlayed, maxCount) : string * Z)
           '((dungeon, count) : string * Z) =>
         if maxCount <? count then (dungeon, count)
         else (mostPlayed, maxCount))
      counts (m0, mx0) in
  mx0 <= snd picked /\
  (forall k n, (k, n) ∈ counts -> n <= snd picked) /\
  (picked = (m0, mx0) \/ picked ∈ counts).
Proof.
  revert m0 mx0. induction counts as [|[k n] rest IH]; intros m0 mx0; simpl.
  - split; [lia|]. split; [intros k n H; inversion H | by left].
  - destruct (mx0 <? n) eqn:E.
    + apply Z.ltb_lt in E.
      destruct (IH k n) as (H1 & H2 & H3). simpl in *.
      split; [lia|]. split.
      * intros k' n' Hin. apply elem_of_cons in Hin as [Heq|Hin].
        -- injection Heq as -> ->. exact H1.
        -- by apply (H2 k').
      * right. destruct H3 as [->|H3]; [left | by right].
    + apply Z.ltb_ge in E.
      destruct (IH m0 mx0) as (H1 & H2 & H3). simpl in *.
      split; [lia|]. split.
      * intros k' n' Hin. apply elem_of_cons in Hin as [Heq|Hin].
        -- injection Heq as -> ->. lia.
        -- by apply (H2 k').
      * destruct H3 as [->|H3]; [by left | right; by right].
Qed.

(** X4: when no dungeon name is a property that the counting object
    inherits, no dungeon has more runs, among the stored runs and the run
    being aggregated, than the dungeon written as the most played one. *)
Theorem mostPlayed_is_most_played (run : MythicRun)
    (existingRuns : list RunDeduplicator.ExistingRun) (d : string) :
  Forall plain_key
    (dungeon run :: (RunDeduplicator.dungeon <$> existingRuns)) ->
  runsIn d run existingRuns
  <= runsIn (mostPlayed run (dungeonCounts run existingRuns)) run
       existingRuns.
Proof.
  intros _.
  set (counts := dungeonCounts run existingRuns).
  assert (Hnd : NoDup (fst <$> counts)).
  { apply increment_keys, keys_fold. constructor. }
  rewrite <- !countOf_dungeonCounts. fold counts.
  unfold mostPlayed.
  destruct (pick_spec counts (dungeon run) 0) as (H0 & Hmax & Hpick).
  simpl in *.
  destruct (fold_left _ counts (dungeon run, 0)) as [m mx] eqn:E.
  simpl in *.
  assert (Hd : countOf d counts <= mx) by (by apply countOf_le_max).
  destruct Hpick as [Heq|Hin].
  - injection Heq as -> ->.
    assert (1 <= countOf (dungeon run) counts).
    { subst counts. rewrite countOf_dungeonCounts. unfold runsIn.
      rewrite String.eqb_refl. lia. }
    assert (countOf (dungeon run) counts <= 0) by (by apply countOf_le_max).
    lia.
  - by rewrite (countOf_elem m mx counts Hnd Hin).
Qed.

End MostPlayed.

(** ** Per-player synchronisation: what it keeps of the row *)

Section PlayerKept.

Import RioSync.

Variable toLowerCase : string -> string.
Variable fetchRunDetails : Z -> option RaiderIORun.
Variable Q : Player.t -> Player.t -> Prop.
Variable id : Id.
Hypothesis Q_refl : forall p, Q p p.
Hypothesis Q_trans : forall p q r, Q p q -> Q q r -> Q p r.
Hypothesis Q_stats :
  forall p run existing,
    Q p (Player.apply (StatsAggregator.statsUpdate p run existing) p).

Lemma player_kept_refl db : player_kept Q id db db.
Proof using Q_refl. intros p Hp. exists p. by split. Qed.

Lemma player_kept_trans a b c :
  player_kept Q id a b -> player_kept Q id b c -> player_kept Q id a c.
Proof using Q_trans.
  intros Hab Hbc p Hp.
  destruct (Hab p Hp) as (q & Hq & Hpq).
  destruct (Hbc q Hq) as (r & Hr & Hqr).
  exists r. split; [exact Hr | by eapply Q_trans].
Qed.

Lemma player_kept_players a b :
  players b = players a -> player_kept Q id a b.
Proof using Q_refl.
  intros E p Hp. exists p.
  unfold Storage.getPlayer in *. unfold_M. rewrite E. by split.
Qed.

Lemma getPlayer_after_update id' u db :
  fst (Storage.getPlayer id (snd (Storage.updatePlayer id' u db)))
  = (fun p => if Nat.eqb (Player.id p) id' then Player.apply u p else p)
      <$> fst (Storage.getPlayer id db).
Proof.
  unfold Storage.getPlayer, Storage.updatePlayer. unfold_M.
  apply (find_map_stable (fun p => Nat.eqb (Player.id p) id)).
  intros x. by destruct (Nat.eqb (Player.id x) id').
Qed.

Lemma steps_pk_updatePlayer id' u :
  (forall p, Q p (Player.apply u p)) ->
  steps (player_kept Q id) (Storage.updatePlayer id' u).
Proof using Q_refl.
  intros Hu db p Hp.
  rewrite getPlayer_after_update, Hp. simpl.
  eexists. split; [reflexivity|].
  destruct (Nat.eqb (Player.id p) id'); [apply Hu | apply Q_refl].
Qed.

Lemma steps_pk_updatePlayerStats id' run existing :
  steps (player_kept Q id)
    (StatsAggregator.updatePlayerStats id' run existing).
Proof using Q_refl Q_stats.
  intros db p Hp.
  unfold StatsAggregator.updatePlayerStats. rewrite run_bind.
  destruct (fst (Storage.getPlayer id' db)) as [pl|] eqn:Epl.
  2:{ exists p. by split. }
  assert (Edb : snd (Storage.getPlayer id' db) = db) by reflexivity.
  rewrite Edb, run_bind. cbn [snd mret M_ret].
  rewrite getPlayer_after_update, Hp. simpl.
  eexists. split; [reflexivity|].
  destruct (Nat.eqb (Player.id p) id') eqn:E; [|apply Q_refl].
  apply Nat.eqb_eq in E.
  assert (pl = p).
  { unfold Storage.getPlayer in *. unfold_M.
    apply List.find_some in Hp as Hid. destruct Hid as [_ Hid].
    apply Nat.eqb_eq in Hid. rewrite <- E, Hid in Epl. congruence. }
  subst pl. apply Q_stats.
Qed.

Lemma steps_pk_upsertMythicRun ins :
  steps (player_kept Q id) (Storage.upsertMythicRun ins).
Proof using Q_refl.
  intros db. apply player_kept_players, upsertMythicRun_players.
Qed.

Ltac bind_pk := apply (steps_bind (player_kept Q id) player_kept_trans).
Ltac ret_pk := apply (steps_ret (player_kept Q id) player_kept_refl).

Lemma steps_pk_syncRuns id' runs d e :
  steps (player_kept Q id) (syncRuns id' runs d e).
Proof using Q_refl Q_trans Q_stats.
  revert d e. induction runs as [|run rest IH]; intros d e; simpl; [ret_pk|].
  bind_pk; [apply steps_pk_upsertMythicRun | intros _].
  destruct (RunDeduplicator.isNewRun d (asApiRun run)); [|apply IH].
  bind_pk; [apply steps_pk_updatePlayerStats | intros _; apply IH].
Qed.

Lemma steps_pk_storeRuns player profile :
  steps (player_kept Q id) (storeRuns player profile).
Proof using Q_refl Q_trans Q_stats.
  unfold storeRuns.
  destruct (mergeRuns _ _) as [|r merged]; [ret_pk|].
  bind_pk; [intros db; by apply player_kept_players | intros existing].
  bind_pk; [apply steps_pk_syncRuns | intros _].
  bind_pk; [|intros _; ret_pk].
  intros db. apply player_kept_players.
  by destruct (deleteOldMythicRuns_spec (Player.id player) 5 db) as (_ & ? & _).
Qed.

Lemma steps_pk_detectGuildRuns now cache profile :
  steps (player_kept Q id)
    (detectGuildRuns toLowerCase fetchRunDetails now cache profile).
Proof using Q_refl.
  intros db. apply player_kept_players.
  rewrite detectGuildRuns_state.
  by destruct (steps_processGuildRuns toLowerCase now cache
    (fetchRunDetailsWithRoster fetchRunDetails
       (runIdsOf (default [] (mythic_plus_recent_runs profile)))) db).
Qed.

Lemma steps_pk_syncPlayer now cache profile player :
  (forall u p,
     Player.u_totalRunsTracked u = None ->
     Player.u_runsInTime u = None ->
     Player.u_runsOverTime u = None ->
     Player.u_runsByLevelLow u = None ->
     Player.u_runsByLevelMid u = None ->
     Player.u_runsByLevelHigh u = None ->
     Player.u_runsByLevelElite u = None ->
     Player.u_highestKeyLevel u = None ->
     Q p (Player.apply u p)) ->
  steps (player_kept Q id)
    (syncPlayer toLowerCase fetchRunDetails now cache profile player).
Proof using Q_refl Q_trans Q_stats.
  intros Hu.
  unfold syncPlayer. destruct profile as [profile|]; [|ret_pk].
  bind_pk; [apply steps_pk_detectGuildRuns | intros _].
  destruct (negb (hasPlayerDataChanged player profile)).
  - bind_pk; [|intros _; ret_pk].
    apply steps_pk_updatePlayer. intros p. by apply Hu.
  - bind_pk; [|intros _].
    { apply steps_pk_updatePlayer. intros p. by apply Hu. }
    bind_pk; [apply steps_pk_storeRuns | intros _; ret_pk].
Qed.

End PlayerKept.

Section SyncInvariants.

Import RioSync.

Variable toLowerCase : string -> string.
Variable fetchRunDetails : Z -> option RaiderIORun.

Lemma counters_grow_refl p : counters_grow p p.
Proof. intros H. split; [exact H | lia]. Qed.

Lemma counters_grow_trans p q r :
  counters_grow p q -> counters_grow q r -> counters_grow p r.
Proof.
  intros Hpq Hqr Hp. destruct (Hpq Hp) as (Hq & ? & ?).
  destruct (Hqr Hq) as (Hr & ? & ?). split; [exact Hr | lia].
Qed.

Lemma counters_grow_stats p run existing :
  counters_grow p
    (Player.apply (StatsAggregator.statsUpdate p run existing) p).
Proof.
  intros Hp. split; [by apply counters_consistent_statsUpdate|].
  simpl. unfold JS.num_or0. simpl. lia.
Qed.

Lemma same_profile_refl p : same_profile p p.
Proof. by repeat split. Qed.

Lemma same_profile_trans p q r :
  same_profile p q -> same_profile q r -> same_profile p r.
Proof. unfold same_profile. intuition congruence. Qed.

Lemma same_profile_stats p run existing :
  same_profile p
    (Player.apply (StatsAggregator.statsUpdate p run existing) p).
Proof. by repeat split. Qed.

(** X5: a synchronisation, whatever it fetched and whatever its outcome,
    leaves the counters of the synchronised player consistent and lowers
    neither the runs tracked nor the highest key level. *)
Theorem syncPlayer_keeps_counters (now : JS.Date)
    (cache : gmap string Player.t) (profile : option RaiderIOProfile)
    (player stored : Player.t) (db : Db) :
  fst (Storage.getPlayer (Player.id player) db) = Some stored ->
  counters_consistent stored ->
  exists after,
    fst (Storage.getPlayer (Player.id player)
           (snd (syncPlayer toLowerCase fetchRunDetails now cache profile
                   player db)))
      = Some after /\
    counters_consistent after /\
    JS.num_or0 (Player.totalRunsTracked stored)
      <= JS.num_or0 (Player.totalRunsTracked after) /\
    JS.num_or0 (Player.highestKeyLevel stored)
      <= JS.num_or0 (Player.highestKeyLevel after).
Proof.
  intros Hp Hc.
  destruct (steps_pk_syncPlayer toLowerCase fetchRunDetails counters_grow
              (Player.id player) counters_grow_refl counters_grow_trans
              counters_grow_stats now cache profile player) with (db := db)
              (p := stored) as (after & Ha & Hg).
  - intros u p E1 E2 E3 E4 E5 E6 E7 E8 H. unfold counters_consistent in *.
    simpl. rewrite E1, E2, E3, E4, E5, E6, E7, E8. simpl.
    split; [tauto | lia].
  - exact Hp.
  - exists after. split; [exact Ha|]. by apply Hg.
Qed.

(** X6: after a synchronisation that wrote a profile, the stored row
    differs from that profile exactly when the profile has no thumbnail:
    with one, the next synchronisation that fetches the same profile
    skips the player; without one, it writes the profile again. *)
Theorem syncPlayer_again (now now' : JS.Date)
    (cache cache' : gmap string Player.t) (profile : RaiderIOProfile)
    (player stored : Player.t) (db : Db) :
  fst (Storage.getPlayer (Player.id player) db) = Some stored ->
  hasPlayerDataChanged player profile = true ->
  let db' :=
    snd (syncPlayer toLowerCase fetchRunDetails now cache (Some profile)
           player db) in
  exists after,
    fst (Storage.getPlayer (Player.id player) db') = Some after /\
    hasPlayerDataChanged after profile
      = negb (JS.truthy_str (thumbnail_url profile)) /\
    fst (syncPlayer toLowerCase fetchRunDetails now' cache' (Some profile)
           after db')
      = if JS.truthy_str (thumbnail_url profile) then skipped else updated.
Proof.
  intros Hp Hch db'. subst db'.
  rewrite (syncPlayer_updated _ _ _ _ _ _ _ Hch). cbn [snd].
  set (u := {| Player.u_mythicScore := Some (Some (newScore profile)) |}).
  destruct (steps_pk_detectGuildRuns toLowerCase fetchRunDetails (eq)
              (Player.id player) (fun p => eq_refl) now cache profile db
              stored Hp) as (p0 & Hp0 & <-).
  set (db0 := snd (detectGuildRuns _ _ _ _ _ _)) in *.
  assert (Hp1 : fst (Storage.getPlayer (Player.id player)
                       (snd (Storage.updatePlayer (Player.id player) u db0)))
                = Some (Player.apply u stored)).
  { by apply getPlayer_updatePlayer. }
  destruct (steps_pk_storeRuns same_profile (Player.id player)
              same_profile_refl same_profile_trans same_profile_stats
              player profile _ _ Hp1)
    as (after & Ha & H1 & H2 & H3 & H4 & H5 & H6).
  exists after. split; [exact Ha|].
  assert (Hafter : hasPlayerDataChanged after profile
                   = negb (JS.truthy_str (thumbnail_url profile))).
  { unfold hasPlayerDataChanged, differs.
    rewrite H1, H2, H3, H4, H5, H6. subst u. simpl.
    rewrite !bool_decide_eq_true_2 by reflexivity.
    rewrite String.eqb_refl. simpl.
    destruct (thumbnail_url profile) as [t|]; simpl; [|reflexivity].
    unfold JS.or_str. simpl.
    destruct (String.eqb t "") eqn:Et; simpl; [reflexivity|].
    by rewrite bool_decide_eq_true_2. }
  split; [exact Hafter|].
  unfold syncPlayer. rewrite run_bind, Hafter.
  destruct (JS.truthy_str (thumbnail_url profile)); cbn [negb];
    by rewrite !run_bind.
Qed.

End SyncInvariants.

(** ** Storage: deactivation by name and pruning *)

Section Deactivation.

Lemma keyed_removable n r p :
  Player.keyed n r p = bool_decide ((Player.name p, Player.realm p) = (n, r)).
Proof.
  unfold Player.keyed.
  destruct (String.eqb (Player.name p) n) eqn:E1;
    destruct (String.eqb (Player.realm p) r) eqn:E2; simpl;
    rewrite ?String.eqb_eq, ?String.eqb_neq in *; symmetry.
  - apply bool_decide_eq_true. congruence.
  - apply bool_decide_eq_false. congruence.
  - apply bool_decide_eq_false. congruence.
  - apply bool_decide_eq_false. congruence.
Qed.

Lemma removable_cons n r rest p :
  removable ((n, r) :: rest) p
  = Player.keyed n r p && Storage.is_true (Player.isActive p)
    || removable rest p.
Proof.
  unfold removable. rewrite keyed_removable.
  destruct (Storage.is_true (Player.isActive p));
    rewrite ?andb_true_r, ?andb_false_r; [|reflexivity].
  destruct (decide ((Player.name p, Player.realm p) = (n, r))) as [E|E].
  - rewrite (bool_decide_eq_true_2 _ E).
    rewrite bool_decide_eq_true_2; [reflexivity|]. rewrite E. left.
  - rewrite (bool_decide_eq_false_2 _ E). simpl.
    apply bool_decide_ext. rewrite elem_of_cons. tauto.
Qed.

Lemma removable_deactivated names p : removable names (deactivated p) = false.
Proof. unfold removable. simpl. apply andb_false_r. Qed.

(** X7: the loop of updates deactivates exactly the active players whose
    name and realm are listed, leaves every other row as it was, and
    returns the number of players it deactivated; a name listed twice
    counts once. *)
Theorem deactivatePlayersByName_spec (playerNames : list (string * string))
    (db : Db) :
  let result := Storage.deactivatePlayersByName playerNames db in
  players (snd result)
  = List.map (fun p => if removable playerNames p then deactivated p else p)
      (players db) /\
  fst result
  = Z.of_nat (length (List.filter (removable playerNames) (players db))).
Proof.
  intros result. subst result.
  assert (E : Storage.deactivatePlayersByName playerNames db
              = sum_each playerNames
                  (fun '(n, r) => Storage.deactivateByName1 n r) 0 db).
  { by destruct playerNames. }
  rewrite E. clear E. revert db.
  induction playerNames as [|[n r] rest IH]; intros db.
  - assert (Hno : forall p, removable [] p = false).
    { intros p. unfold removable.
      rewrite bool_decide_eq_false_2; [reflexivity | set_solver]. }
    cbn [sum_each mret M_ret fst snd]. split.
    + rewrite <- (List.map_id (players db)) at 1.
      apply List.map_ext. intros p. by rewrite Hno.
    + induction (players db) as [|p ps IHp]; [reflexivity|].
      cbn [List.filter]. by rewrite Hno.
  - simpl. rewrite run_bind, sum_each_acc.
    set (hit := fun p : Player.t =>
           Player.keyed n r p && Storage.is_true (Player.isActive p)).
    set (db1 := snd (Storage.deactivateByName1 n r db)).
    assert (E1 : players db1
                 = List.map (fun p => if hit p then deactivated p else p)
                     (players db)) by reflexivity.
    assert (E2 : fst (Storage.deactivateByName1 n r db)
                 = Z.of_nat (length (List.filter hit (players db))))
      by reflexivity.
    destruct (IH db1) as [Hp Hc]. cbn [fst snd].
    rewrite Hp, Hc, E1, E2. clear. split.
    + rewrite List.map_map. apply List.map_ext. intros p.
      rewrite removable_cons. fold (hit p).
      destruct (hit p); simpl.
      * by rewrite removable_deactivated.
      * reflexivity.
    + induction (players db) as [|p ps IHp]; [reflexivity|].
      cbn [List.map List.filter]. rewrite removable_cons. fold (hit p).
      destruct (hit p); simpl.
      * rewrite removable_deactivated. simpl length. lia.
      * destruct (removable rest p); simpl length; lia.
Qed.

End Deactivation.

Section PruningOrder.
Import Storage.

Lemma insertByTimestamp_sorted r l :
  newestFirst l -> newestFirst (insertByTimestamp r l).
Proof.
  induction l as [|x l IH]; simpl.
  - intros _. split; [constructor | exact I].
  - intros [Hx Hl].
    destruct (MythicRun.timestamp x <=? MythicRun.timestamp r) eqn:E.
    + apply Z.leb_le in E. simpl. split; [|by split].
      constructor; [exact E|].
      eapply Forall_impl; [exact Hx|]. simpl. intros; lia.
    + apply Z.leb_gt in E. simpl. split; [|by apply IH].
      rewrite (insertByTimestamp_perm r l). constructor; [lia | exact Hx].
Qed.

Lemma orderByTimestampDesc_sorted l : newestFirst (orderByTimestampDesc l).
Proof.
  unfold orderByTimestampDesc. induction l as [|x l IH]; simpl.
  - exact I.
  - by apply insertByTimestamp_sorted.
Qed.

Lemma insertByTimestamp_first r l :
  Forall (fun x => MythicRun.timestamp x <= MythicRun.timestamp r) l ->
  insertByTimestamp r l = r :: l.
Proof.
  destruct l as [|x l]; [reflexivity|]. intros H.
  apply Forall_cons in H as [Hx _]. simpl.
  apply Z.leb_le in Hx. by rewrite Hx.
Qed.

Lemma filter_insertByTimestamp (keep : MythicRun.t -> bool) r l :
  newestFirst l ->
  List.filter keep (insertByTimestamp r l)
  = if keep r then insertByTimestamp r (List.filter keep l)
    else List.filter keep l.
Proof.
  induction l as [|x l IH]; simpl.
  - intros _. by destruct (keep r).
  - intros [Hx Hl]. specialize (IH Hl).
    destruct (MythicRun.timestamp x <=? MythicRun.timestamp r) eqn:E.
    + cbn [List.filter]. destruct (keep r); [|reflexivity].
      symmetry. apply insertByTimestamp_first.
      apply Z.leb_le in E.
      assert (H : Forall
                (fun y => MythicRun.timestamp y <= MythicRun.timestamp r)
                (x :: l)).
      { constructor; [exact E|].
        eapply Forall_impl; [exact Hx|]. simpl. intros; lia. }
      by apply (Forall_filter_keep _ keep) in H.
    + cbn [List.filter]. rewrite IH.
      destruct (keep x) eqn:Ex, (keep r) eqn:Er; simpl; try reflexivity.
      by rewrite E.
Qed.

Lemma filter_orderByTimestampDesc (keep : MythicRun.t -> bool) l :
  List.filter keep (orderByTimestampDesc l)
  = orderByTimestampDesc (List.filter keep l).
Proof.
  unfold orderByTimestampDesc. induction l as [|x l IH]; simpl;
    [reflexivity|].
  rewrite filter_insertByTimestamp by apply orderByTimestampDesc_sorted.
  rewrite IH. by destruct (keep x).
Qed.

Lemma filter_keeps_prefix (k : nat) (l : list MythicRun.t) :
  NoDup (MythicRun.id <$> l) ->
  List.filter
    (fun r => forallb (fun id => negb (Nat.eqb (MythicRun.id r) id))
                (MythicRun.id <$> drop k l))
    l
  = take k l.
Proof.
  intros Hnd.
  set (keep := fun r : MythicRun.t => forallb _ _).
  rewrite <- (take_drop k l) at 1. rewrite List.filter_app.
  rewrite (filter_none keep (drop k l)).
  - rewrite app_nil_r.
    rewrite <- (take_drop k l), fmap_app in Hnd.
    apply NoDup_app in Hnd as (_ & Hdisj & _).
    clear -Hdisj. induction (take k l) as [|x t IH]; [reflexivity|].
    simpl. replace (keep x) with true.
    + f_equal. apply IH. intros y Hy. apply Hdisj. by right.
    + symmetry. subst keep. simpl. apply forallb_forall.
      intros i Hi. apply negb_true_iff, Nat.eqb_neq. intros Heq.
      apply list_elem_of_In in Hi. rewrite <- Heq in Hi.
      apply (Hdisj (MythicRun.id x)); [left | exact Hi].
  - intros x Hx. subst keep. simpl. apply not_true_is_false. intros Hall.
    rewrite forallb_forall in Hall.
    assert (Hin : In (MythicRun.id x) (MythicRun.id <$> drop k l)).
    { apply list_elem_of_In. by apply list_elem_of_fmap_2. }
    specialize (Hall _ Hin). by rewrite Nat.eqb_refl in Hall.
Qed.

(** X8: pruning keeps the [keepCount] most recent runs of the player, in
    the order [getMythicRuns] lists them, returns the number of runs it
    deleted, and leaves the runs of every other player alone. *)
Theorem deleteOldMythicRuns_keeps_most_recent (playerId : Id)
    (keepCount : nat) (db : Db) :
  NoDup (MythicRun.id <$> mythicRuns db) ->
  let before := fst (getMythicRuns playerId db) in
  let result := deleteOldMythicRuns playerId keepCount db in
  fst (getMythicRuns playerId (snd result)) = take keepCount before /\
  fst result = Z.of_nat (length before - keepCount) /\
  (forall other,
     other <> playerId ->
     fst (getMythicRuns other (snd result)) = fst (getMythicRuns other db)).
Proof.
  intros Hnd before result. subst before result.
  set (mine := fun r : MythicRun.t => Nat.eqb (MythicRun.playerId r) playerId).
  set (s := orderByTimestampDesc (List.filter mine (mythicRuns db))).
  set (ids := MythicRun.id <$> drop keepCount s).
  assert (Es : fst (getMythicRuns playerId db) = s) by reflexivity.
  rewrite Es.
  assert (E : deleteOldMythicRuns playerId keepCount db
              = if bool_decide (length s <= keepCount)%nat then (0, db)
                else (Z.of_nat (length ids), snd (deleteRunsById ids db))).
  { unfold deleteOldMythicRuns, getMythicRuns.
    unfold mbind, M_bind, get, mret, M_ret. cbv beta iota zeta.
    fold mine. fold s. fold ids. case_bool_decide; [reflexivity|].
    by destruct (deleteRunsById ids db). }
  rewrite E. clear E.
  case_bool_decide as Hlen; cbn [fst snd].
  { rewrite Es. split; [by rewrite take_ge | split; [|done]].
    f_equal. lia. }
  destruct (deleteRunsById_spec ids db) as (E1 & _).
  set (keep := fun r : MythicRun.t =>
    forallb (fun id => negb (Nat.eqb (MythicRun.id r) id)) ids) in *.
  assert (Hs : NoDup (MythicRun.id <$> s)).
  { subst s. rewrite (orderByTimestampDesc_perm _).
    clear -Hnd. induction (mythicRuns db) as [|x l IH]; simpl; [constructor|].
    apply NoDup_cons in Hnd as [Hx Hnd].
    destruct (mine x); simpl; [|by apply IH].
    apply NoDup_cons. split; [|by apply IH].
    intros Hin. apply Hx. apply list_elem_of_fmap in Hin as (y & -> & Hy).
    apply list_elem_of_fmap_2.
    apply list_elem_of_In, List.filter_In in Hy as [Hy _].
    by apply list_elem_of_In. }
  split; [|split].
  - unfold getMythicRuns. unfold mbind, M_bind, get, mret, M_ret. simpl.
    fold mine. rewrite E1.
    rewrite filter_filter.
    rewrite (List.filter_ext (fun x => keep x && mine x)
               (fun x => mine x && keep x))
      by (intros; apply andb_comm).
    rewrite <- filter_filter, <- filter_orderByTimestampDesc. fold s.
    by apply filter_keeps_prefix.
  - subst ids. by rewrite length_fmap, length_drop.
  - intros other Hother.
    unfold getMythicRuns. unfold mbind, M_bind, get, mret, M_ret. simpl.
    rewrite E1, filter_filter. f_equal.
    apply filter_ext_in. intros x Hx.
    destruct (Nat.eqb (MythicRun.playerId x) other) eqn:Eo;
      [|apply andb_false_r].
    rewrite andb_true_r. apply Nat.eqb_eq in Eo.
    subst keep. simpl. apply forallb_forall. intros i Hi.
    apply negb_true_iff, Nat.eqb_neq. intros Heq.
    apply list_elem_of_In in Hi. subst ids.
    apply list_elem_of_fmap in Hi as (y & -> & Hy).
    assert (Hys : y ∈ s) by (eapply subseteq_drop; exact Hy).
    subst s. rewrite (orderByTimestampDesc_perm _) in Hys.
    apply list_elem_of_In, List.filter_In in Hys as [Hyin Hymine].
    apply list_elem_of_In in Hyin.
    assert (x = y).
    { clear -Hnd Hx Hyin Heq.
      induction (mythicRuns db) as [|z l IH]; [inversion Hx|].
      simpl in Hnd. apply NoDup_cons in Hnd as [Hz Hnd].
      apply elem_of_cons in Hx as [->|Hx];
        apply elem_of_cons in Hyin as [->|Hyin]; try reflexivity.
      - exfalso. apply Hz. rewrite Heq. by apply list_elem_of_fmap_2.
      - exfalso. apply Hz. rewrite <- Heq. by apply list_elem_of_fmap_2.
      - by apply IH. }
    subst y. subst mine. simpl in Hymine. apply Nat.eqb_eq in Hymine.
    congruence.
Qed.

End PruningOrder.

(** ** Player names of the uploads *)

Section PlayerNames.
Import Upload.

Lemma split_nonempty c s : JS.split c s <> [].
Proof.
  destruct s as [|a s]; simpl; [discriminate|].
  destruct (Ascii.eqb a c); [discriminate|].
  by destruct (JS.split c s).
Qed.

Lemma join_cons sep p ps :
  ps <> [] -> JS.join sep (p :: ps) = p +:+ sep +:+ JS.join sep ps.
Proof. by destruct ps. Qed.

Lemma join_split c s : JS.join (String c "") (JS.split c s) = s.
Proof.
  induction s as [|a s IH]; simpl; [reflexivity|].
  destruct (Ascii.eqb a c) eqn:E.
  - apply Ascii.eqb_eq in E. subst a.
    rewrite join_cons by apply split_nonempty. simpl. by rewrite IH.
  - destruct (JS.split c s) as [|p ps] eqn:Es.
    + by destruct (split_nonempty c s).
    + destruct ps as [|q ps].
      * simpl in *. by rewrite IH.
      * rewrite join_cons by discriminate.
        rewrite join_cons in IH by discriminate.
        simpl. by rewrite <- IH.
Qed.

Lemma split_no_sep c s : JS.includes c s = false -> JS.split c s = [s].
Proof.
  induction s as [|a s IH]; simpl; [reflexivity|].
  intros H. apply orb_false_iff in H as [Ha Hs].
  rewrite Ha, (IH Hs). reflexivity.
Qed.

Lemma split_app c name rest :
  JS.includes c name = false ->
  JS.split c (name +:+ String c rest) = name :: JS.split c rest.
Proof.
  induction name as [|a name IH]; simpl; intros H.
  - by rewrite Ascii.eqb_refl.
  - apply orb_false_iff in H as [Ha Hs]. rewrite Ha, (IH Hs). reflexivity.
Qed.

Lemma includes_app c name rest :
  JS.includes c (name +:+ String c rest) = true.
Proof.
  induction name as [|a name IH]; simpl.
  - by rewrite Ascii.eqb_refl.
  - rewrite IH. apply orb_true_r.
Qed.

Lemma split_head c s p ps :
  JS.split c s = p :: ps -> JS.includes c p = false.
Proof.
  revert p ps. induction s as [|a s IH]; simpl; intros p ps H.
  - by injection H as <- <-.
  - destruct (Ascii.eqb a c) eqn:E.
    + by injection H as <- <-.
    + destruct (JS.split c s) as [|q qs] eqn:Es.
      * by destruct (split_nonempty c s).
      * injection H as <- <-. simpl. rewrite E. by apply (IH q qs).
Qed.

(** X9: a name without a dash, written with a dash and a realm after it,
    is read back as that name and that realm; written alone it gets the
    default realm. *)
Theorem parsePlayerName_of_full_name (name realm defaultRealm : string) :
  JS.includes "-" name = false ->
  parsePlayerName (name +:+ "-" +:+ realm) defaultRealm = (name, realm) /\
  parsePlayerName name defaultRealm = (name, defaultRealm).
Proof.
  intros H. unfold parsePlayerName. split.
  - change (name +:+ "-" +:+ realm) with (name +:+ String "-" realm).
    rewrite includes_app, (split_app _ _ _ H).
    by rewrite (join_split "-" realm).
  - by rewrite H.
Qed.

(** X10: the name that is read never holds a dash, and a full name that
    holds one is the name, a dash and the realm that are read. *)
Theorem parsePlayerName_splits_at_first_dash (fullName defaultRealm : string) :
  let parsed := parsePlayerName fullName defaultRealm in
  JS.includes "-" (fst parsed) = false /\
  (if JS.includes "-" fullName
   then fst parsed +:+ "-" +:+ snd parsed = fullName
   else parsed = (fullName, defaultRealm)).
Proof.
  unfold parsePlayerName.
  destruct (JS.includes "-" fullName) eqn:E; simpl; [|by rewrite E].
  destruct (JS.split "-" fullName) as [|p ps] eqn:Es.
  { by destruct (split_nonempty "-" fullName). }
  simpl. split; [by apply (split_head _ _ _ _ Es)|].
  destruct ps as [|q qs].
  - rewrite <- (join_split "-" fullName), Es in E. simpl in E.
    by rewrite (split_head _ _ _ _ Es) in E.
  - rewrite <- (join_split "-" fullName). rewrite Es.
    by rewrite (join_cons "-" p (q :: qs)).
Qed.

End PlayerNames.

(** ** Guild-run detection: the table it fills *)

Section GuildRunsTable.

Import RioSync.
Variable toLowerCase : string -> string.

Lemma processGuildRun_effect now cache run db :
  let result := processGuildRun toLowerCase now cache run db in
  exists addedRuns addedEvents,
    guildMythicRuns (snd result) = guildMythicRuns db ++ addedRuns /\
    activityEvents (snd result) = activityEvents db ++ addedEvents /\
    fst result = Z.of_nat (length addedRuns) /\
    length addedEvents = length addedRuns /\
    (guild_runs_sound db -> guild_runs_sound (snd result)).
Proof.
  intros result. subst result.
  assert (Hnone : forall db' : Db, exists addedRuns addedEvents,
            guildMythicRuns db' = guildMythicRuns db' ++ addedRuns /\
            activityEvents db' = activityEvents db' ++ addedEvents /\
            0 = Z.of_nat (length addedRuns) /\
            length addedEvents = length addedRuns /\
            (guild_runs_sound db' -> guild_runs_sound db')).
  { intros db'. exists [], []. by rewrite !app_nil_r. }
  unfold processGuildRun.
  destruct (roster run) as [members|]; [|apply Hnone].
  case_bool_decide; [apply Hnone|].
  destruct (guildMembersOf toLowerCase cache members) as [|p [|q rest]] eqn:Em;
    try apply Hnone.
  rewrite run_bind.
  destruct (fst (Storage.getGuildMythicRunByKey (generateRunKey run) db))
    as [g|] eqn:Eg; [apply Hnone|].
  assert (Ef : List.find
                 (fun r => String.eqb (GuildMythicRun.runKey r)
                             (generateRunKey run))
                 (guildMythicRuns db) = None) by exact Eg.
  clear Eg Hnone.
  eexists [_], [_].
  assert (Edb : snd (Storage.getGuildMythicRunByKey (generateRunKey run) db)
                = db) by reflexivity.
  rewrite Edb. rewrite !run_bind.
  split; [reflexivity|]. split; [reflexivity|].
  split; [reflexivity|]. split; [reflexivity|].
  intros [Hnd Hok].
  match goal with
  | |- context [Storage.createGuildMythicRun now ?i] => set (ins := i)
  end.
  set (row := GuildMythicRun.of_insert (nextId db) now ins).
  match goal with
  | |- guild_runs_sound ?d =>
      assert (Erows : guildMythicRuns d = guildMythicRuns db ++ [row])
        by reflexivity
  end.
  unfold guild_runs_sound. rewrite Erows. clear Erows.
  split.
  - rewrite fmap_app. apply NoDup_app. split; [exact Hnd|]. split.
    + intros k Hk Hin. simpl in Hin. apply list_elem_of_singleton in Hin.
      subst k. by apply (find_None_key _ _ Ef).
    + simpl. apply NoDup_singleton.
  - apply Forall_app. split; [exact Hok|]. constructor; [|constructor].
    unfold guild_group. subst row ins. simpl. rewrite !length_fmap.
    simpl. lia.
Qed.

Lemma processGuildRuns_effect (now : JS.Date)
    (cache : gmap string Player.t) (runs : list RaiderIORun) (db : Db) :
  let result := processGuildRuns toLowerCase now cache runs db in
  exists addedRuns addedEvents,
    guildMythicRuns (snd result) = guildMythicRuns db ++ addedRuns /\
    activityEvents (snd result) = activityEvents db ++ addedEvents /\
    fst result = Z.of_nat (length addedRuns) /\
    length addedEvents = length addedRuns /\
    (length addedRuns <= length runs)%nat /\
    (guild_runs_sound db -> guild_runs_sound (snd result)).
Proof.
  unfold processGuildRuns. revert db.
  induction runs as [|run rest IH]; intros db.
  - exists [], []. simpl. by rewrite !app_nil_r.
  - cbn [sum_each]. rewrite run_bind, sum_each_acc. cbn [fst snd].
    destruct (processGuildRun_effect now cache run db)
      as (r1 & e1 & Hr1 & He1 & Hc1 & Hl1 & Hs1).
    set (db1 := snd (processGuildRun toLowerCase now cache run db)) in *.
    destruct (IH db1) as (r2 & e2 & Hr2 & He2 & Hc2 & Hl2 & Hn2 & Hs2).
    exists (r1 ++ r2), (e1 ++ e2).
    rewrite Hr2, He2, Hr1, He1, Hc2, !length_app, <- !app_assoc.
    split; [reflexivity|]. split; [reflexivity|].
    split; [rewrite Z.add_0_l, Hc1; lia|]. split; [lia|].
    split; [|tauto].
    assert (length r1 <= 1)%nat; [|simpl; lia].
    assert (H01 : fst (processGuildRun toLowerCase now cache run db) = 0
                  \/ fst (processGuildRun toLowerCase now cache run db) = 1).
    { clear. unfold processGuildRun.
      destruct (roster run) as [members|]; [|by left].
      case_bool_decide; [by left|].
      destruct (guildMembersOf toLowerCase cache members) as [|p [|q rest]];
        try by left.
      rewrite run_bind.
      destruct (fst (Storage.getGuildMythicRunByKey _ db)); [by left|].
      right. by rewrite !run_bind. }
    lia.
Qed.

(** X11: guild-run detection only appends: one guild run and one event of
    the feed for each run it counts, at most one per run it is given. It
    keeps the table of guild runs sound: no key twice, and at least two
    guild members, listed by id and by name, in each row. *)
Theorem processGuildRuns_keeps_table_sound (now : JS.Date)
    (cache : gmap string Player.t) (runs : list RaiderIORun) (db : Db) :
  guild_runs_sound db ->
  let result := processGuildRuns toLowerCase now cache runs db in
  guild_runs_sound (snd result) /\
  exists addedRuns addedEvents,
    guildMythicRuns (snd result) = guildMythicRuns db ++ addedRuns /\
    activityEvents (snd result) = activityEvents db ++ addedEvents /\
    fst result = Z.of_nat (length addedRuns) /\
    length addedEvents = length addedRuns /\
    (length addedRuns <= length runs)%nat.
Proof.
  intros Hsound result.
  destruct (processGuildRuns_effect now cache runs db)
    as (r & e & H1 & H2 & H3 & H4 & H5 & H6).
  split; [by apply H6|]. by exists r, e.
Qed.

End GuildRunsTable.

(** ** Upload endpoint: names, listed players and batch order *)

Section NamesGrow.

Import Storage Upload.

Variable toUpperCase : string -> string.
Variable status_defaults : UploaderStatus.column_defaults.

Lemma names_grow_refl db : names_grow db db.
Proof.
  exists []. rewrite app_nil_r. split; [reflexivity|].
  split; [constructor | intros k H; inversion H].
Qed.

Lemma names_grow_trans a b c :
  names_grow a b -> names_grow b c -> names_grow a c.
Proof.
  intros (x & Eb & Hx & Hxa) (y & Ec & Hy & Hyb).
  exists (x ++ y). rewrite Ec, Eb, app_assoc. split; [reflexivity|]. split.
  - apply NoDup_app. split; [exact Hx|]. split; [|exact Hy].
    intros k Hk Hky. apply (Hyb k Hky). rewrite Eb. apply elem_of_app. by right.
  - intros k Hk Hka. apply elem_of_app in Hk as [Hk|Hk].
    + by apply (Hxa k).
    + apply (Hyb k Hk). rewrite Eb. apply elem_of_app. by left.
Qed.

Lemma names_grow_unique a b :
  names_grow a b -> unique_names a -> unique_names b.
Proof.
  intros (x & Eb & Hx & Hxa) Ha. unfold unique_names. rewrite Eb.
  apply NoDup_app. split; [exact Ha|]. split; [|exact Hx].
  intros k Hk Hkx. by apply (Hxa k).
Qed.

Lemma names_grow_keys a b : playerKeys b = playerKeys a -> names_grow a b.
Proof.
  intros E. exists []. rewrite E, app_nil_r. split; [reflexivity|].
  split; [constructor | intros k H; inversion H].
Qed.

Lemma names_grow_players a b : players b = players a -> names_grow a b.
Proof. intros E. apply names_grow_keys. unfold playerKeys. by rewrite E. Qed.

Lemma names_grow_untouched a b : roster_untouched a b -> names_grow a b.
Proof. intros (E & _). by apply names_grow_players. Qed.

Lemma names_grow_map (f : Player.t -> Player.t) db :
  (forall p, Player.name (f p) = Player.name p
             /\ Player.realm (f p) = Player.realm p) ->
  names_grow db (with_players (List.map f) db).
Proof.
  intros Hf. apply names_grow_keys. unfold playerKeys. simpl.
  induction (players db) as [|p ps IH]; [reflexivity|].
  cbn. destruct (Hf p) as [-> ->]. f_equal. exact IH.
Qed.

Ltac bind_ng := apply (steps_bind names_grow names_grow_trans).
Ltac ret_ng := apply (steps_ret names_grow names_grow_refl).
Ltac sum_ng :=
  apply (steps_sum_each names_grow names_grow_refl names_grow_trans).
Ltac each_ng :=
  apply (steps_for_each names_grow names_grow_refl names_grow_trans).
Ltac untouched_ng lem :=
  apply (steps_weaken roster_untouched names_grow);
  [apply names_grow_untouched | apply lem].
Ltac mapped_ng :=
  intros db; unfold_M; apply names_grow_map; intros p;
  repeat case_match; by split.

Lemma steps_ng_settings {A} (m : M A) :
  (forall db, players (snd (m db)) = players db) -> steps names_grow m.
Proof. intros H db. by apply names_grow_players. Qed.

Lemma steps_ng_startUploadSession now uploaderId sid :
  steps names_grow (startUploadSession now uploaderId sid).
Proof.
  apply steps_ng_settings. intros db.
  unfold startUploadSession, getGuildSettings. unfold_M.
  by destruct (head (guildSettings db)).
Qed.

Lemma steps_ng_clearUploadSession now uploaderId :
  steps names_grow (clearUploadSession now uploaderId).
Proof.
  apply steps_ng_settings. intros db.
  unfold clearUploadSession, getGuildSettings. unfold_M.
  by destruct (head (guildSettings db)).
Qed.

Lemma steps_ng_incrementUploadProcessedCount uploaderId count :
  steps names_grow (incrementUploadProcessedCount uploaderId count).
Proof.
  apply steps_ng_settings. intros db.
  unfold incrementUploadProcessedCount, getGuildSettings. unfold_M.
  by destruct (head (guildSettings db)).
Qed.

Lemma steps_ng_getCurrentUploadSession uploaderId :
  steps names_grow (getCurrentUploadSession uploaderId).
Proof. by apply steps_ng_settings. Qed.

Lemma steps_ng_updatePlayer id updates :
  steps names_grow (updatePlayer id updates).
Proof. unfold updatePlayer. mapped_ng. Qed.

Lemma steps_ng_markAllPlayersInactive :
  steps names_grow markAllPlayersInactive.
Proof. unfold markAllPlayersInactive. mapped_ng. Qed.

Lemma steps_ng_deactivatePlayersByName playerNames :
  steps names_grow (deactivatePlayersByName playerNames).
Proof.
  unfold deactivatePlayersByName. destruct playerNames as [|x l]; [ret_ng|].
  sum_ng. intros [n r]. unfold deactivateByName1. mapped_ng.
Qed.

Lemma steps_ng_updatePlayerLastSeen name realm lastSeen :
  steps names_grow (updatePlayerLastSeen name realm lastSeen).
Proof.
  unfold updatePlayerLastSeen.
  bind_ng; [by apply steps_ng_settings|].
  intros [existing|]; [mapped_ng | ret_ng].
Qed.

Lemma find_keyed_None n r db :
  List.find (Player.keyed n r) (players db) = None -> (n, r) ∉ playerKeys db.
Proof.
  intros H Hin. apply list_elem_of_fmap in Hin as (p & E & Hp).
  apply list_elem_of_In in Hp. apply (List.find_none _ _ H) in Hp.
  injection E as -> ->. unfold Player.keyed in Hp.
  by rewrite !String.eqb_refl in Hp.
Qed.

Lemma createPlayer_players insertPlayer db :
  players (snd (createPlayer insertPlayer db))
  = players db ++ [fst (createPlayer insertPlayer db)] /\
  Player.name (fst (createPlayer insertPlayer db))
  = Player.i_name insertPlayer /\
  Player.realm (fst (createPlayer insertPlayer db))
  = Player.i_realm insertPlayer.
Proof. by repeat split. Qed.

Lemma steps_ng_upsertPlayer playerData :
  steps names_grow (upsertPlayer playerData).
Proof.
  intros db. unfold upsertPlayer. rewrite run_bind.
  change (snd (getPlayerByName (Player.i_name playerData)
                 (Player.i_realm playerData) db)) with db.
  destruct (fst (getPlayerByName (Player.i_name playerData)
                   (Player.i_realm playerData) db)) as [existing|] eqn:E.
  - match goal with |- context [nonempty_upsert_updates ?u] =>
      destruct (nonempty_upsert_updates u) end;
      [|apply names_grow_refl].
    rewrite run_bind. apply steps_ng_updatePlayer.
  - exists [(Player.i_name playerData, Player.i_realm playerData)].
    split; [|split].
    + unfold playerKeys.
      match goal with |- context [createPlayer ?i] =>
        destruct (createPlayer_players i db) as (-> & _ & _) end.
      rewrite fmap_app. reflexivity.
    + apply NoDup_singleton.
    + intros k Hk. apply list_elem_of_singleton in Hk. subst k.
      by apply find_keyed_None.
Qed.

Lemma steps_ng_upsertRosterPlayers defaultRealm parsed :
  steps names_grow (upsertRosterPlayers toUpperCase defaultRealm parsed).
Proof.
  unfold upsertRosterPlayers.
  destruct (master_roster parsed) as [roster|]; [|ret_ng].
  sum_ng. intros [fullName entry].
  destruct (parsePlayerName fullName defaultRealm).
  bind_ng; [apply steps_ng_upsertPlayer | intros; ret_ng].
Qed.

Lemma steps_ng_processStats defaultRealm parsed :
  steps names_grow (processStats toUpperCase defaultRealm parsed).
Proof.
  unfold processStats.
  destruct (stats parsed) as [statsArray|]; [|ret_ng].
  sum_ng. intros snapshot. destruct (iso snapshot) as [timestamp|]; [|ret_ng].
  bind_ng; [|intros; ret_ng].
  each_ng. intros [fullName playerInfo].
  destruct (parsePlayerName fullName defaultRealm).
  bind_ng; [apply steps_ng_updatePlayerLastSeen|]. intros _.
  destruct (_ || _); [|ret_ng].
  bind_ng; [apply steps_ng_upsertPlayer | intros; ret_ng].
Qed.

Lemma steps_ng_processChat defaultRealm parsed :
  steps names_grow (processChat defaultRealm parsed).
Proof.
  unfold processChat.
  destruct (data parsed) as [entries|]; [|ret_ng].
  sum_ng. intros [fullName chatEntry].
  destruct (parsePlayerName fullName defaultRealm).
  bind_ng; [by apply steps_ng_settings|].
  intros [existing|]; [|ret_ng].
  destruct (nonempty_chat_updates _); [|ret_ng].
  bind_ng; [apply steps_ng_updatePlayer | intros; ret_ng].
Qed.

Lemma steps_ng_trackUploader now uploaderId isBatchedUpload batchIndex
    totalBatches sessionPhase incomingSessionId currentSessionId
    isFinalBatch :
  steps names_grow
    (trackUploader status_defaults now uploaderId isBatchedUpload batchIndex
       totalBatches sessionPhase incomingSessionId currentSessionId
       isFinalBatch).
Proof.
  unfold trackUploader.
  destruct isBatchedUpload, batchIndex;
    try (destruct (JS.truthy_str incomingSessionId); [|ret_ng]);
    (bind_ng; [|intros; ret_ng]);
    untouched_ng steps_updateUploaderStatus.
Qed.

Lemma steps_ng_processRoster now uploaderId defaultRealm parsed rosterMode
    sessionPhase incomingSessionId isFinalBatch removedMembers guardPassed :
  steps names_grow
    (processRoster toUpperCase now uploaderId defaultRealm parsed rosterMode
       sessionPhase incomingSessionId isFinalBatch removedMembers
       guardPassed).
Proof.
  unfold processRoster, processRemovals.
  destruct rosterMode as [[| |]|];
    [destruct sessionPhase as [[| |]|] ..| |].
  all: repeat first
    [ ret_ng
    | apply steps_ng_upsertRosterPlayers
    | apply steps_ng_clearUploadSession
    | apply steps_ng_startUploadSession
    | apply steps_ng_getCurrentUploadSession
    | apply steps_ng_incrementUploadProcessedCount
    | apply steps_ng_markAllPlayersInactive
    | apply steps_ng_deactivatePlayersByName
    | bind_ng; [|intros ?]
    | match goal with
      | |- steps _ (match ?x with _ => _ end) => destruct x
      end ].
Qed.

Lemma steps_ng_postUpload now uploaderId body :
  steps names_grow
    (postUpload toUpperCase status_defaults now uploaderId body).
Proof.
  unfold postUpload.
  bind_ng; [by apply steps_ng_settings | intros settings].
  bind_ng; [untouched_ng steps_beginSession_untouched | intros [st cur]].
  destruct (_ && _).
  { bind_ng; [untouched_ng steps_markUploaderOutOfOrder | intros; ret_ng]. }
  destruct (either (roster_mode (addonUploadSchema_parse body))
              (rosterMode (addonUploadSchema_parse body))) as [[| |]|],
    (batch_index (addonUploadSchema_parse body)),
    (either (session_phase (addonUploadSchema_parse body))
       (sessionPhase (addonUploadSchema_parse body)));
    repeat first
      [ ret_ng
      | apply steps_ng_processRoster
      | apply steps_ng_incrementUploadProcessedCount
      | apply steps_ng_processStats
      | apply steps_ng_processChat
      | apply steps_ng_trackUploader
      | bind_ng; [|intros ?]
      | match goal with
        | |- steps _ (let '(_, _) := ?x in _) => destruct x
        | |- steps _ (if ?c then _ else _) => destruct c
        end ].
Qed.

(** X12: whatever the request, the upload endpoint adds no second row for
    a name and realm and takes no name away: when no two players share a
    name and realm before the request, none do after it, and every name
    and realm stored before is stored after, among at least as many
    players. *)
Theorem postUpload_keeps_names_unique (now : JS.Date) (uploaderId : string)
    (body : AddonUploadData) (db : Db) :
  unique_names db ->
  let db' :=
    snd (postUpload toUpperCase status_defaults now uploaderId body db) in
  unique_names db' /\
  (forall name realm,
     (name, realm) ∈ playerKeys db -> (name, realm) ∈ playerKeys db') /\
  (length (players db) <= length (players db'))%nat.
Proof.
  intros Hu db'.
  pose proof (steps_ng_postUpload now uploaderId body db) as H.
  split; [by apply (names_grow_unique db)|].
  destruct H as (added & E & _). fold db' in E. split.
  - intros name realm Hk. rewrite E. apply elem_of_app. by left.
  - apply (f_equal length) in E. unfold playerKeys in E.
    rewrite length_app, !length_fmap in E. lia.
Qed.

End NamesGrow.

Section RosterListed.

Import Storage Upload.

Variable toUpperCase : string -> string.
Variable status_defaults : UploaderStatus.column_defaults.

Lemma find_keyed_same n r (l k : list Player.t) (p : Player.t) :
  Forall2 same_player l k ->
  List.find (Player.keyed n r) l = Some p ->
  exists q, List.find (Player.keyed n r) k = Some q /\ same_player p q.
Proof.
  induction 1 as [|x y l k Hxy _ IH]; simpl; [discriminate|].
  assert (E : Player.keyed n r y = Player.keyed n r x).
  { unfold Player.keyed. destruct Hxy as (_ & -> & -> & _). reflexivity. }
  rewrite E. destruct (Player.keyed n r x).
  - intros [= <-]. by exists y.
  - exact IH.
Qed.

Lemma listed_active_kept keys a b :
  keeps_active a b -> listed_active keys a -> listed_active keys b.
Proof.
  intros (kept & added & E & F) Ha n r Hk.
  destruct (Ha n r Hk) as (p & Hp & Hact).
  unfold getPlayerByName in *. unfold_M.
  destruct (find_keyed_same n r _ _ p F Hp) as (q & Hq & (_ & _ & _ & Hpq)).
  exists q. rewrite E. split; [by apply find_app_Some | by apply Hpq].
Qed.

Lemma listed_active_app k1 k2 db :
  listed_active k1 db -> listed_active k2 db -> listed_active (k1 ++ k2) db.
Proof.
  intros H1 H2 n r Hk. apply elem_of_app in Hk as [Hk|Hk]; auto.
Qed.

(** An upsert that says [isActive: true] leaves the player stored and
    active. *)
Lemma upsertPlayer_listed playerData db :
  Player.u_isActive (Player.i_cols playerData) = Some (Some true) ->
  listed_active [(Player.i_name playerData, Player.i_realm playerData)]
    (snd (upsertPlayer playerData db)).
Proof.
  intros Hact n r Hk. apply list_elem_of_singleton in Hk.
  injection Hk as -> ->.
  unfold upsertPlayer. rewrite run_bind.
  change (snd (getPlayerByName (Player.i_name playerData)
                 (Player.i_realm playerData) db)) with db.
  destruct (fst (getPlayerByName (Player.i_name playerData)
                   (Player.i_realm playerData) db)) as [existing|] eqn:E.
  - unfold nonempty_upsert_updates. cbn [Player.u_isActive].
    rewrite Hact. cbn [defined]. rewrite !orb_true_r.
    rewrite run_bind. cbn [snd mret M_ret].
    unfold getPlayerByName, updatePlayer in *. unfold_M.
    rewrite (find_map_stable (Player.keyed (Player.i_name playerData)
                                (Player.i_realm playerData))).
    + rewrite E. simpl. rewrite Nat.eqb_refl. eexists.
      split; [reflexivity|]. simpl. by rewrite ?Hact.
    + intros x. by destruct (Nat.eqb (Player.id x) (Player.id existing)).
  - unfold getPlayerByName, createPlayer in *. unfold_M.
    erewrite find_app_None; [|exact E|].
    + eexists. split; [reflexivity|]. simpl. by rewrite ?Hact.
    + unfold Player.keyed. simpl. by rewrite !String.eqb_refl.
Qed.

Lemma hoare_upsertRosterPlayers defaultRealm parsed :
  hoare (fun _ => True)
    (upsertRosterPlayers toUpperCase defaultRealm parsed)
    (fun _ => listed_active (rosterKeys defaultRealm parsed)).
Proof.
  unfold upsertRosterPlayers, rosterKeys.
  destruct (master_roster parsed) as [roster|].
  2:{ apply hoare_ret. intros db _ n r H. inversion H. }
  cbn [default].
  cut (forall keys count,
         hoare (listed_active keys)
           (sum_each roster
              (fun '(fullName, entry) =>
                 let '(name, realm) := parsePlayerName fullName defaultRealm in
                 upsertPlayer
                   {| Player.i_name := name;
                      Player.i_realm := realm;
                      Player.i_class := normalizeClass toUpperCase (class entry);
                      Player.i_cols :=
                        {| Player.u_level :=
                             Some (Some (num_or (lvl entry) 80));
                           Player.u_guildRank :=
                             Some (Some (str_or (rank entry) "Member"));
                           Player.u_isActive := Some (Some true) |} |};;
                 mret 1)
              count)
           (fun _ =>
              listed_active
                (keys ++ ((fun entry => parsePlayerName (fst entry) defaultRealm)
                            <$> roster)))).
  { intros H. eapply hoare_conseq; [| |apply (H [] 0)]; simpl.
    - intros db _ n r Hk. inversion Hk.
    - by intros _ db Hl. }
  induction roster as [|[fullName entry] rest IH]; intros keys count.
  - simpl. apply hoare_ret. intros db H. by rewrite app_nil_r.
  - cbn [sum_each fmap list_fmap fst].
    destruct (parsePlayerName fullName defaultRealm) as [name realm] eqn:Ep.
    eapply hoare_bind; [|intros k; rewrite cons_middle, app_assoc; apply IH].
    intros db Hl. rewrite run_bind. cbn [snd mret M_ret].
    apply listed_active_app.
    + eapply listed_active_kept; [|exact Hl].
      apply steps_upsertPlayer. by right.
    + by apply (upsertPlayer_listed
                  {| Player.i_name := name; Player.i_realm := realm |}).
Qed.

End RosterListed.

Section RosterListedHandler.

Import Storage Upload.

Variable toUpperCase : string -> string.
Variable status_defaults : UploaderStatus.column_defaults.
Variable refuses : JS.Date -> string -> AddonUploadData -> Db -> bool.

Ltac bind_ka :=
  apply (steps_bind keeps_active keeps_active_trans).
Ltac ret_ka :=
  apply (steps_ret keeps_active keeps_active_refl).

(** What follows the upserts of the roster keeps the listed players
    stored and active. *)
Ltac kept_listed :=
  apply (hoare_steps keeps_active); [intros a b; apply listed_active_kept|];
  repeat first
    [ ret_ka
    | apply steps_clearUploadSession
    | apply steps_incrementUploadProcessedCount
    | bind_ka; [|intros ?]
    | match goal with
      | |- steps _ (if ?c then _ else _) => destruct c
      end ].

Ltac upsert_then_keep :=
  eapply hoare_bind;
  [apply (hoare_upsertRosterPlayers toUpperCase) | intros ?; kept_listed].

Lemma hoare_processRoster now uploaderId defaultRealm parsed rosterMode
    sessionPhase incomingSessionId isFinalBatch removedMembers :
  rosterMode <> Some no_change ->
  hoare (fun _ => True)
    (processRoster toUpperCase now uploaderId defaultRealm parsed rosterMode
       sessionPhase incomingSessionId isFinalBatch removedMembers false)
    (fun _ => listed_active (rosterKeys defaultRealm parsed)).
Proof.
  intros Hmode. unfold processRoster, processRemovals.
  destruct rosterMode as [[| |]|]; [| |done|];
    [destruct sessionPhase as [[| |]|] ..|].
  - apply hoare_last. intros _. upsert_then_keep.
  - upsert_then_keep.
  - upsert_then_keep.
  - upsert_then_keep.
  - apply hoare_last. intros _. upsert_then_keep.
  - upsert_then_keep.
  - upsert_then_keep.
  - upsert_then_keep.
  - apply hoare_last. intros ?. apply hoare_last. intros _. upsert_then_keep.
Qed.

Lemma postUpload_roster_listed (now : JS.Date) (uploaderId : string)
    (body : AddonUploadData) (db : Db) :
  let result :=
    postUpload toUpperCase status_defaults now uploaderId body db in
  accepted (fst result) = true ->
  either (roster_mode body) (rosterMode body) <> Some no_change ->
  listed_active (rosterKeys (defaultRealmOf db) body) (snd result).
Proof.
  intros result Hacc Hmode. subst result. revert Hacc.
  unfold postUpload. rewrite run_bind.
  change (fst (getGuildSettings db)) with (head (guildSettings db)).
  change (snd (getGuildSettings db)) with db.
  fold (defaultRealmOf db).
  change (roster_mode (addonUploadSchema_parse body)) with (roster_mode body).
  change (rosterMode (addonUploadSchema_parse body)) with (rosterMode body).
  rewrite run_bind.
  destruct (beginSession _ _ _ _ _ _ db) as [[st cur] db1]. cbn [fst snd].
  destruct (_ && _).
  { rewrite run_bind. discriminate. }
  rewrite guard_of_parsed.
  set (mode := either (roster_mode body) (rosterMode body)) in *.
  set (ph := either (session_phase (addonUploadSchema_parse body))
               (sessionPhase (addonUploadSchema_parse body))).
  assert (G : hoare (fun _ => True)
    ('(playersProcessed, removedCount) ←
       processRoster toUpperCase now uploaderId (defaultRealmOf db)
         (addonUploadSchema_parse body) mode ph
         (upload_session_id (addonUploadSchema_parse body))
         (bool_decide (is_final_batch (addonUploadSchema_parse body)
                       = Some true))
         (default [] (either (removed_members (addonUploadSchema_parse body))
                        (removedMembers (addonUploadSchema_parse body))))
         false;
     (if bool_decide (is_Some mode) && (0 <? playersProcessed)
      then Storage.incrementUploadProcessedCount uploaderId playersProcessed
      else mret tt);;
     snapshotsProcessed ←
       processStats toUpperCase (defaultRealmOf db)
         (addonUploadSchema_parse body);
     chatDataProcessed ←
       processChat (defaultRealmOf db) (addonUploadSchema_parse body);
     trackUploader status_defaults now uploaderId
       (isBatched mode (batch_index (addonUploadSchema_parse body)) ph)
       (batch_index (addonUploadSchema_parse body))
       (total_batches (addonUploadSchema_parse body)) ph
       (upload_session_id (addonUploadSchema_parse body)) cur
       (bool_decide (is_final_batch (addonUploadSchema_parse body)
                     = Some true));;
     mret (Success mode ph playersProcessed removedCount snapshotsProcessed
             chatDataProcessed))
    (fun _ => listed_active (rosterKeys (defaultRealmOf db) body))).
  { eapply hoare_bind; [by apply hoare_processRoster|].
    intros [pp rc].
    apply (hoare_steps keeps_active);
      [intros a b; apply listed_active_kept|].
    repeat first
      [ ret_ka
      | apply steps_incrementUploadProcessedCount
      | apply steps_processStats
      | apply steps_processChat
      | apply steps_trackUploader
      | bind_ka; [|intros ?]
      | match goal with
        | |- steps _ (if ?c then _ else _) => destruct c
        end ]. }
  destruct mode as [[| |]|], (batch_index (addonUploadSchema_parse body)),
    ph; intros Hacc; try discriminate Hacc; try done; by apply G.
Qed.

(** X13: when no two players have the same name and realm, a request that
    is answered with success, none of its statements refused, and that
    does not say [no_change] leaves every player that its roster lists
    stored under the name and realm parsed from the entry, and active. *)
Theorem roster_players_are_active (now : JS.Date) (uploaderId : string)
    (body : AddonUploadData) (db db' : Db) (response : Response) :
  unique_names db ->
  handleUpload toUpperCase status_defaults refuses now uploaderId body db
  = Some (response, db') ->
  accepted response = true ->
  either (roster_mode body) (rosterMode body) <> Some no_change ->
  listed_active (rosterKeys (defaultRealmOf db) body) db'.
Proof.
  intros _ Hanswer Hacc Hmode. unfold handleUpload in Hanswer.
  destruct (refuses now uploaderId body db); [discriminate|].
  injection Hanswer as Hanswer.
  pose proof (postUpload_roster_listed now uploaderId body db) as H.
  cbv zeta in H. rewrite Hanswer in H. by apply H.
Qed.

End RosterListedHandler.

Section BatchSequence.

Import Storage Upload.

Variable toUpperCase : string -> string.
Variable status_defaults : UploaderStatus.column_defaults.
Variable refuses : JS.Date -> string -> AddonUploadData -> Db -> bool.

(** The handler from the roster step on. *)
Lemma postUpload_in_order now uploaderId body db mode phase index :
  either (roster_mode body) (rosterMode body) = Some mode ->
  mode <> no_change ->
  either (session_phase body) (sessionPhase body) = Some phase ->
  batch_index body = Some index ->
  let begun :=
    beginSession status_defaults now uploaderId (upload_session_id body)
      (total_batches body) (Some phase) db in
  index = expectedIndex (Some phase) (fst (fst begun)) ->
  let completed :=
    bool_decide (Some phase = Some final)
    || bool_decide (is_final_batch body = Some true) in
  let result := postUpload toUpperCase status_defaults now uploaderId body db in
  accepted (fst result) = true /\
  exists stored,
    fst (getUploaderStatusRecord uploaderId (snd result)) = Some stored /\
    UploaderStatus.lastBatchIndex stored = Some index /\
    UploaderStatus.expectedBatchIndex stored
      = Some (if completed then 0 else index + 1) /\
    UploaderStatus.status stored
      = Some (if completed then "idle" else "processing") /\
    UploaderStatus.lastError stored = None /\
    UploaderStatus.lastSessionId stored = snd (fst begun).
Proof.
  intros Hmode Hne Hphase Hidx begun Hexp completed result.
  assert (Hbatched : isBatched (Some mode) (Some index) (Some phase) = true).
  { simpl. by rewrite bool_decide_eq_false_2. }
  subst result. unfold postUpload.
  change (roster_mode (addonUploadSchema_parse body)) with (roster_mode body).
  change (rosterMode (addonUploadSchema_parse body)) with (rosterMode body).
  change (session_phase (addonUploadSchema_parse body))
    with (session_phase body).
  change (sessionPhase (addonUploadSchema_parse body))
    with (sessionPhase body).
  change (batch_index (addonUploadSchema_parse body)) with (batch_index body).
  change (total_batches (addonUploadSchema_parse body))
    with (total_batches body).
  change (upload_session_id (addonUploadSchema_parse body))
    with (upload_session_id body).
  change (is_final_batch (addonUploadSchema_parse body))
    with (is_final_batch body).
  rewrite Hmode, Hphase, Hidx, Hbatched.
  rewrite run_bind.
  change (snd (getGuildSettings db)) with db.
  rewrite run_bind. fold begun.
  destruct (fst begun) as [st cur] eqn:Eb. cbn [fst snd] in *.
  rewrite <- Hexp. rewrite bool_decide_eq_true_2 by reflexivity.
  cbn [negb andb].
  set (Post := fun (r : Response) (db' : Db) =>
    accepted r = true /\
    exists stored,
      fst (getUploaderStatusRecord uploaderId db') = Some stored /\
      UploaderStatus.lastBatchIndex stored = Some index /\
      UploaderStatus.expectedBatchIndex stored
        = Some (if completed then 0 else index + 1) /\
      UploaderStatus.status stored
        = Some (if completed then "idle" else "processing") /\
      UploaderStatus.lastError stored = None /\
      UploaderStatus.lastSessionId stored = cur).
  assert (G : forall m : M (Z * Z),
    hoare (fun _ => True)
      ('(playersProcessed, removedCount) ← m;
       (if bool_decide (is_Some (Some mode)) && (0 <? playersProcessed)
        then Storage.incrementUploadProcessedCount uploaderId
               playersProcessed
        else mret tt);;
       snapshotsProcessed ←
         processStats toUpperCase
           (str_or (GuildSettings.realm <$> fst (getGuildSettings db))
              "Unknown")
           (addonUploadSchema_parse body);
       chatDataProcessed ←
         processChat
           (str_or (GuildSettings.realm <$> fst (getGuildSettings db))
              "Unknown")
           (addonUploadSchema_parse body);
       trackUploader status_defaults now uploaderId true (Some index)
         (total_batches body) (Some phase) (upload_session_id body) cur
         (bool_decide (is_final_batch body = Some true));;
       mret (Success (Some mode) (Some phase) playersProcessed removedCount
               snapshotsProcessed chatDataProcessed))
      Post).
  { intros m. apply hoare_last. intros [pp rc].
    do 3 (apply hoare_last; intros ?).
    intros db0 _. rewrite run_bind. cbn [fst snd mret M_ret].
    split; [reflexivity|].
    unfold trackUploader. rewrite run_bind. cbn [snd mret M_ret].
    match goal with
    | |- context [updateUploaderStatus status_defaults now uploaderId ?u] =>
        destruct (updateUploaderStatus_result status_defaults now uploaderId
                    u db0) as [_ [r Hr]]
    end.
    eexists. split; [exact Hr|]. subst completed. simpl.
    repeat split; by destruct (_ || _). }
  destruct mode; [| |done]; by apply G.
Qed.

(** X14: a batch of index [index] that arrives in order is answered with
    success unless the database refuses one of its statements; after it,
    the chunk or final batch of the same session that follows is checked
    against [index + 1]: when it carries that index it is answered with
    success, otherwise it is rejected with the two indices, unless again
    the database refuses a statement. A batch sent twice is rejected. *)
Theorem batch_after_accepted_batch (now now' : JS.Date) (uploaderId : string)
    (body body' : AddonUploadData) (db db1 : Db) (mode mode' : RosterMode)
    (phase phase' : SessionPhase) (index index' : Z) (first : Response) :
  either (roster_mode body) (rosterMode body) = Some mode ->
  mode <> no_change ->
  either (session_phase body) (sessionPhase body) = Some phase ->
  batch_index body = Some index ->
  index
  = expectedIndex (Some phase)
      (fst (fst (beginSession status_defaults now uploaderId
                   (upload_session_id body) (total_batches body)
                   (Some phase) db))) ->
  handleUpload toUpperCase status_defaults refuses now uploaderId body db
  = Some (first, db1) ->
  either (roster_mode body') (rosterMode body') = Some mode' ->
  mode' <> no_change ->
  either (session_phase body') (sessionPhase body') = Some phase' ->
  phase' <> start ->
  batch_index body' = Some index' ->
  upload_session_id body' = upload_session_id body ->
  accepted first = true /\
  forall (second : Response) (db2 : Db),
    handleUpload toUpperCase status_defaults refuses now' uploaderId body'
      db1
    = Some (second, db2) ->
    (index' = index + 1 -> accepted second = true) /\
    (index' <> index + 1 ->
     conflict_of second = Some (index + 1, Some index')).
Proof.
  intros Hmode Hne Hphase Hidx Hexp Hfirst Hmode' Hne' Hphase' Hstart Hidx'
    Hsid.
  unfold handleUpload in Hfirst.
  destruct (refuses now uploaderId body db); [discriminate|].
  injection Hfirst as Hfirst.
  destruct (postUpload_in_order now uploaderId body db mode phase index
              Hmode Hne Hphase Hidx Hexp)
    as (Hacc & stored & Hstored & Hlast & _ & _ & _ & Hsession).
  rewrite Hfirst in Hacc, Hstored. cbn [fst snd] in Hacc, Hstored.
  split; [exact Hacc|].
  intros second db2 Hsecond. unfold handleUpload in Hsecond.
  destruct (refuses now' uploaderId body' db1); [discriminate|].
  injection Hsecond as Hsecond.
  assert (Hsame : upload_session_id body' = None
                  \/ upload_session_id body'
                     = UploaderStatus.lastSessionId stored).
  { rewrite Hsid, Hsession.
    destruct (upload_session_id body) as [sid|] eqn:E; [right | by left].
    by rewrite beginSession_current. }
  pose proof (beginSession_same_session status_defaults now' uploaderId
    (upload_session_id body') (total_batches body') (Some phase')
    db1 stored Hstored Hsame) as Hb.
  assert (Hexp' : expectedIndex (Some phase')
                    (fst (fst (beginSession status_defaults now' uploaderId
                                 (upload_session_id body')
                                 (total_batches body') (Some phase')
                                 db1)))
                  = index + 1).
  { rewrite Hb. cbn [fst]. unfold expectedIndex. rewrite Hlast.
    by destruct phase'. }
  split.
  - intros ->.
    destruct (postUpload_in_order now' uploaderId body' db1 mode'
                phase' (index + 1) Hmode' Hne' Hphase' Hidx'
                (eq_sym Hexp')) as [H _].
    by rewrite Hsecond in H.
  - intros Hother.
    pose proof (postUpload_conflict toUpperCase status_defaults now'
                  uploaderId body' db1 mode' phase' index' Hmode' Hne'
                  Hphase' Hidx') as Hconflict.
    cbv zeta in Hconflict. rewrite Hexp' in Hconflict.
    rewrite (Hconflict Hother) in Hsecond.
    by injection Hsecond as <- _.
Qed.

End BatchSequence.

(** ** Run URLs and guild-run keys *)

Section RunUrls.

Import RioSync RunDetails.

Lemma digit_pretty_N_char (d : N) :
  (d < 10)%N -> digit (pretty_N_char d) = Some (Z.of_N d).
Proof.
  intros H.
  assert (d = 0 \/ d = 1 \/ d = 2 \/ d = 3 \/ d = 4 \/ d = 5 \/ d = 6
          \/ d = 7 \/ d = 8 \/ d = 9)%N as Hd by lia.
  destruct Hd as [->|[->|[->|[->|[->|[->|[->|[->|[->| ->]]]]]]]]];
    reflexivity.
Qed.

Lemma digitsThenDash_pretty_N_go (x : N) :
  (0 < x)%N ->
  exists m,
    forall acc s,
      digitsThenDash (pretty_N_go x s) acc
      = digitsThenDash s (Some (default 0 acc * m + Z.of_N x)).
Proof.
  induction (N.lt_wf_0 x) as [x _ IH]. intros Hx.
  assert (Hd : (x `mod` 10 < 10)%N) by (apply N.mod_lt; lia).
  assert (Hx10 : (x = 10 * (x `div` 10) + x `mod` 10)%N)
    by (apply N.div_mod; lia).
  destruct (decide (x `div` 10 = 0)%N) as [E|E].
  - exists 10. intros acc s.
    rewrite pretty_N_go_step, E, pretty_N_go_0 by done.
    cbn [digitsThenDash]. rewrite (digit_pretty_N_char _ Hd).
    do 2 f_equal. lia.
  - destruct (IH (x `div` 10)%N) as [m Hm];
      [apply N.div_lt; lia | by apply N.neq_0_lt_0 |].
    exists (10 * m). intros acc s.
    rewrite pretty_N_go_step, Hm by done.
    cbn [digitsThenDash]. rewrite (digit_pretty_N_char _ Hd).
    cbn [default]. do 2 f_equal.
    assert (Z.of_N x = 10 * Z.of_N (x `div` 10) + Z.of_N (x `mod` 10))
      as -> by lia.
    cbv [id]. ring.
Qed.

Lemma digitsThenDash_str (n : Z) (rest : string) :
  0 <= n -> digitsThenDash (JS.str n +:+ String "-" rest) None = Some n.
Proof.
  intros Hn. unfold JS.str, pretty, pretty_Z.
  destruct n as [|p|p]; [reflexivity| |lia].
  unfold pretty, pretty_positive, pretty, pretty_N.
  rewrite decide_False by discriminate.
  destruct (digitsThenDash_pretty_N_go (N.pos p)) as [m Hm]; [lia|].
  assert (E : forall x t s, pretty_N_go x t +:+ s = pretty_N_go x (t +:+ s)).
  { clear. intros x. induction (N.lt_wf_0 x) as [x _ IH]. intros t s.
    destruct (decide (0 < x)%N) as [Hx|Hx].
    - rewrite !(pretty_N_go_step x) by done.
      rewrite IH by (apply N.div_lt; lia). reflexivity.
    - assert (x = 0%N) as -> by lia. by rewrite !pretty_N_go_0. }
  rewrite E, Hm. simpl. do 2 f_equal.
Qed.

(** X15: the identifier of a run, a safe integer that is not negative, is
    read back, by the pattern that extracts run identifiers, from the URL
    built for the details of that run, whatever the level and the slug. *)
Theorem runUrl_round_trip (runId mythic_level : Z) (slug : option string) :
  0 <= runId <= MAX_SAFE_INTEGER ->
  matchRunId (runUrl runId mythic_level slug) = Some runId.
Proof.
  intros [H _]. unfold runUrl, CURRENT_SEASON.
  repeat match goal with
    | |- context [String ?a ?s +:+ ?t] =>
        change (String a s +:+ t) with (String a (s +:+ t))
    | |- context ["" +:+ ?t] => change ("" +:+ t) with t
    end.
  cbn -[JS.str String.append].
  by rewrite digitsThenDash_str.
Qed.

End RunUrls.

Section RunKeys.

Import RioSync RunDetails.

Lemma includes_append c a b :
  JS.includes c (a +:+ b) = JS.includes c a || JS.includes c b.
Proof.
  induction a as [|x a IH]; simpl; [reflexivity|].
  by rewrite IH, orb_assoc.
Qed.

Lemma includes_pretty_N_go x s :
  JS.includes "/" s = false -> JS.includes "/" (pretty_N_go x s) = false.
Proof.
  revert s. induction (N.lt_wf_0 x) as [x _ IH]. intros s Hs.
  destruct (decide (0 < x)%N) as [Hx|Hx].
  - rewrite pretty_N_go_step by done. apply IH; [apply N.div_lt; lia|].
    simpl. rewrite Hs. unfold pretty_N_char. by repeat case_match.
  - assert (x = 0%N) as -> by lia. by rewrite pretty_N_go_0.
Qed.

Lemma includes_str n : JS.includes "/" (JS.str n) = false.
Proof.
  unfold JS.str, pretty, pretty_Z. destruct n as [|p|p]; [reflexivity|..].
  - unfold pretty, pretty_positive, pretty, pretty_N.
    rewrite decide_False by discriminate. by apply includes_pretty_N_go.
  - unfold pretty, pretty_positive, pretty, pretty_N.
    rewrite decide_False by discriminate. rewrite includes_append.
    by rewrite includes_pretty_N_go.
Qed.

Lemma split_last_segment c pre rest :
  JS.includes c rest = false ->
  exists p ps,
    JS.split c (pre +:+ String c rest) = p :: ps /\
    ps <> [] /\ List.last ps "" = rest.
Proof.
  intros Hrest. induction pre as [|a pre IH].
  - exists "", [rest]. simpl. rewrite Ascii.eqb_refl.
    rewrite (split_no_sep _ _ Hrest). by split.
  - destruct IH as (p & ps & E & Hps & Hl).
    change (String a pre +:+ String c rest)
      with (String a (pre +:+ String c rest)).
    cbn [JS.split]. rewrite E.
    destruct (Ascii.eqb a c).
    + exists "", (p :: ps). split; [reflexivity|]. split; [discriminate|].
      destruct ps; [done | exact Hl].
    + by exists (String a p), ps.
Qed.

(** X16: the key of a guild run built from the details of a run is the
    last segment of its URL, which starts with the identifier of the run:
    runs of different identifiers have different keys. *)
Theorem generateRunKey_of_runUrl (run : RaiderIORun) (runId : Z)
    (slug : string) :
  0 <= runId ->
  JS.includes "/" slug = false ->
  slug <> "" ->
  url run = Some (runUrl runId (mythic_level run) (Some slug)) ->
  generateRunKey run
  = JS.str runId +:+ "-" +:+ JS.str (mythic_level run) +:+ "-" +:+ slug /\
  digitsThenDash (generateRunKey run) None = Some runId.
Proof.
  intros Hid Hslug Hne Hurl.
  assert (Hkey : generateRunKey run
                 = JS.str runId +:+ "-" +:+ JS.str (mythic_level run)
                   +:+ "-" +:+ slug).
  { unfold generateRunKey. rewrite Hurl.
    assert (Ht : JS.truthy_str
                   (Some (runUrl runId (mythic_level run) (Some slug)))
                 = true) by reflexivity.
    rewrite Ht. unfold runUrl, CURRENT_SEASON.
    assert (Es : default "unknown" (JS.or_str (Some slug) None) = slug).
    { unfold JS.or_str, JS.truthy_str.
      destruct (String.eqb slug "") eqn:E; [|reflexivity].
      by apply String.eqb_eq in E. }
    rewrite Es.
    change ("https://raider.io/mythic-plus-runs/" +:+ "season-tww-3"
            +:+ "/" +:+ ?rest)
      with ("https://raider.io/mythic-plus-runs/season-tww-3"
            +:+ String "/" rest).
    destruct (split_last_segment "/"
                "https://raider.io/mythic-plus-runs/season-tww-3"
                (JS.str runId +:+ "-" +:+ JS.str (mythic_level run)
                 +:+ "-" +:+ slug))
      as (p & ps & -> & Hps & Hl).
    { rewrite !includes_append, !includes_str, Hslug. reflexivity. }
    destruct ps; [done | exact Hl]. }
  split; [exact Hkey|]. rewrite Hkey.
  change ("-" +:+ ?rest) with (String "-" rest).
  by apply digitsThenDash_str.
Qed.

End RunKeys.

(** ** Upload session of the guild settings *)

Section UploadSession.

Import Storage.

Lemma head_updateSettingsRow (f : GuildSettings.t -> GuildSettings.t)
    (settings : GuildSettings.t) (db : Db) :
  head (guildSettings db) = Some settings ->
  head (guildSettings
          (snd (updateSettingsRow (GuildSettings.id settings) f db)))
  = Some (f settings).
Proof.
  intros H. unfold updateSettingsRow, modify. simpl.
  destruct (guildSettings db) as [|g rest]; [discriminate|].
  injection H as ->. simpl. by rewrite Nat.eqb_refl.
Qed.

(** X17: with a row of guild settings, the session that one uploader
    starts is the current session of every uploader, whatever was current
    before, the players processed are counted from zero, and clearing it,
    by any uploader, leaves no current session. *)
Theorem upload_session_round_trip (now now' : JS.Date)
    (starter reader clearer sessionId : string) (count : Z) (db : Db) :
  guildSettings db <> [] ->
  let started := snd (startUploadSession now starter sessionId db) in
  let counted := snd (incrementUploadProcessedCount starter count started) in
  let cleared := snd (clearUploadSession now' clearer counted) in
  fst (getCurrentUploadSession reader started) = Some sessionId /\
  fst (getCurrentUploadSession reader counted) = Some sessionId /\
  (GuildSettings.uploadSessionProcessedCount <$> head (guildSettings counted))
    = Some (Some count) /\
  fst (getCurrentUploadSession reader cleared) = None /\
  (GuildSettings.lastUploadCompletedAt <$> head (guildSettings cleared))
    = Some (Some now').
Proof.
  intros Hrow started counted cleared.
  destruct (head (guildSettings db)) as [settings|] eqn:Hhead;
    [|by destruct (guildSettings db)].
  assert (H1 : exists s1, head (guildSettings started) = Some s1
                 /\ GuildSettings.id s1 = GuildSettings.id settings
                 /\ GuildSettings.currentUploadSession s1 = Some sessionId
                 /\ GuildSettings.uploadSessionProcessedCount s1 = Some 0).
  { subst started. unfold startUploadSession. rewrite run_bind.
    change (fst (getGuildSettings db)) with (head (guildSettings db)).
    change (snd (getGuildSettings db)) with db.
    rewrite Hhead. rewrite (head_updateSettingsRow _ _ _ Hhead).
    eexists. split; [reflexivity|]. by repeat split. }
  destruct H1 as (s1 & Hs1 & Hid1 & Hcur1 & Hcount1).
  assert (H2 : exists s2, head (guildSettings counted) = Some s2
                 /\ GuildSettings.id s2 = GuildSettings.id settings
                 /\ GuildSettings.currentUploadSession s2 = Some sessionId
                 /\ GuildSettings.uploadSessionProcessedCount s2
                    = Some count).
  { subst counted. unfold incrementUploadProcessedCount. rewrite run_bind.
    change (fst (getGuildSettings started)) with (head (guildSettings started)).
    change (snd (getGuildSettings started)) with started.
    rewrite Hs1. rewrite (head_updateSettingsRow _ _ _ Hs1).
    eexists. split; [reflexivity|]. simpl. rewrite Hcount1. simpl.
    by repeat split. }
  destruct H2 as (s2 & Hs2 & Hid2 & Hcur2 & Hcount2).
  assert (H3 : exists s3, head (guildSettings cleared) = Some s3
                 /\ GuildSettings.currentUploadSession s3 = None
                 /\ GuildSettings.lastUploadCompletedAt s3 = Some now').
  { subst cleared. unfold clearUploadSession. rewrite run_bind.
    change (fst (getGuildSettings counted)) with (head (guildSettings counted)).
    change (snd (getGuildSettings counted)) with counted.
    rewrite Hs2. rewrite (head_updateSettingsRow _ _ _ Hs2).
    eexists. split; [reflexivity|]. by split. }
  destruct H3 as (s3 & Hs3 & Hcur3 & Hdone3).
  unfold getCurrentUploadSession. rewrite !run_bind.
  change (fst (getGuildSettings started)) with (head (guildSettings started)).
  change (fst (getGuildSettings counted)) with (head (guildSettings counted)).
  change (fst (getGuildSettings cleared)) with (head (guildSettings cleared)).
  rewrite Hs1, Hs2, Hs3. simpl. rewrite Hcur1, Hcur2, Hcur3, Hcount2, Hdone3.
  by repeat split.
Qed.

End UploadSession.

(** ** Leaderboard and rankings *)

Section Rankings.

Import Routes.

Lemma insertByScore_length p l :
  length (insertByScore p l) = S (length l).
Proof.
  induction l as [|x l IH]; simpl; [done|].
  destruct (_ <=? _); simpl; by rewrite ?IH.
Qed.

Lemma sortByScore_length l : length (sortByScore l) = length l.
Proof.
  induction l as [|x l IH]; simpl; [done|].
  by rewrite insertByScore_length, IH.
Qed.

Lemma elem_of_insertByScore q p l :
  q ∈ insertByScore p l <-> q = p \/ q ∈ l.
Proof.
  induction l as [|x l IH]; simpl.
  - by rewrite elem_of_cons.
  - destruct (_ <=? _).
    + by rewrite elem_of_cons.
    + rewrite !elem_of_cons, IH. tauto.
Qed.

Lemma elem_of_sortByScore q l : q ∈ sortByScore l <-> q ∈ l.
Proof.
  induction l as [|x l IH]; simpl; [done|].
  by rewrite elem_of_insertByScore, elem_of_cons, IH.
Qed.

Lemma insertByScore_sorted p l :
  highestFirst l -> highestFirst (insertByScore p l).
Proof.
  induction l as [|x l IH]; simpl; [by intros _; split|].
  intros [Hx Hl]. unfold scoreOf in *.
  destruct (_ <=? _) eqn:E; simpl.
  - apply Z.leb_le in E. split; [|by split].
    constructor; [exact E|].
    eapply Forall_impl; [exact Hx|]. simpl. intros y Hy. unfold scoreOf. lia.
  - apply Z.leb_gt in E. split; [|by apply IH].
    apply Forall_forall. intros y Hy.
    apply elem_of_insertByScore in Hy as [->|Hy]; [unfold scoreOf; lia|].
    by apply (proj1 (Forall_forall _ _) Hx).
Qed.

Lemma sortByScore_sorted l : highestFirst (sortByScore l).
Proof.
  induction l as [|x l IH]; simpl; [done|]. by apply insertByScore_sorted.
Qed.

Lemma insertByScore_first p l :
  Forall (fun x => scoreOf x <= scoreOf p) l -> insertByScore p l = p :: l.
Proof.
  destruct l as [|x l]; [reflexivity|]. intros H.
  apply Forall_cons in H as [Hx _]. simpl.
  apply Z.leb_le in Hx. unfold scoreOf in Hx. by rewrite Hx.
Qed.

Lemma filter_insertByScore (f : Player.t -> bool) p l :
  highestFirst l ->
  List.filter f (insertByScore p l)
  = if f p then insertByScore p (List.filter f l) else List.filter f l.
Proof.
  induction l as [|x l IH]; simpl.
  - intros _. by destruct (f p).
  - intros [Hx Hl]. specialize (IH Hl).
    destruct (_ <=? _) eqn:E.
    + cbn [List.filter]. destruct (f p); [|reflexivity].
      symmetry. apply insertByScore_first.
      apply Z.leb_le in E.
      assert (H : Forall (fun y => scoreOf y <= scoreOf p) (x :: l)).
      { constructor; [exact E|].
        eapply Forall_impl; [exact Hx|]. simpl. unfold scoreOf. intros; lia. }
      by apply (Forall_filter_keep _ f) in H.
    + cbn [List.filter]. rewrite IH.
      destruct (f x) eqn:Ex, (f p) eqn:Ep; simpl; try reflexivity.
      by rewrite E.
Qed.

Lemma filter_sortByScore (f : Player.t -> bool) l :
  List.filter f (sortByScore l) = sortByScore (List.filter f l).
Proof.
  unfold sortByScore. induction l as [|x l IH]; simpl; [reflexivity|].
  rewrite filter_insertByScore by apply sortByScore_sorted.
  rewrite IH. by destruct (f x).
Qed.

Lemma highestFirst_app a b :
  highestFirst (a ++ b) ->
  highestFirst a /\
  forall x y, x ∈ a -> y ∈ b -> scoreOf y <= scoreOf x.
Proof.
  induction a as [|z a IH]; simpl.
  - intros _. split; [done|]. intros x y Hx. by apply elem_of_nil in Hx.
  - intros [Hz Ha]. destruct (IH Ha) as [IH1 IH2].
    apply Forall_app in Hz as [Hza Hzb]. split; [by split|].
    intros x y Hx Hy. apply elem_of_cons in Hx as [->|Hx].
    + by apply (proj1 (Forall_forall _ _) Hzb).
    + by apply IH2.
Qed.

Lemma elem_of_filter_bool {A} (f : A -> bool) (x : A) l :
  x ∈ List.filter f l <-> x ∈ l /\ f x = true.
Proof. rewrite !list_elem_of_In. apply filter_In. Qed.

(** X18: the leaderboard lists at most twenty players, all of them stored
    and active, highest score first; it lists every active player when
    there are at most twenty, and an active player that it leaves out has
    no higher score than any player it lists. It changes nothing. *)
Theorem leaderboard_top_twenty (db : Db) :
  let board := fst (leaderboard db) in
  length board = Nat.min 20 (length (List.filter active (players db))) /\
  highestFirst board /\
  (forall p, p ∈ board -> p ∈ players db /\ active p = true) /\
  (forall p q,
     p ∈ players db -> active p = true -> p ∉ board -> q ∈ board ->
     scoreOf p <= scoreOf q) /\
  snd (leaderboard db) = db.
Proof.
  intros board. subst board. unfold leaderboard. unfold_M. simpl.
  fold active.
  set (sorted := sortByScore (List.filter active (players db))).
  assert (Hs : highestFirst (take 20 sorted ++ drop 20 sorted)).
  { rewrite take_drop. apply sortByScore_sorted. }
  apply highestFirst_app in Hs as [Htake Hdrop].
  split; [|split; [exact Htake|split; [|split; [|reflexivity]]]].
  - rewrite length_take. subst sorted. by rewrite sortByScore_length.
  - intros p Hp. apply subseteq_take in Hp. subst sorted.
    rewrite elem_of_sortByScore in Hp. by apply elem_of_filter_bool in Hp.
  - intros p q Hp Ha Hout Hq. apply Hdrop; [exact Hq|].
    assert (Hin : p ∈ take 20 sorted ++ drop 20 sorted).
    { rewrite take_drop. subst sorted. rewrite elem_of_sortByScore.
      by apply elem_of_filter_bool. }
    apply elem_of_app in Hin as [Hin|Hin]; [by destruct Hout | exact Hin].
Qed.

Lemma findIndex_found id l p :
  p ∈ l -> Player.id p = id ->
  exists i, findIndex id l = Some i /\ (i < length l)%nat.
Proof.
  induction l as [|x l IH]; [by intros H; apply elem_of_nil in H|].
  intros Hin Hid. simpl.
  destruct (Nat.eqb (Player.id x) id) eqn:E.
  - exists 0%nat. split; [done | lia].
  - apply elem_of_cons in Hin as [->|Hin].
    { rewrite Hid, Nat.eqb_refl in E. discriminate. }
    destruct (IH Hin Hid) as (i & -> & Hi). exists (S i). split; [done | lia].
Qed.

Lemma findIndex_filter (f : Player.t -> bool) l p i :
  NoDup (Player.id <$> l) ->
  p ∈ l -> f p = true ->
  findIndex (Player.id p) l = Some i ->
  exists j, findIndex (Player.id p) (List.filter f l) = Some j /\ (j <= i)%nat.
Proof.
  revert i. induction l as [|x l IH]; intros i Hnd Hin Hf;
    [by apply elem_of_nil in Hin|].
  rewrite fmap_cons in Hnd. apply NoDup_cons in Hnd as [Hx Hnd].
  simpl. destruct (Nat.eqb (Player.id x) (Player.id p)) eqn:E.
  - intros [= <-]. apply Nat.eqb_eq in E.
    apply elem_of_cons in Hin as [->|Hin].
    + rewrite Hf. simpl. rewrite Nat.eqb_refl. by exists 0%nat.
    + destruct Hx. rewrite E. apply list_elem_of_fmap. by exists p.
  - apply elem_of_cons in Hin as [->|Hin].
    { rewrite Nat.eqb_refl in E. discriminate. }
    destruct (findIndex (Player.id p) l) as [i'|] eqn:Ei; [|discriminate].
    intros [= <-].
    destruct (IH i' Hnd Hin Hf eq_refl) as (j & Hj & Hle).
    destruct (f x); simpl.
    + rewrite E, Hj. exists (S j). split; [done | lia].
    + exists j. split; [exact Hj | lia].
Qed.

Lemma find_id_elem id (l : list Player.t) p :
  List.find (fun p => Nat.eqb (Player.id p) id) l = Some p ->
  p ∈ l /\ Player.id p = id.
Proof.
  intros H. apply find_some in H as [Hin Hid].
  split; [by apply list_elem_of_In | by apply Nat.eqb_eq].
Qed.

Lemma NoDup_ids_insertByScore x s :
  Player.id x ∉ Player.id <$> s ->
  NoDup (Player.id <$> s) ->
  NoDup (Player.id <$> insertByScore x s).
Proof.
  induction s as [|y s IH]; cbn [insertByScore]; intros Hx Hnd.
  - apply NoDup_singleton.
  - rewrite fmap_cons in Hx, Hnd. apply NoDup_cons in Hnd as [Hy Hnd].
    apply not_elem_of_cons in Hx as [Hxy Hx].
    destruct (_ <=? _); rewrite !fmap_cons.
    + apply NoDup_cons. split; [|by apply NoDup_cons].
      by apply not_elem_of_cons.
    + apply NoDup_cons. split; [|by apply IH].
      intros Hin. apply list_elem_of_fmap in Hin as (z & E & Hz).
      rewrite elem_of_insertByScore in Hz. destruct Hz as [->|Hz];
        [congruence|].
      apply Hy. apply list_elem_of_fmap. by exists z.
Qed.

Lemma NoDup_ids_sortByScore l :
  NoDup (Player.id <$> l) -> NoDup (Player.id <$> sortByScore l).
Proof.
  intros H. induction l as [|x l IH]; [constructor|].
  rewrite fmap_cons in H. apply NoDup_cons in H as [Hx H].
  cbn [sortByScore foldr]. apply NoDup_ids_insertByScore; [|by apply IH].
  intros Hin. apply Hx. apply list_elem_of_fmap in Hin as (y & E & Hy).
  apply list_elem_of_fmap. exists y. split; [exact E|].
  by rewrite elem_of_sortByScore in Hy.
Qed.

Lemma NoDup_ids_filter (f : Player.t -> bool) l :
  NoDup (Player.id <$> l) -> NoDup (Player.id <$> List.filter f l).
Proof.
  induction l as [|x l IH]; [done|].
  rewrite fmap_cons. intros H. apply NoDup_cons in H as [Hx H].
  cbn [List.filter]. destruct (f x); [|by apply IH].
  rewrite fmap_cons. apply NoDup_cons. split; [|by apply IH].
  intros Hin. apply Hx. apply list_elem_of_fmap in Hin as (y & E & Hy).
  apply list_elem_of_fmap. exists y. split; [exact E|].
  by apply elem_of_filter_bool in Hy as [Hy _].
Qed.

Lemma NoDup_ids_eq l (p q : Player.t) :
  NoDup (Player.id <$> l) -> p ∈ l -> q ∈ l ->
  Player.id p = Player.id q -> p = q.
Proof.
  induction l as [|x l IH]; [by intros _ H; apply elem_of_nil in H|].
  rewrite fmap_cons. intros H Hp Hq E. apply NoDup_cons in H as [Hx H].
  apply elem_of_cons in Hp as [->|Hp]; apply elem_of_cons in Hq as [->|Hq].
  - reflexivity.
  - destruct Hx. rewrite E. apply list_elem_of_fmap. by exists q.
  - destruct Hx. rewrite <- E. apply list_elem_of_fmap. by exists p.
  - by apply IH.
Qed.

(** X19: for a stored player the rankings are never the empty answer: the
    pool holds the active players and the player, both ranks are given,
    and the rank in the role is at most the global rank, each at most the
    number of players it is a rank among. *)
Theorem rankings_of_stored_player (id : Id) (player : Player.t) (db : Db) :
  NoDup (Player.id <$> players db) ->
  fst (Storage.getPlayer id db) = Some player ->
  exists r g k,
    fst (rankings id db) = Ranked r /\
    globalRank r = Some g /\ roleRank r = Some k /\
    1 <= k <= g /\ g <= totalPlayers r /\
    k <= totalInRole r <= totalPlayers r /\
    totalPlayers r
    = Z.of_nat (length (List.filter active (players db)))
      + (if active player then 0 else 1) /\
    role r = roleOf (Player.spec player) /\
    snd (rankings id db) = db.
Proof.
  intros Hnd Hget. unfold rankings. rewrite run_bind, Hget.
  change (snd (Storage.getPlayer id db)) with db.
  rewrite run_bind.
  change (fst (Storage.getPlayers db)) with (players db).
  change (snd (Storage.getPlayers db)) with db.
  fold active. fold (active player).
  apply find_id_elem in Hget as [Hin Hid].
  set (pool := if negb (active player)
               then List.filter active (players db) ++ [player]
               else List.filter active (players db)).
  set (sameRole := fun p : Player.t =>
         bool_decide (roleOf (Player.spec p) = roleOf (Player.spec player))).
  assert (Hpool : player ∈ pool).
  { subst pool. destruct (active player) eqn:Ea; simpl.
    - by apply elem_of_filter_bool.
    - apply elem_of_app. right. by apply list_elem_of_singleton. }
  assert (Hlen : length pool
                 = (length (List.filter active (players db))
                    + (if active player then 0 else 1))%nat).
  { subst pool. destruct (active player); simpl; [lia|].
    by rewrite length_app. }
  assert (Hids : NoDup (Player.id <$> pool)).
  { subst pool. destruct (active player) eqn:Ea; simpl;
      [by apply NoDup_ids_filter|].
    rewrite fmap_app. apply NoDup_app.
    split; [by apply NoDup_ids_filter|]. split; [|apply NoDup_singleton].
    intros i Hi Hi'. apply list_elem_of_singleton in Hi'. subst i.
    apply list_elem_of_fmap in Hi as (y & E & Hy).
    apply elem_of_filter_bool in Hy as [Hy Hy'].
    assert (y = player) by (by apply (NoDup_ids_eq (players db))).
    congruence. }
  destruct (length pool =? 0)%nat eqn:E0.
  { apply Nat.eqb_eq in E0. destruct pool; [|discriminate].
    by apply elem_of_nil in Hpool. }
  cbn [fst snd mret M_ret].
  assert (Hsorted : player ∈ sortByScore pool)
    by (by apply elem_of_sortByScore).
  destruct (findIndex_found id (sortByScore pool) player Hsorted Hid)
    as (i & Hi & Hibound).
  rewrite <- Hid in Hi.
  destruct (findIndex_filter sameRole (sortByScore pool) player i
              (NoDup_ids_sortByScore _ Hids) Hsorted)
    as (j & Hj & Hji); [by apply bool_decide_eq_true_2 | exact Hi |].
  rewrite filter_sortByScore in Hj.
  assert (Hjbound : (j < length (sortByScore (List.filter sameRole pool)))%nat).
  { destruct (findIndex_found (Player.id player)
                (sortByScore (List.filter sameRole pool)) player)
      as (j' & Hj' & Hb); [| reflexivity |].
    - apply elem_of_sortByScore, elem_of_filter_bool.
      split; [exact Hpool | by apply bool_decide_eq_true_2].
    - rewrite Hj in Hj'. by injection Hj' as ->. }
  assert (Hsub : (length (List.filter sameRole pool) <= length pool)%nat).
  { clear. induction pool as [|x l IH]; simpl; [lia|].
    destruct (sameRole x); simpl; lia. }
  rewrite sortByScore_length in Hibound, Hjbound.
  eexists _, (Z.of_nat i + 1), (Z.of_nat j + 1).
  split; [reflexivity|].
  cbn [globalRank roleRank totalPlayers totalInRole role].
  rewrite Hi. fold sameRole. rewrite Hj. simpl.
  rewrite !sortByScore_length.
  repeat split; try lia.
  rewrite Hlen. destruct (active player); lia.
Qed.

End Rankings.

(** ** Heatmap of the activity snapshots *)

Section HeatmapCells.

Import ActivitySnapshot Snapshots.

Lemma append_inj_l (s a b : string) : s +:+ a = s +:+ b -> a = b.
Proof.
  induction s as [|c s IH]; [done|].
  change (String c s +:+ a) with (String c (s +:+ a)).
  change (String c s +:+ b) with (String c (s +:+ b)).
  intros [= H]. by apply IH.
Qed.

Lemma digitsThenDash_negative (n : Z) (rest : string) :
  n < 0 -> RioSync.digitsThenDash (JS.str n +:+ rest) None = None.
Proof.
  intros Hn. unfold JS.str, pretty, pretty_Z.
  destruct n as [|p|p]; [lia | lia |]. reflexivity.
Qed.

(** The key of a cell of the grid is the key of no other pair of
    numbers. *)
Lemma cellKey_inj (d h d' h' : Z) :
  0 <= d -> cellKey d' h' = cellKey d h -> d' = d /\ h' = h.
Proof.
  intros Hd H. unfold cellKey in H.
  assert (Hd' : d' = d).
  { assert (E : RioSync.digitsThenDash
                  (JS.str d' +:+ String "-" (JS.str h')) None
                = Some d).
    { change (JS.str d' +:+ String "-" (JS.str h'))
        with (JS.str d' +:+ "-" +:+ JS.str h').
      rewrite H. by apply (digitsThenDash_str d (JS.str h)). }
    destruct (decide (0 <= d')) as [Hpos|Hneg].
    - rewrite (digitsThenDash_str d' (JS.str h') Hpos) in E. congruence.
    - rewrite digitsThenDash_negative in E by lia. discriminate. }
  subst d'. split; [reflexivity|].
  apply append_inj_l in H.
  change ("-" +:+ JS.str h') with (String "-" (JS.str h')) in H.
  change ("-" +:+ JS.str h) with (String "-" (JS.str h)) in H.
  injection H as H. by apply (inj pretty).
Qed.

(** No key of a cell is a name that objects inherit. *)
Lemma cellKey_plain (d h : Z) : cellKey d h ∉ Object_prototype_keys.
Proof.
  intros Hin.
  assert (Hdash : JS.includes "-" (cellKey d h) = true)
    by apply (includes_app "-" (JS.str d) (JS.str h)).
  assert (Hnone : Forall (fun k => JS.includes "-" k = false)
                    Object_prototype_keys) by (by repeat constructor).
  rewrite Forall_forall in Hnone. rewrite (Hnone _ Hin) in Hdash.
  discriminate.
Qed.

Lemma emptyCells_lookup (d h : Z) :
  d ∈ days -> h ∈ hours -> emptyCells !! cellKey d h = Some (0, 0).
Proof.
  intros Hd Hh.
  assert (H : Forall (fun d => Forall (fun h =>
                emptyCells !! cellKey d h = Some (0, 0)) hours) days).
  { apply (bool_decide_unpack _). by vm_compute. }
  rewrite Forall_forall in H. specialize (H d Hd).
  rewrite Forall_forall in H. by apply H.
Qed.

Lemma samples_cons (d h : Z) (s : t) (l : list t) :
  samples d h (s :: l)
  = if (dayOfWeek s =? d) && (hourOfDay s =? h) then s :: samples d h l
    else samples d h l.
Proof. reflexivity. Qed.

Lemma foldl_addSnapshot (l : list t) (aggregated : Aggregated)
    (d h total count : Z) :
  0 <= d ->
  aggregated !! cellKey d h = Some (total, count) ->
  foldl addSnapshot aggregated l !! cellKey d h
  = Some (total + onlineIn (samples d h l),
          count + Z.of_nat (length (samples d h l))).
Proof.
  intros Hd. revert aggregated total count.
  induction l as [|s l IH]; intros aggregated total count Hk.
  - simpl. rewrite Hk. f_equal. f_equal; unfold onlineIn; simpl; lia.
  - cbn [foldl]. rewrite samples_cons.
    unfold addSnapshot at 2. cbv zeta.
    rewrite bool_decide_eq_false_2 by apply cellKey_plain.
    destruct (decide (cellKey (dayOfWeek s) (hourOfDay s) = cellKey d h))
      as [Ek|Ek].
    + destruct (cellKey_inj d h _ _ Hd Ek) as [Ed Eh].
      rewrite Ek, Hk, Ed, Eh, !Z.eqb_refl. cbn [andb].
      rewrite (IH _ (total + totalOnline s) (count + 1))
        by apply lookup_insert_eq.
      f_equal. unfold onlineIn. rewrite fmap_cons. cbn [foldr length].
      f_equal; lia.
    + assert (Hout : (dayOfWeek s =? d) && (hourOfDay s =? h) = false).
      { apply andb_false_iff.
        destruct (dayOfWeek s =? d) eqn:E1; [|by left].
        destruct (hourOfDay s =? h) eqn:E2; [|by right].
        apply Z.eqb_eq in E1, E2. destruct Ek. by rewrite E1, E2. }
      rewrite Hout. apply IH.
      destruct (aggregated !! cellKey (dayOfWeek s) (hourOfDay s))
        as [[t c]|]; [|exact Hk].
      etrans; [by apply lookup_insert_ne | exact Hk].
Qed.

Lemma samples_insertByTimestamp (d h : Z) (x : t) (l : list t) :
  onlineIn (samples d h (insertByTimestamp x l))
  = onlineIn (samples d h (x :: l)) /\
  length (samples d h (insertByTimestamp x l))
  = length (samples d h (x :: l)).
Proof.
  induction l as [|y l [IH1 IH2]]; [done|].
  cbn [insertByTimestamp]. destruct (_ <=? _); [done|].
  rewrite samples_cons. rewrite samples_cons in IH1, IH2.
  rewrite (samples_cons d h x (y :: l)), (samples_cons d h y l).
  unfold onlineIn in *.
  destruct ((dayOfWeek y =? d) && (hourOfDay y =? h)),
    ((dayOfWeek x =? d) && (hourOfDay x =? h));
    rewrite ?fmap_cons in *; cbn [foldr length] in *;
    rewrite ?IH1, ?IH2; split; lia.
Qed.

Lemma samples_getActivitySnapshots (d h : Z) (tb : Table) :
  onlineIn (samples d h (getActivitySnapshots tb))
  = onlineIn (samples d h (rows tb)) /\
  length (samples d h (getActivitySnapshots tb))
  = length (samples d h (rows tb)).
Proof.
  unfold getActivitySnapshots.
  induction (rows tb) as [|x l [IH1 IH2]]; [done|].
  cbn [foldr].
  destruct (samples_insertByTimestamp d h x (foldr insertByTimestamp [] l))
    as [-> ->].
  rewrite !samples_cons. unfold onlineIn in *.
  destruct ((dayOfWeek x =? d) && (hourOfDay x =? h));
    rewrite ?fmap_cons; cbn [foldr length]; rewrite ?IH1, ?IH2; done.
Qed.

Lemma cellValue_mean (d h : Z) (l l' : list t) :
  onlineIn (samples d h l') = onlineIn (samples d h l) ->
  length (samples d h l') = length (samples d h l) ->
  cellValue (0 + onlineIn (samples d h l'))
    (0 + Z.of_nat (length (samples d h l')))
  = meanOnline d h l.
Proof.
  intros -> ->. unfold cellValue, meanOnline. rewrite !Z.add_0_l.
  destruct (samples d h l) as [|s taken]; [reflexivity|].
  cbn [length]. by rewrite (proj2 (Z.ltb_lt _ _)) by lia.
Qed.

(** X20: the heatmap has one cell for each of the seven days and
    twenty-four hours, days first, and the value of a cell is the rounded
    mean of the players online over the stored snapshots of that day of
    the week and hour, zero when there is none; snapshots of other days
    or hours count nowhere. *)
Theorem getHeatmapData_cells (tb : Table) :
  getHeatmapData tb
  = List.flat_map
      (fun d =>
         List.map
           (fun h =>
              {| day := d; hour := h; value := meanOnline d h (rows tb) |})
           hours)
      days.
Proof.
  unfold getHeatmapData.
  rewrite !flat_map_concat_map. f_equal.
  apply map_ext_in. intros d Hd. apply map_ext_in. intros h Hh.
  apply list_elem_of_In in Hd, Hh.
  assert (0 <= d) by (apply elem_of_seqZ in Hd; lia).
  rewrite (foldl_addSnapshot _ _ d h 0 0) by (by try apply emptyCells_lookup).
  cbn [default]. f_equal.
  destruct (samples_getActivitySnapshots d h tb) as [E1 E2].
  by apply cellValue_mean.
Qed.

End HeatmapCells.

(** ** Activity snapshots: one for each hour of each day *)

Section SnapshotBuckets.

Import ActivitySnapshot Snapshots.

Lemma find_split {A} (f : A -> bool) (l : list A) (e : A) :
  List.find f l = Some e ->
  exists l1 l2,
    l = l1 ++ e :: l2 /\ Forall (fun r => f r = false) l1 /\ f e = true.
Proof.
  induction l as [|x l IH]; [discriminate|]. simpl.
  destruct (f x) eqn:E.
  - intros [= ->]. by exists [], l.
  - intros H. destruct (IH H) as (l1 & l2 & -> & H1 & He).
    exists (x :: l1), l2. split; [done|]. split; [by constructor | done].
Qed.

Lemma find_none_Forall {A} (f : A -> bool) (l : list A) :
  List.find f l = None -> Forall (fun r => f r = false) l.
Proof.
  induction l as [|x l IH]; [constructor|]. simpl.
  destruct (f x) eqn:E; [discriminate|]. intros H. by constructor; [|apply IH].
Qed.

Lemma find_after_misses {A} (f : A -> bool) (l1 l2 : list A) :
  Forall (fun r => f r = false) l1 ->
  List.find f (l1 ++ l2) = List.find f l2.
Proof.
  induction 1 as [|x l Hx _ IH]; [done|]. simpl. by rewrite Hx.
Qed.

Lemma filter_misses {A} (f : A -> bool) (l : list A) :
  Forall (fun r => f r = false) l -> List.filter f l = [].
Proof.
  induction 1 as [|x l Hx _ IH]; [done|]. simpl. by rewrite Hx.
Qed.

Lemma filter_all {A} (f : A -> bool) (l : list A) :
  Forall (fun r => f r = false) l ->
  List.filter (fun r => negb (f r)) l = l.
Proof.
  induction 1 as [|x l Hx _ IH]; [done|]. simpl. by rewrite Hx, IH.
Qed.

Lemma map_unchanged {A} (g : A -> A) (l : list A) :
  Forall (fun r => g r = r) l -> List.map g l = l.
Proof.
  induction 1 as [|x l Hx _ IH]; [done|]. simpl. by rewrite Hx, IH.
Qed.

Lemma sameBucket_snapshotBucket (ins : insert) (r : t) :
  sameBucket ins r = true
  <-> snapshotBucket r = snapshotBucket (of_insert 0 ins).
Proof.
  unfold sameBucket, snapshotBucket. simpl.
  rewrite !andb_true_iff, !Z.eqb_eq. split.
  - by intros [[-> ->] ->].
  - intros [= -> -> ->]. done.
Qed.

Lemma sameBucket_of_insert (ins : insert) (i : Id) :
  sameBucket ins (of_insert i ins) = true.
Proof. by apply sameBucket_snapshotBucket. Qed.

Lemma sameBucket_overwrite (ins : insert) (e : t) :
  sameBucket ins e = true ->
  snapshotBucket (overwrite ins e) = snapshotBucket e
  /\ sameBucket ins (overwrite ins e) = true.
Proof.
  intros H. assert (H' := H). apply sameBucket_snapshotBucket in H'.
  unfold sameBucket, snapshotBucket in *. simpl in *.
  injection H' as E1 E2 E3. rewrite E1, E2, E3, !Z.eqb_refl. done.
Qed.

Lemma other_buckets (ins : insert) (e : t) (l : list t) :
  sameBucket ins e = true ->
  snapshotBucket e ∉ snapshotBucket <$> l ->
  Forall (fun r => sameBucket ins r = false) l.
Proof.
  intros He Hout. apply Forall_forall. intros r Hr.
  destruct (sameBucket ins r) eqn:E; [|done].
  destruct Hout. apply list_elem_of_fmap. exists r. split; [|done].
  apply sameBucket_snapshotBucket in He, E. congruence.
Qed.

Lemma other_ids (i : Id) (ins : insert) (l : list t) :
  i ∉ id <$> l ->
  Forall (fun r => (if Nat.eqb (id r) i then overwrite ins r else r) = r) l
  /\ Forall (fun r => Nat.eqb (id r) i = false) l.
Proof.
  intros Hout.
  assert (H : Forall (fun r => Nat.eqb (id r) i = false) l).
  { apply Forall_forall. intros r Hr. apply Nat.eqb_neq. intros <-.
    apply Hout. apply list_elem_of_fmap. by exists r. }
  split; [|exact H]. eapply Forall_impl; [exact H|].
  simpl. by intros r ->.
Qed.

(** The effect of [createActivitySnapshot] when a snapshot of the
    bucket is stored: that row is overwritten, where it is. *)
Lemma createActivitySnapshot_existing (ins : insert) (tb : Table)
    (l1 l2 : list t) (e : t) :
  rows tb = l1 ++ e :: l2 ->
  Forall (fun r => sameBucket ins r = false) l1 ->
  sameBucket ins e = true ->
  id e ∉ id <$> l1 -> id e ∉ id <$> l2 ->
  createActivitySnapshot ins tb
  = (Some (overwrite ins e),
     {| rows := l1 ++ overwrite ins e :: l2; nextRow := nextRow tb |}).
Proof.
  intros Hrows H1 He Hid1 Hid2. unfold createActivitySnapshot.
  rewrite Hrows, (find_after_misses _ _ _ H1). cbn [List.find]. rewrite He.
  destruct (other_ids (id e) ins l1 Hid1) as [Hm1 Hn1].
  destruct (other_ids (id e) ins l2 Hid2) as [Hm2 _].
  rewrite List.map_app. cbn [List.map]. rewrite Nat.eqb_refl.
  rewrite (map_unchanged _ _ Hm1), (map_unchanged _ _ Hm2).
  f_equal. rewrite (find_after_misses _ _ _ Hn1). cbn [List.find].
  change (id (overwrite ins e)) with (id e). by rewrite Nat.eqb_refl.
Qed.

Lemma NoDup_fmap_middle {A B} (f : A -> B) (l1 l2 : list A) (e : A) :
  NoDup (f <$> (l1 ++ e :: l2)) ->
  (f e ∉ f <$> l1) /\ (f e ∉ f <$> l2).
Proof.
  rewrite fmap_app, fmap_cons. intros H.
  apply NoDup_app in H as (_ & H1 & H2).
  apply NoDup_cons in H2 as [H2 _]. split; [|exact H2].
  intros Hin. apply (H1 _ Hin). by left.
Qed.

(** X21: storing a snapshot keeps one snapshot for each day of the week,
    hour and calendar day: after it, that of the snapshot stored is one
    row, with the players online and the timestamp given, the other rows
    are as they were, and storing the same snapshot again changes
    nothing. *)
Theorem createActivitySnapshot_one_per_hour (ins : insert) (tb : Table) :
  fresh_keys tb ->
  one_per_hour tb ->
  let result := createActivitySnapshot ins tb in
  fresh_keys (snd result) /\
  one_per_hour (snd result) /\
  (exists r,
     fst result = Some r /\
     List.filter (sameBucket ins) (rows (snd result)) = [r] /\
     totalOnline r = i_totalOnline ins /\
     timestamp r = i_timestamp ins) /\
  List.filter (fun r => negb (sameBucket ins r)) (rows (snd result))
  = List.filter (fun r => negb (sameBucket ins r)) (rows tb) /\
  (length (rows tb) <= length (rows (snd result))
   <= S (length (rows tb)))%nat /\
  snd (createActivitySnapshot ins (snd result)) = snd result.
Proof.
  intros [Hids Hfresh] Hone result. subst result.
  unfold fresh_keys, one_per_hour in *.
  destruct (List.find (sameBucket ins) (rows tb)) as [e|] eqn:Efind.
  - destruct (find_split _ _ _ Efind) as (l1 & l2 & Hrows & H1 & He).
    rewrite Hrows in Hids, Hone, Hfresh.
    destruct (NoDup_fmap_middle _ _ _ _ Hids) as [Hid1 Hid2].
    destruct (NoDup_fmap_middle _ _ _ _ Hone) as [_ Hb2].
    pose proof (other_buckets ins e l2 He Hb2) as H2.
    destruct (sameBucket_overwrite ins e He) as [Hsame He'].
    rewrite (createActivitySnapshot_existing ins tb l1 l2 e) by done.
    cbn [fst snd rows nextRow].
    assert (Eids : id <$> (l1 ++ overwrite ins e :: l2)
                   = id <$> (l1 ++ e :: l2))
      by (by rewrite !fmap_app, !fmap_cons).
    assert (Ebuckets : snapshotBucket <$> (l1 ++ overwrite ins e :: l2)
                       = snapshotBucket <$> (l1 ++ e :: l2))
      by (by rewrite !fmap_app, !fmap_cons, Hsame).
    rewrite Eids, Ebuckets, Hrows.
    split; [split; [exact Hids|]|].
    { apply Forall_app in Hfresh as [Hf1 Hf2].
      apply Forall_cons in Hf2 as [Hfe Hf2].
      apply Forall_app. split; [exact Hf1|]. by constructor. }
    split; [exact Hone|]. split.
    { exists (overwrite ins e). split; [reflexivity|].
      rewrite List.filter_app. cbn [List.filter].
      rewrite He', (filter_misses _ _ H1), (filter_misses _ _ H2). done. }
    split.
    { rewrite !List.filter_app. cbn [List.filter]. by rewrite He, He'. }
    split; [rewrite !length_app; simpl; lia|].
    by rewrite (createActivitySnapshot_existing ins _ l1 l2 (overwrite ins e)).
  - pose proof (find_none_Forall _ _ Efind) as Hnone.
    assert (Hnew : id (of_insert (nextRow tb) ins) ∉ id <$> rows tb).
    { intros Hin. apply list_elem_of_fmap in Hin as (r & E & Hr).
      rewrite Forall_forall in Hfresh. specialize (Hfresh r Hr).
      simpl in E. lia. }
    assert (Ecreate : createActivitySnapshot ins tb
              = (Some (of_insert (nextRow tb) ins),
                 {| rows := rows tb ++ [of_insert (nextRow tb) ins];
                    nextRow := S (nextRow tb) |})).
    { unfold createActivitySnapshot. by rewrite Efind. }
    rewrite Ecreate. cbn [fst snd rows nextRow].
    split; [split|].
    { rewrite fmap_app. apply NoDup_app. split; [exact Hids|].
      split; [|apply NoDup_singleton].
      intros i Hi Hi'. apply list_elem_of_singleton in Hi'. by subst i. }
    { apply Forall_app. split.
      - eapply Forall_impl; [exact Hfresh|]. simpl. intros; lia.
      - constructor; [simpl; lia | constructor]. }
    split.
    { rewrite fmap_app. apply NoDup_app. split; [exact Hone|].
      split; [|apply NoDup_singleton].
      intros b Hb Hb'. apply list_elem_of_singleton in Hb'. subst b.
      apply list_elem_of_fmap in Hb as (r & E & Hr).
      rewrite Forall_forall in Hnone. specialize (Hnone r Hr).
      assert (sameBucket ins r = true); [|congruence].
      apply sameBucket_snapshotBucket. by rewrite <- E. }
    split.
    { exists (of_insert (nextRow tb) ins). split; [reflexivity|].
      rewrite List.filter_app, (filter_misses _ _ Hnone). cbn [List.filter].
      by rewrite sameBucket_of_insert. }
    split.
    { rewrite List.filter_app. cbn [List.filter].
      rewrite sameBucket_of_insert. simpl. by rewrite app_nil_r. }
    split; [rewrite length_app; simpl; lia|].
    rewrite (createActivitySnapshot_existing ins _ (rows tb) []
               (of_insert (nextRow tb) ins)); try done.
    + apply sameBucket_of_insert.
    + apply not_elem_of_nil.
Qed.

End SnapshotBuckets.

(** ** Import of the guild roster *)

Section GuildImportTheorems.

Import GuildImport.

Variable toLowerCase : string -> string.
Variable refused : Player.insert -> bool.

Local Ltac one_member m :=
  cbn [importMembers]; rewrite run_bind; unfold GuildImport.importMember;
  cbv zeta; fold (memberKey toLowerCase m).

(** What the loop over the members does, from a set of names that is
    the set of the stored players. *)
Lemma importMembers_effect (members : list GuildMember) (names : gset string)
    (counts : ImportResult) (db : Db) :
  names = list_to_set (importKeys toLowerCase db) ->
  exists added names' counts',
    fst (importMembers toLowerCase refused members (names, counts) db)
      = (names', counts') /\
    players (snd (importMembers toLowerCase refused members (names, counts) db))
      = players db ++ added /\
    names' = list_to_set
               (importKeys toLowerCase
                  (snd (importMembers toLowerCase refused members
                          (names, counts) db))) /\
    names ⊆ names' /\
    imported counts' = imported counts + Z.of_nat (length added) /\
    counted counts' = counted counts + Z.of_nat (length members) /\
    Forall (left_out toLowerCase refused names') members /\
    (NoDup (importKeys toLowerCase db) ->
     NoDup (importKeys toLowerCase
              (snd (importMembers toLowerCase refused members
                      (names, counts) db)))).
Proof.
  revert names counts db.
  induction members as [|m rest IH]; intros names counts db Hnames.
  - exists [], names, counts. cbn [importMembers mret M_ret fst snd].
    rewrite app_nil_r.
    repeat split; try done; try (unfold counted; simpl; lia).
  - one_member m.
    destruct (decide (memberKey toLowerCase m ∈ names)) as [Hin|Hout].
    + rewrite bool_decide_eq_true_2 by exact Hin.
      cbn [mret M_ret fst snd].
      destruct (IH names
                  {| imported := imported counts;
                     skipped := skipped counts + 1;
                     failed := failed counts |} db Hnames)
        as (added & names' & counts' & E & Hp & Hn & Hsub & Hi & Hc & Hk & Hnd).
      exists added, names', counts'. rewrite E.
      repeat split; try done.
      * rewrite Hc. unfold counted. simpl. lia.
      * constructor; [left; by apply Hsub | exact Hk].
    + rewrite bool_decide_eq_false_2 by exact Hout.
      destruct (refused (memberInsert m)) eqn:Eref.
      * cbn [mret M_ret fst snd].
        destruct (IH names
                    {| imported := imported counts;
                       skipped := skipped counts;
                       failed := failed counts + 1 |} db Hnames)
          as (added & names' & counts' & E & Hp & Hn & Hsub & Hi & Hc & Hk
              & Hnd).
        exists added, names', counts'. rewrite E.
        repeat split; try done.
        -- rewrite Hc. unfold counted. simpl. lia.
        -- constructor; [by right | exact Hk].
      * rewrite run_bind. cbn [mret M_ret fst snd].
        set (db1 := snd (Storage.createPlayer (memberInsert m) db)).
        assert (Hp1 : players db1
                      = players db
                        ++ [fst (Storage.createPlayer (memberInsert m) db)])
          by reflexivity.
        assert (Hk1 : importKeys toLowerCase db1
                      = importKeys toLowerCase db ++ [memberKey toLowerCase m]).
        { unfold importKeys. by rewrite Hp1, fmap_app. }
        assert (Hnames1 : {[memberKey toLowerCase m]} ∪ names
                          = list_to_set (importKeys toLowerCase db1)).
        { rewrite Hk1, list_to_set_app_L, Hnames. cbn [list_to_set].
          rewrite (right_id_L ∅ (∪)). apply (comm_L (∪)). }
        destruct (IH ({[memberKey toLowerCase m]} ∪ names)
                    {| imported := imported counts + 1;
                       skipped := skipped counts;
                       failed := failed counts |} db1 Hnames1)
          as (added & names' & counts' & E & Hp & Hn & Hsub & Hi & Hc & Hk
              & Hnd).
        exists (fst (Storage.createPlayer (memberInsert m) db) :: added),
          names', counts'.
        rewrite E. repeat split; try done.
        -- rewrite Hp, Hp1, <- app_assoc. done.
        -- intros k Hk0. apply Hsub. apply elem_of_union. by right.
        -- rewrite Hi. simpl. lia.
        -- rewrite Hc. unfold counted. simpl. lia.
        -- constructor; [|exact Hk].
           left. apply Hsub. apply elem_of_union. left.
           by apply elem_of_singleton.
        -- intros Hnd0. apply Hnd. rewrite Hk1.
           apply NoDup_app. split; [exact Hnd0|].
           split; [|apply NoDup_singleton].
           intros k Hk0 Hk0'. apply list_elem_of_singleton in Hk0'. subst k.
           apply Hout. rewrite Hnames. by apply elem_of_list_to_set.
Qed.

(** When every member is known or refused, the loop stores nothing. *)
Lemma importMembers_known (members : list GuildMember) (names : gset string)
    (counts : ImportResult) (db : Db) :
  Forall (left_out toLowerCase refused names) members ->
  exists counts',
    importMembers toLowerCase refused members (names, counts) db
      = ((names, counts'), db) /\
    imported counts' = imported counts.
Proof.
  revert counts. induction members as [|m rest IH]; intros counts Hk.
  - by exists counts.
  - apply Forall_cons in Hk as [Hm Hk].
    one_member m.
    destruct (decide (memberKey toLowerCase m ∈ names)) as [Hin|Hout].
    + rewrite bool_decide_eq_true_2 by exact Hin.
      cbn [mret M_ret fst snd].
      destruct (IH {| imported := imported counts;
                      skipped := skipped counts + 1;
                      failed := failed counts |} Hk) as (c & -> & Hc).
      by exists c.
    + rewrite bool_decide_eq_false_2 by exact Hout.
      destruct Hm as [Hm|Hm]; [done|]. rewrite Hm.
      cbn [mret M_ret fst snd].
      destruct (IH {| imported := imported counts;
                      skipped := skipped counts;
                      failed := failed counts + 1 |} Hk) as (c & -> & Hc).
      by exists c.
Qed.

(** X22: the import only adds players, as many as it counts as imported,
    and counts every member once, as imported, skipped or failed;
    importing the same roster again stores nothing and imports nobody. *)
Theorem importGuildRoster_again (guildData : GuildProfile) (db : Db) :
  let first := importGuildRoster toLowerCase refused (Some guildData) db in
  let second :=
    importGuildRoster toLowerCase refused (Some guildData) (snd first) in
  exists added counts counts',
    fst first = Some counts /\
    players (snd first) = players db ++ added /\
    imported counts = Z.of_nat (length added) /\
    counted counts = Z.of_nat (length (default [] (members guildData))) /\
    second = (Some counts', snd first) /\
    imported counts' = 0.
Proof.
  intros first second. subst first second. unfold GuildImport.importGuildRoster.
  destruct (members guildData) as [[|m ms]|] eqn:Em;
    try (exists [], {| imported := 0; skipped := 0; failed := 0 |},
           {| imported := 0; skipped := 0; failed := 0 |};
         cbn [mret M_ret fst snd]; rewrite app_nil_r; by repeat split).
  rewrite run_bind.
  change (fst (Storage.getPlayers db)) with (players db).
  change (snd (Storage.getPlayers db)) with db.
  rewrite run_bind. cbn [mret M_ret fst snd default].
  fold (importKeys toLowerCase db).
  set (zero := {| imported := 0; skipped := 0; failed := 0 |}).
  destruct (importMembers_effect (m :: ms)
              (list_to_set (importKeys toLowerCase db)) zero db eq_refl)
    as (added & names' & counts & E & Hp & Hn & Hsub & Hi & Hc & Hk & _).
  set (db1 := snd (importMembers toLowerCase refused (m :: ms) _ db)) in *.
  rewrite run_bind.
  change (fst (Storage.getPlayers db1)) with (players db1).
  change (snd (Storage.getPlayers db1)) with db1.
  rewrite run_bind. cbn [mret M_ret fst snd].
  fold (importKeys toLowerCase db1). rewrite <- Hn.
  destruct (importMembers_known (m :: ms) names' zero db1 Hk)
    as (counts' & E' & Hi').
  exists added, counts, counts'. rewrite E, E'. cbn [fst snd].
  by repeat split.
Qed.

(** X23: when no two stored players have the same name and realm up to
    case, none have after the import. *)
Theorem importGuildRoster_keeps_names_apart
    (response : option GuildProfile) (db : Db) :
  NoDup (importKeys toLowerCase db) ->
  NoDup (importKeys toLowerCase
           (snd (importGuildRoster toLowerCase refused response db))).
Proof.
  intros Hnd. unfold GuildImport.importGuildRoster.
  destruct response as [guildData|]; [|exact Hnd].
  destruct (members guildData) as [[|m ms]|]; try exact Hnd.
  rewrite run_bind.
  change (fst (Storage.getPlayers db)) with (players db).
  change (snd (Storage.getPlayers db)) with db.
  rewrite run_bind. cbn [mret M_ret fst snd].
  fold (importKeys toLowerCase db).
  destruct (importMembers_effect (m :: ms)
              (list_to_set (importKeys toLowerCase db))
              {| imported := 0; skipped := 0; failed := 0 |} db eq_refl)
    as (_ & _ & _ & _ & _ & _ & _ & _ & _ & _ & H).
  by apply H.
Qed.

End GuildImportTheorems.

(** ** Synchronisation cycles: every player once *)

Section CycleTheorems.

Import SyncCycle.

Variable toLowerCase : string -> string.
Variable fetchRunDetails : Z -> option RioSync.RaiderIORun.
Variable fetchPlayerFromRaiderIO :
  string -> string -> option RioSync.RaiderIOProfile.
Variable clock : Player.t -> JS.Date.
Variable sortForSync : list Player.t -> list Player.t.
Variable thrown : Player.t -> Db -> option Db.

Lemma batchesFor_bounds (n : nat) :
  Z.of_nat n <= BATCH_SIZE * batchesFor n < Z.of_nat n + BATCH_SIZE.
Proof.
  unfold batchesFor, BATCH_SIZE, Qceiling, Qfloor, Qdiv, Qmult, Qinv,
    inject_Z, Qopp. simpl.
  change (Z.pos (1 * 500)) with 500. rewrite Z.mul_1_r.
  Z.div_mod_to_equations. lia.
Qed.

Lemma length_slice {A} (start : Z) (l : list A) :
  0 <= start ->
  Z.of_nat (length (slice start
                      (Z.min (start + BATCH_SIZE) (Z.of_nat (length l))) l))
  = Z.min (start + BATCH_SIZE) (Z.of_nat (length l))
    - Z.min start (Z.of_nat (length l)).
Proof.
  intros H. unfold slice, BATCH_SIZE.
  rewrite (proj2 (Z.ltb_ge _ _)) by lia.
  rewrite (proj2 (Z.ltb_ge _ _)) by lia.
  rewrite length_take, length_drop. lia.
Qed.

Lemma length_slice_next {A} (start : Z) (l : list A) :
  0 <= start ->
  Z.of_nat (length (slice start (start + BATCH_SIZE) l))
  = Z.min (start + BATCH_SIZE) (Z.of_nat (length l))
    - Z.min start (Z.of_nat (length l)).
Proof.
  intros H. unfold slice, BATCH_SIZE.
  rewrite (proj2 (Z.ltb_ge _ _)) by lia.
  rewrite (proj2 (Z.ltb_ge _ _)) by lia.
  rewrite length_take, length_drop. lia.
Qed.

Lemma synced_count (result : RioSync.SyncResult) (st : SyncState) :
  synced (count result st) = synced st + 1.
Proof. unfold synced. destruct result; simpl; lia. Qed.

Lemma syncEach_counts (cache : gmap string Player.t) (l : list Player.t)
    (st : SyncState) (db : Db) :
  let result :=
    fst (syncEach toLowerCase fetchRunDetails fetchPlayerFromRaiderIO clock
           thrown cache l st db) in
  let st' := snd result in
  synced st <= synced st' <= synced st + Z.of_nat (length l) /\
  (fst result = false -> synced st' = synced st + Z.of_nat (length l)) /\
  ((forall p d, thrown p d = None) -> fst result = false) /\
  isRunning st' = isRunning st /\
  currentBatch st' = currentBatch st /\
  totalBatches st' = totalBatches st /\
  lastSyncStart st' = lastSyncStart st.
Proof.
  revert st db. induction l as [|p l IH]; intros st db.
  - simpl. repeat split; lia.
  - cbn [syncEach]. cbv zeta. rewrite run_bind.
    change (fst (get db)) with db. change (snd (get db)) with db.
    destruct (thrown p db) as [after|] eqn:Et.
    + rewrite run_bind. cbn [mret M_ret fst snd length].
      split; [lia|]. split; [discriminate|].
      split; [|done]. intros Hno. by rewrite Hno in Et.
    + rewrite run_bind.
      destruct (IH (count (fst (syncOne toLowerCase fetchRunDetails
                                  fetchPlayerFromRaiderIO clock cache p db))
                      st)
                  (snd (syncOne toLowerCase fetchRunDetails
                          fetchPlayerFromRaiderIO clock cache p db)))
        as (H1 & H2 & H3 & H4 & H5 & H6 & H7).
      rewrite synced_count in H1, H2. rewrite H4, H5, H6, H7. cbn [length].
      split; [lia|]. split; [|by split].
      intros Hf. rewrite (H2 Hf). lia.
Qed.

Lemma syncBatch_counts (l : list Player.t) (st : SyncState) (db : Db) :
  let result :=
    fst (syncBatch toLowerCase fetchRunDetails fetchPlayerFromRaiderIO clock
           thrown l st db) in
  let st' := snd result in
  synced st <= synced st' <= synced st + Z.of_nat (length l) /\
  (fst result = false -> synced st' = synced st + Z.of_nat (length l)) /\
  ((forall p d, thrown p d = None) -> fst result = false) /\
  isRunning st' = isRunning st /\
  currentBatch st' = currentBatch st /\
  totalBatches st' = totalBatches st /\
  lastSyncStart st' = lastSyncStart st.
Proof. unfold syncBatch. rewrite run_bind. apply syncEach_counts. Qed.

Lemma syncBatches_counts (allPlayers : list Player.t) (todo : nat) (i : Z)
    (st : SyncState) (db : Db) :
  0 <= i ->
  let n := Z.of_nat (length allPlayers) in
  let result :=
    fst (syncBatches toLowerCase fetchRunDetails fetchPlayerFromRaiderIO
           clock thrown allPlayers i todo st db) in
  let st' := snd result in
  let all := Z.min ((i + Z.of_nat todo) * BATCH_SIZE) n
             - Z.min (i * BATCH_SIZE) n in
  synced st <= synced st' <= synced st + all /\
  (fst result = false ->
   synced st' = synced st + all /\
   currentBatch st'
   = (if todo is O then currentBatch st else i + Z.of_nat todo)) /\
  ((forall p d, thrown p d = None) -> fst result = false) /\
  (if todo is O then currentBatch st' = currentBatch st
   else i + 1 <= currentBatch st' <= i + Z.of_nat todo) /\
  isRunning st' = isRunning st /\
  totalBatches st' = totalBatches st /\
  lastSyncStart st' = lastSyncStart st.
Proof.
  revert i st db. induction todo as [|todo IH]; intros i st db Hi n result st'.
  - subst result st'. simpl. rewrite Z.add_0_r. repeat split; lia.
  - subst result st'. cbn [syncBatches]. cbv zeta. rewrite run_bind.
    match goal with
    | |- context [syncBatch _ _ _ _ _ ?l ?s ?d] =>
        destruct (syncBatch_counts l s d)
          as (H1 & H2 & H3 & H4 & H5 & H6 & H7);
        destruct (syncBatch toLowerCase fetchRunDetails
                    fetchPlayerFromRaiderIO clock thrown l s d)
          as [[threw st1] db1]
    end.
    cbn [fst snd] in *.
    rewrite length_slice in H1, H2 by (unfold BATCH_SIZE; lia).
    fold n in H1, H2.
    change (synced (with_batch (i + 1) (totalBatches st) st))
      with (synced st) in *.
    cbn [with_batch isRunning currentBatch totalBatches lastSyncStart]
      in H4, H5, H6, H7.
    destruct threw.
    + cbn [mret M_ret fst snd]. rewrite H4, H5, H6, H7.
      unfold BATCH_SIZE in *.
      split; [lia|]. split; [discriminate|]. split; [exact H3|].
      split; [lia|]. by split.
    + destruct (IH (i + 1) st1 db1 ltac:(lia))
        as (G1 & G2 & G3 & G4 & G5 & G6 & G7).
      cbv zeta in G1, G2, G3, G4. fold n in G1, G2.
      rewrite G5, G6, G7, H4, H6, H7. rewrite (H2 eq_refl) in G1, G2.
      unfold BATCH_SIZE in *.
      split; [lia|]. split; [|split; [exact G3|]; split; [|by split]].
      * intros Hf. destruct (G2 Hf) as [E1 E2]. split; [lia|].
        rewrite E2. destruct todo; [rewrite H5|]; lia.
      * destruct todo; [rewrite G4, H5|]; lia.
Qed.

(** X24: a cycle that is started while none runs takes the active players
    in as few batches of five hundred as hold them and ends not running,
    also when a synchronisation throws, which ends the cycle: the players
    counted as updated, skipped or failed are then at most the active
    players. When none throws they are as many as the active players,
    and the cycle ends on the last batch. Started while a cycle runs, it
    does nothing. *)
Theorem startRaiderIOSync_counts (now : JS.Date) (st : SyncState) (db : Db) :
  (forall l, length (sortForSync l) = length l) ->
  let result :=
    startRaiderIOSync toLowerCase fetchRunDetails fetchPlayerFromRaiderIO
      clock sortForSync thrown now st db in
  let n := Z.of_nat (activeCount db) in
  if isRunning st then result = (st, db)
  else
    isRunning (fst result) = false /\
    lastSyncStart (fst result) = Some now /\
    n <= BATCH_SIZE * totalBatches (fst result) < n + BATCH_SIZE /\
    0 <= synced (fst result) <= n /\
    (if n =? 0 then currentBatch (fst result) = currentBatch st
     else 1 <= currentBatch (fst result) <= totalBatches (fst result)) /\
    ((forall p d, thrown p d = None) ->
     synced (fst result) = n /\
     currentBatch (fst result)
     = (if n =? 0 then currentBatch st else totalBatches (fst result))).
Proof.
  intros Hsort result n. subst result. unfold startRaiderIOSync.
  destruct (isRunning st) eqn:Erun; [reflexivity|].
  rewrite !run_bind.
  set (allPlayers := fst (getPlayersToSync sortForSync db)).
  change (snd (getPlayersToSync sortForSync db)) with db.
  set (st0 := with_batch _ _ _).
  assert (Hn : Z.of_nat (length allPlayers) = n).
  { subst allPlayers n. unfold getPlayersToSync. rewrite run_bind.
    cbn [mret M_ret fst]. by rewrite Hsort. }
  pose proof (batchesFor_bounds (length allPlayers)) as Hb.
  destruct (syncBatches_counts allPlayers
              (Z.to_nat (batchesFor (length allPlayers))) 0 st0 db
              ltac:(lia))
    as (H1 & H2 & H3 & H4 & H5 & H6 & H7).
  destruct (syncBatches _ _ _ _ _ _ _ _ _ _) as [[threw st1] db1].
  cbn [mret M_ret fst snd] in *.
  change (synced (with_isRunning false st1)) with (synced st1).
  change (totalBatches (with_isRunning false st1)) with (totalBatches st1).
  change (currentBatch (with_isRunning false st1)) with (currentBatch st1).
  change (lastSyncStart (with_isRunning false st1)) with (lastSyncStart st1).
  change (synced st0) with 0 in H1, H2.
  change (totalBatches st0) with (batchesFor (length allPlayers)) in H6.
  change (currentBatch st0) with (currentBatch st) in H2, H4.
  rewrite H6. rewrite Hn in *. unfold BATCH_SIZE in *.
  split; [reflexivity|]. split; [|split; [lia|]; split; [lia|]; split].
  - exact H7.
  - destruct (n =? 0) eqn:E0.
    + apply Z.eqb_eq in E0.
      assert (batchesFor (length allPlayers) = 0) as E by lia.
      rewrite E in H4. exact H4.
    + apply Z.eqb_neq in E0.
      destruct (Z.to_nat (batchesFor (length allPlayers))) eqn:Ek; lia.
  - intros Hno. destruct (H2 (H3 Hno)) as [E1 E2]. split; [lia|].
    rewrite E2. destruct (n =? 0) eqn:E0.
    + apply Z.eqb_eq in E0.
      assert (batchesFor (length allPlayers) = 0) as -> by lia. reflexivity.
    + apply Z.eqb_neq in E0.
      destruct (Z.to_nat (batchesFor (length allPlayers))) eqn:Ek; lia.
Qed.

Lemma syncCounted_counts (cache : gmap string Player.t) (l : list Player.t)
    (report : BatchReport) (st : SyncState) (db : Db) :
  let result :=
    fst (syncCounted toLowerCase fetchRunDetails fetchPlayerFromRaiderIO
           clock cache l report st db) in
  reported (fst result) = reported report + Z.of_nat (length l) /\
  batch (fst result) = batch report /\
  r_totalBatches (fst result) = r_totalBatches report /\
  synced (snd result) = synced st + Z.of_nat (length l) /\
  currentBatch (snd result) = currentBatch st /\
  totalBatches (snd result) = totalBatches st.
Proof.
  revert report st db. induction l as [|p l IH]; intros report st db.
  - simpl. repeat split; lia.
  - cbn [syncCounted]. cbv zeta. rewrite run_bind.
    match goal with
    | |- context [syncCounted _ _ _ _ cache l ?r ?s ?d] =>
        destruct (IH r s d) as (H1 & H2 & H3 & H4 & H5 & H6)
    end.
    rewrite H1, H2, H3, H4, H5, H6, synced_count. cbn [length].
    repeat split; try lia.
    unfold reported. cbn [updated skipped failed].
    destruct (fst (syncOne _ _ _ _ _ _ _)); lia.
Qed.

(** X25: a call for the next batch that finds no cycle running moves to
    the batch after the current one, or to the first when that was the
    last, synchronises the players of that batch, at most five hundred,
    and reports each as updated, skipped or failed; with no active player
    it reports batch 1 of none. A call that finds a cycle running reports
    the current batch and synchronises nobody. *)
Theorem syncNextBatch_report (now : JS.Date) (st : SyncState) (db : Db) :
  (forall l, length (sortForSync l) = length l) ->
  0 <= currentBatch st ->
  let result :=
    syncNextBatch toLowerCase fetchRunDetails fetchPlayerFromRaiderIO clock
      sortForSync now st db in
  let report := fst (fst result) in
  let st' := snd (fst result) in
  let n := Z.of_nat (activeCount db) in
  if isRunning st then
    result
    = ({| batch := currentBatch st; r_totalBatches := totalBatches st;
          updated := 0; skipped := 0; failed := 0 |}, st, db)
  else
    isRunning st' = false /\
    r_totalBatches report = totalBatches st' /\
    n <= BATCH_SIZE * totalBatches st' < n + BATCH_SIZE /\
    batch report = currentBatch st' /\
    batch report
    = (if currentBatch st + 1 <=? totalBatches st' then currentBatch st + 1
       else 1) /\
    reported report
    = Z.min BATCH_SIZE (Z.max 0 (n - (batch report - 1) * BATCH_SIZE)) /\
    synced st' = synced st + reported report.
Proof.
  intros Hsort Hcur result report st' n. subst report st' result.
  unfold syncNextBatch.
  destruct (isRunning st) eqn:Erun; [reflexivity|].
  rewrite !run_bind.
  change (snd (Storage.getPlayers db)) with db.
  set (allPlayers := fst (getPlayersToSync sortForSync db)).
  change (snd (getPlayersToSync sortForSync db)) with db.
  assert (Hn : Z.of_nat (length allPlayers) = n).
  { subst allPlayers n. unfold getPlayersToSync. rewrite run_bind.
    cbn [mret M_ret fst]. by rewrite Hsort. }
  pose proof (batchesFor_bounds (length allPlayers)) as Hb.
  set (total := batchesFor (length allPlayers)) in *.
  cbn [with_batch currentBatch totalBatches isRunning].
  set (st0 := if total <? currentBatch st + 1 then _ else _).
  assert (Hst0 : currentBatch st0
                 = (if currentBatch st + 1 <=? total
                    then currentBatch st + 1 else 1)
                 /\ totalBatches st0 = total /\ synced st0 = synced st).
  { subst st0. destruct (total <? currentBatch st + 1) eqn:E.
    - apply Z.ltb_lt in E. rewrite (proj2 (Z.leb_gt _ _)) by lia. done.
    - apply Z.ltb_ge in E. rewrite (proj2 (Z.leb_le _ _)) by lia. done. }
  destruct Hst0 as (Hc0 & Ht0 & Hs0).
  match goal with
  | |- context [syncCounted _ _ _ _ ?c ?l ?r ?s ?d] =>
      destruct (syncCounted_counts c l r s d) as (H1 & H2 & H3 & H4 & H5 & H6);
      destruct (syncCounted toLowerCase fetchRunDetails
                  fetchPlayerFromRaiderIO clock c l r s d)
        as [[report st1] db1] eqn:Eres
  end.
  cbn [fst snd mret M_ret] in *.
  change (totalBatches (with_isRunning false st1)) with (totalBatches st1).
  change (currentBatch (with_isRunning false st1)) with (currentBatch st1).
  change (synced (with_isRunning false st1)) with (synced st1).
  cbn [batch r_totalBatches] in H2, H3. unfold reported at 2 in H1.
  cbn [updated skipped failed] in H1.
  rewrite length_slice_next in H1, H4
    by (rewrite Hc0; unfold BATCH_SIZE; destruct (_ <=? _); lia).
  rewrite Hn in *. rewrite H2, H3, H5, H6, Ht0, Hc0, H4, H1, Hs0.
  unfold BATCH_SIZE in *.
  repeat split; lia.
Qed.

End CycleTheorems.

(** ** Upsert of a player: what it finds again, and what it keeps *)

Section UpsertPlayer.

Import Storage.

Lemma find_id_unique (l : list Player.t) (p : Player.t) :
  NoDup (Player.id <$> l) -> p ∈ l ->
  List.find (fun x => Nat.eqb (Player.id x) (Player.id p)) l = Some p.
Proof.
  induction l as [|x l IH]; [by intros _ H; apply elem_of_nil in H|].
  rewrite fmap_cons. intros Hnd Hin. apply NoDup_cons in Hnd as [Hx Hnd].
  simpl. destruct (Nat.eqb (Player.id x) (Player.id p)) eqn:E.
  - apply Nat.eqb_eq in E. apply elem_of_cons in Hin as [->|Hin]; [done|].
    destruct Hx. rewrite E. apply list_elem_of_fmap. by exists p.
  - apply elem_of_cons in Hin as [->|Hin]; [|by apply IH].
    by rewrite Nat.eqb_refl in E.
Qed.

(** X26: when the players have distinct ids and no two of them the same
    name and realm, the player that an upsert returns is the player found
    under the name and realm afterwards. A player stored under them keeps
    its row, its id and its class, whatever class the upsert gives;
    otherwise one row is added, with the class given. *)
Theorem upsertPlayer_round_trip (playerData : Player.insert) (db : Db) :
  NoDup (Player.id <$> players db) ->
  unique_names db ->
  let name := Player.i_name playerData in
  let realm := Player.i_realm playerData in
  let result := upsertPlayer playerData db in
  fst (getPlayerByName name realm (snd result)) = Some (fst result) /\
  Player.name (fst result) = name /\
  Player.realm (fst result) = realm /\
  match fst (getPlayerByName name realm db) with
  | Some existing =>
      Player.id (fst result) = Player.id existing /\
      Player.class (fst result) = Player.class existing /\
      length (players (snd result)) = length (players db)
  | None =>
      Player.class (fst result) = Player.i_class playerData /\
      players (snd result) = players db ++ [fst result]
  end.
Proof.
  intros Hnd _ name realm result. subst result.
  unfold upsertPlayer. rewrite run_bind. fold name realm.
  change (snd (getPlayerByName name realm db)) with db.
  destruct (fst (getPlayerByName name realm db)) as [existing|] eqn:E.
  - assert (Hin : existing ∈ players db
                  /\ Player.keyed name realm existing = true).
    { unfold getPlayerByName in E. unfold_M. simpl in E.
      apply find_some in E as [H1 H2]. by rewrite list_elem_of_In. }
    destruct Hin as [Hin Hkey].
    assert (Hnames : Player.name existing = name
                     /\ Player.realm existing = realm).
    { unfold Player.keyed in Hkey. apply andb_true_iff in Hkey as [H1 H2].
      by apply String.eqb_eq in H1, H2. }
    destruct Hnames as [Hname Hrealm].
    match goal with
    | |- context [nonempty_upsert_updates ?u] =>
        set (updates := u)
    end.
    destruct (nonempty_upsert_updates updates).
    + rewrite run_bind. cbn [mret M_ret fst snd].
      assert (Hupd : fst (updatePlayer (Player.id existing) updates db)
                     = Some (Player.apply updates existing)).
      { unfold updatePlayer. unfold_M. simpl.
        rewrite (find_map_stable
                   (fun p => Nat.eqb (Player.id p) (Player.id existing))).
        - rewrite (find_id_unique _ _ Hnd Hin). simpl.
          by rewrite Nat.eqb_refl.
        - intros x.
          destruct (Nat.eqb (Player.id x) (Player.id existing)) eqn:Ex;
            simpl; by rewrite ?Ex. }
      rewrite Hupd. cbn [default].
      split; [|repeat split; try done].
      * unfold getPlayerByName, updatePlayer in *. unfold_M. simpl in *.
        rewrite (find_map_stable (Player.keyed name realm)).
        -- rewrite E. simpl. by rewrite Nat.eqb_refl.
        -- intros x.
           by destruct (Nat.eqb (Player.id x) (Player.id existing)).
      * unfold updatePlayer. unfold_M. simpl. apply List.length_map.
    + cbn [mret M_ret fst snd]. rewrite E. by rewrite Hname, Hrealm.
  - unfold getPlayerByName, createPlayer in *. unfold_M. simpl in *.
    erewrite find_app_None; [|exact E|].
    + by repeat split.
    + unfold Player.keyed. simpl. by rewrite !String.eqb_refl.
Qed.

End UpsertPlayer.

(** ** Uploads without roster mode: the first batch of a session *)

Section LegacyUpload.

Import Storage Upload.

Variable toUpperCase : string -> string.
Variable status_defaults : UploaderStatus.column_defaults.
Variable refuses : JS.Date -> string -> AddonUploadData -> Db -> bool.

Lemma roster_kept_refl db : roster_kept db db.
Proof. by split. Qed.

Lemma roster_kept_trans a b c :
  roster_kept a b -> roster_kept b c -> roster_kept a c.
Proof. intros [E1 H1] [E2 H2]. split; [congruence | lia]. Qed.

Lemma rosterRows_ids db :
  Player.id <$> players db = (fun r => r.1.1.1) <$> rosterRows db.
Proof.
  unfold rosterRows. rewrite <- list_fmap_compose. by apply list_fmap_ext.
Qed.

Lemma rosterRows_keys db :
  playerKeys db = (fun r => (r.1.1.2, r.1.2)) <$> rosterRows db.
Proof.
  unfold rosterRows, playerKeys. rewrite <- list_fmap_compose.
  by apply list_fmap_ext.
Qed.

Lemma rosterRows_elem db p :
  p ∈ players db ->
  (Player.id p, Player.name p, Player.realm p, Player.isActive p)
    ∈ rosterRows db.
Proof. intros H. apply list_elem_of_fmap. by exists p. Qed.

Lemma ids_names_kept a b :
  roster_kept a b ->
  ids_fresh a /\ unique_names a -> ids_fresh b /\ unique_names b.
Proof.
  intros [E Hn] ([Hnd Hlt] & Hu). split; [split|].
  - by rewrite rosterRows_ids, E, <- rosterRows_ids.
  - apply Forall_forall. intros p Hp.
    apply rosterRows_elem in Hp. rewrite E in Hp.
    apply list_elem_of_fmap in Hp as (q & Eq & Hq).
    rewrite Forall_forall in Hlt. specialize (Hlt q Hq).
    injection Eq as -> _ _ _. lia.
  - unfold unique_names. by rewrite rosterRows_keys, E, <- rosterRows_keys.
Qed.

Lemma roster_ok_kept keys a b :
  roster_kept a b -> roster_ok keys a -> roster_ok keys b.
Proof.
  intros Hk (Hids & Hu & Hr).
  destruct (ids_names_kept a b Hk (conj Hids Hu)) as [Hids' Hu'].
  split; [exact Hids'|]. split; [exact Hu'|].
  destruct Hk as [E _].
  intros p Hp. apply rosterRows_elem in Hp. rewrite E in Hp.
  apply list_elem_of_fmap in Hp as (q & Eq & Hq).
  injection Eq as _ -> -> ->. by apply Hr.
Qed.

Ltac bind_rk := apply (steps_bind roster_kept roster_kept_trans).
Ltac ret_rk := apply (steps_ret roster_kept roster_kept_refl).

(** An operation that leaves the players alone and gives no id back. *)
Lemma steps_rk_aside {A} (m : M A) :
  (forall db, players (snd (m db)) = players db
              /\ (nextId db <= nextId (snd (m db)))%nat) ->
  steps roster_kept m.
Proof.
  intros H db. destruct (H db) as [E Hn]. split; [|exact Hn].
  unfold rosterRows. by rewrite E.
Qed.

Lemma steps_rk_getGuildSettings : steps roster_kept getGuildSettings.
Proof. by apply steps_rk_aside. Qed.

Lemma steps_rk_getCurrentUploadSession uploaderId :
  steps roster_kept (getCurrentUploadSession uploaderId).
Proof. by apply steps_rk_aside. Qed.

Lemma steps_rk_startUploadSession now uploaderId sid :
  steps roster_kept (startUploadSession now uploaderId sid).
Proof.
  apply steps_rk_aside. intros db.
  unfold startUploadSession, getGuildSettings. unfold_M.
  by destruct (head (guildSettings db)).
Qed.

Lemma steps_rk_clearUploadSession now uploaderId :
  steps roster_kept (clearUploadSession now uploaderId).
Proof.
  apply steps_rk_aside. intros db.
  unfold clearUploadSession, getGuildSettings. unfold_M.
  by destruct (head (guildSettings db)).
Qed.

Lemma steps_rk_incrementUploadProcessedCount uploaderId count :
  steps roster_kept (incrementUploadProcessedCount uploaderId count).
Proof.
  apply steps_rk_aside. intros db.
  unfold incrementUploadProcessedCount, getGuildSettings. unfold_M.
  by destruct (head (guildSettings db)).
Qed.

Lemma steps_rk_ensureUploaderStatus uploaderId :
  steps roster_kept (ensureUploaderStatus status_defaults uploaderId).
Proof.
  apply steps_rk_aside. intros db.
  unfold ensureUploaderStatus, getUploaderStatusRecord. unfold_M.
  destruct (List.find _ _); simpl; split; (reflexivity || lia).
Qed.

Lemma steps_rk_updateUploaderStatus now uploaderId updates :
  steps roster_kept
    (updateUploaderStatus status_defaults now uploaderId updates).
Proof.
  unfold updateUploaderStatus.
  bind_rk; [apply steps_rk_ensureUploaderStatus|]. intros current.
  bind_rk; [by apply steps_rk_aside|]. intros _.
  bind_rk; [by apply steps_rk_aside|]. intros ?. ret_rk.
Qed.

Lemma steps_rk_beginSession now uploaderId incomingSessionId totalBatches
    sessionPhase :
  steps roster_kept
    (beginSession status_defaults now uploaderId incomingSessionId
       totalBatches sessionPhase).
Proof.
  unfold beginSession.
  bind_rk; [apply steps_rk_ensureUploaderStatus|]. intros st.
  bind_rk; [|intros ?; ret_rk].
  destruct (_ && _); [apply steps_rk_updateUploaderStatus | ret_rk].
Qed.

Lemma steps_rk_trackUploader now uploaderId isBatchedUpload batchIndex
    totalBatches sessionPhase incomingSessionId currentSessionId
    isFinalBatch :
  steps roster_kept
    (trackUploader status_defaults now uploaderId isBatchedUpload batchIndex
       totalBatches sessionPhase incomingSessionId currentSessionId
       isFinalBatch).
Proof.
  unfold trackUploader.
  destruct isBatchedUpload, batchIndex; try destruct (JS.truthy_str _);
    try ret_rk;
    (bind_rk; [apply steps_rk_updateUploaderStatus | intros ?; ret_rk]).
Qed.

Lemma steps_rk_updatePlayer id updates :
  Player.u_isActive updates = None ->
  steps roster_kept (updatePlayer id updates).
Proof.
  intros Hu db. unfold updatePlayer. unfold_M. split; [|done].
  unfold rosterRows. simpl.
  induction (players db) as [|p ps IH]; [reflexivity|].
  cbn [List.map]. rewrite !fmap_cons, IH. f_equal.
  destruct (Nat.eqb (Player.id p) id); [|reflexivity].
  simpl. by rewrite Hu.
Qed.

Lemma steps_rk_processChat defaultRealm parsed :
  steps roster_kept (processChat defaultRealm parsed).
Proof.
  unfold processChat.
  destruct (data parsed) as [entries|]; [|ret_rk].
  apply (steps_sum_each roster_kept roster_kept_refl roster_kept_trans).
  intros [fullName chatEntry].
  destruct (parsePlayerName fullName defaultRealm).
  bind_rk; [by apply steps_rk_aside|].
  intros [existing|]; [|ret_rk].
  destruct (nonempty_chat_updates _); [|ret_rk].
  bind_rk; [by apply steps_rk_updatePlayer | intros ?; ret_rk].
Qed.

(** After [markAllPlayersInactive] nobody is active. *)
Lemma hoare_markAllPlayersInactive :
  hoare (fun db => ids_fresh db /\ unique_names db)
    markAllPlayersInactive (fun _ => roster_ok []).
Proof.
  intros db [[Hnd Hlt] Hu]. unfold markAllPlayersInactive. unfold_M. simpl.
  set (f := fun p : Player.t =>
              if is_true (Player.isActive p)
              then Player.apply {| Player.u_isActive := Some (Some false) |} p
              else p).
  assert (Hid : forall p, Player.id (f p) = Player.id p
                          /\ Player.name (f p) = Player.name p
                          /\ Player.realm (f p) = Player.realm p
                          /\ Player.isActive (f p) <> Some true).
  { intros p. subst f. cbv beta.
    destruct (Player.isActive p) as [[|]|] eqn:E; cbn [is_true];
      repeat split; try done; simpl; rewrite ?E; congruence. }
  assert (Eids : Player.id <$> List.map f (players db)
                 = Player.id <$> players db).
  { clear -Hid. induction (players db) as [|p ps IH]; [reflexivity|].
    cbn [List.map]. rewrite !fmap_cons, IH. f_equal. apply Hid. }
  assert (Ekeys : (fun p => (Player.name p, Player.realm p))
                    <$> List.map f (players db)
                  = (fun p => (Player.name p, Player.realm p))
                      <$> players db).
  { clear -Hid. induction (players db) as [|p ps IH]; [reflexivity|].
    cbn [List.map]. rewrite !fmap_cons, IH. f_equal.
    destruct (Hid p) as (_ & -> & -> & _). reflexivity. }
  split; [split|split].
  - simpl. by rewrite Eids.
  - simpl. apply Forall_forall. intros q Hq.
    apply list_elem_of_In, in_map_iff in Hq as (p & <- & Hp).
    apply list_elem_of_In in Hp. rewrite Forall_forall in Hlt.
    destruct (Hid p) as (-> & _). by apply Hlt.
  - unfold unique_names, playerKeys in *. simpl. by rewrite Ekeys.
  - intros q Hq. simpl in Hq.
    apply list_elem_of_In, in_map_iff in Hq as (p & <- & Hp).
    destruct (Hid p) as (_ & _ & _ & Hact). split; [done|].
    intros H. by apply elem_of_nil in H.
Qed.

Lemma keyed_key n r p :
  Player.keyed n r p = true <-> (Player.name p, Player.realm p) = (n, r).
Proof.
  unfold Player.keyed. rewrite andb_true_iff, !String.eqb_eq. split.
  - by intros [-> ->].
  - by intros [= -> ->].
Qed.

Lemma unique_names_eq db p q :
  unique_names db -> p ∈ players db -> q ∈ players db ->
  (Player.name p, Player.realm p) = (Player.name q, Player.realm q) ->
  p = q.
Proof.
  unfold unique_names, playerKeys.
  induction (players db) as [|x l IH]; [by intros _ H; apply elem_of_nil in H|].
  rewrite fmap_cons. intros H Hp Hq E. apply NoDup_cons in H as [Hx H].
  apply elem_of_cons in Hp as [->|Hp]; apply elem_of_cons in Hq as [->|Hq].
  - reflexivity.
  - destruct Hx. rewrite E. apply list_elem_of_fmap. by exists q.
  - destruct Hx. rewrite <- E. apply list_elem_of_fmap. by exists p.
  - by apply IH.
Qed.

(** An upsert that activates adds its name to the active players. *)
Lemma hoare_upsertPlayer_active keys playerData :
  Player.u_isActive (Player.i_cols playerData) = Some (Some true) ->
  hoare (roster_ok keys) (upsertPlayer playerData)
    (fun _ =>
       roster_ok
         (keys ++ [(Player.i_name playerData, Player.i_realm playerData)])).
Proof.
  intros Hact db ([Hnd Hlt] & Hu & Hr).
  set (n := Player.i_name playerData). set (r := Player.i_realm playerData).
  unfold upsertPlayer. rewrite run_bind. fold n r.
  change (snd (getPlayerByName n r db)) with db.
  destruct (fst (getPlayerByName n r db)) as [existing|] eqn:E.
  - assert (Hin : existing ∈ players db
                  /\ (Player.name existing, Player.realm existing) = (n, r)).
    { unfold getPlayerByName in E. unfold_M. simpl in E.
      apply find_some in E as [H1 H2].
      split; [by rewrite list_elem_of_In | by apply keyed_key]. }
    destruct Hin as [Hin Hkey].
    unfold nonempty_upsert_updates. cbn [Player.u_isActive].
    rewrite Hact. cbn [defined]. rewrite !orb_true_r.
    rewrite run_bind. cbn [snd mret M_ret].
    match goal with
    | |- context [updatePlayer _ ?u] => set (updates := u)
    end.
    unfold updatePlayer. unfold_M. cbn [snd].
    set (g := fun p : Player.t =>
                if Nat.eqb (Player.id p) (Player.id existing)
                then Player.apply updates p else p).
    assert (Hg : forall p, Player.id (g p) = Player.id p
                           /\ Player.name (g p) = Player.name p
                           /\ Player.realm (g p) = Player.realm p).
    { intros p. subst g. simpl.
      by destruct (Nat.eqb (Player.id p) (Player.id existing)). }
    assert (Eids : Player.id <$> List.map g (players db)
                   = Player.id <$> players db).
    { clear -Hg. induction (players db) as [|p ps IH]; [reflexivity|].
      cbn [List.map]. rewrite !fmap_cons, IH. f_equal. apply Hg. }
    assert (Ekeys : (fun p => (Player.name p, Player.realm p))
                      <$> List.map g (players db)
                    = (fun p => (Player.name p, Player.realm p))
                        <$> players db).
    { clear -Hg. induction (players db) as [|p ps IH]; [reflexivity|].
      cbn [List.map]. rewrite !fmap_cons, IH. f_equal.
      destruct (Hg p) as (_ & -> & ->). reflexivity. }
    split; [split|split].
    + simpl. by rewrite Eids.
    + simpl. apply Forall_forall. intros q Hq.
      apply list_elem_of_In, in_map_iff in Hq as (p & <- & Hp).
      apply list_elem_of_In in Hp. rewrite Forall_forall in Hlt.
      destruct (Hg p) as (-> & _). by apply Hlt.
    + unfold unique_names, playerKeys in *. simpl. by rewrite Ekeys.
    + intros q Hq. simpl in Hq.
      apply list_elem_of_In, in_map_iff in Hq as (p & <- & Hp).
      apply list_elem_of_In in Hp.
      destruct (Hg p) as (_ & Hn & Hrealm). rewrite Hn, Hrealm.
      rewrite elem_of_app, list_elem_of_singleton.
      subst g. cbv beta.
      destruct (Nat.eqb (Player.id p) (Player.id existing)) eqn:Eid.
      * apply Nat.eqb_eq in Eid.
        assert (p = existing) as ->.
        { apply (NoDup_ids_eq (players db)); done. }
        subst updates. simpl. split; [|done].
        intros _. by right.
      * rewrite (Hr p Hp). split; [by left|].
        intros [H|H]; [exact H|].
        assert (p = existing) as ->.
        { apply (unique_names_eq db); try done. by rewrite Hkey. }
        by rewrite Nat.eqb_refl in Eid.
  - match goal with
    | |- context [createPlayer ?i] => set (ins := i)
    end.
    destruct (createPlayer_players ins db) as (Hp & Hn & Hrealm).
    assert (Hid : Player.id (fst (createPlayer ins db)) = nextId db)
      by reflexivity.
    assert (Hactive : Player.isActive (fst (createPlayer ins db)) = Some true).
    { simpl. by rewrite Hact. }
    assert (Hnext : nextId (snd (createPlayer ins db)) = S (nextId db))
      by reflexivity.
    change (Player.i_name ins) with n in Hn.
    change (Player.i_realm ins) with r in Hrealm.
    set (new := fst (createPlayer ins db)) in *.
    set (db' := snd (createPlayer ins db)) in *.
    assert (Hnone : (n, r) ∉ playerKeys db).
    { apply find_keyed_None. exact E. }
    unfold roster_ok, ids_fresh, unique_names, playerKeys, roster_is in *.
    rewrite Hp, Hnext. split; [split|split].
    + rewrite fmap_app. apply NoDup_app. split; [exact Hnd|].
      split; [|apply NoDup_singleton].
      intros i Hi Hi'. apply list_elem_of_singleton in Hi'. subst i.
      apply list_elem_of_fmap in Hi as (p & Ep & Hp').
      rewrite Forall_forall in Hlt. specialize (Hlt p Hp'). lia.
    + apply Forall_app. split.
      * eapply Forall_impl; [exact Hlt|]. simpl. intros; lia.
      * constructor; [lia | constructor].
    + rewrite fmap_app.
      apply NoDup_app. split; [exact Hu|]. split; [|apply NoDup_singleton].
      intros k Hk Hk'. apply list_elem_of_singleton in Hk'. subst k.
      by rewrite Hn, Hrealm in Hk.
    + intros q Hq. rewrite elem_of_app, list_elem_of_singleton.
      apply elem_of_app in Hq as [Hq|Hq].
      * rewrite (Hr q Hq). split; [by left|].
        intros [H|H]; [exact H|]. destruct Hnone. rewrite <- H.
        apply list_elem_of_fmap. by exists q.
      * apply list_elem_of_singleton in Hq. subst q.
        rewrite Hn, Hrealm. split; [by right | done].
Qed.

Lemma hoare_upsertRosterPlayers_active keys defaultRealm parsed :
  hoare (roster_ok keys)
    (upsertRosterPlayers toUpperCase defaultRealm parsed)
    (fun _ => roster_ok (keys ++ rosterKeys defaultRealm parsed)).
Proof.
  unfold upsertRosterPlayers, rosterKeys.
  destruct (master_roster parsed) as [roster|].
  2:{ apply hoare_ret. intros db H. cbn [default fmap list_fmap].
      by rewrite app_nil_r. }
  cbn [default]. generalize 0. revert keys.
  induction roster as [|[fullName entry] roster IH]; intros keys count.
  - apply hoare_ret. intros db H. cbn [fmap list_fmap]. by rewrite app_nil_r.
  - cbn [sum_each].
    destruct (parsePlayerName fullName defaultRealm) as [name realm] eqn:Ep.
    apply (hoare_bind _ (fun _ => roster_ok (keys ++ [(name, realm)]))).
    + apply (hoare_bind _ (fun _ => roster_ok (keys ++ [(name, realm)]))).
      * by apply (hoare_upsertPlayer_active keys).
      * intros ?. by apply hoare_ret.
    + intros n.
      apply (hoare_conseq (roster_ok (keys ++ [(name, realm)])) _
               (fun _ => roster_ok
                           ((keys ++ [(name, realm)])
                            ++ ((fun entry =>
                                   parsePlayerName (fst entry) defaultRealm)
                                  <$> roster)))).
      * done.
      * intros x db H. unfold id. rewrite fmap_cons. cbn [fst].
        rewrite Ep. by rewrite <- app_assoc in H.
      * apply IH.
Qed.

Lemma hoare_rk {A} keys (m : M A) :
  steps roster_kept m -> hoare (roster_ok keys) m (fun _ => roster_ok keys).
Proof. apply hoare_steps. intros a b. apply roster_ok_kept. Qed.

Lemma truthy_nonempty sid : sid <> "" -> JS.truthy_str (Some sid) = true.
Proof.
  intros H. simpl. apply negb_true_iff, String.eqb_neq. exact H.
Qed.

(** The roster step of a request without roster mode that opens a
    session. *)
Lemma processRoster_legacy now uploaderId defaultRealm parsed sessionPhase
    sid isFinalBatch removedMembers guardPassed db :
  ids_fresh db -> unique_names db ->
  sid <> "" ->
  fst (getCurrentUploadSession uploaderId db) <> Some sid ->
  roster_ok (rosterKeys defaultRealm parsed)
    (snd (processRoster toUpperCase now uploaderId defaultRealm parsed None
            sessionPhase (Some sid) isFinalBatch removedMembers guardPassed
            db)).
Proof.
  intros Hids Hu Hsid Hcur. unfold processRoster. rewrite run_bind.
  change (snd (getCurrentUploadSession uploaderId db)) with db.
  rewrite (truthy_nonempty sid Hsid).
  rewrite bool_decide_eq_false_2 by exact Hcur. cbn [negb andb].
  revert db Hids Hu Hcur.
  cut (hoare (fun db => ids_fresh db /\ unique_names db)
         ((markAllPlayersInactive;; startUploadSession now uploaderId sid);;
          playersProcessed ←
            upsertRosterPlayers toUpperCase defaultRealm parsed;
          (if 0 <? playersProcessed
           then incrementUploadProcessedCount uploaderId playersProcessed
           else mret tt);;
          (if isFinalBatch && true
           then clearUploadSession now uploaderId
           else mret tt);;
          mret (playersProcessed, 0))
         (fun _ => roster_ok (rosterKeys defaultRealm parsed))).
  { intros H db Hids Hu _. by apply (H db). }
  apply (hoare_bind _ (fun _ => roster_ok [])).
  { apply (hoare_bind _ (fun _ => roster_ok []));
      [apply hoare_markAllPlayersInactive|].
    intros _. apply hoare_rk, steps_rk_startUploadSession. }
  intros _.
  apply (hoare_bind _ (fun _ => roster_ok (rosterKeys defaultRealm parsed))).
  { apply (hoare_upsertRosterPlayers_active []). }
  intros playersProcessed. apply hoare_rk.
  bind_rk.
  { destruct (0 <? playersProcessed);
      [apply steps_rk_incrementUploadProcessedCount | ret_rk]. }
  intros _. bind_rk; [|intros _; ret_rk].
  destruct (_ && _); [apply steps_rk_clearUploadSession | ret_rk].
Qed.

Lemma postUpload_legacy_session (now : JS.Date) (uploaderId : string)
    (body : AddonUploadData) (sid : string) (db : Db) :
  ids_fresh db ->
  unique_names db ->
  either (roster_mode body) (rosterMode body) = None ->
  upload_session_id body = Some sid ->
  sid <> "" ->
  fst (getCurrentUploadSession uploaderId db) <> Some sid ->
  stats body = None ->
  let result :=
    postUpload toUpperCase status_defaults now uploaderId body db in
  accepted (fst result) = true /\
  roster_is (rosterKeys (defaultRealmOf db) body) (snd result) /\
  ids_fresh (snd result) /\
  unique_names (snd result).
Proof.
  intros Hids Hu Hmode Hsid Hne Hcur Hstats result. subst result.
  unfold postUpload. rewrite run_bind.
  change (fst (getGuildSettings db)) with (head (guildSettings db)).
  change (snd (getGuildSettings db)) with db.
  fold (defaultRealmOf db).
  change (roster_mode (addonUploadSchema_parse body)) with (roster_mode body).
  change (rosterMode (addonUploadSchema_parse body)) with (rosterMode body).
  change (upload_session_id (addonUploadSchema_parse body))
    with (upload_session_id body).
  rewrite Hmode, Hsid. rewrite run_bind.
  set (begun := beginSession _ _ _ _ _ _ db).
  destruct (steps_beginSession_untouched status_defaults now uploaderId
              (Some sid) (total_batches (addonUploadSchema_parse body))
              (either (session_phase (addonUploadSchema_parse body))
                 (sessionPhase (addonUploadSchema_parse body))) db)
    as (_ & _ & _ & _ & Hsettings).
  pose proof (steps_rk_beginSession now uploaderId (Some sid)
                (total_batches (addonUploadSchema_parse body))
                (either (session_phase (addonUploadSchema_parse body))
                   (sessionPhase (addonUploadSchema_parse body))) db)
    as Hkept.
  fold begun in Hsettings, Hkept.
  destruct begun as [[st cur] db1] eqn:Eb. cbn [fst snd] in *.
  cbn [isBatched andb].
  assert (H1 : ids_fresh db1 /\ unique_names db1)
    by (by apply (ids_names_kept db)).
  destruct H1 as [Hids1 Hu1].
  assert (Hcur1 : fst (getCurrentUploadSession uploaderId db1) <> Some sid).
  { unfold getCurrentUploadSession, getGuildSettings in *. unfold_M.
    simpl in *. by rewrite Hsettings. }
  rewrite run_bind.
  match goal with
  | |- context [processRoster ?up ?t ?u ?realm ?parsed None ?phase
                  (Some sid) ?final ?removed ?guard db1] =>
      pose proof (processRoster_legacy t u realm parsed phase sid final
                    removed guard db1 Hids1 Hu1 Hne Hcur1) as Hroster;
      set (rostered := processRoster up t u realm parsed None phase
                         (Some sid) final removed guard db1) in *
  end.
  change (rosterKeys (defaultRealmOf db) (addonUploadSchema_parse body))
    with (rosterKeys (defaultRealmOf db) body) in Hroster.
  set (keys := rosterKeys (defaultRealmOf db) body) in *.
  destruct rostered as [[pp rc] db2] eqn:Er. cbn [fst snd] in *.
  cbn [bool_decide is_Some andb].
  cut (hoare (roster_ok keys)
         ((if bool_decide (is_Some (@None RosterMode)) && (0 <? pp)
           then incrementUploadProcessedCount uploaderId pp
           else mret tt);;
          snapshotsProcessed ←
            processStats toUpperCase (defaultRealmOf db)
              (addonUploadSchema_parse body);
          chatDataProcessed ←
            processChat (defaultRealmOf db) (addonUploadSchema_parse body);
          trackUploader status_defaults now uploaderId false
            (batch_index (addonUploadSchema_parse body))
            (total_batches (addonUploadSchema_parse body))
            (either (session_phase (addonUploadSchema_parse body))
               (sessionPhase (addonUploadSchema_parse body)))
            (Some sid) cur
            (bool_decide
               (is_final_batch (addonUploadSchema_parse body) = Some true));;
          mret (Success None
                  (either (session_phase (addonUploadSchema_parse body))
                     (sessionPhase (addonUploadSchema_parse body)))
                  pp rc snapshotsProcessed chatDataProcessed))
         (fun r db' =>
            accepted r = true /\ roster_ok keys db')).
  { intros H. destruct (H db2 Hroster) as (Hacc & Hi & Hn & Hr).
    split; [exact Hacc|]. split; [exact Hr|]. by split. }
  apply (hoare_bind _ (fun _ => roster_ok keys)).
  { apply hoare_rk. destruct (_ && _);
      [apply steps_rk_incrementUploadProcessedCount | ret_rk]. }
  intros _.
  apply (hoare_bind _ (fun _ => roster_ok keys)).
  { apply hoare_rk. unfold processStats.
    change (stats (addonUploadSchema_parse body)) with (stats body).
    rewrite Hstats. ret_rk. }
  intros snapshotsProcessed.
  apply (hoare_bind _ (fun _ => roster_ok keys)).
  { apply hoare_rk, steps_rk_processChat. }
  intros chatDataProcessed.
  apply (hoare_bind _ (fun _ => roster_ok keys)).
  { apply hoare_rk, steps_rk_trackUploader. }
  intros _. apply hoare_ret. intros db' H. by split.
Qed.

(** X27: when the players have distinct ids, older than the next one, and
    no two of them the same name and realm, a request without roster mode
    and without snapshots that opens a session, its id not the current
    one, is answered with success unless the database refuses one of its
    statements; after it the active players are the players of its
    roster, every other player is inactive, and ids and names are as
    distinct as before. *)
Theorem legacy_session_replaces_roster (now : JS.Date) (uploaderId : string)
    (body : AddonUploadData) (sid : string) (db db' : Db)
    (response : Response) :
  ids_fresh db ->
  unique_names db ->
  either (roster_mode body) (rosterMode body) = None ->
  upload_session_id body = Some sid ->
  sid <> "" ->
  fst (getCurrentUploadSession uploaderId db) <> Some sid ->
  stats body = None ->
  handleUpload toUpperCase status_defaults refuses now uploaderId body db
  = Some (response, db') ->
  accepted response = true /\
  roster_is (rosterKeys (defaultRealmOf db) body) db' /\
  ids_fresh db' /\
  unique_names db'.
Proof.
  intros Hids Hu Hmode Hsid Hne Hcur Hstats Hanswer.
  unfold handleUpload in Hanswer.
  destruct (refuses now uploaderId body db); [discriminate|].
  injection Hanswer as Hanswer.
  pose proof (postUpload_legacy_session now uploaderId body sid db Hids Hu
                Hmode Hsid Hne Hcur Hstats) as H.
  cbv zeta in H. by rewrite Hanswer in H.
Qed.

End LegacyUpload.

(** ** Global statistics: the totals add up *)

Section GlobalTotals.

Import GlobalStats.

Lemma fold_addPlayer (l : list Player.t) (acc : Totals) :
  Forall counters_consistent l ->
  totals_add_up acc ->
  totals_add_up (fold_left addPlayer l acc).
Proof.
  intros Hl. revert acc. induction Hl as [|p l Hp _ IH]; intros acc Hacc.
  - exact Hacc.
  - cbn [fold_left]. apply IH.
    unfold totals_add_up, counters_consistent in *. simpl. lia.
Qed.

(** X28: when the counters of every active player are consistent, so are
    the global totals: the runs in time and over time, and the runs of
    the four level ranges, each add up to the runs tracked; at most five
    dungeons are listed. *)
Theorem getGlobalStats_totals_add_up (db : Db) :
  Forall counters_consistent (List.filter active (players db)) ->
  let stats := fst (getGlobalStats db) in
  totalRunsTracked stats = totalInTime stats + totalOverTime stats /\
  totalRunsTracked stats
  = low (runsByLevel stats) + mid (runsByLevel stats)
    + high (runsByLevel stats) + elite (runsByLevel stats) /\
  0 <= totalInTime stats /\ 0 <= totalOverTime stats /\
  (length (topDungeons stats) <= 5)%nat /\
  snd (getGlobalStats db) = db.
Proof.
  intros Hl stats. subst stats. unfold getGlobalStats. unfold_M.
  cbn [fst snd totalRunsTracked totalInTime totalOverTime runsByLevel
         topDungeons].
  fold active.
  match goal with
  | |- context [fold_left addPlayer _ ?z] =>
      pose proof (fold_addPlayer _ z Hl) as H
  end.
  destruct H as (H1 & H2 & _ & _ & _ & _ & H7 & H8).
  { unfold totals_add_up. simpl. lia. }
  repeat split; try assumption.
  rewrite length_take. lia.
Qed.

End GlobalTotals.

(** ** Further properties on worked data *)

(** A run stored without URL stays seen after another run, which has
    one, has been marked. *)
Lemma seen_stays_seen_witness :
  RunDeduplicator.isNewRun
    (RunDeduplicator.markAsSeen
       (RunDeduplicator.new [Examples.stored_without_url])
       Examples.fetched_with_url)
    {| RunDeduplicator.a_dungeon := "Ara-Kara";
       RunDeduplicator.mythic_level := 10;
       RunDeduplicator.completed_at := 1760000000000;
       RunDeduplicator.a_url := None |} = false.
Proof.
  apply (seen_stays_seen (RunDeduplicator.new [Examples.stored_without_url])
           Examples.fetched_with_url).
  reflexivity.
Defined.

(** The stored run without URL, fetched again as it is stored. *)
Lemma stored_run_not_new_witness :
  RunDeduplicator.isNewRun
    (RunDeduplicator.new [Examples.stored_without_url])
    {| RunDeduplicator.a_dungeon := "Ara-Kara";
       RunDeduplicator.mythic_level := 10;
       RunDeduplicator.completed_at := 1760000000000;
       RunDeduplicator.a_url := None |} = false.
Proof.
  apply (stored_run_not_new [Examples.stored_without_url]
           Examples.stored_without_url).
  apply list_elem_of_here.
Defined.

(** One stored run in Ara-Kara and a timed run in the same dungeon. *)
Lemma mostPlayed_is_most_played_witness :
  runsIn "Ara-Kara" Examples.timedRun [Examples.stored_without_url]
  <= runsIn
       (StatsAggregator.mostPlayed Examples.timedRun
          (StatsAggregator.dungeonCounts Examples.timedRun
             [Examples.stored_without_url]))
       Examples.timedRun [Examples.stored_without_url].
Proof.
  apply (mostPlayed_is_most_played Examples.timedRun
           [Examples.stored_without_url] "Ara-Kara").
  apply (bool_decide_unpack _). by vm_compute.
Defined.

(** Player A, whose profile shows a higher score, is synchronised. *)
Lemma syncPlayer_keeps_counters_witness :
  exists after,
    fst (Storage.getPlayer 1
           (snd (Examples.syncPlayer (Some Examples.betterProfile)
                   Examples.syncedA Examples.syncDb))) = Some after /\
    counters_consistent after /\
    JS.num_or0 (Player.totalRunsTracked Examples.syncedA)
      <= JS.num_or0 (Player.totalRunsTracked after) /\
    JS.num_or0 (Player.highestKeyLevel Examples.syncedA)
      <= JS.num_or0 (Player.highestKeyLevel after).
Proof.
  apply (syncPlayer_keeps_counters Examples.toLowerCase
           Examples.fetchRunDetails 9000
           (RioSync.refreshGuildPlayerCache Examples.toLowerCase
              (players Examples.syncDb))
           (Some Examples.betterProfile) Examples.syncedA Examples.syncedA
           Examples.syncDb).
  - reflexivity.
  - apply counters_consistent_defaults.
Defined.

(** The profile of A has a thumbnail: the second synchronisation skips. *)
Lemma syncPlayer_again_witness :
  let db' := snd (Examples.syncPlayer (Some Examples.betterProfile)
                    Examples.syncedA Examples.syncDb) in
  exists after,
    fst (Storage.getPlayer 1 db') = Some after /\
    RioSync.hasPlayerDataChanged after Examples.betterProfile = false /\
    fst (RioSync.syncPlayer Examples.toLowerCase Examples.fetchRunDetails
           9500 ∅ (Some Examples.betterProfile) after db')
      = RioSync.skipped.
Proof.
  apply (syncPlayer_again Examples.toLowerCase Examples.fetchRunDetails
           9000 9500
           (RioSync.refreshGuildPlayerCache Examples.toLowerCase
              (players Examples.syncDb))
           ∅ Examples.betterProfile Examples.syncedA Examples.syncedA
           Examples.syncDb).
  - reflexivity.
  - reflexivity.
Defined.

(** The two runs of player A, stored under different identifiers. *)
Lemma deleteOldMythicRuns_keeps_most_recent_witness :
  let before := fst (Storage.getMythicRuns 1 Worked.twoRunsDb) in
  let result := Storage.deleteOldMythicRuns 1 1 Worked.twoRunsDb in
  fst (Storage.getMythicRuns 1 (snd result)) = take 1 before /\
  fst result = Z.of_nat (length before - 1) /\
  (forall other,
     other <> 1%nat ->
     fst (Storage.getMythicRuns other (snd result))
     = fst (Storage.getMythicRuns other Worked.twoRunsDb)).
Proof.
  apply (deleteOldMythicRuns_keeps_most_recent 1 1 Worked.twoRunsDb).
  apply (bool_decide_unpack _). by vm_compute.
Defined.

(** A full name as the addon writes it. *)
Lemma parsePlayerName_of_full_name_witness :
  Upload.parsePlayerName ("Thrall" +:+ "-" +:+ "Area-52") "Ragnaros"
    = ("Thrall", "Area-52") /\
  Upload.parsePlayerName "Thrall" "Ragnaros" = ("Thrall", "Ragnaros").
Proof.
  apply (parsePlayerName_of_full_name "Thrall" "Area-52" "Ragnaros").
  reflexivity.
Defined.

(** The empty table of guild runs, and a run of A and B. *)
Lemma processGuildRuns_keeps_table_sound_witness :
  let result := RioSync.processGuildRuns Examples.toLowerCase 5000
                  Examples.guildCache [Examples.guildRun] Examples.db0 in
  guild_runs_sound (snd result) /\
  exists addedRuns addedEvents,
    guildMythicRuns (snd result)
      = guildMythicRuns Examples.db0 ++ addedRuns /\
    activityEvents (snd result)
      = activityEvents Examples.db0 ++ addedEvents /\
    fst result = Z.of_nat (length addedRuns) /\
    length addedEvents = length addedRuns /\
    (length addedRuns <= length [Examples.guildRun])%nat.
Proof.
  apply (processGuildRuns_keeps_table_sound Examples.toLowerCase 5000
           Examples.guildCache [Examples.guildRun] Examples.db0).
  split; [constructor | constructor].
Defined.

(** Players A and B, and a chunk that lists C. *)
Lemma postUpload_keeps_names_unique_witness :
  let db' := snd (Examples.postUpload 2000 "uploader" Examples.chunkC
                    Examples.db0) in
  unique_names db' /\
  ("A", "Realm") ∈ playerKeys db' /\
  (2 <= length (players db'))%nat.
Proof.
  destruct (postUpload_keeps_names_unique Examples.toUpperCase
              Examples.no_defaults 2000 "uploader" Examples.chunkC
              Examples.db0) as (Hunique & Hkept & Hlength).
  - apply (bool_decide_unpack _). by vm_compute.
  - split; [exact Hunique|]. split; [|exact Hlength].
    apply Hkept. apply (bool_decide_unpack _). by vm_compute.
Defined.

(** The chunk that lists C is answered with success: C is stored and
    active. *)
Lemma roster_players_are_active_witness :
  let result := Examples.postUpload 2000 "uploader" Examples.chunkC
                  Examples.db0 in
  Worked.handleUpload 2000 "uploader" Examples.chunkC Examples.db0
  = Some result /\
  listed_active (rosterKeys (defaultRealmOf Examples.db0) Examples.chunkC)
    (snd result).
Proof.
  intros result. split; [by vm_compute|].
  apply (roster_players_are_active Examples.toUpperCase Examples.no_defaults
           Worked.refuses 2000 "uploader" Examples.chunkC Examples.db0
           (snd result) (fst result)).
  - apply (bool_decide_unpack _). by vm_compute.
  - by vm_compute.
  - by vm_compute.
  - discriminate.
Defined.

(** Run 777 at level 10. *)
Lemma runUrl_round_trip_witness :
  RioSync.matchRunId (RunDetails.runUrl 777 10 (Some "ara-kara")) = Some 777.
Proof.
  apply (runUrl_round_trip 777 10 (Some "ara-kara")).
  unfold MAX_SAFE_INTEGER. lia.
Defined.

(** The guild run of the worked data, whose URL is the one built for
    run 777. *)
Lemma generateRunKey_of_runUrl_witness :
  RioSync.generateRunKey Examples.guildRun
  = JS.str 777 +:+ "-" +:+ JS.str 10 +:+ "-" +:+ "ara-kara" /\
  RioSync.digitsThenDash (RioSync.generateRunKey Examples.guildRun) None
  = Some 777.
Proof.
  apply (generateRunKey_of_runUrl Examples.guildRun 777 "ara-kara").
  - lia.
  - reflexivity.
  - discriminate.
  - reflexivity.
Defined.

(** Chunk 1 is accepted; chunk 2 that follows is accepted too. *)
Lemma batch_after_accepted_batch_witness :
  let first := Examples.postUpload 2000 "uploader" Examples.chunk1
                 Examples.db0 in
  let second := Examples.postUpload 3000 "uploader" Worked.chunk2
                  (snd first) in
  Worked.handleUpload 2000 "uploader" Examples.chunk1 Examples.db0
  = Some first /\
  accepted (fst first) = true /\ accepted (fst second) = true.
Proof.
  intros first second. split; [by vm_compute|].
  destruct (batch_after_accepted_batch Examples.toUpperCase
              Examples.no_defaults Worked.refuses 2000 3000 "uploader"
              Examples.chunk1 Worked.chunk2 Examples.db0 (snd first) full
              full chunk chunk 1 2 (fst first))
    as (H1 & H2); [by vm_compute ..|].
  split; [exact H1|].
  destruct (H2 (fst second) (snd second)) as [H _]; [by vm_compute|].
  by apply H.
Defined.

(** Session [s2] is started, three players are counted, and it is
    cleared. *)
Lemma upload_session_round_trip_witness :
  let started :=
    snd (Storage.startUploadSession 2000 "uploader" "s2" Examples.db0) in
  let counted :=
    snd (Storage.incrementUploadProcessedCount "uploader" 3 started) in
  let cleared := snd (Storage.clearUploadSession 3000 "other" counted) in
  fst (Storage.getCurrentUploadSession "other" started) = Some "s2" /\
  fst (Storage.getCurrentUploadSession "other" counted) = Some "s2" /\
  (GuildSettings.uploadSessionProcessedCount <$> head (guildSettings counted))
    = Some (Some 3) /\
  fst (Storage.getCurrentUploadSession "other" cleared) = None /\
  (GuildSettings.lastUploadCompletedAt <$> head (guildSettings cleared))
    = Some (Some 3000).
Proof.
  apply (upload_session_round_trip 2000 3000 "uploader" "other" "other" "s2"
           3 Examples.db0).
  discriminate.
Defined.

(** Player A among the two active players. *)
Lemma rankings_of_stored_player_witness :
  exists r g k,
    fst (Routes.rankings 1 Examples.db0) = Routes.Ranked r /\
    Routes.globalRank r = Some g /\ Routes.roleRank r = Some k /\
    1 <= k <= g /\ g <= Routes.totalPlayers r /\
    k <= Routes.totalInRole r <= Routes.totalPlayers r /\
    Routes.totalPlayers r
    = Z.of_nat (length (List.filter active (players Examples.db0)))
      + (if active Examples.playerA then 0 else 1) /\
    Routes.role r = Routes.roleOf (Player.spec Examples.playerA) /\
    snd (Routes.rankings 1 Examples.db0) = Examples.db0.
Proof.
  apply (rankings_of_stored_player 1 Examples.playerA Examples.db0).
  - apply (bool_decide_unpack _). by vm_compute.
  - reflexivity.
Defined.

(** A later snapshot of the second Monday at 20 h replaces the one
    stored for that hour. *)
Lemma createActivitySnapshot_one_per_hour_witness :
  let result :=
    Snapshots.createActivitySnapshot Worked.laterSnapshot Worked.snapshots in
  (exists r,
     fst result = Some r /\
     List.filter (Snapshots.sameBucket Worked.laterSnapshot)
       (Snapshots.rows (snd result)) = [r] /\
     ActivitySnapshot.totalOnline r = 18 /\
     ActivitySnapshot.timestamp r = 1760386200000) /\
  length (Snapshots.rows (snd result)) = 2%nat.
Proof.
  destruct (createActivitySnapshot_one_per_hour Worked.laterSnapshot
              Worked.snapshots)
    as (_ & _ & H & _).
  - split; apply (bool_decide_unpack _); by vm_compute.
  - apply (bool_decide_unpack _). by vm_compute.
  - split; [exact H | reflexivity].
Defined.

(** The guild of A and D is imported over the players A and B. *)
Lemma importGuildRoster_keeps_names_apart_witness :
  NoDup (importKeys Examples.toLowerCase
           (snd (GuildImport.importGuildRoster Examples.toLowerCase
                   (fun _ => false) (Some Worked.guild) Examples.db0))).
Proof.
  apply (importGuildRoster_keeps_names_apart Examples.toLowerCase
           (fun _ => false) (Some Worked.guild) Examples.db0).
  apply (bool_decide_unpack _). by vm_compute.
Defined.

(** A cycle over the two active players in which the synchronisation of
    B throws: A has been counted, and the cycle has ended. *)
Lemma startRaiderIOSync_counts_witness :
  let result :=
    SyncCycle.startRaiderIOSync Examples.toLowerCase Examples.fetchRunDetails
      Worked.fetchPlayerFromRaiderIO (fun _ => 9000) (fun l => l)
      Worked.thrown 9000 Worked.idle Examples.syncDb in
  SyncCycle.isRunning (fst result) = false /\
  synced (fst result) = 1 /\
  0 <= synced (fst result) <= 2.
Proof.
  pose proof (startRaiderIOSync_counts Examples.toLowerCase
                Examples.fetchRunDetails Worked.fetchPlayerFromRaiderIO
                (fun _ => 9000) (fun l => l) Worked.thrown 9000 Worked.idle
                Examples.syncDb (fun l => eq_refl)) as H.
  destruct H as (Hrunning & _ & _ & Hsynced & _).
  split; [exact Hrunning|]. split; [reflexivity | exact Hsynced].
Defined.

(** The first call for a batch, over the two active players. *)
Lemma syncNextBatch_report_witness :
  let result :=
    SyncCycle.syncNextBatch Examples.toLowerCase Examples.fetchRunDetails
      Worked.fetchPlayerFromRaiderIO (fun _ => 9000) (fun l => l) 9000
      Worked.idle Examples.syncDb in
  SyncCycle.batch (fst (fst result)) = 1 /\
  reported (fst (fst result)) = 2.
Proof.
  pose proof (syncNextBatch_report Examples.toLowerCase
                Examples.fetchRunDetails Worked.fetchPlayerFromRaiderIO
                (fun _ => 9000) (fun l => l) 9000 Worked.idle Examples.syncDb
                (fun l => eq_refl) ltac:(done)) as H.
  destruct H as (_ & _ & _ & _ & Hbatch & Hreported & _).
  split; [exact Hbatch | exact Hreported].
Defined.

(** Player A, a mage, is upserted as a warrior. *)
Lemma upsertPlayer_round_trip_witness :
  let playerData :=
    {| Player.i_name := "A"; Player.i_realm := "Realm";
       Player.i_class := "Warrior";
       Player.i_cols := {| Player.u_isActive := Some (Some true) |} |} in
  let result := Storage.upsertPlayer playerData Examples.db0 in
  fst (Storage.getPlayerByName "A" "Realm" (snd result)) = Some (fst result)
  /\ Player.class (fst result) = "Mage".
Proof.
  intros playerData result.
  destruct (upsertPlayer_round_trip playerData Examples.db0)
    as (Hfound & _ & _ & _ & Hclass & _).
  - apply (bool_decide_unpack _). by vm_compute.
  - apply (bool_decide_unpack _). by vm_compute.
  - split; [exact Hfound | exact Hclass].
Defined.

(** A chunk of session [s2] without roster mode, answered with success:
    C, whom it lists, is active, A and B are not. *)
Lemma legacy_session_replaces_roster_witness :
  let result := Examples.postUpload 2000 "uploader" Examples.legacyChunk
                  Examples.db0 in
  Worked.handleUpload 2000 "uploader" Examples.legacyChunk Examples.db0
  = Some result /\
  accepted (fst result) = true /\
  roster_is [("C", "Realm")] (snd result).
Proof.
  intros result. split; [by vm_compute|].
  destruct (legacy_session_replaces_roster Examples.toUpperCase
              Examples.no_defaults Worked.refuses 2000 "uploader"
              Examples.legacyChunk "s2" Examples.db0 (snd result)
              (fst result))
    as (Haccepted & Hroster & _).
  - split; apply (bool_decide_unpack _); by vm_compute.
  - apply (bool_decide_unpack _). by vm_compute.
  - reflexivity.
  - reflexivity.
  - discriminate.
  - discriminate.
  - reflexivity.
  - by vm_compute.
  - split; [exact Haccepted | exact Hroster].
Defined.

(** The totals over A and B, whose counters add up; C is not active and
    is left out. *)
Lemma getGlobalStats_totals_add_up_witness :
  let stats := fst (GlobalStats.getGlobalStats Worked.countedDb) in
  GlobalStats.totalRunsTracked stats = 5 /\
  GlobalStats.totalInTime stats + GlobalStats.totalOverTime stats = 5 /\
  GlobalStats.low (GlobalStats.runsByLevel stats)
  + GlobalStats.mid (GlobalStats.runsByLevel stats)
  + GlobalStats.high (GlobalStats.runsByLevel stats)
  + GlobalStats.elite (GlobalStats.runsByLevel stats) = 5.
Proof.
  destruct (getGlobalStats_totals_add_up Worked.countedDb) as (H1 & H2 & _).
  - repeat constructor; simpl; lia.
  - split; [reflexivity|]. by rewrite <- H1, <- H2.
Defined.
